(* ===== verification/_CoqProject ===== *)
-Q . S2P
Prelude.v
GoErrors.v
Lib.v
Consts.v
Packer.v
LinearCodec.v
Store.v
Permissions.v
TState.v
StorageKeys.v
Balances.v
Markets.v
Ledger.v
Controller.v
BuyYes.v
BuyNo.v
BuySpec.v
BuyFacts.v
Trade.v
CreateMarket.v
Creation.v
Accounting.v
Examples.v
Footprint.v
TradeCorrect.v
LedgerCorrect.v
ConvertBits.v
Bech32.v
Rules.v
Genesis.v
Strconv.v
Canoto.v
Cobra.v
Vm.v
KeyStore.v
Node.v
ActionBytes.v
VmCorrect.v
Cli.v
CliState.v
RootHandler.v
Commands.v
CommandsCorrect.v
KeysKept.v
ToolsCorrect.v
StorageCorrect.v
Transaction.v
Wire.v
Typing.v
Fees.v
FeeManager.v
Generate.v
Processor.v
Load.v
Workload.v
ChainCorrect.v
LoadCorrect.v
WireCorrect.v
NodeCorrect.v
ProcessorCorrect.v
Admission.v
UnitTests.v
Executor.v
ExecutorInv.v
ExecutorSteps.v
ExecutorRuns.v
Schedule.v
Locality.v
ExecutorCorrect.v
Heap.v
EMap.v
ValidityWindow.v
WindowCorrect.v
Replay.v
ReplayCorrect.v
Builder.v
BuilderCorrect.v
Mempool.v
MempoolCorrect.v
PoolBuilder.v
