(* ===== verification/Prelude.v ===== *)
(** * predictionvm: a verification development

    predictionvm is a prediction-market virtual machine on the Avalanche
    hypersdk, written in Go.  Users create binary markets and buy YES or NO
    shares in them with native tokens.  The library models the program under
    src/ together with the vendored code (src/vendor) its behaviour depends
    on, as executable functions, and proves what each part does.

    ** The program, and where it is modelled

    An action is a struct with a serialized form, the state keys it declares
    and an [Execute] that reads and writes a key-value store.  The chain
    library decodes actions, charges a fee through the VM's balance handler,
    runs the actions on a view restricted to the declared keys, and rolls the
    view back when one fails.  A node makes the VM from its factory and serves
    its API; a command line client keeps keys and talks to nodes; a load
    generator and the network tests make transactions.

    - GoErrors.v: [errors.New], [fmt.Errorf] with [%w], [errors.Is],
      [errors.Join], and the monad [GoM] of functions that return
      [(T, error)] over a store.  The store is kept on the error branch: a
      function that fails half way leaves behind what it wrote.
    - Lib.v, Packer.v, LinearCodec.v: the vendored primitives: database
      integers, IDs, address texts, the byte cursor of avalanchego and the
      reflective codec over it, on the kinds of fields the program has.
      ConvertBits.v and Bech32.v: btcutil/bech32, in both versions.
      Strconv.v: numbers and dimensions in text.
    - Store.v: [state.Immutable] and [state.Mutable] as classes [Immutable]
      and [Mutable], with the laws [MutableLaws] (an accepted insert changes
      one key) and [TotalStore] (every insert is accepted), and the in-memory
      store of the unit tests.  TState.v is the other implementation, the
      scoped transaction view with its journal; Permissions.v has the
      declared keys and the chunk sizes in them.
    - Consts.v (consts/), StorageKeys.v, Balances.v, Markets.v (storage/):
      constants, keys, native balances, markets and share balances.
    - Controller.v (controller/): [chain.BalanceHandler] as the class
      [BalanceHandler] with the contract [LawfulBalanceHandler], and the
      program's controller as an instance of both.
    - BuyYes.v, BuyNo.v, CreateMarket.v (actions/): the three actions.
    - Transaction.v: [Transaction.StateKeys], [PreExecute], [Execute] and the
      sequential core of [Processor.executeTxs], with the actions as values
      of a record [Action]; a chain is a sequence of accepted blocks,
      [rtc (block_step admitted)].  Rules.v: [chain.Rules] as the class
      [ChainRules], the default rules, and the mock of the unit tests.
      Fees.v: units, fees and the block's limit; FeeManager.v: the bytes the
      chain keeps them in, the window of ten seconds and the next prices.
      Canoto.v and Wire.v: the wire format, making, signing and parsing
      transactions, and the parser of the VM over them.  Generate.v:
      [GenerateTransaction] and the estimate of units behind it.  Processor.v:
      [Processor.Execute] on blocks of signed transactions, with everything
      [Transaction.PreExecute] checks and the block's own keys.
    - Executor.v: the parallel executor (hypersdk/internal/executor) the
      transactions of a block run on, as a step relation over its tasks,
      nodes and channel, with several workers; [perform] runs a schedule.
    - Heap.v, EMap.v, ValidityWindow.v (hypersdk/internal/heap, emap,
      validitywindow): replay protection, from the heap up.  Replay.v has the
      genesis block (hypersdk/chain/genesis.go) and the node that uses it:
      branches of verified blocks over the chain accepted, the index of
      blocks, and starting again.
    - Builder.v (hypersdk/chain/builder.go): building a block from what the
      mempool streams.  Mempool.v (hypersdk/internal/mempool, eheap, list):
      the mempool, over a class of items that transactions are an instance of.
    - Genesis.v (genesis/, hypersdk's default genesis and its factory): both
      genesis types, over the class [BalanceHandler].
    - Vm.v (vm/vm.go, server.go, client.go): the parsers, the balance
      endpoint, the client with its caches and its polling loop.  Node.v
      (vm/option.go, [New], cmd/predictionvm): options, the factory, the
      handlers a node serves and the routing of requests to them, so that the
      client's requests can be run against a node whose chain goes on.
    - KeyStore.v (hypersdk/auth, hypersdk/cli): keys and their database.
      Cobra.v: finding and running a command of a tree.  Cli.v, CliState.v
      and Commands.v (cmd/prediction-cli): the logic behind the commands, the
      [World] of a run (flag variables, the open database, files and output),
      and the command tree with all hooks over it.  RootHandler.v
      (hypersdk/cli, hypersdk/internal/prometheus): the methods of the
      library's handler that most commands call, prompts included, and the
      dashboard.
    - Load.v (load/) and Workload.v (tests/workload): the issuer of the load
      test, and the network tests' configuration and generator.

    Definitions keep the Go names; a method [T.M] is [T_M] where the bare name
    is taken.  Fields of a struct keep their names, prefixed where two structs
    share one ([by_], [bn_], [cm_]).

    ** Conventions

    Every Go integer is a [Z] and every unsigned operation that can overflow
    goes through [u64]; comparisons and conversions are written where the
    code has them.  Bytes are [Z] in a list, strings are strings; [nil] and
    the empty slice are the same list.  The order of map iteration does not
    matter for the keys of a transaction, and is an argument in the client
    ([map_order]).  A call that may panic returns an [outcome]; in the client,
    where a panic ends the run like an error that nothing handles, it is an
    error kept apart ([panicked], [is_panic]).

    Recursion is structural but in these places.  The client's polling loop
    [Vm.Wait] ends only when a check succeeds or fails or the context does:
    [wait_for_balance] shows that a fuel above the number of the round that
    ends it is enough, and that a context which ends makes such a round
    exist.  [Cobra.innerfind] descends one word per step, so the number of
    words is enough.  The loops of Canoto.v over fields and entries take the
    length of their input as fuel, of which each step consumes a byte
    ([reads_all_fuel], [CountBytes_loop_complete]), and [AppendUvarint] takes
    the nine shifts a [uint64] needs ([varint_AppendUvarint]).  The loops of a
    heap take its length, and [SetMin] a round per entry ([SetMin_spec],
    [eh_SetMin_spec]), [Top] one per item ([Top_loop_fuel]); the walks over ancestors go down a chain, so its length is enough
    ([isRepeat_spec], [window_parents_spec]).  Executions of
    the executor are sequences of steps, and well-founded ([terminates]).

    A step of the executor is what a goroutine does under one lock, on one
    atomic or with one run of a task's function.  Those are atomic for the
    others: the locks are in the model, and a task's function reads and writes
    only keys no task that may run at the same time writes.  The counter of
    dependencies is an [int64] between 0 and [maxDependencies] ([inv_count]),
    so its sums do not wrap.

    ** Abstract specifications

    Ledger.v says what a store means: three finite maps (balances, markets,
    shares), related to the store by [represents].  Trade.v, Creation.v and
    Controller.v give each operation on the ledger ([ledger_buy],
    [ledger_create], [ledger_deduct], [ledger_add]) and prove that the code
    computes it on every branch, error texts included.  BuySpec.v is the
    single algorithm both buy actions are copies of; BuyFacts.v has the exact
    effect of a success on any lawful store, so on transaction views too.
    Accounting.v runs whole histories and does the sums; Footprint.v bounds
    the keys an operation can write; Typing.v gives every key the type of its
    values, with a judgement [yields] of the programs that keep a store
    typed; Locality.v shows with a judgement [local] that a transaction
    depends only on the keys it may read, so that transactions without a
    conflict can be swapped; ExecutorInv.v has the invariant of the executor
    (a task that conflicts with an earlier one waits for it), ExecutorSteps.v
    that every step keeps it, ExecutorRuns.v progress and
    termination, Schedule.v that the memory is that of the tasks in order;
    ActionBytes.v has the closed forms of the serialized actions.

    ** The theorems

    - TradeCorrect.v: the buys refine [ledger_buy]; exact effect and errors;
      price, wrap-around included; equivalence of the two actions; frame.
    - LedgerCorrect.v: creation refines [ledger_create], and what it accepts;
      histories refine; totals are the sums of shares; money is conserved and
      prices go to no one; the balance handler's contract; an account emptied
      to 0 is stuck.
    - StorageCorrect.v: keys are injective and disjoint; round trips of the
      codec and of markets.
    - ChainCorrect.v: rollback restores the view; a failing transaction pays
      its fee and nothing more; since no action declares Allocate, no key is
      ever created on the chain, so that first purchases never succeed;
      CreateMarket transactions and foreign sponsors are rejected; the exact
      effect of a purchase that succeeds; which purchases fit in a block and
      what they are charged; typed states stay typed over every chain.
    - ProcessorCorrect.v: what an accepted block is, in the terms of
      Transaction.v; its transactions are in time and within the limits;
      heights, times and prices over a chain of blocks; the prefixes of the
      storage package and those of the chain; a window target of 0 makes
      validators panic.  ExecutorCorrect.v: the executor runs conflicting
      tasks in order, ends, and gives the block what the sequential
      [executeTxs] gives, whatever the schedule.  WindowCorrect.v and
      ReplayCorrect.v: the replay check is exact in every state of a node, so
      no transaction is ever twice in a chain.  MempoolCorrect.v: the queue
      of a mempool, its heap, its counts and its limits agree, and a stream
      gives nothing twice.  BuilderCorrect.v and PoolBuilder.v: what a node
      builds from its mempool, every node accepts, with the same outcome.
      Admission.v: when a block with a purchase is accepted, exactly, and how
      long a new transaction is.
    - WireCorrect.v: parsing accepts exactly the serializations of
      transactions and recovers the bytes that were signed; the program's own
      transactions do not arrive as they were sent.
    - VmCorrect.v: exact decoding of the buys; the parser's dispatch, and how
      it misreads the program's own actions; the client's cache and loop.
    - NodeCorrect.v: the API of the program is not served by the VM that is
      made; where it is, a wait for a balance never succeeds on any chain.
    - ToolsCorrect.v: the genesis types; bech32 accepts exactly what its
      encoders write; sending and waiting; the genesis flags.
    - CommandsCorrect.v: which command a command line runs, and which command
      lines are refused; a key that is added is used; the genesis file carries
      the flags to the node; a failed import of a cluster loses the chains.
      KeysKept.v: over every history of runs no key is lost, and the default
      key is a stored one.
    - LoadCorrect.v: the estimate of units against what is charged, and
      against the size; the issuer's and the workload's transactions on the chain.
    - UnitTests.v: the repository's unit tests, evaluated on the model.

    Examples.v holds the states at which the theorems are instantiated.

    ** What is left abstract, or out

    Classes and arguments stand for what is not in the repository or not
    Go code of the program's logic: the checksum of an address text
    ([Hashing]); curves and key hashes ([Crypto]); signing ([AuthFactory]);
    the answers of the key database and the file system ([DbFaults],
    [FileFaults]); JSON ([GenesisJSON], [JSONConfig]); quoting and the
    formatting of balances ([Quoting], [Formatting]); identifiers
    in text and YAML ([Texts]), URLs ([URLs]); the services of hypersdk's
    other APIs ([Services]); what a run of the client meets outside: what is
    typed at its prompts, what nodes answer and send, the browser and
    Prometheus ([Outside]); the bytes of [crypto/rand], the clock, the answers of the network and the messages of
    the web socket.

    [run_tx] is a transaction with its fee given; [run_task] in Processor.v
    adds the other checks and computes the fee, and
    [accepted_block_is_step] relates the two.  [executeTxs] in Processor.v
    runs them one after another and [executes] in ExecutorCorrect.v on the
    executor, after the loop that queues them has consumed all units (the
    tasks read prices only); fetching a transaction's keys from the disk is a
    read of the parent state.  The verification of signatures, the replay
    check and the Merkle root of [Processor.Execute] are arguments;
    [verify_block] in Replay.v passes it the replay check.  There,
    identifiers of blocks and transactions are taken to have no collisions,
    and the index to keep every accepted block.  In Builder.v the functions of
    a batch run one after another, in an order that is an argument: the one
    they take [blockLock] in.  The batches it is given are those of a session
    on a mempool ([session]), any other calls between them.  A call on a
    mempool runs under its lock; the pointers of its linked list are left
    out, and that a stream waits for another is a condition of
    [pool_reachable].  Of [VM.Initialize], the databases and synchronization
    are left out.  Of cobra, deprecation, the hidden commands that shells
    call for completion, and the texts of help and of the completion scripts
    are left out.  Watching a chain ends when the connection does; the line
    it prints for a block is an argument.  [Processor.Execute] is taken to
    get the view of the block's state once everything else is in order.

    Not modelled: the drivers of the integration tests, which only wire the
    hypersdk test harness; most of storage/storage.go is commented out. *)

From Stdlib Require Export ZArith Lia.
From stdpp Require Export base gmap list strings pretty numbers.

#[local] Open Scope Z_scope.

(** ** Machine integers

    Every Go integer is a [Z]; the wrap-around of its width is written out
    where the code can overflow. *)

Definition two64 : Z := 18446744073709551616.
Definition two63 : Z := 9223372036854775808.

Definition is_u8 (z : Z) : Prop := 0 <= z < 256.
Definition is_u64 (z : Z) : Prop := 0 <= z < two64.
Definition is_i64 (z : Z) : Prop := - two63 <= z < two63.

#[export] Instance is_u8_dec z : Decision (is_u8 z).
Proof. unfold is_u8. apply _. Defined.
#[export] Instance is_u64_dec z : Decision (is_u64 z).
Proof. unfold is_u64. apply _. Defined.
#[export] Instance is_i64_dec z : Decision (is_i64 z).
Proof. unfold is_i64. apply _. Defined.

(** Conversion to [uint64] (also the result of every [uint64] operation) and
    the reinterpretation of a [uint64] as an [int64]. *)
Definition u64 (z : Z) : Z := z mod two64.
Definition i64_of_u64 (z : Z) : Z := if z <? two63 then z else z - two64.

(** Wrapping arithmetic on [int64]. *)
Definition i64 (z : Z) : Z := i64_of_u64 (u64 z).

(** ** Bytes and slices

    A byte slice is the list of its bytes; [nil] and the empty slice are the
    same list (no code of the program tells them apart). *)

Abbreviation bytes := (list Z).

Definition wf_bytes (b : bytes) : Prop := Forall is_u8 b.

#[export] Instance wf_bytes_dec b : Decision (wf_bytes b).
Proof. unfold wf_bytes. apply _. Defined.

(** [make([]byte, n)]. *)
Definition make_bytes (n : nat) : bytes := replicate n 0.

(** [copy(dst[off:], src)] on a slice [dst]: overwrites what fits. *)
Definition copy_at (off : nat) (src dst : bytes) : bytes :=
  take off dst ++ take (length dst - off) src ++ drop (off + length src) dst.

(** [dst[i] = b], for [i] in range. *)
Definition set_byte (i : nat) (b : Z) (dst : bytes) : bytes := <[i := b]> dst.

(** ** Big-endian encoding ([binary.BigEndian]) *)

Fixpoint be_put (n : nat) (v : Z) : bytes :=
  match n with
  | O => []
  | S m => Z.land (Z.shiftr v (8 * Z.of_nat m)) 255 :: be_put m v
  end.

Fixpoint be_get (b : bytes) : Z :=
  match b with
  | [] => 0
  | x :: t => Z.lor (Z.shiftl x (8 * Z.of_nat (length t))) (be_get t)
  end.

(** ** Strings

    A Go string is a sequence of bytes; [string] has exactly those values. *)

Fixpoint bytes_of_string (s : string) : bytes :=
  match s with
  | EmptyString => []
  | String c t => Z.of_N (Ascii.N_of_ascii c) :: bytes_of_string t
  end.

Fixpoint string_of_bytes (b : bytes) : string :=
  match b with
  | [] => EmptyString
  | x :: t => String (Ascii.ascii_of_N (Z.to_N x)) (string_of_bytes t)
  end.

(** [len(s)] of a string. *)
Definition len_string (s : string) : Z := Z.of_nat (String.length s).

(** [hex.EncodeToString]. *)
Definition hex_digit (z : Z) : Ascii.ascii :=
  Ascii.ascii_of_N (Z.to_N (if z <? 10 then 48 + z else 87 + z)).

Fixpoint hex_EncodeToString (b : bytes) : string :=
  match b with
  | [] => EmptyString
  | x :: t =>
      String (hex_digit (Z.shiftr x 4))
        (String (hex_digit (Z.land x 15)) (hex_EncodeToString t))
  end.

(** The [%d] verb. *)
Definition fmt_d (z : Z) : string := pretty z.

(** ** Automation *)

Create HintDb vm discriminated.
Create Rewrite HintDb vm.

Ltac unfold_int :=
  unfold is_u8, is_u64, is_i64, u64, i64_of_u64, two64, two63 in *.

Ltac int_lia := unfold_int; lia.

(** Splits every conjunction of the context and inverts equations between
    constructors. *)
Ltac crush_hyps := repeat (progress (destruct_and?; simplify_eq/=)).

(** ** Lemmas on machine integers *)

Lemma u64_range z : is_u64 (u64 z).
Proof. unfold_int. apply Z.mod_pos_bound. lia. Qed.

Lemma u64_small z : is_u64 z -> u64 z = z.
Proof. unfold_int. intros. by apply Z.mod_small. Qed.

(** Wrapping around never increases a value, and keeps the ones that fit. *)
Lemma u64_le z : 0 <= z -> u64 z <= z.
Proof. unfold_int. intros. by apply Z.mod_le. Qed.

Lemma u64_exact z : 0 <= z -> u64 z = z <-> z < two64.
Proof.
  intros Hz. split; [intros <-; pose proof (u64_range z); int_lia|].
  intros. apply u64_small. int_lia.
Qed.

Lemma i64_roundtrip z : is_i64 z -> i64_of_u64 (u64 z) = z.
Proof.
  unfold_int. intros H. destruct (Z.ltb_spec (z mod 18446744073709551616) 9223372036854775808).
  all: Z.div_mod_to_equations; lia.
Qed.

Lemma i64_range z : is_u64 z -> is_i64 (i64_of_u64 z).
Proof. unfold_int. intros. destruct (Z.ltb_spec z 9223372036854775808); lia. Qed.

Lemma u64_of_i64 z : is_u64 z -> u64 (i64_of_u64 z) = z.
Proof.
  unfold_int. intros H. destruct (Z.ltb_spec z 9223372036854775808);
    Z.div_mod_to_equations; lia.
Qed.

#[export] Hint Resolve u64_range i64_range : vm.

(** ** Lemmas on bytes *)

Lemma lor_shiftl_add a b n :
  0 <= n -> 0 <= b < 2 ^ n -> Z.lor (Z.shiftl a n) b = a * 2 ^ n + b.
Proof.
  intros Hn Hb. rewrite <- Z.shiftl_mul_pow2 by done.
  rewrite <- Z.lxor_lor; [rewrite <- Z.add_nocarry_lxor; [done|] |].
  all: apply Z.bits_inj'; intros i Hi; rewrite Z.land_spec, Z.bits_0.
  all: destruct (Z.lt_ge_cases i n);
    [by rewrite Z.shiftl_spec_low by lia
    |rewrite <- (Z.mod_small b (2 ^ n)) by done;
     rewrite Z.mod_pow2_bits_high by lia; apply andb_false_r].
Qed.

Lemma pow2_succ_byte n : 2 ^ (8 * Z.of_nat (S n)) = 256 * 2 ^ (8 * Z.of_nat n).
Proof.
  replace (8 * Z.of_nat (S n)) with (8 + 8 * Z.of_nat n) by lia.
  by rewrite Z.pow_add_r by lia.
Qed.

Lemma wf_bytes_app a b : wf_bytes (a ++ b) <-> wf_bytes a /\ wf_bytes b.
Proof. apply Forall_app. Qed.

Lemma wf_bytes_cons x b : wf_bytes (x :: b) <-> is_u8 x /\ wf_bytes b.
Proof. apply Forall_cons_iff. Qed.

Lemma wf_bytes_take n b : wf_bytes b -> wf_bytes (take n b).
Proof. apply Forall_take. Qed.

Lemma wf_bytes_drop n b : wf_bytes b -> wf_bytes (drop n b).
Proof. apply Forall_drop. Qed.

Lemma wf_make_bytes n : wf_bytes (make_bytes n).
Proof. apply Forall_replicate. int_lia. Qed.

#[export] Hint Resolve wf_bytes_take wf_bytes_drop wf_make_bytes : vm.

Lemma length_be_put n v : length (be_put n v) = n.
Proof. induction n as [|n IH]; simpl; auto. Qed.

Lemma land_255 z : Z.land z 255 = z mod 256.
Proof. change 255 with (Z.ones 8). by rewrite Z.land_ones by lia. Qed.

Lemma be_put_wf n v : wf_bytes (be_put n v).
Proof.
  induction n as [|n IH]; simpl; constructor; [|done].
  rewrite land_255. unfold is_u8. apply Z.mod_pos_bound. lia.
Qed.

#[export] Hint Resolve be_put_wf : vm.
#[export] Hint Rewrite length_be_put : vm.

Lemma be_get_bound b : wf_bytes b -> 0 <= be_get b < 2 ^ (8 * Z.of_nat (length b)).
Proof.
  induction 1 as [|x t Hx Ht IH]; [simpl; lia|].
  cbn [be_get length]. rewrite lor_shiftl_add by lia. rewrite pow2_succ_byte.
  unfold is_u8 in Hx. nia.
Qed.

Lemma be_get_cons x t : wf_bytes t ->
  be_get (x :: t) = x * 2 ^ (8 * Z.of_nat (length t)) + be_get t.
Proof. intros. cbn [be_get]. apply lor_shiftl_add; [lia|]. by apply be_get_bound. Qed.

Lemma be_get_put n v : be_get (be_put n v) = v mod 2 ^ (8 * Z.of_nat n).
Proof.
  induction n as [|n IH]; [simpl; by rewrite Z.mod_1_r|].
  cbn [be_put]. rewrite be_get_cons by auto with vm.
  rewrite IH, length_be_put, pow2_succ_byte, land_255, Z.shiftr_div_pow2 by lia.
  pose proof (Z.pow_pos_nonneg 2 (8 * Z.of_nat n) ltac:(lia) ltac:(lia)).
  rewrite (Z.mul_comm 256), Z.rem_mul_r by lia. ring.
Qed.

Lemma be_put_get b : wf_bytes b -> be_put (length b) (be_get b) = b.
Proof.
  intros Hb. assert (Hgen : forall k, be_put (length b) (k * 2 ^ (8 * Z.of_nat (length b)) + be_get b) = b).
  { induction Hb as [|x t Hx Ht IH]; intros k; [done|].
    pose proof (be_get_bound t Ht). pose proof (Z.pow_pos_nonneg 2 (8 * Z.of_nat (length t)) ltac:(lia) ltac:(lia)).
    cbn [length be_put]. rewrite be_get_cons, pow2_succ_byte, land_255, Z.shiftr_div_pow2 by (done || lia).
    f_equal.
    - replace (_ + _) with ((k * 256 + x) * 2 ^ (8 * Z.of_nat (length t)) + be_get t) by lia.
      rewrite Z.div_add_l, (Z.div_small (be_get t)), Z.add_0_r by lia.
      rewrite Z.add_comm, Z.mod_add by lia. apply Z.mod_small. by unfold is_u8 in Hx.
    - etransitivity; [|apply (IH (k * 256 + x))]. f_equal. ring. }
  specialize (Hgen 0). by rewrite Z.mul_0_l, Z.add_0_l in Hgen.
Qed.

Lemma be_put_inj n v w :
  0 <= v < 2 ^ (8 * Z.of_nat n) -> 0 <= w < 2 ^ (8 * Z.of_nat n) ->
  be_put n v = be_put n w -> v = w.
Proof.
  intros Hv Hw E. apply (f_equal be_get) in E. rewrite !be_get_put in E.
  by rewrite !Z.mod_small in E.
Qed.

(** The two widths the program uses. *)
Lemma be_get_put8 v : is_u64 v -> be_get (be_put 8 v) = v.
Proof. intros Hv. rewrite be_get_put. by apply Z.mod_small. Qed.

Lemma be_put8_inj v w : is_u64 v -> is_u64 w -> be_put 8 v = be_put 8 w -> v = w.
Proof. apply (be_put_inj 8). Qed.

Lemma be_put8_get b : wf_bytes b -> length b = 8%nat -> be_put 8 (be_get b) = b.
Proof. intros Hb Hl. rewrite <- Hl. by apply be_put_get. Qed.

Lemma be_get_u64 b : wf_bytes b -> length b = 8%nat -> is_u64 (be_get b).
Proof. intros Hb Hl. pose proof (be_get_bound b Hb) as H. by rewrite Hl in H. Qed.

#[export] Hint Resolve be_get_u64 : vm.

(** ** Lemmas on slices and strings *)

Lemma length_copy_at off src dst :
  (off + length src <= length dst)%nat -> length (copy_at off src dst) = length dst.
Proof. intros. unfold copy_at. rewrite !length_app, !length_take, length_drop. lia. Qed.

(** Copying into the middle of three parts replaces the middle one. *)
Lemma copy_at_app off pre src mid post :
  off = length pre -> length mid = length src ->
  copy_at off src (pre ++ mid ++ post) = pre ++ src ++ post.
Proof.
  intros -> Hl. unfold copy_at. rewrite take_app_length. f_equal.
  rewrite !length_app, take_ge by lia. f_equal.
  rewrite drop_app_ge by lia. replace (_ - _)%nat with (length mid) by lia.
  apply drop_app_length.
Qed.

Lemma length_bytes_of_string s : length (bytes_of_string s) = String.length s.
Proof. induction s as [|c s IH]; simpl; auto. Qed.

Lemma bytes_of_string_wf s : wf_bytes (bytes_of_string s).
Proof.
  induction s as [|c s IH]; simpl; constructor; [|done].
  unfold is_u8. pose proof (Ascii.N_ascii_bounded c). lia.
Qed.

Lemma string_of_bytes_of_string s : string_of_bytes (bytes_of_string s) = s.
Proof.
  induction s as [|c s IH]; simpl; [done|].
  by rewrite N2Z.id, Ascii.ascii_N_embedding, IH.
Qed.

Lemma bytes_of_string_of_bytes b : wf_bytes b -> bytes_of_string (string_of_bytes b) = b.
Proof.
  induction 1 as [|x t Hx _ IH]; simpl; [done|]. rewrite IH.
  unfold is_u8 in Hx. rewrite Ascii.N_ascii_embedding by lia. by rewrite Z2N.id by lia.
Qed.

Lemma bytes_of_string_app s t :
  bytes_of_string (s +:+ t) = bytes_of_string s ++ bytes_of_string t.
Proof. induction s as [|c s IH]; simpl; [done|]. by f_equal. Qed.

#[export] Hint Resolve bytes_of_string_wf : vm.
#[export] Hint Rewrite length_bytes_of_string : vm.

#[global] Arguments be_put : simpl never.
#[global] Arguments be_get : simpl never.
#[global] Arguments copy_at : simpl never.

Lemma len_string_nonneg s : 0 <= len_string s.
Proof. unfold len_string. lia. Qed.

(** ** Sums over finite maps *)

Section sum_map.
Context {K A : Type} `{Countable K} (f : K -> A -> Z).

Definition sum_map (m : gmap K A) : Z := map_fold (fun k v acc => f k v + acc) 0 m.

Lemma sum_map_empty : sum_map ∅ = 0.
Proof. apply map_fold_empty. Qed.

Lemma sum_map_insert_new k v m : m !! k = None -> sum_map (<[k := v]> m) = f k v + sum_map m.
Proof. intros Hk. unfold sum_map. rewrite map_fold_insert_L; [done|intros; lia|done]. Qed.

Lemma sum_map_insert k v m :
  sum_map (<[k := v]> m) = sum_map m - match m !! k with Some w => f k w | None => 0 end + f k v.
Proof.
  destruct (m !! k) as [w|] eqn:E; [|rewrite sum_map_insert_new by done; lia].
  rewrite <- (insert_delete_eq m k v), sum_map_insert_new by apply lookup_delete_eq.
  rewrite <- (insert_id m k w E) at 2.
  rewrite <- (insert_delete_eq m k w), sum_map_insert_new by apply lookup_delete_eq. lia.
Qed.

Lemma sum_map_zero m : map_Forall (fun k v => f k v = 0) m -> sum_map m = 0.
Proof.
  induction m as [|k v m Hk IH] using map_ind; intros Hz; [apply sum_map_empty|].
  rewrite sum_map_insert_new by done. apply map_Forall_insert in Hz as [-> Hm]; [|done].
  by rewrite IH.
Qed.

Lemma sum_map_nonneg m : map_Forall (fun k v => 0 <= f k v) m -> 0 <= sum_map m.
Proof.
  induction m as [|k v m Hk IH] using map_ind; intros Hp; [by rewrite sum_map_empty|].
  rewrite sum_map_insert_new by done. apply map_Forall_insert in Hp as [? Hm]; [|done].
  specialize (IH Hm). lia.
Qed.

Lemma sum_map_lookup_le m k v :
  map_Forall (fun k v => 0 <= f k v) m -> m !! k = Some v -> f k v <= sum_map m.
Proof.
  intros Hp Hk. rewrite <- (insert_id m k v Hk) in Hp |- *.
  rewrite <- insert_delete_eq in Hp |- *. rewrite sum_map_insert_new by apply lookup_delete_eq.
  apply map_Forall_insert in Hp as [_ Hp%sum_map_nonneg]; [lia|apply lookup_delete_eq].
Qed.
End sum_map.

(** The first index at which a boolean sequence is false. *)
Lemma first_false (f : nat -> bool) (n : nat) :
  f n = false ->
  exists m, (m <= n)%nat /\ f m = false /\ forall i, (i < m)%nat -> f i = true.
Proof.
  revert f. induction n as [|n IH]; intros f Hn; [exists 0%nat; split_and!; [lia|done|lia]|].
  destruct (f 0%nat) eqn:E0; [|exists 0%nat; split_and!; [lia|done|lia]].
  destruct (IH (fun i => f (S i)) Hn) as (m & Hle & Hm & Hb).
  exists (S m). split_and!; [lia|done|]. intros [|i] Hi; [done|]. apply Hb. lia.
Qed.
