(* ===== verification/GoErrors.v ===== *)
(** * Go errors and the error/state monad

    The error values of the program ([errors.New], [fmt.Errorf] with and
    without [%w], [errors.Is]) and the monad in which every operation that
    returns [(T, error)] over a mutable store is written.  The state is kept
    on the error branch: a Go function that fails half way leaves behind what
    it has already written. *)

From S2P Require Import Prelude.
#[local] Open Scope Z_scope.

(** ** Errors *)

(** [ErrVar] is a package-level [var ErrX = errors.New(...)], identified by
    its qualified name (two variables with one text stay distinct);
    [ErrFresh] an error made inside a function, equal to no variable;
    [ErrWrap] the result of [fmt.Errorf] with one [%w], [ErrWraps] an error
    that wraps two. *)
Inductive error :=
| ErrVar (name text : string)
| ErrFresh (text : string)
| ErrWrap (text : string) (inner : error)
| ErrWraps (text : string) (inner1 inner2 : error).

#[export] Instance error_eq_dec : EqDecision error.
Proof. solve_decision. Defined.

(** [err.Error()]. *)
Definition Error (e : error) : string :=
  match e with
  | ErrVar _ t | ErrFresh t | ErrWrap t _ | ErrWraps t _ _ => t
  end.

(** [errors.Is(err, target)]: walks the tree of wrapped errors; package
    variables are compared by identity. *)
Definition same_var (e target : error) : bool :=
  match e, target with
  | ErrVar n _, ErrVar m _ => bool_decide (n = m)
  | _, _ => false
  end.

Fixpoint errors_Is (e target : error) : bool :=
  same_var e target ||
  match e with
  | ErrWrap _ inner => errors_Is inner target
  | ErrWraps _ inner1 inner2 => errors_Is inner1 target || errors_Is inner2 target
  | _ => false
  end.

(** [fmt.Errorf(pre + "%w" + post, err)]: the text of the wrapped error is
    spliced in. *)
Definition Errorf_w (pre : string) (inner : error) (post : string) : error :=
  ErrWrap (pre +:+ Error inner +:+ post) inner.

(** [fmt.Errorf("%w: %w", outer, inner)]. *)
Definition Errorf_ww (outer inner : error) : error := ErrWraps (Error outer +:+ ": " +:+ Error inner) outer inner.

Lemma errors_Is_refl n t : errors_Is (ErrVar n t) (ErrVar n t) = true.
Proof. simpl. by rewrite bool_decide_true. Qed.

Lemma errors_Is_Errorf_w pre e post target :
  errors_Is (Errorf_w pre e post) target = errors_Is e target.
Proof. done. Qed.

Definition newline : string := String (Ascii.ascii_of_nat 10) EmptyString.

(** [errors.Join]: nil when every error is; its text joins the texts with
    newlines, and it wraps them all. *)
Fixpoint join_all (text : string) (e : error) (rest : list error) : error :=
  match rest with
  | [] => ErrWrap text e
  | e' :: rest => ErrWraps text e (join_all text e' rest)
  end.

Definition errors_Join (errs : list (option error)) : option error :=
  match omap id errs with
  | [] => None
  | e :: rest => Some (join_all (foldl (fun t e => t +:+ newline +:+ Error e) (Error e) rest) e rest)
  end.

(** A slice expression past the capacity panics. *)
Definition slice_bounds (high capacity : nat) : error :=
  ErrFresh ("runtime error: slice bounds out of range [:" +:+ fmt_d (Z.of_nat high) +:+ "] with capacity "
    +:+ fmt_d (Z.of_nat capacity)).

(** ** Results *)

Inductive result (A : Type) :=
| Ok (a : A)
| Err (e : error).
Arguments Ok {A} a.
Arguments Err {A} e.

#[export] Instance result_eq_dec {A} `{EqDecision A} : EqDecision (result A).
Proof. solve_decision. Defined.

#[export] Instance result_ret : MRet result := fun A a => Ok a.
#[export] Instance result_bind : MBind result := fun A B f m =>
  match m with Ok a => f a | Err e => Err e end.

Definition is_ok {A} (r : result A) : bool :=
  match r with Ok _ => true | Err _ => false end.

(** A call that may panic instead of returning. *)
Inductive outcome (A : Type) :=
| Returns (a : A)
| Panics (e : error).
Arguments Returns {A} a.
Arguments Panics {A} e.

(** ** The monad *)

Definition GoM (S A : Type) : Type := S -> result A * S.

#[export] Instance GoM_ret {S} : MRet (GoM S) := fun A a s => (Ok a, s).
#[export] Instance GoM_bind {S} : MBind (GoM S) := fun A B f m s =>
  match m s with
  | (Ok a, s') => f a s'
  | (Err e, s') => (Err e, s')
  end.

Section operations.
Context {S : Type}.

(** [return ..., err]. *)
Definition fail {A} (e : error) : GoM S A := fun s => (Err e, s).

(** [if c { return ..., err }]. *)
Definition fail_if (c : bool) (e : error) : GoM S unit :=
  fun s => if c then (Err e, s) else (Ok tt, s).

(** [x, err := call()] where the code goes on to inspect [err]. *)
Definition attempt {A} (m : GoM S A) : GoM S (result A) := fun s =>
  let '(r, s') := m s in (Ok r, s').

(** [if err := call(); err != nil { return f(err) }]. *)
Definition on_error {A} (f : error -> error) (m : GoM S A) : GoM S A := fun s =>
  match m s with
  | (Ok a, s') => (Ok a, s')
  | (Err e, s') => (Err (f e), s')
  end.

(** A call that reads the state only. *)
Definition reading {A} (f : S -> result A) : GoM S A := fun s => (f s, s).

(** A result computed without the state. *)
Definition lift {A} (r : result A) : GoM S A := fun s => (r, s).
End operations.

(** Equations used to run monadic code in proofs. *)
Section run.
Context {S : Type}.

Lemma run_bind_ok {A B} (m : GoM S A) (k : A -> GoM S B) s a s' :
  m s = (Ok a, s') -> (m ≫= k) s = k a s'.
Proof. intros E. unfold mbind, GoM_bind. by rewrite E. Qed.

Lemma run_bind_err {A B} (m : GoM S A) (k : A -> GoM S B) s e s' :
  m s = (Err e, s') -> (m ≫= k) s = (Err e, s').
Proof. intros E. unfold mbind, GoM_bind. by rewrite E. Qed.

Lemma run_fail_if_false {B} c e (k : unit -> GoM S B) s :
  c = false -> (fail_if c e ≫= k) s = k tt s.
Proof. by intros ->. Qed.

Lemma run_fail_if_true {B} c e (k : unit -> GoM S B) s :
  c = true -> (fail_if c e ≫= k) s = (Err e, s).
Proof. by intros ->. Qed.

Lemma bind_ext {A B} (m : GoM S A) (k1 k2 : A -> GoM S B) s :
  (forall a s', k1 a s' = k2 a s') -> (m ≫= k1) s = (m ≫= k2) s.
Proof.
  intros E. unfold mbind, GoM_bind. by destruct (m s) as [[a|e] s'].
Qed.

Lemma run_bind_inv_ok {A B} (m : GoM S A) (k : A -> GoM S B) s b s'' :
  (m ≫= k) s = (Ok b, s'') ->
  exists a s', m s = (Ok a, s') /\ k a s' = (Ok b, s'').
Proof.
  unfold mbind, GoM_bind. destruct (m s) as [[a|e] s'] eqn:E; [|done]. eauto.
Qed.

Lemma run_fail_if_inv_ok {B} c e (k : unit -> GoM S B) s b s' :
  (fail_if c e ≫= k) s = (Ok b, s') -> c = false /\ k tt s = (Ok b, s').
Proof. by destruct c. Qed.

Lemma run_on_error_inv_ok {A} f (m : GoM S A) s a s' :
  on_error f m s = (Ok a, s') -> m s = (Ok a, s').
Proof. unfold on_error. by destruct (m s) as [[?|?] ?]; intros [= -> ->]. Qed.

Lemma run_on_error_ok {A} f (m : GoM S A) s a s' :
  m s = (Ok a, s') -> on_error f m s = (Ok a, s').
Proof. unfold on_error. by intros ->. Qed.
End run.

(** Takes a successful run apart, one bind at a time. *)
Ltac go_inv_step :=
  match goal with
  | H : (fail_if _ _ ≫= _) _ = (Ok _, _) |- _ =>
      let G := fresh "Hguard" in
      apply run_fail_if_inv_ok in H; destruct H as [G H]
  | H : (_ ≫= _) _ = (Ok _, _) |- _ =>
      let a := fresh "a" in let s := fresh "s" in let G := fresh "Hrun" in
      apply run_bind_inv_ok in H; destruct H as (a & s & G & H)
  | H : on_error _ _ _ = (Ok _, _) |- _ => apply run_on_error_inv_ok in H
  | H : mret _ _ = (_, _) |- _ => unfold mret, GoM_ret in H; simplify_eq
  | H : reading _ _ = (_, _) |- _ => unfold reading in H; simplify_eq
  | H : lift _ _ = (_, _) |- _ => unfold lift in H; simplify_eq
  | H : attempt (reading _) _ = (_, _) |- _ => unfold attempt, reading in H; simplify_eq
  | H : fail _ _ = (Ok _, _) |- _ => by inversion H
  end.
Ltac go_inv := repeat go_inv_step.
