(* ===== verification/Lib.v ===== *)
(** * Vendored primitives

    The small functions of avalanchego and hypersdk (under src/vendor) that
    the program's own code is built on: database values, IDs, addresses.  The
    hash behind the address checksum is the one thing left abstract
    ([Hashing]). *)

From S2P Require Import Prelude GoErrors.
#[local] Open Scope Z_scope.

(** ** avalanchego/database *)

Definition ErrNotFound : error := ErrVar "database.ErrNotFound" "not found".
Definition errWrongSize : error := ErrVar "database.errWrongSize" "value has unexpected size".

Definition Uint64Size : nat := 8.

Definition PackUInt64 (val : Z) : bytes := be_put Uint64Size val.

Definition ParseUInt64 (b : bytes) : result Z :=
  if decide (length b <> Uint64Size) then Err errWrongSize
  else Ok (be_get b).

(** ** avalanchego/ids *)

Definition IDLen : nat := 32.

Definition ErrInvalidHashLen : error := ErrVar "hashing.ErrInvalidHashLen" "invalid hash length".

Definition ToID (b : bytes) : result bytes :=
  if decide (length b <> IDLen) then
    Err (Errorf_w "" ErrInvalidHashLen (": expected 32 bytes but got " +:+ fmt_d (Z.of_nat (length b))))
  else Ok (copy_at 0 b (make_bytes IDLen)).

(** ** hypersdk/codec: addresses *)

Definition AddressLen : nat := 33.
Definition checksumLen : nat := 4.

(** [codec.Address] is [[33]byte]. *)
Definition wf_addr (a : bytes) : Prop := length a = AddressLen /\ wf_bytes a.

#[export] Instance wf_addr_dec a : Decision (wf_addr a).
Proof. unfold wf_addr. apply _. Defined.

Definition EmptyAddress : bytes := make_bytes AddressLen.

(** [hashing.Checksum]: the last [length] bytes of a SHA-256 digest. *)
Class Hashing := Checksum : bytes -> nat -> bytes.

Section address.
Context `{Hashing}.

Definition encodeWithChecksum (b : bytes) : string :=
  let checked := make_bytes (length b + checksumLen) in
  let checked := copy_at 0 b checked in
  let checked := copy_at AddressLen (Checksum b checksumLen) checked in
  "0x" +:+ hex_EncodeToString checked.

Definition Address_String (a : bytes) : string := encodeWithChecksum a.
End address.

(** ** Lemmas *)

Lemma length_PackUInt64 v : length (PackUInt64 v) = 8%nat.
Proof. apply length_be_put. Qed.

Lemma ParseUInt64_PackUInt64 v : is_u64 v -> ParseUInt64 (PackUInt64 v) = Ok v.
Proof.
  intros Hv. unfold ParseUInt64. rewrite decide_False by (rewrite length_PackUInt64; by apply Nat.eq_refl || auto).
  unfold PackUInt64, Uint64Size. by rewrite be_get_put8.
Qed.

Lemma PackUInt64_ParseUInt64 b v :
  wf_bytes b -> ParseUInt64 b = Ok v -> PackUInt64 v = b /\ is_u64 v.
Proof.
  unfold ParseUInt64. case_decide as Hl; [done|]. intros Hb [= <-].
  assert (length b = 8%nat) by (unfold Uint64Size in Hl; lia).
  split; [by apply be_put8_get|by apply be_get_u64].
Qed.

Lemma ParseUInt64_err b e : ParseUInt64 b = Err e <-> length b <> 8%nat /\ e = errWrongSize.
Proof. unfold ParseUInt64, Uint64Size. case_decide; split; [intros [= <-]|intros [_ ->]|done|tauto]; done. Qed.

Lemma ToID_ok b : length b = IDLen -> ToID b = Ok b.
Proof.
  intros Hl. unfold ToID. rewrite decide_False by (intros Hn; by apply Hn).
  f_equal. unfold copy_at, make_bytes. rewrite length_replicate, take_0, Nat.sub_0_r.
  rewrite take_ge, drop_ge by (rewrite ?length_replicate; lia). by rewrite app_nil_r.
Qed.

#[export] Hint Rewrite length_PackUInt64 : vm.

(** A concrete checksum for evaluating examples. *)
Definition zero_checksum : Hashing := fun _ n => make_bytes n.

(** ** Checked arithmetic (avalanchego/utils/math, hypersdk/internal/math) *)

Definition ErrOverflow : error := ErrVar "math.ErrOverflow" "overflow".

(** [safemath.Add] and [safemath.Mul] on [uint64]. *)
Definition safemath_Add (a b : Z) : result Z :=
  if two64 - 1 - b <? a then Err ErrOverflow else Ok (a + b).

Definition safemath_Mul (a b : Z) : result Z :=
  if negb (b =? 0) && ((two64 - 1) / b <? a) then Err ErrOverflow else Ok (a * b).

(** [Uint64Operator]: a running value that stops at the first overflow. *)
Record Uint64Operator := mkOperator { op_v : Z; op_err : option error }.

Definition NewUint64Operator (v : Z) : Uint64Operator := mkOperator v None.

Definition op_Add (n : Z) (o : Uint64Operator) : Uint64Operator :=
  match op_err o with
  | Some _ => o
  | None =>
      match safemath_Add (op_v o) n with
      | Err err => mkOperator (op_v o) (Some err)
      | Ok nv => mkOperator nv None
      end
  end.

Definition op_MulAdd (a b : Z) (o : Uint64Operator) : Uint64Operator :=
  match op_err o with
  | Some _ => o
  | None =>
      match safemath_Mul a b with
      | Err err => mkOperator (op_v o) (Some err)
      | Ok pv =>
          match safemath_Add (op_v o) pv with
          | Err err => mkOperator (op_v o) (Some err)
          | Ok nv => mkOperator nv None
          end
      end
  end.

Definition op_Value (o : Uint64Operator) : result Z :=
  match op_err o with Some err => Err err | None => Ok (op_v o) end.

Lemma safemath_Add_cases a b :
  is_u64 b -> safemath_Add a b = if a + b <? two64 then Ok (a + b) else Err ErrOverflow.
Proof.
  intros Hb. unfold safemath_Add.
  destruct (Z.ltb_spec (two64 - 1 - b) a), (Z.ltb_spec (a + b) two64); done || lia.
Qed.

Lemma safemath_Mul_cases a b :
  0 <= a -> is_u64 b -> safemath_Mul a b = if a * b <? two64 then Ok (a * b) else Err ErrOverflow.
Proof.
  intros Ha [Hb Hb']. unfold safemath_Mul. destruct (Z.eqb_spec b 0) as [->|Hne]; simpl.
  - rewrite Z.mul_0_r. done.
  - assert ((two64 - 1) / b < a <-> two64 <= a * b) as Hd.
    { pose proof (Z.mul_succ_div_gt (two64 - 1) b ltac:(lia)).
      pose proof (Z.mul_div_le (two64 - 1) b ltac:(lia)). split; intros; nia. }
    destruct (Z.ltb_spec ((two64 - 1) / b) a), (Z.ltb_spec (a * b) two64); done || lia.
Qed.

(** The running value of an operator that has seen the sum [n] so far: the
    sum, or an overflow once it does not fit. *)
Definition op_holds (o : Uint64Operator) (n : Z) : Prop :=
  0 <= n /\ if n <? two64 then o = mkOperator n None else op_err o = Some ErrOverflow.

Lemma op_holds_new n : is_u64 n -> op_holds (NewUint64Operator n) n.
Proof. intros [H0 H1]. split; [done|]. by rewrite (proj2 (Z.ltb_lt _ _)). Qed.

Lemma op_holds_Add o n m : op_holds o n -> is_u64 m -> op_holds (op_Add m o) (n + m).
Proof.
  intros [Hn Ho] Hm. destruct Hm as [Hm0 Hm1]. split; [lia|]. unfold op_Add.
  destruct (Z.ltb_spec n two64) as [Hlt|Hge].
  - rewrite Ho. cbn [op_err op_v]. rewrite safemath_Add_cases by done.
    by destruct (n + m <? two64).
  - rewrite Ho, (proj2 (Z.ltb_ge _ _)) by lia. done.
Qed.

Lemma op_holds_MulAdd o n a b :
  op_holds o n -> 0 <= a -> is_u64 b -> op_holds (op_MulAdd a b o) (n + a * b).
Proof.
  intros [Hn Ho] Ha Hb. pose proof Hb as [Hb0 Hb1]. split; [nia|]. unfold op_MulAdd.
  destruct (Z.ltb_spec n two64) as [Hlt|Hge].
  - rewrite Ho. cbn [op_err op_v]. rewrite safemath_Mul_cases by done.
    destruct (Z.ltb_spec (a * b) two64) as [Hp|Hp].
    + rewrite safemath_Add_cases by (split; [nia|done]). by destruct (n + a * b <? two64).
    + rewrite (proj2 (Z.ltb_ge _ _)) by lia. done.
  - rewrite Ho, (proj2 (Z.ltb_ge _ _)) by nia. done.
Qed.

Lemma op_holds_Value o n :
  op_holds o n -> op_Value o = if n <? two64 then Ok n else Err ErrOverflow.
Proof. intros [_ Ho]. unfold op_Value. destruct (n <? two64); by rewrite Ho. Qed.
