(* ===== verification/Consts.v ===== *)
(** * Constants (consts/consts.go)

    The identifiers, limits and prefixes of the VM.  The action type IDs are
    computed the way Go computes them, from the position of each name in its
    [const] block. *)

From S2P Require Import Prelude GoErrors Lib.
#[local] Open Scope Z_scope.

Definition Name : string := "predictionvm".
Definition Symbol : string := "PRED".
Definition MaxMarketDataSize : Z := 1024.

(** The first [const] block, in order: Go's [iota] is the index of the
    constant specification in its block. *)
Definition const_block : list string :=
  ["Name"; "Symbol"; "MaxMarketDataSize"; "TransferID"; "CreateMarketID"; "BuyYesID"; "BuyNoID"].

Definition iota (name : string) : Z :=
  match list_find (fun s => s = name) const_block with
  | Some (i, _) => Z.of_nat i
  | None => 0
  end.

Definition TransferID : Z := 0.
Definition CreateMarketID : Z := iota "CreateMarketID".
Definition BuyYesID : Z := iota "BuyYesID".
Definition BuyNoID : Z := iota "BuyNoID".

(** The second block. *)
Definition CodecVersionDefault : Z := 0.
Definition BalancePrefix : Z := 3.
Definition BalanceChunks : Z := 1.
Definition Uint16Len : nat := 2.
Definition MaxActionSize : Z := 1024.

(** Share types. *)
Definition YesShareType : Z := 0.
Definition NoShareType : Z := 1.

Definition ShareTypeToString (shareType : Z) : string :=
  if shareType =? YesShareType then "YES"
  else if shareType =? NoShareType then "NO"
  else "UnknownShareType".

(** [func init()]: the VM's ID is its name, zero padded; a failing conversion
    would panic at start-up. *)
Definition init_ID : outcome bytes :=
  let b := make_bytes IDLen in
  let b := copy_at 0 (bytes_of_string Name) b in
  match ToID b with
  | Err err => Panics err
  | Ok vmID => Returns vmID
  end.

(** [version.Semantic]. *)
Record Semantic := { Major : Z; Minor : Z; Patch : Z }.
Definition Version : Semantic := {| Major := 0; Minor := 0; Patch := 1 |}.
