(* ===== verification/Packer.v ===== *)
(** * Packers

    [wrappers.Packer] (avalanchego/utils/wrappers/packing.go) and its wrapper
    [codec.Packer] (hypersdk/codec/packer.go): the cursor over a byte slice
    that every encoder and decoder of the program goes through.

    A packer is a record threaded through the operations.  The capacity of
    the byte slice is not kept: [expand] fills the fresh part with zeros
    whether the slice is re-sliced or reallocated (the memory of a packer is
    zeroed when it is made and only ever written below its length).

    Two canonical states carry the proofs: a [writer] whose cursor is at the
    end of what it has written, and a [reader] that has consumed a prefix. *)

From S2P Require Import Prelude GoErrors Lib.
#[local] Open Scope Z_scope.

Definition ErrInsufficientLength : error :=
  ErrVar "wrappers.ErrInsufficientLength" "packer has insufficient length for input".
Definition errNegativeOffset : error := ErrVar "wrappers.errNegativeOffset" "negative offset".
Definition errInvalidInput : error :=
  ErrVar "wrappers.errInvalidInput" "input does not match expected format".
Definition ErrFieldNotPopulated : error :=
  ErrVar "codec.ErrFieldNotPopulated" "field is not populated".

Definition MaxStringLen : Z := 65535.
Definition ByteLen : nat := 1.
Definition ShortLen : nat := 2.
Definition IntLen : nat := 4.
Definition LongLen : nat := 8.

Record Packer := mkPacker {
  p_Err : option error;
  MaxSize : Z;
  Bytes : bytes;
  Offset : Z;
}.

Definition len_Bytes (p : Packer) : Z := Z.of_nat (length (Bytes p)).

(** ** wrappers.Errs *)

Definition Errored (p : Packer) : bool := bool_decide (is_Some (p_Err p)).

Definition set_Err (e : error) (p : Packer) : Packer :=
  mkPacker (Some e) (MaxSize p) (Bytes p) (Offset p).

Definition Add (e : error) (p : Packer) : Packer :=
  match p_Err p with
  | None => set_Err e p
  | Some _ => p
  end.

(** ** Space *)

Definition checkSpace (n : nat) (p : Packer) : Packer :=
  if Offset p <? 0 then Add errNegativeOffset p
  else if len_Bytes p - Offset p <? Z.of_nat n then Add ErrInsufficientLength p
  else p.

Definition expand (n : nat) (p : Packer) : Packer :=
  let neededSize := Z.of_nat n + Offset p in
  if neededSize <=? len_Bytes p then p
  else if MaxSize p <? neededSize then set_Err ErrInsufficientLength p
  else mkPacker (p_Err p) (MaxSize p)
         (Bytes p ++ make_bytes (Z.to_nat (neededSize - len_Bytes p))) (Offset p).

(** ** Writing *)

(** [copy(p.Bytes[p.Offset:], b)] and the advance of the cursor. *)
Definition write_raw (b : bytes) (p : Packer) : Packer :=
  mkPacker (p_Err p) (MaxSize p) (copy_at (Z.to_nat (Offset p)) b (Bytes p))
    (Offset p + Z.of_nat (length b)).

Definition PackByte (val : Z) (p : Packer) : Packer :=
  let p := expand ByteLen p in
  if Errored p then p
  else mkPacker (p_Err p) (MaxSize p)
         (set_byte (Z.to_nat (Offset p)) val (Bytes p)) (Offset p + 1).

Definition PackShort (val : Z) (p : Packer) : Packer :=
  let p := expand ShortLen p in
  if Errored p then p else write_raw (be_put ShortLen val) p.

Definition PackInt (val : Z) (p : Packer) : Packer :=
  let p := expand IntLen p in
  if Errored p then p else write_raw (be_put IntLen val) p.

Definition PackLong (val : Z) (p : Packer) : Packer :=
  let p := expand LongLen p in
  if Errored p then p else write_raw (be_put LongLen val) p.

Definition PackFixedBytes (b : bytes) (p : Packer) : Packer :=
  let p := expand (length b) p in
  if Errored p then p else write_raw b p.

Definition PackStr (str : string) (p : Packer) : Packer :=
  let strSize := len_string str in
  if MaxStringLen <? strSize then Add errInvalidInput p
  else
    let p := PackShort strSize p in
    PackFixedBytes (bytes_of_string str) p.

(** ** Reading *)

Definition advance (n : nat) (p : Packer) : Packer :=
  mkPacker (p_Err p) (MaxSize p) (Bytes p) (Offset p + Z.of_nat n).

(** [p.Bytes[p.Offset : p.Offset+n]]. *)
Definition peek (n : nat) (p : Packer) : bytes :=
  take n (drop (Z.to_nat (Offset p)) (Bytes p)).

Definition UnpackByte (p : Packer) : Z * Packer :=
  let p := checkSpace ByteLen p in
  if Errored p then (0, p)
  else (nth (Z.to_nat (Offset p)) (Bytes p) 0, advance ByteLen p).

Definition UnpackShort (p : Packer) : Z * Packer :=
  let p := checkSpace ShortLen p in
  if Errored p then (0, p) else (be_get (peek ShortLen p), advance ShortLen p).

Definition UnpackInt (p : Packer) : Z * Packer :=
  let p := checkSpace IntLen p in
  if Errored p then (0, p) else (be_get (peek IntLen p), advance IntLen p).

Definition UnpackLong (p : Packer) : Z * Packer :=
  let p := checkSpace LongLen p in
  if Errored p then (0, p) else (be_get (peek LongLen p), advance LongLen p).

Definition UnpackFixedBytes (size : nat) (p : Packer) : bytes * Packer :=
  let p := checkSpace size p in
  if Errored p then ([], p) else (peek size p, advance size p).

Definition UnpackStr (p : Packer) : string * Packer :=
  let '(strSize, p) := UnpackShort p in
  let '(b, p) := UnpackFixedBytes (Z.to_nat strSize) p in
  (string_of_bytes b, p).

(** ** codec.Packer *)

Definition NewReader (src : bytes) (limit : Z) : Packer := mkPacker None limit src 0.

(** [initial] only sizes the allocation. *)
Definition NewWriter (initial limit : Z) : Packer := mkPacker None limit [] 0.

Definition PackUint64 (v : Z) (p : Packer) : Packer := PackLong v p.

Definition UnpackUint64 (required : bool) (p : Packer) : Z * Packer :=
  let '(v, p) := UnpackLong p in
  if required && (v =? 0)
  then (v, Add (Errorf_w "" ErrFieldNotPopulated ": Uint64 field is not populated") p)
  else (v, p).

(** ** Canonical writers *)

Definition writer (max : Z) (b : bytes) : Packer :=
  mkPacker None max b (Z.of_nat (length b)).

Lemma NewWriter_writer initial limit : NewWriter initial limit = writer limit [].
Proof. done. Qed.

Lemma Errored_None max b o : Errored (mkPacker None max b o) = false.
Proof. apply bool_decide_eq_false. by intros [? [=]]. Qed.

Lemma Errored_Some e p : p_Err p = Some e -> Errored p = true.
Proof. intros E. unfold Errored. rewrite E. by apply bool_decide_eq_true. Qed.

Lemma Errored_set_Err e p : Errored (set_Err e p) = true.
Proof. done. Qed.

Section writer_lemmas.
Variables (max : Z) (b : bytes).

Lemma expand_fits n :
  Z.of_nat (length b + n) <= max ->
  expand n (writer max b) = mkPacker None max (b ++ make_bytes n) (Z.of_nat (length b)).
Proof.
  intros Hfit. unfold expand, writer, len_Bytes; cbn [Bytes Offset MaxSize p_Err].
  destruct (Z.leb_spec (Z.of_nat n + Z.of_nat (length b)) (Z.of_nat (length b))).
  { replace n with 0%nat by lia. by rewrite app_nil_r. }
  destruct (Z.ltb_spec max (Z.of_nat n + Z.of_nat (length b))); [lia|].
  by replace (Z.to_nat _) with n by lia.
Qed.

Lemma expand_overflow n :
  Z.of_nat (length b) <= max < Z.of_nat (length b + n) ->
  expand n (writer max b) = set_Err ErrInsufficientLength (writer max b).
Proof.
  intros Hover. unfold expand, writer, len_Bytes; cbn [Bytes Offset MaxSize p_Err].
  destruct (Z.leb_spec (Z.of_nat n + Z.of_nat (length b)) (Z.of_nat (length b))); [lia|].
  by destruct (Z.ltb_spec max (Z.of_nat n + Z.of_nat (length b))); [|lia].
Qed.

Lemma write_raw_expanded e :
  write_raw e (mkPacker None max (b ++ make_bytes (length e)) (Z.of_nat (length b)))
  = writer max (b ++ e).
Proof.
  unfold write_raw, writer; cbn [Bytes Offset MaxSize p_Err]. rewrite Nat2Z.id, length_app.
  f_equal; [|lia].
  rewrite <- (app_nil_r (make_bytes _)), copy_at_app; [by rewrite app_nil_r|done|].
  by unfold make_bytes; rewrite length_replicate.
Qed.

(** What a call that writes the bytes [e] does on a canonical writer. *)
Definition emits (e : bytes) (f : Packer -> Packer) : Prop :=
  (Z.of_nat (length b + length e) <= max -> f (writer max b) = writer max (b ++ e)) /\
  (Z.of_nat (length b) <= max < Z.of_nat (length b + length e) ->
   p_Err (f (writer max b)) = Some ErrInsufficientLength).

Lemma emits_raw e n :
  length e = n ->
  emits e (fun p => let p := expand n p in if Errored p then p else write_raw e p).
Proof.
  intros <-. split; intros H; cbv zeta.
  - by rewrite expand_fits, Errored_None, write_raw_expanded.
  - by rewrite expand_overflow.
Qed.

Lemma PackFixedBytes_emits e : emits e (PackFixedBytes e).
Proof. by apply emits_raw. Qed.
Lemma PackShort_emits v : emits (be_put 2 v) (PackShort v).
Proof. apply (emits_raw _ 2). apply length_be_put. Qed.
Lemma PackInt_emits v : emits (be_put 4 v) (PackInt v).
Proof. apply (emits_raw _ 4). apply length_be_put. Qed.
Lemma PackLong_emits v : emits (be_put 8 v) (PackLong v).
Proof. apply (emits_raw _ 8). apply length_be_put. Qed.

Lemma PackByte_emits v : emits [v] (PackByte v).
Proof.
  split; intros H; cbn [length] in H; unfold PackByte, ByteLen; cbv zeta.
  - rewrite expand_fits, Errored_None by lia. unfold writer, set_byte; cbn [Bytes Offset MaxSize p_Err].
    rewrite Nat2Z.id, length_app. f_equal; [|cbn [length]; lia].
    rewrite insert_app_r_alt, Nat.sub_diag by lia. done.
  - by rewrite expand_overflow by lia.
Qed.
End writer_lemmas.

Lemma expand_keeps_error n p :
  p_Err p = Some ErrInsufficientLength -> p_Err (expand n p) = Some ErrInsufficientLength.
Proof. intros E. unfold expand. by repeat case_match. Qed.

Lemma PackFixedBytes_keeps_error e p :
  p_Err p = Some ErrInsufficientLength ->
  p_Err (PackFixedBytes e p) = Some ErrInsufficientLength.
Proof.
  intros E. unfold PackFixedBytes.
  by rewrite (Errored_Some _ _ (expand_keeps_error (length e) p E)), expand_keeps_error.
Qed.

Lemma PackStr_emits max b s :
  len_string s <= MaxStringLen ->
  emits max b (be_put 2 (len_string s) ++ bytes_of_string s) (PackStr s).
Proof.
  intros Hs. unfold emits, PackStr.
  destruct (Z.ltb_spec MaxStringLen (len_string s)) as [|_]; [lia|].
  rewrite length_app, length_be_put.
  destruct (PackShort_emits max b (len_string s)) as [Hf Ho].
  rewrite length_be_put in Hf, Ho.
  split; intros H.
  - rewrite Hf by lia.
    destruct (PackFixedBytes_emits max (b ++ be_put 2 (len_string s)) (bytes_of_string s)) as [Hf' _].
    rewrite length_app, length_be_put in Hf'. rewrite Hf' by lia. by rewrite <- app_assoc.
  - destruct (decide (Z.of_nat (length b + 2) <= max)).
    + rewrite Hf by lia.
      destruct (PackFixedBytes_emits max (b ++ be_put 2 (len_string s)) (bytes_of_string s)) as [_ Ho'].
      rewrite length_app, length_be_put in Ho'. apply Ho'. lia.
    + apply PackFixedBytes_keeps_error, Ho. lia.
Qed.

Lemma PackStr_too_long s p :
  MaxStringLen < len_string s -> PackStr s p = Add errInvalidInput p.
Proof. intros Hs. unfold PackStr. by destruct (Z.ltb_spec MaxStringLen (len_string s)); [|lia]. Qed.

(** ** Canonical readers *)

(** The first error of a packer sticks. *)
Lemma Add_errored e e' p : p_Err p = Some e -> Add e' p = p.
Proof. intros E. unfold Add. by rewrite E. Qed.

Lemma UnpackFixedBytes_errored n e p :
  p_Err p = Some e -> UnpackFixedBytes n p = ([], p).
Proof.
  intros E. unfold UnpackFixedBytes, checkSpace. rewrite !(Add_errored e) by done.
  destruct (Offset p <? 0), (len_Bytes p - Offset p <? Z.of_nat n);
    by rewrite (Errored_Some e).
Qed.

Definition reader (max : Z) (pre post : bytes) : Packer :=
  mkPacker None max (pre ++ post) (Z.of_nat (length pre)).

Lemma NewReader_reader src limit : NewReader src limit = reader limit [] src.
Proof. done. Qed.

Section reader_lemmas.
Variables (max : Z) (pre : bytes).

Lemma checkSpace_enough n post :
  (n <= length post)%nat -> checkSpace n (reader max pre post) = reader max pre post.
Proof.
  intros Hn. unfold checkSpace, reader, len_Bytes; cbn [Bytes Offset]. rewrite length_app.
  destruct (Z.ltb_spec (Z.of_nat (length pre)) 0); [lia|].
  by destruct (Z.ltb_spec (Z.of_nat (length pre + length post) - Z.of_nat (length pre)) (Z.of_nat n)); [lia|].
Qed.

Lemma checkSpace_short n post :
  (length post < n)%nat ->
  checkSpace n (reader max pre post) = set_Err ErrInsufficientLength (reader max pre post).
Proof.
  intros Hn. unfold checkSpace, reader, len_Bytes; cbn [Bytes Offset]. rewrite length_app.
  destruct (Z.ltb_spec (Z.of_nat (length pre)) 0); [lia|].
  by destruct (Z.ltb_spec (Z.of_nat (length pre + length post) - Z.of_nat (length pre)) (Z.of_nat n)); [|lia].
Qed.

Lemma peek_reader e post : peek (length e) (reader max pre (e ++ post)) = e.
Proof.
  unfold peek, reader; cbn [Bytes Offset].
  by rewrite Nat2Z.id, drop_app_length, take_app_length.
Qed.

Lemma advance_reader e post :
  advance (length e) (reader max pre (e ++ post)) = reader max (pre ++ e) post.
Proof.
  unfold advance, reader; cbn [Bytes Offset MaxSize p_Err].
  rewrite app_assoc, length_app. f_equal. lia.
Qed.

(** A read of [n] bytes: on [e] followed by more it returns what [dec]
    makes of [e] and moves past it; on a shorter rest it fails. *)
Definition consumes {A} (n : nat) (dec : bytes -> A) (zero : A) (f : Packer -> A * Packer) : Prop :=
  (forall e post, length e = n ->
     f (reader max pre (e ++ post)) = (dec e, reader max (pre ++ e) post)) /\
  (forall post, (length post < n)%nat ->
     f (reader max pre post) = (zero, set_Err ErrInsufficientLength (reader max pre post))).

Lemma consumes_raw {A} n (dec : bytes -> A) zero :
  consumes n dec zero
    (fun p => let p := checkSpace n p in if Errored p then (zero, p) else (dec (peek n p), advance n p)).
Proof.
  split; intros; cbv zeta; subst.
  - rewrite checkSpace_enough by (rewrite length_app; lia).
    unfold reader at 1. rewrite Errored_None. by rewrite peek_reader, advance_reader.
  - by rewrite checkSpace_short.
Qed.

Lemma UnpackFixedBytes_consumes n : consumes n id [] (UnpackFixedBytes n).
Proof. apply consumes_raw. Qed.
Lemma UnpackShort_consumes : consumes 2 be_get 0 UnpackShort.
Proof. apply consumes_raw. Qed.
Lemma UnpackInt_consumes : consumes 4 be_get 0 UnpackInt.
Proof. apply consumes_raw. Qed.
Lemma UnpackLong_consumes : consumes 8 be_get 0 UnpackLong.
Proof. apply consumes_raw. Qed.

Lemma UnpackByte_consumes : consumes 1 (fun e => nth 0 e 0) 0 UnpackByte.
Proof.
  split; intros; unfold UnpackByte, ByteLen; cbv zeta.
  - destruct e as [|x [|? ?]]; [done| |done].
    rewrite checkSpace_enough by (simpl; lia). unfold reader at 1. rewrite Errored_None.
    change 1%nat with (length [x]) at 1. rewrite advance_reader.
    unfold reader; cbn [Bytes Offset]. rewrite Nat2Z.id.
    by rewrite app_nth2, Nat.sub_diag by lia.
  - by rewrite checkSpace_short.
Qed.
End reader_lemmas.

(** A read of the rest of a reader either has enough bytes or not. *)
Lemma split_rest {A} (n : nat) (post : list A) :
  {e & {rest | post = e ++ rest /\ length e = n}} + {(length post < n)%nat}.
Proof.
  destruct (decide (n <= length post)%nat) as [H|H]; [left|right; lia].
  exists (take n post), (drop n post). by rewrite take_drop, length_take_le.
Qed.

(** ** 64-bit values in a slice of their own *)

Lemma PackUint64_bytes v : Bytes (PackUint64 v (NewWriter 8 8)) = be_put 8 v
  /\ p_Err (PackUint64 v (NewWriter 8 8)) = None.
Proof.
  rewrite NewWriter_writer. unfold PackUint64.
  destruct (PackLong_emits 8 [] v) as [Hf _]. by rewrite Hf by (rewrite length_be_put; simpl; lia).
Qed.

(** A required [uint64] is rejected when it is zero; bytes after the first
    eight are not looked at. *)
Lemma UnpackUint64_required b limit :
  (8 <= length b)%nat ->
  let v := be_get (take 8 b) in
  let p := reader limit (take 8 b) (drop 8 b) in
  UnpackUint64 true (NewReader b limit)
  = (v, if v =? 0
        then set_Err (Errorf_w "" ErrFieldNotPopulated ": Uint64 field is not populated") p
        else p).
Proof.
  intros Hl v p. rewrite NewReader_reader. unfold UnpackUint64.
  destruct (UnpackLong_consumes limit []) as [Hc _].
  specialize (Hc (take 8 b) (drop 8 b)). rewrite take_drop in Hc.
  rewrite Hc by (rewrite length_take; lia). fold v.
  unfold p. simpl. by destruct (v =? 0).
Qed.

Lemma UnpackUint64_short b limit r :
  (length b < 8)%nat ->
  p_Err (snd (UnpackUint64 r (NewReader b limit))) = Some ErrInsufficientLength
  /\ fst (UnpackUint64 r (NewReader b limit)) = 0.
Proof.
  intros Hl. rewrite NewReader_reader. unfold UnpackUint64.
  destruct (UnpackLong_consumes limit []) as [_ Hc]. rewrite Hc by done.
  by destruct r.
Qed.
