(* ===== verification/LinearCodec.v ===== *)
(** * The linear codec

    [codec.LinearCodec] (avalanchego/codec/linearcodec over
    codec/reflectcodec/type_codec.go) on the structs the program serializes:
    flat structs whose fields are [uint8], [uint64], [int64], [string],
    [[]byte] and byte arrays.  The reflection over tagged fields becomes a
    list of field values (to marshal) or of field kinds (to unmarshal), in
    the order of the struct.

    [encode] is the reference: the concatenation of the field encodings.  The
    lemmas show that marshalling into a writer appends it or runs out of
    space, that unmarshalling takes it off a reader, and that unmarshalling
    succeeds on nothing else. *)

From S2P Require Import Prelude GoErrors Lib Packer.
#[local] Open Scope Z_scope.

Definition ErrMaxSliceLenExceeded : error :=
  ErrVar "codec.ErrMaxSliceLenExceeded" "max slice length exceeded".

Definition MaxInt32 : Z := 2147483647.

Inductive kind :=
| KUint8 | KUint64 | KInt64 | KString | KByteSlice
| KByteArray (n : nat).

Inductive value :=
| VUint8 (z : Z)
| VUint64 (z : Z)
| VInt64 (z : Z)
| VString (s : string)
| VByteSlice (b : bytes)
| VByteArray (b : bytes).

Definition slice_too_long (what : string) (n : Z) : error :=
  Errorf_w "" ErrMaxSliceLenExceeded
    ("; " +:+ what +:+ " length, " +:+ fmt_d n +:+ ", exceeds maximum length, " +:+ fmt_d MaxInt32).

(** ** marshal *)

Definition returning (p : Packer) : option error * Packer := (p_Err p, p).

(** An array is not [[]byte]: its elements are marshalled one at a time. *)
Fixpoint marshal_array (b : bytes) (p : Packer) : option error * Packer :=
  match b with
  | [] => (None, p)
  | x :: t =>
      match returning (PackByte x p) with
      | (Some err, p) => (Some err, p)
      | (None, p) => marshal_array t p
      end
  end.

Definition marshal (v : value) (p : Packer) : option error * Packer :=
  match v with
  | VUint8 z => returning (PackByte z p)
  | VUint64 z => returning (PackLong z p)
  | VInt64 z => returning (PackLong (u64 z) p)
  | VString s => returning (PackStr s p)
  | VByteSlice b =>
      let numElts := Z.of_nat (length b) in
      if MaxInt32 <? numElts then (Some (slice_too_long "slice" numElts), p)
      else
        let p := PackInt numElts p in
        match p_Err p with
        | Some err => (Some err, p)
        | None =>
            if numElts =? 0 then (None, p)
            else returning (PackFixedBytes b p)
        end
  | VByteArray b => marshal_array b p
  end.

(** The struct case of [marshal], and [MarshalInto] on a pointer to it. *)
Fixpoint MarshalInto (fields : list value) (p : Packer) : option error * Packer :=
  match fields with
  | [] => (None, p)
  | v :: rest =>
      match marshal v p with
      | (Some err, p) => (Some err, p)
      | (None, p) => MarshalInto rest p
      end
  end.

(** ** unmarshal *)

(** What a field is set to ([None]: not assigned), the returned error and
    the packer. *)
Definition unmarshalled : Type := option value * option error * Packer.

Definition setting (what : string) (v : value) (p : Packer) : unmarshalled :=
  (Some v,
   match p_Err p with
   | Some err => Some (Errorf_w ("couldn't unmarshal " +:+ what +:+ ": ") err "")
   | None => None
   end, p).

Definition unmarshal (k : kind) (p : Packer) : unmarshalled :=
  match k with
  | KUint8 => let '(z, p) := UnpackByte p in setting "uint8" (VUint8 z) p
  | KUint64 => let '(z, p) := UnpackLong p in setting "uint64" (VUint64 z) p
  | KInt64 => let '(z, p) := UnpackLong p in setting "int64" (VInt64 (i64_of_u64 z)) p
  | KString => let '(s, p) := UnpackStr p in setting "string" (VString s) p
  | KByteSlice =>
      let '(numElts32, p) := UnpackInt p in
      match p_Err p with
      | Some err => (None, Some (Errorf_w "couldn't unmarshal slice: " err ""), p)
      | None =>
          if MaxInt32 <? numElts32 then (None, Some (slice_too_long "array" numElts32), p)
          else
            let '(b, p) := UnpackFixedBytes (Z.to_nat numElts32) p in
            (Some (VByteSlice b), p_Err p, p)
      end
  | KByteArray n =>
      let '(b, p) := UnpackFixedBytes n p in
      match p_Err p with
      | Some err => (None, Some err, p)
      | None => (Some (VByteArray b), None, p)
      end
  end.

(** The struct case: the fields assigned before an error stop the loop. *)
Fixpoint UnmarshalFrom (fields : list kind) (p : Packer)
  : list (option value) * option error * Packer :=
  match fields with
  | [] => ([], None, p)
  | k :: rest =>
      match unmarshal k p with
      | (v, Some err, p) => ([v], Some err, p)
      | (v, None, p) =>
          let '(vs, err, p) := UnmarshalFrom rest p in
          (v :: vs, err, p)
      end
  end.

(** ** The reference encoding *)

Definition encode_field (v : value) : bytes :=
  match v with
  | VUint8 z => [z]
  | VUint64 z => be_put 8 z
  | VInt64 z => be_put 8 (u64 z)
  | VString s => be_put 2 (len_string s) ++ bytes_of_string s
  | VByteSlice b => be_put 4 (Z.of_nat (length b)) ++ b
  | VByteArray b => b
  end.

Definition encode (fields : list value) : bytes := fields ≫= encode_field.

Definition field_size (v : value) : Z :=
  match v with
  | VUint8 _ => 1
  | VUint64 _ | VInt64 _ => 8
  | VString s => 2 + len_string s
  | VByteSlice b => 4 + Z.of_nat (length b)
  | VByteArray b => Z.of_nat (length b)
  end.

Definition encoded_size (fields : list value) : Z := foldr (fun v n => field_size v + n) 0 fields.

(** The values of each kind that Go can hold and the format can carry. *)
Definition packable (v : value) : Prop :=
  match v with
  | VString s => len_string s <= MaxStringLen
  | VByteSlice b => Z.of_nat (length b) <= MaxInt32
  | _ => True
  end.

Definition has_kind (v : value) (k : kind) : Prop :=
  match k, v with
  | KUint8, VUint8 z => is_u8 z
  | KUint64, VUint64 z => is_u64 z
  | KInt64, VInt64 z => is_i64 z
  | KString, VString s => len_string s <= MaxStringLen
  | KByteSlice, VByteSlice b => wf_bytes b /\ Z.of_nat (length b) <= MaxInt32
  | KByteArray n, VByteArray b => wf_bytes b /\ length b = n
  | _, _ => False
  end.

Lemma encode_cons v vs : encode (v :: vs) = encode_field v ++ encode vs.
Proof. done. Qed.

Lemma length_encode_field v : Z.of_nat (length (encode_field v)) = field_size v.
Proof.
  destruct v; cbn [encode_field field_size];
    rewrite ?length_app, ?length_be_put, ?length_bytes_of_string; unfold len_string; simpl; lia.
Qed.

Lemma length_encode vs : Z.of_nat (length (encode vs)) = encoded_size vs.
Proof.
  induction vs as [|v vs IH]; [done|]. rewrite encode_cons, length_app.
  cbn [encoded_size foldr]. fold (encoded_size vs). pose proof (length_encode_field v). lia.
Qed.

Lemma has_kind_packable v k : has_kind v k -> packable v.
Proof. destruct k, v; simpl; tauto. Qed.

Lemma encode_field_wf v k : has_kind v k -> wf_bytes (encode_field v).
Proof.
  destruct k, v; cbn [has_kind encode_field]; try done; intros Hk;
    rewrite ?wf_bytes_app; destruct_and?; auto with vm.
  apply wf_bytes_cons. split; [done|constructor].
Qed.

Lemma encode_wf vs ks : Forall2 has_kind vs ks -> wf_bytes (encode vs).
Proof.
  induction 1 as [|v k vs ks Hv _ IH]; [constructor|].
  unfold encode; simpl. apply wf_bytes_app. eauto using encode_field_wf.
Qed.

(** ** Marshalling appends the reference encoding *)

(** [emits] for operations that return an error. *)
Definition marshals (max : Z) (b e : bytes) (f : Packer -> option error * Packer) : Prop :=
  (Z.of_nat (length b + length e) <= max -> f (writer max b) = (None, writer max (b ++ e))) /\
  (Z.of_nat (length b) <= max < Z.of_nat (length b + length e) ->
   fst (f (writer max b)) = Some ErrInsufficientLength).

Lemma emits_marshals max b e f :
  emits max b e f -> marshals max b e (fun p => returning (f p)).
Proof.
  intros [Hf Ho]. split; intros H; unfold returning; cbn [fst].
  - by rewrite Hf.
  - by rewrite Ho.
Qed.

(** Two writes in a row, the second skipped when the first fails. *)
Lemma marshals_seq max b e1 e2 f g :
  marshals max b e1 f -> marshals max (b ++ e1) e2 g ->
  marshals max b (e1 ++ e2) (fun p =>
    match f p with (Some err, p) => (Some err, p) | (None, p) => g p end).
Proof.
  intros [Hf Hfo] [Hg Hgo]. rewrite length_app in Hg, Hgo.
  split; rewrite length_app; intros H.
  - rewrite Hf, Hg by lia. by rewrite app_assoc.
  - destruct (decide (Z.of_nat (length b + length e1) <= max)).
    + rewrite Hf by lia. apply Hgo. lia.
    + destruct (f (writer max b)) as [[err|] p]; specialize (Hfo ltac:(lia)); by simplify_eq/=.
Qed.

Lemma marshals_ret max b : marshals max b [] (fun p => (None, p)).
Proof. split; simpl; rewrite Nat.add_0_r; intros; [by rewrite app_nil_r|lia]. Qed.

Lemma marshal_array_marshals max a : forall b, marshals max b a (marshal_array a).
Proof.
  induction a as [|x t IH]; intros b; simpl; [apply marshals_ret|].
  apply (marshals_seq max b [x] t (fun p => returning (PackByte x p))); [|apply IH].
  apply emits_marshals, PackByte_emits.
Qed.

Lemma marshals_ext max b e f g :
  (forall p, f p = g p) -> marshals max b e f -> marshals max b e g.
Proof. intros E [Hf Ho]. split; intros; rewrite <- E; auto. Qed.

Lemma marshal_slice_marshals max b a :
  Z.of_nat (length a) <= MaxInt32 ->
  marshals max b (be_put 4 (Z.of_nat (length a)) ++ a) (marshal (VByteSlice a)).
Proof.
  intros Ha. eapply (marshals_ext _ _ _ (fun p =>
    match returning (PackInt (Z.of_nat (length a)) p) with
    | (Some err, p) => (Some err, p)
    | (None, p) => if Z.of_nat (length a) =? 0 then (None, p) else returning (PackFixedBytes a p)
    end)).
  - intros p. cbn [marshal]. by destruct (Z.ltb_spec MaxInt32 (Z.of_nat (length a))); [lia|].
  - apply (marshals_seq max b _ a (fun p => returning (PackInt (Z.of_nat (length a)) p))
      (fun p => if Z.of_nat (length a) =? 0 then (None, p) else returning (PackFixedBytes a p))).
    + apply emits_marshals, PackInt_emits.
    + destruct (Z.eqb_spec (Z.of_nat (length a)) 0); [|apply emits_marshals, PackFixedBytes_emits].
      destruct a; [apply marshals_ret|done].
Qed.

Lemma marshal_marshals max b v : packable v -> marshals max b (encode_field v) (marshal v).
Proof.
  destruct v; cbn [packable marshal encode_field]; intros Hp.
  - apply emits_marshals, PackByte_emits.
  - apply emits_marshals, PackLong_emits.
  - apply emits_marshals, PackLong_emits.
  - by apply emits_marshals, PackStr_emits.
  - by apply marshal_slice_marshals.
  - apply marshal_array_marshals.
Qed.

Lemma MarshalInto_marshals max vs : forall b,
  Forall packable vs -> marshals max b (encode vs) (MarshalInto vs).
Proof.
  induction vs as [|v vs IH]; intros b Hp; simpl; [apply marshals_ret|].
  inversion Hp; subst. apply marshals_seq; [by apply marshal_marshals|by apply IH].
Qed.

(** Marshalling into a fresh writer. *)
Lemma MarshalInto_fits vs init limit :
  Forall packable vs -> Z.of_nat (length (encode vs)) <= limit ->
  MarshalInto vs (NewWriter init limit) = (None, writer limit (encode vs)).
Proof. intros Hp Hl. rewrite NewWriter_writer. by apply (MarshalInto_marshals limit vs []). Qed.

Lemma MarshalInto_overflow vs init limit :
  Forall packable vs -> 0 <= limit < Z.of_nat (length (encode vs)) ->
  fst (MarshalInto vs (NewWriter init limit)) = Some ErrInsufficientLength.
Proof. intros Hp Hl. rewrite NewWriter_writer. by apply (MarshalInto_marshals limit vs []). Qed.

(** ** Unmarshalling takes the reference encoding off a reader *)

Lemma UnpackStr_reader max pre s rest :
  len_string s <= MaxStringLen ->
  UnpackStr (reader max pre (be_put 2 (len_string s) ++ bytes_of_string s ++ rest))
  = (s, reader max ((pre ++ be_put 2 (len_string s)) ++ bytes_of_string s) rest).
Proof.
  intros Hs. unfold UnpackStr.
  destruct (UnpackShort_consumes max pre) as [-> _]; [|by rewrite length_be_put].
  rewrite be_get_put, Z.mod_small by (unfold len_string, MaxStringLen in *; lia).
  destruct (UnpackFixedBytes_consumes max (pre ++ be_put 2 (len_string s)) (Z.to_nat (len_string s)))
    as [-> _].
  - unfold id. by rewrite string_of_bytes_of_string.
  - unfold len_string. by rewrite Nat2Z.id, length_bytes_of_string.
Qed.

Lemma setting_reader what v max pre post :
  setting what v (reader max pre post) = (Some v, None, reader max pre post).
Proof. done. Qed.

Lemma unmarshal_encode max pre k v rest :
  has_kind v k ->
  unmarshal k (reader max pre (encode_field v ++ rest))
  = (Some v, None, reader max (pre ++ encode_field v) rest).
Proof.
  destruct k, v; cbn [has_kind]; try done; intros Hk; cbn [unmarshal encode_field].
  - destruct (UnpackByte_consumes max pre) as [-> _]; [|done]. done.
  - destruct (UnpackLong_consumes max pre) as [-> _]; [|apply length_be_put].
    rewrite be_get_put8 by done. apply setting_reader.
  - destruct (UnpackLong_consumes max pre) as [-> _]; [|apply length_be_put].
    rewrite be_get_put8, i64_roundtrip by auto with vm. apply setting_reader.
  - rewrite <- app_assoc, UnpackStr_reader by done. rewrite setting_reader. by rewrite <- app_assoc.
  - destruct Hk as [Hw Hl]. rewrite <- app_assoc.
    destruct (UnpackInt_consumes max pre) as [-> _]; [|apply length_be_put].
    rewrite be_get_put, Z.mod_small by (unfold MaxInt32 in *; lia). cbn [p_Err reader].
    destruct (Z.ltb_spec MaxInt32 (Z.of_nat (length b))) as [|_]; [lia|].
    rewrite Nat2Z.id.
    destruct (UnpackFixedBytes_consumes max (pre ++ be_put 4 (Z.of_nat (length b))) (length b)) as [-> _];
      [|done]. unfold id. cbn [p_Err reader]. by rewrite <- app_assoc.
  - destruct Hk as [Hw <-].
    by destruct (UnpackFixedBytes_consumes max pre (length b)) as [-> _].
Qed.

Lemma UnmarshalFrom_encode max vs ks : Forall2 has_kind vs ks -> forall pre rest,
  UnmarshalFrom ks (reader max pre (encode vs ++ rest))
  = (Some <$> vs, None, reader max (pre ++ encode vs) rest).
Proof.
  induction 1 as [|v k vs ks Hv _ IH]; intros pre rest; unfold encode; simpl.
  - by rewrite app_nil_r.
  - rewrite <- app_assoc, unmarshal_encode by done.
    change (vs ≫= encode_field) with (encode vs). rewrite IH. by rewrite app_assoc.
Qed.

(** ** Nothing else unmarshals *)

(** What a successful step of a decoder has done. *)
Definition takes (max : Z) (pre post : bytes) (k : kind) (r : unmarshalled) : Prop :=
  forall ov p', r = (ov, None, p') ->
  exists v rest, ov = Some v /\ has_kind v k /\ post = encode_field v ++ rest /\
    p' = reader max (pre ++ encode_field v) rest.

Lemma takes_ok max pre post k v rest :
  has_kind v k -> post = encode_field v ++ rest ->
  takes max pre post k (Some v, None, reader max (pre ++ encode_field v) rest).
Proof. intros Hk Hp ov p' [= <- <-]. by exists v, rest. Qed.

Lemma takes_failed max pre post k ov err p : takes max pre post k (ov, Some err, p).
Proof. by intros ? ?. Qed.

(** The two ways a read can go. *)
Lemma consumes_cases {A} max pre n (dec : bytes -> A) zero f post :
  consumes max pre n dec zero f ->
  (exists e rest, post = e ++ rest /\ length e = n /\
     f (reader max pre post) = (dec e, reader max (pre ++ e) rest)) \/
  f (reader max pre post) = (zero, set_Err ErrInsufficientLength (reader max pre post)).
Proof.
  intros [Hc Hs]. destruct (split_rest n post) as [(e & rest & -> & Hl)|Hl]; [left|right; auto].
  exists e, rest. split_and!; auto.
Qed.

Lemma unmarshal_scalar_sound max pre post k :
  wf_bytes post -> k = KUint8 \/ k = KUint64 \/ k = KInt64 ->
  takes max pre post k (unmarshal k (reader max pre post)).
Proof.
  intros Hw [->|[->| ->]]; cbn [unmarshal].
  - destruct (consumes_cases _ _ _ _ _ _ post (UnpackByte_consumes max pre))
      as [(e & rest & -> & Hl & ->)| ->]; [|apply takes_failed].
    destruct e as [|x [|? ?]]; try done.
    apply (takes_ok max pre _ KUint8 (VUint8 x)); [|done].
    apply wf_bytes_app in Hw as [Hx _]. by apply wf_bytes_cons in Hx as [Hx _].
  - destruct (consumes_cases _ _ _ _ _ _ post (UnpackLong_consumes max pre))
      as [(e & rest & -> & Hl & ->)| ->]; [|apply takes_failed].
    apply wf_bytes_app in Hw as [Hx _]. rewrite setting_reader.
    rewrite <- (be_put8_get e) at 1 3 by done. apply takes_ok; [|done].
    by apply be_get_u64.
  - destruct (consumes_cases _ _ _ _ _ _ post (UnpackLong_consumes max pre))
      as [(e & rest & -> & Hl & ->)| ->]; [|apply takes_failed].
    apply wf_bytes_app in Hw as [Hx _]. rewrite setting_reader.
    assert (Hu : is_u64 (be_get e)) by by apply be_get_u64.
    rewrite <- (be_put8_get e) at 1 3 by done. rewrite <- (u64_of_i64 (be_get e)) at 1 3 by done.
    apply (takes_ok max pre _ KInt64 (VInt64 (i64_of_u64 (be_get e)))); [|done].
    by apply i64_range.
Qed.

(** A length-prefixed field: [n] bytes of big-endian length, then the body. *)
Lemma prefixed_bytes n (e body : bytes) :
  wf_bytes e -> length e = n -> length body = Z.to_nat (be_get e) ->
  e = be_put n (Z.of_nat (length body)).
Proof.
  intros He <- ->. pose proof (be_get_bound e He). rewrite Z2Nat.id by lia.
  by rewrite be_put_get.
Qed.

Lemma unmarshal_string_sound max pre post :
  wf_bytes post -> takes max pre post KString (unmarshal KString (reader max pre post)).
Proof.
  intros Hw. cbn [unmarshal]. unfold UnpackStr.
  destruct (consumes_cases _ _ _ _ _ _ post (UnpackShort_consumes max pre))
    as [(e & rest & -> & Hl & ->)| ->].
  2: { rewrite (UnpackFixedBytes_errored _ ErrInsufficientLength) by done. apply takes_failed. }
  apply wf_bytes_app in Hw as [He Hw].
  destruct (consumes_cases _ _ _ _ _ _ rest (UnpackFixedBytes_consumes max (pre ++ e) (Z.to_nat (be_get e))))
    as [(body & rest2 & -> & Hl2 & ->)| ->]; [|apply takes_failed].
  apply wf_bytes_app in Hw as [Hb _]. unfold id. rewrite setting_reader, <- app_assoc.
  assert (Henc : encode_field (VString (string_of_bytes body)) = e ++ body).
  { cbn [encode_field]. unfold len_string.
    rewrite <- length_bytes_of_string, bytes_of_string_of_bytes by done.
    by rewrite <- (prefixed_bytes 2 e body). }
  rewrite <- Henc. apply takes_ok; [|by rewrite Henc, <- app_assoc].
  cbn [has_kind]. unfold len_string, MaxStringLen.
  rewrite <- length_bytes_of_string, bytes_of_string_of_bytes by done.
  pose proof (be_get_bound e He) as Hbd. rewrite Hl in Hbd. simpl in Hbd. lia.
Qed.

Lemma unmarshal_slice_sound max pre post :
  wf_bytes post -> takes max pre post KByteSlice (unmarshal KByteSlice (reader max pre post)).
Proof.
  intros Hw. cbn [unmarshal].
  destruct (consumes_cases _ _ _ _ _ _ post (UnpackInt_consumes max pre))
    as [(e & rest & -> & Hl & ->)| ->]; [|apply takes_failed].
  apply wf_bytes_app in Hw as [He Hw]. pose proof (be_get_bound e He). cbn [p_Err reader].
  destruct (Z.ltb_spec MaxInt32 (be_get e)) as [|Hle]; [apply takes_failed|].
  destruct (consumes_cases _ _ _ _ _ _ rest (UnpackFixedBytes_consumes max (pre ++ e) (Z.to_nat (be_get e))))
    as [(body & rest2 & -> & Hl2 & ->)| ->]; [|apply takes_failed].
  apply wf_bytes_app in Hw as [Hb _]. unfold id. cbn [p_Err reader]. rewrite <- app_assoc.
  assert (Henc : encode_field (VByteSlice body) = e ++ body)
    by (cbn [encode_field]; by rewrite <- (prefixed_bytes 4 e body)).
  rewrite <- Henc. apply takes_ok; [|by rewrite Henc, <- app_assoc].
  cbn [has_kind]. split; [done|lia].
Qed.

Lemma unmarshal_array_sound max pre post n :
  wf_bytes post -> takes max pre post (KByteArray n) (unmarshal (KByteArray n) (reader max pre post)).
Proof.
  intros Hw. cbn [unmarshal].
  destruct (consumes_cases _ _ _ _ _ _ post (UnpackFixedBytes_consumes max pre n))
    as [(e & rest & -> & Hl & ->)| ->]; [|apply takes_failed].
  apply wf_bytes_app in Hw as [He _].
  by apply (takes_ok max pre _ (KByteArray n) (VByteArray e)).
Qed.

Lemma unmarshal_sound max pre post k :
  wf_bytes post -> takes max pre post k (unmarshal k (reader max pre post)).
Proof.
  destruct k; auto using unmarshal_scalar_sound, unmarshal_string_sound,
    unmarshal_slice_sound, unmarshal_array_sound.
Qed.

Lemma UnmarshalFrom_sound max ks : forall pre post ovs p',
  wf_bytes post -> UnmarshalFrom ks (reader max pre post) = (ovs, None, p') ->
  exists vs rest, ovs = Some <$> vs /\ Forall2 has_kind vs ks /\ post = encode vs ++ rest /\
    p' = reader max (pre ++ encode vs) rest.
Proof.
  induction ks as [|k ks IH]; intros pre post ovs p' Hw; simpl.
  - intros [= <- <-]. exists [], post. simpl. by rewrite app_nil_r.
  - destruct (unmarshal k (reader max pre post)) as [[ov [err|]] p1] eqn:E; [done|].
    apply unmarshal_sound in E as (v & rest & -> & Hk & -> & ->); [|done].
    apply wf_bytes_app in Hw as [_ Hw].
    destruct (UnmarshalFrom ks _) as [[ovs1 err1] p2] eqn:E. intros [= <- -> <-].
    apply IH in E as (vs & rest2 & -> & Hks & -> & ->); [|done].
    exists (v :: vs), rest2. unfold encode; simpl. rewrite !app_assoc. by repeat constructor.
Qed.

Ltac failing := unfold setting; simpl; intros; simplify_eq; reflexivity.

(** A failed decode is never taken for a missing key. *)
Lemma unmarshal_error max pre post k ov err p' :
  unmarshal k (reader max pre post) = (ov, Some err, p') ->
  errors_Is err ErrNotFound = false.
Proof.
  destruct k; cbn [unmarshal].
  - destruct (consumes_cases _ _ _ _ _ _ post (UnpackByte_consumes max pre))
      as [(? & ? & -> & _ & ->)| ->]; [done|failing].
  - destruct (consumes_cases _ _ _ _ _ _ post (UnpackLong_consumes max pre))
      as [(? & ? & -> & _ & ->)| ->]; [done|failing].
  - destruct (consumes_cases _ _ _ _ _ _ post (UnpackLong_consumes max pre))
      as [(? & ? & -> & _ & ->)| ->]; [done|failing].
  - unfold UnpackStr.
    destruct (consumes_cases _ _ _ _ _ _ post (UnpackShort_consumes max pre))
      as [(e & rest & -> & _ & ->)| ->].
    + destruct (consumes_cases _ _ _ _ _ _ rest (UnpackFixedBytes_consumes max (pre ++ e) (Z.to_nat (be_get e))))
        as [(? & ? & -> & _ & ->)| ->]; [done|failing].
    + rewrite (UnpackFixedBytes_errored _ ErrInsufficientLength) by done. failing.
  - destruct (consumes_cases _ _ _ _ _ _ post (UnpackInt_consumes max pre))
      as [(e & rest & -> & _ & ->)| ->]; [|failing].
    cbn [p_Err reader]. case_match; [failing|].
    destruct (consumes_cases _ _ _ _ _ _ rest (UnpackFixedBytes_consumes max (pre ++ e) (Z.to_nat (be_get e))))
      as [(? & ? & -> & _ & ->)| ->]; [done|failing].
  - destruct (consumes_cases _ _ _ _ _ _ post (UnpackFixedBytes_consumes max pre n))
      as [(? & ? & -> & _ & ->)| ->]; [done|failing].
Qed.

Lemma UnmarshalFrom_error max ks : forall pre post ovs err p',
  wf_bytes post -> UnmarshalFrom ks (reader max pre post) = (ovs, Some err, p') ->
  errors_Is err ErrNotFound = false.
Proof.
  induction ks as [|k ks IH]; intros pre post ovs err p' Hw; simpl; [done|].
  destruct (unmarshal k (reader max pre post)) as [[ov [e|]] p1] eqn:E.
  - intros; simplify_eq. by eapply unmarshal_error.
  - apply unmarshal_sound in E as (v & rest & -> & Hk & -> & ->); [|done].
    apply wf_bytes_app in Hw as [_ Hw].
    destruct (UnmarshalFrom ks _) as [[ovs1 err1] p2] eqn:E. intros; simplify_eq. eauto.
Qed.

(** ** Field access after [UnmarshalFrom]

    Field [i] of the destination: what was assigned to it, else the value [d]
    it had. *)

Definition field_Z (d : Z) (vs : list (option value)) (i : nat) : Z :=
  match vs !! i with
  | Some (Some (VUint8 z)) | Some (Some (VUint64 z)) | Some (Some (VInt64 z)) => z
  | _ => d
  end.

Definition field_string (d : string) (vs : list (option value)) (i : nat) : string :=
  match vs !! i with
  | Some (Some (VString s)) => s
  | _ => d
  end.

Definition field_bytes (d : bytes) (vs : list (option value)) (i : nat) : bytes :=
  match vs !! i with
  | Some (Some (VByteSlice b)) | Some (Some (VByteArray b)) => b
  | _ => d
  end.
