(* ===== verification/Store.v ===== *)
(** * The state interface

    [state.Immutable] and [state.Mutable] (hypersdk/state/state.go) as type
    classes, the laws every store of the program satisfies, and the in-memory
    store the unit tests run on (hypersdk/chain/chaintest/state.go).  The
    storage functions, the controller and the actions are written and proved
    against the interface; TState.v gives the other implementation, the
    scoped view a transaction runs on. *)

From S2P Require Import Prelude GoErrors Lib.
#[local] Open Scope Z_scope.

Class Immutable (S : Type) := GetValue : S -> bytes -> result bytes.

Class Mutable (S : Type) := {
  Mutable_Immutable :: Immutable S;
  Insert : bytes -> bytes -> GoM S unit;
  Remove : bytes -> GoM S unit;
}.

(** A store returns what was last inserted, keeps the other keys, and does
    nothing when it refuses an operation. *)
Class MutableLaws (S : Type) `{Mutable S} := {
  insert_get s k v s' : Insert k v s = (Ok tt, s') -> GetValue s' k = Ok v;
  insert_get_ne s k v s' k' :
    Insert k v s = (Ok tt, s') -> k <> k' -> GetValue s' k' = GetValue s k';
  insert_failed s k v e s' : Insert k v s = (Err e, s') -> s' = s;
}.

(** The same of removals.  The program removes nothing, so this is apart. *)
Class RemoveLaws (S : Type) `{Mutable S} := {
  remove_get s k s' : Remove k s = (Ok tt, s') -> GetValue s' k = Err ErrNotFound;
  remove_get_ne s k s' k' :
    Remove k s = (Ok tt, s') -> k <> k' -> GetValue s' k' = GetValue s k';
  remove_failed s k e s' : Remove k s = (Err e, s') -> s' = s;
}.

(** A store that accepts every insert. *)
Class TotalStore (S : Type) `{Mutable S} :=
  insert_total s k v : fst (Insert k v s) = Ok tt.

(** The committed state of a chain, given by its reads.  It is made an
    instance where it is needed: any store would match it. *)
Definition state_Immutable : Immutable (bytes -> result bytes) := fun state key => state key.

(** Every stored value is a string of bytes (always so in Go). *)
Definition wf_values {S} `{Immutable S} (s : S) : Prop :=
  forall k b, GetValue s k = Ok b -> wf_bytes b.

(** Two stores no read can tell apart. *)
Definition same_reads {S1 S2} `{Immutable S1, Immutable S2} (s1 : S1) (s2 : S2) : Prop :=
  forall k, GetValue s1 k = GetValue s2 k.

#[export] Instance same_reads_equivalence {S} `{Immutable S} : Equivalence (@same_reads S S _ _).
Proof.
  split.
  - by intros s k.
  - by intros s1 s2 E k.
  - intros s1 s2 s3 E1 E2 k. by rewrite (E1 k).
Qed.

Section lemmas.
Context {S : Type} `{MutableLaws S}.

Lemma insert_total_run `{!TotalStore S} s k v : exists s', Insert k v s = (Ok tt, s').
Proof.
  pose proof (insert_total s k v) as E. destruct (Insert k v s) as [r s']. simpl in E. subst. eauto.
Qed.

Lemma insert_lookup s k v s' k' :
  Insert k v s = (Ok tt, s') ->
  GetValue s' k' = if decide (k = k') then Ok v else GetValue s k'.
Proof.
  intros E. case_decide as Hk; [subst; by eapply insert_get|by eapply insert_get_ne].
Qed.

Lemma wf_values_insert s k v s' :
  Insert k v s = (Ok tt, s') -> wf_values s -> wf_bytes v -> wf_values s'.
Proof.
  intros E Hw Hv k' b. rewrite (insert_lookup _ _ _ _ _ E).
  case_decide; [by intros [= <-]|apply Hw].
Qed.
End lemmas.

(** ** Programs that only insert

    [inserts K m]: whatever [m] returns, it has changed the store by a
    sequence of accepted inserts under keys in [K].  The combinators of the
    monad keep this, so it holds of an operation by its shape. *)

Section inserting.
Context {S : Type} `{Mutable S}.

Inductive insert_step (K : bytes -> Prop) (s s' : S) : Prop :=
| insert_step_intro k v : K k -> Insert k v s = (Ok tt, s') -> insert_step K s s'.

Definition inserts {A} (K : bytes -> Prop) (m : GoM S A) : Prop :=
  forall s r s', m s = (r, s') -> rtc (insert_step K) s s'.

Context `{!MutableLaws S} (K : bytes -> Prop).

Lemma inserts_ret {A} (a : A) : inserts K (mret a).
Proof. by intros s r s' [= <- <-]. Qed.

Lemma inserts_fail {A} e : inserts K (fail e : GoM S A).
Proof. by intros s r s' [= <- <-]. Qed.

Lemma inserts_fail_if c e : inserts K (fail_if c e).
Proof. intros s r s'. destruct c; by intros [= <- <-]. Qed.

Lemma inserts_reading {A} (f : S -> result A) : inserts K (reading f).
Proof. by intros s r s' [= <- <-]. Qed.

Lemma inserts_lift {A} (x : result A) : inserts K (lift x).
Proof. by intros s r s' [= <- <-]. Qed.

Lemma inserts_Insert k v : K k -> inserts K (Insert k v).
Proof using MutableLaws0.
  intros Hk s [[]|e] s' E; [by eapply rtc_once, insert_step_intro|].
  by rewrite (insert_failed s k v e s' E).
Qed.

Lemma inserts_on_error {A} f (m : GoM S A) : inserts K m -> inserts K (on_error f m).
Proof.
  intros Hm s r s'. unfold on_error. destruct (m s) as [[a|e] s1] eqn:E; intros [= _ <-]; eauto.
Qed.

Lemma inserts_attempt {A} (m : GoM S A) : inserts K m -> inserts K (attempt m).
Proof. intros Hm s r s'. unfold attempt. destruct (m s) eqn:E. intros [= _ <-]. eauto. Qed.

Lemma inserts_bind {A B} (m : GoM S A) (f : A -> GoM S B) :
  inserts K m -> (forall a, inserts K (f a)) -> inserts K (m ≫= f).
Proof.
  intros Hm Hf s r s'. unfold mbind, GoM_bind. destruct (m s) as [[a|e] s1] eqn:E; intros E'.
  - etrans; [by eapply Hm|by eapply Hf].
  - simplify_eq. by eapply Hm.
Qed.

Lemma insert_step_frame s s' k :
  rtc (insert_step K) s s' -> ~ K k -> GetValue s' k = GetValue s k.
Proof using MutableLaws0.
  intros Hs Hk. induction Hs as [s|s s1 s' [k' v Hk' E] _ IH]; [done|].
  rewrite IH. apply (insert_get_ne _ _ _ _ _ E). by intros ->.
Qed.

(** Keys outside [K] keep their values. *)
Lemma inserts_frame {A} (m : GoM S A) s r s' k :
  inserts K m -> m s = (r, s') -> ~ K k -> GetValue s' k = GetValue s k.
Proof using MutableLaws0. intros Hm E. eapply insert_step_frame, Hm, E. Qed.
End inserting.

#[export] Hint Resolve inserts_ret inserts_fail inserts_fail_if inserts_reading inserts_lift
  inserts_Insert inserts_on_error inserts_attempt inserts_bind : vm.

(** Shows [inserts] of an operation from its shape. *)
Ltac inserting :=
  repeat match goal with
  | |- inserts _ (_ ≫= _) => apply inserts_bind; [|intros ?]
  | |- inserts _ (match ?x with _ => _ end) => destruct x
  | |- inserts _ (let _ := _ in _) => cbv zeta
  | |- inserts _ (on_error _ _) => apply inserts_on_error
  | |- inserts _ (attempt _) => apply inserts_attempt
  | |- inserts _ _ => solve [auto with vm]
  end.

(** ** chaintest.InMemoryStore *)

Record InMemoryStore := mkStore { Storage : gmap bytes bytes }.

Definition NewInMemoryStore : InMemoryStore := mkStore ∅.

Definition InMemoryStore_GetValue (i : InMemoryStore) (key : bytes) : result bytes :=
  match Storage i !! key with
  | None => Err ErrNotFound
  | Some val => Ok val
  end.

Definition InMemoryStore_Insert (key value : bytes) : GoM InMemoryStore unit := fun i =>
  (Ok tt, mkStore (<[key := value]> (Storage i))).

Definition InMemoryStore_Remove (key : bytes) : GoM InMemoryStore unit := fun i =>
  (Ok tt, mkStore (delete key (Storage i))).

#[export] Instance InMemoryStore_Mutable : Mutable InMemoryStore := {|
  Mutable_Immutable := InMemoryStore_GetValue;
  Insert := InMemoryStore_Insert;
  Remove := InMemoryStore_Remove;
|}.

#[export] Instance InMemoryStore_Laws : MutableLaws InMemoryStore.
Proof.
  split; unfold GetValue, Insert, Remove; simpl;
    unfold InMemoryStore_GetValue, InMemoryStore_Insert, InMemoryStore_Remove;
    intros; simplify_eq/=; by simplify_map_eq.
Qed.

#[export] Instance InMemoryStore_RemoveLaws : RemoveLaws InMemoryStore.
Proof.
  split; unfold GetValue, Insert, Remove; simpl;
    unfold InMemoryStore_GetValue, InMemoryStore_Insert, InMemoryStore_Remove;
    intros; simplify_eq/=; by simplify_map_eq.
Qed.

#[export] Instance InMemoryStore_Total : TotalStore InMemoryStore.
Proof. by intros [] k v. Qed.
