(* ===== verification/Permissions.v ===== *)
(** * Declared state keys (hypersdk/state/keys.go, hypersdk/keys/keys.go)

    The permissions an action declares for the keys it touches, the chunk
    sizes encoded in the last two bytes of a key, and the conflict set of a
    transaction. *)

From S2P Require Import Prelude GoErrors Lib.
#[local] Open Scope Z_scope.

(** ** Permissions *)

Definition Read : Z := 1.
Definition Allocate : Z := Z.lor (Z.shiftl 1 1) Read.
Definition Write : Z := Z.lor (Z.shiftl 1 2) Read.
Definition None_ : Z := 0.
Definition All : Z := Z.lor (Z.lor Read Allocate) Write.

(** [require &^ p == 0]. *)
Definition Permissions_Has (p require : Z) : bool := Z.ldiff require p =? 0.

(** ** Chunk sizes *)

Definition chunkSize : Z := 64.
Definition MaxUint16 : Z := 65535.

Definition keys_Valid (key : bytes) : bool := (2 <=? length key)%nat.

Definition MaxChunks (key : bytes) : option Z :=
  let l := length key in
  if (l <? 2)%nat then None else Some (be_get (drop (l - 2) key)).

Definition numChunks (valueLen : Z) : option Z :=
  if valueLen =? 0 then Some 0
  else
    let raw := valueLen / chunkSize + 1 in
    if MaxUint16 <? raw then None else Some raw.

Definition NumChunks (value : bytes) : option Z := numChunks (Z.of_nat (length value)).

Definition VerifyValue (key value : bytes) : bool :=
  match NumChunks value with
  | None => false
  | Some valueChunks =>
      match MaxChunks key with
      | None => false
      | Some keyChunks => valueChunks <=? keyChunks
      end
  end.

(** ** state.Keys

    A map from keys to permissions; a missing key has permission 0. *)

Definition Keys_perm (k : gmap bytes Z) (key : bytes) : Z := default 0 (k !! key).

Definition Keys_Add (key : bytes) (permission : Z) (k : gmap bytes Z) : bool * gmap bytes Z :=
  if negb (keys_Valid key) then (false, k)
  else (true, <[key := Z.lor (Keys_perm k key) permission]> k).

Definition Keys_Has (k : gmap bytes Z) (key : bytes) (permission : Z) : bool :=
  Permissions_Has (Keys_perm k key) permission.

(** A [range] over a map visits it in an unspecified order; [Add] of distinct
    keys commutes, so a fold in the order of the list is representative. *)
Fixpoint Keys_AddAll (l : list (bytes * Z)) (k : gmap bytes Z) : option (gmap bytes Z) :=
  match l with
  | [] => Some k
  | (key, perm) :: rest =>
      let '(ok, k) := Keys_Add key perm k in
      if ok then Keys_AddAll rest k else None
  end.

(** ** Lemmas *)

Lemma Permissions_Has_spec p r :
  Permissions_Has p r = true <-> forall i, 0 <= i -> Z.testbit r i = true -> Z.testbit p i = true.
Proof.
  unfold Permissions_Has. rewrite Z.eqb_eq. split.
  - intros E i Hi Hr. pose proof (f_equal (fun z => Z.testbit z i) E) as Hb. simpl in Hb.
    rewrite Z.ldiff_spec, Hr, Z.bits_0 in Hb. by destruct (Z.testbit p i).
  - intros Hall. apply Z.bits_inj'. intros i Hi. rewrite Z.ldiff_spec, Z.bits_0.
    destruct (Z.testbit r i) eqn:Er; [|done]. by rewrite (Hall i Hi Er).
Qed.

Lemma Permissions_Has_lor p q r :
  Permissions_Has p r = true -> Permissions_Has (Z.lor q p) r = true.
Proof.
  rewrite !Permissions_Has_spec. intros Hp i Hi Hr. rewrite Z.lor_spec, (Hp i Hi Hr).
  apply orb_true_r.
Qed.

Lemma Permissions_Has_weaken p r r' :
  Permissions_Has r r' = true -> Permissions_Has p r = true -> Permissions_Has p r' = true.
Proof. rewrite !Permissions_Has_spec. auto. Qed.

Lemma Write_Read p : Permissions_Has p Write = true -> Permissions_Has p Read = true.
Proof. by apply Permissions_Has_weaken. Qed.

Lemma Keys_Has_absent k key p : k !! key = None -> p <> 0 -> Keys_Has k key p = false.
Proof.
  intros E Hp. unfold Keys_Has, Keys_perm, Permissions_Has. rewrite E. simpl.
  rewrite Z.ldiff_0_r. by apply Z.eqb_neq.
Qed.

(** The keys of a successful [AddAll] are the old ones and the added ones,
    each with the union of its permissions. *)
Lemma Keys_AddAll_lookup l : forall k k' key,
  Keys_AddAll l k = Some k' ->
  Keys_perm k' key = fold_left (fun p kp => if decide (kp.1 = key) then Z.lor p kp.2 else p) l (Keys_perm k key).
Proof.
  induction l as [|[x p] l IH]; intros k k' key; simpl; [by intros [= ->]|].
  unfold Keys_Add. destruct (keys_Valid x); simpl; [|done].
  intros E. rewrite (IH _ _ _ E). f_equal. unfold Keys_perm.
  case_decide; subst; by simplify_map_eq.
Qed.

Lemma Keys_AddAll_valid l k k' :
  Keys_AddAll l k = Some k' -> Forall (fun kp => keys_Valid kp.1 = true) l.
Proof.
  revert k. induction l as [|[x p] l IH]; intros k; simpl; [constructor|].
  unfold Keys_Add. destruct (keys_Valid x) eqn:E; simpl; [|done].
  intros Ha. constructor; [done|]. eauto.
Qed.

(** Adding permissions without a bit does not set it. *)
Lemma fold_left_no_bit (l : list (bytes * Z)) i key p :
  (forall kp, kp ∈ l -> Z.testbit kp.2 i = false) -> Z.testbit p i = false ->
  Z.testbit (fold_left (fun p kp => if decide (kp.1 = key) then Z.lor p kp.2 else p) l p) i = false.
Proof.
  revert p. induction l as [|kp l IH]; intros p Hl Hp; simpl; [done|].
  apply IH; [intros kp' Hin; apply Hl; by right|].
  case_decide; [|done]. rewrite Z.lor_spec, Hp. apply Hl. by left.
Qed.

(** Valid keys are all added. *)
Lemma Keys_AddAll_ok l : forall k,
  Forall (fun kp => keys_Valid kp.1 = true) l -> is_Some (Keys_AddAll l k).
Proof.
  induction l as [|[x p] l IH]; intros k Hl; simpl; [done|]. inversion_clear Hl as [|? ? Hx Hrest].
  unfold Keys_Add. simpl in Hx. rewrite Hx. simpl. by apply IH.
Qed.

Lemma fold_left_other (l : list (bytes * Z)) key p :
  (forall kp, kp ∈ l -> kp.1 <> key) ->
  fold_left (fun p kp => if decide (kp.1 = key) then Z.lor p kp.2 else p) l p = p.
Proof.
  revert p. induction l as [|kp l IH]; intros p Hl; simpl; [done|].
  rewrite decide_False by (apply Hl; by left). apply IH. intros kp' Hin. apply Hl. by right.
Qed.
