(* ===== verification/TState.v ===== *)
(** * Transaction views (hypersdk/state/tstate)

    The store a transaction runs on: a view over the state its block has
    changed so far ([TState]) and the committed state below it, with a
    declared scope and a journal of operations for rolling back.  It obeys
    the insert laws of Store.v, and rolling back restores the changes. *)

From S2P Require Import Prelude GoErrors Lib Store Permissions.
#[local] Open Scope Z_scope.

Definition ErrInvalidKeyOrPermission : error :=
  ErrVar "tstate.ErrInvalidKeyOrPermission" "invalid key or key permission".
Definition ErrInvalidKeyValue : error := ErrVar "tstate.ErrInvalidKeyValue" "invalid key value".

(** [maybe.Maybe[[]byte]]: [None] is [Nothing], a deleted key. *)
Abbreviation changes := (gmap bytes (option bytes)).

Record TState := mkTState { ts_ops : nat; changedKeys : changes }.

Inductive opType := createOp | insertOp | removeOp.

Record op := mkOp {
  op_t : opType;
  op_k : bytes;
  op_pastV : bytes;
  op_pastAllocates : option Z;
  op_pastWrites : option Z;
}.

(** [storage] is the committed state. *)
Record TStateView := mkView {
  v_ts : TState;
  v_pending : changes;
  v_ops : list op;
  v_scope : gmap bytes Z;
  v_storage : bytes -> result bytes;
  v_allocates : gmap bytes Z;
  v_writes : gmap bytes Z;
}.

Definition TState_NewView (ts : TState) (scope : gmap bytes Z) (storage : bytes -> result bytes)
  : TStateView := mkView ts ∅ [] scope storage ∅ ∅.

(** Replaces what changes when a view is written to. *)
Definition with_changes (pending : changes) (ops : list op) (allocates writes : gmap bytes Z)
    (v : TStateView) : TStateView :=
  mkView (v_ts v) pending ops (v_scope v) (v_storage v) allocates writes.

Definition OpIndex (v : TStateView) : nat := length (v_ops v).

(** [getChangedValue] and the reads below it: the value seen from outside the
    view. *)
Definition parent_value (v : TStateView) (key : bytes) : result bytes :=
  match changedKeys (v_ts v) !! key with
  | Some None => Err ErrNotFound
  | Some (Some b) => Ok b
  | None => v_storage v key
  end.

Definition view_value (v : TStateView) (key : bytes) : result bytes :=
  match v_pending v !! key with
  | Some None => Err ErrNotFound
  | Some (Some b) => Ok b
  | None => parent_value v key
  end.

Definition checkScope (v : TStateView) (k : bytes) (perm : Z) : bool := Keys_Has (v_scope v) k perm.

Definition TStateView_GetValue (v : TStateView) (key : bytes) : result bytes :=
  if negb (checkScope v key Read) then Err ErrInvalidKeyOrPermission
  else view_value v key.

(** Whether [nval] is what the parent already has; [None] stands for a
    removal. *)
Definition isUnchanged (v : TStateView) (key : bytes) (nval : option bytes) : result bool :=
  match changedKeys (v_ts v) !! key with
  | Some old => Ok (bool_decide (old = nval))
  | None =>
      match v_storage v key with
      | Ok b => Ok (bool_decide (nval = Some b))
      | Err err => if decide (err = ErrNotFound) then Ok (bool_decide (nval = None)) else Err err
      end
  end.

Definition TStateView_Insert (key value : bytes) : GoM TStateView unit := fun v =>
  if negb (checkScope v key Write) then (Err ErrInvalidKeyOrPermission, v)
  else if negb (VerifyValue key value) then (Err ErrInvalidKeyValue, v)
  else
    let valueChunks := default 0 (NumChunks value) in
    match isUnchanged v key (Some value) with
    | Err err => (Err err, v)
    | Ok unchanged =>
        let record t past :=
          mkOp t key past (v_allocates v !! key) (v_writes v !! key) in
        let finish o allocates writes :=
          let pending := <[key := Some value]> (v_pending v) in
          let ops := v_ops v ++ [o] in
          (Ok tt,
           if unchanged
           then with_changes (delete key pending) ops (delete key allocates) (delete key writes) v
           else with_changes pending ops allocates writes v) in
        match view_value v key with
        | Ok past =>
            if decide (past = value) then (Ok tt, v)
            else finish (record insertOp past) (v_allocates v) (<[key := valueChunks]> (v_writes v))
        | Err err =>
            if decide (err = ErrNotFound) then
              if negb (checkScope v key Allocate) then (Err ErrInvalidKeyOrPermission, v)
              else
                let keyChunks := default 0 (MaxChunks key) in
                finish (record createOp []) (<[key := keyChunks]> (v_allocates v))
                  (<[key := valueChunks]> (v_writes v))
            else (Err err, v)
        end
    end.

Definition TStateView_Remove (key : bytes) : GoM TStateView unit := fun v =>
  if negb (checkScope v key Write) then (Err ErrInvalidKeyOrPermission, v)
  else
    match view_value v key with
    | Err err => if decide (err = ErrNotFound) then (Ok tt, v) else (Err err, v)
    | Ok past =>
        match isUnchanged v key None with
        | Err err => (Err err, v)
        | Ok unchanged =>
            let ops := v_ops v ++ [mkOp removeOp key past (v_allocates v !! key) (v_writes v !! key)] in
            let forget := with_changes (delete key (v_pending v)) ops
              (delete key (v_allocates v)) (delete key (v_writes v)) v in
            let v' := match v_allocates v !! key with
              | Some _ => forget
              | None => with_changes (<[key := None]> (v_pending v)) ops (v_allocates v)
                          (<[key := 0]> (v_writes v)) v
              end in
            (Ok tt, if unchanged then forget else v')
        end
    end.

(** [Rollback]: the undo of one operation ... *)
Definition undo (o : op) (v : TStateView) : TStateView :=
  let k := op_k o in
  let back allocates past :=
    match op_pastWrites o with
    | Some w => with_changes (<[k := past]> (v_pending v)) (v_ops v) allocates (<[k := w]> (v_writes v)) v
    | None => with_changes (delete k (v_pending v)) (v_ops v) allocates (delete k (v_writes v)) v
    end in
  match op_t o with
  | createOp => back (delete k (v_allocates v)) None
  | insertOp => back (v_allocates v) (Some (op_pastV o))
  | removeOp =>
      back (match op_pastAllocates o with
            | Some a => <[k := a]> (v_allocates v)
            | None => v_allocates v
            end) (Some (op_pastV o))
  end.

(** ... and the loop, from the last operation down to the restore point. *)
Definition Rollback (restorePoint : nat) (v : TStateView) : TStateView :=
  let v' := foldl (fun v o => undo o v) v (rev (drop restorePoint (v_ops v))) in
  with_changes (v_pending v') (take restorePoint (v_ops v)) (v_allocates v') (v_writes v') v'.

Definition Commit (v : TStateView) : TState :=
  mkTState (ts_ops (v_ts v) + length (v_ops v)) (v_pending v ∪ changedKeys (v_ts v)).

#[export] Instance TStateView_Mutable : Mutable TStateView := {|
  Mutable_Immutable := TStateView_GetValue;
  Insert := TStateView_Insert;
  Remove := TStateView_Remove;
|}.

(** ** Inserting *)

(** The part of a view that its operations leave alone. *)
Definition same_base (v v' : TStateView) : Prop :=
  v_ts v' = v_ts v /\ v_scope v' = v_scope v /\ v_storage v' = v_storage v.

Lemma same_base_parent v v' k : same_base v v' -> parent_value v' k = parent_value v k.
Proof. intros (E1 & _ & E2). unfold parent_value. by rewrite E1, E2. Qed.

Lemma isUnchanged_parent v k b : isUnchanged v k (Some b) = Ok true -> parent_value v k = Ok b.
Proof.
  unfold isUnchanged, parent_value. destruct (changedKeys (v_ts v) !! k) as [o|].
  - intros [= E%bool_decide_eq_true]. by subst.
  - destruct (v_storage v k) as [b'|e]; [intros [= E%bool_decide_eq_true]; by simplify_eq|].
    case_decide; [|done]. intros [= E%bool_decide_eq_true].
Qed.

(** What an insert writes: the value of the parent needs no pending change. *)
Definition put (k b : bytes) (unchanged : bool) (pending : changes) : changes :=
  if unchanged then delete k (<[k := Some b]> pending) else <[k := Some b]> pending.

Lemma put_value v v' k b unchanged k' :
  same_base v v' -> v_pending v' = put k b unchanged (v_pending v) ->
  isUnchanged v k (Some b) = Ok unchanged ->
  view_value v' k' = if decide (k = k') then Ok b else view_value v k'.
Proof.
  intros Hb Hp Hu. unfold view_value. rewrite Hp, (same_base_parent v v' k' Hb).
  unfold put. case_decide as Hk; destruct unchanged; subst.
  - rewrite lookup_delete_eq. by apply isUnchanged_parent.
  - by rewrite lookup_insert_eq.
  - by rewrite lookup_delete_ne, lookup_insert_ne by done.
  - by rewrite lookup_insert_ne by done.
Qed.

(** A successful insert, in full. *)
Lemma Insert_inv k b v v' :
  TStateView_Insert k b v = (Ok tt, v') ->
  checkScope v k Write = true /\ VerifyValue k b = true /\ same_base v v' /\
  ((v' = v /\ view_value v k = Ok b) \/
   exists o unchanged,
     v_ops v' = v_ops v ++ [o] /\ isUnchanged v k (Some b) = Ok unchanged /\
     v_pending v' = put k b unchanged (v_pending v) /\ op_k o = k /\
     op_pastWrites o = v_writes v !! k /\
     (v_writes v' = if unchanged then delete k (v_writes v)
                    else <[k := default 0 (NumChunks b)]> (v_writes v)) /\
     ((op_t o = insertOp /\ view_value v k = Ok (op_pastV o)) \/
      (op_t o = createOp /\ view_value v k = Err ErrNotFound /\ checkScope v k Allocate = true))).
Proof.
  unfold TStateView_Insert.
  destruct (checkScope v k Write); [|done]. destruct (VerifyValue k b); [|done]. cbn [negb].
  destruct (isUnchanged v k (Some b)) as [un|e] eqn:Eu; [|done]. cbv zeta.
  destruct (view_value v k) as [past|e] eqn:Ev.
  - case_decide; [intros [= <-]; subst; by repeat split; auto|].
    intros E. do 2 (split; [done|]). split; [by destruct un; simplify_eq|]. right.
    exists (mkOp insertOp k past (v_allocates v !! k) (v_writes v !! k)), un.
    destruct un; simplify_eq/=; split_and!; auto. by rewrite delete_insert_eq.
  - case_decide; [subst|done]. destruct (checkScope v k Allocate) eqn:Ea; [|done]. cbn [negb].
    intros E. do 2 (split; [done|]). split; [by destruct un; simplify_eq|]. right.
    exists (mkOp createOp k [] (v_allocates v !! k) (v_writes v !! k)), un.
    destruct un; simplify_eq/=; split_and!; auto. by rewrite delete_insert_eq.
Qed.

Lemma Insert_value k b v v' k' :
  TStateView_Insert k b v = (Ok tt, v') ->
  view_value v' k' = if decide (k = k') then Ok b else view_value v k'.
Proof.
  intros (_ & _ & Hb & [[-> E]|(o & un & _ & Hu & Hp & _)])%Insert_inv.
  - case_decide; by subst.
  - by apply (put_value v v' k b un k').
Qed.

Lemma Insert_failed k b v e v' : TStateView_Insert k b v = (Err e, v') -> v' = v.
Proof.
  unfold TStateView_Insert. cbv zeta. intros E. by repeat (case_match; simplify_eq/=).
Qed.

#[export] Instance TStateView_Laws : MutableLaws TStateView.
Proof.
  split; unfold GetValue, Insert; simpl; unfold TStateView_GetValue; intros s k v.
  - intros s' E. pose proof (Insert_inv _ _ _ _ E) as (Hs & _ & (_ & Hsc & _) & _).
    unfold checkScope, Keys_Has in *. rewrite Hsc, (Write_Read _ Hs). simpl.
    rewrite (Insert_value _ _ _ _ k E). by rewrite decide_True.
  - intros s' k' E Hk. pose proof (Insert_inv _ _ _ _ E) as (_ & _ & (_ & Hsc & _) & _).
    unfold checkScope. rewrite Hsc, (Insert_value _ _ _ _ k' E). by rewrite decide_False.
  - intros e s'. apply Insert_failed.
Qed.

(** ** Rolling back *)

(** Writes: sequences of accepted inserts and removals. *)
Inductive view_step (v v' : TStateView) : Prop :=
| step_insert k b : TStateView_Insert k b v = (Ok tt, v') -> view_step v v'
| step_remove k : TStateView_Remove k v = (Ok tt, v') -> view_step v v'.

(** Views with the same pending changes: what reads and [Commit] depend on.
    The [allocates] bookkeeping is left out. *)
Definition same_changes (v v' : TStateView) : Prop :=
  same_base v v' /\ v_pending v' = v_pending v /\ v_writes v' = v_writes v.

#[export] Instance same_changes_equivalence : Equivalence same_changes.
Proof. unfold same_changes, same_base. split; repeat intro; intuition congruence. Qed.

#[export] Instance undo_proper o : Proper (same_changes ==> same_changes) (undo o).
Proof.
  intros v v' ((E1 & E2 & E3) & Ep & Ew). unfold undo. rewrite Ep, Ew.
  by destruct (op_t o), (op_pastWrites o).
Qed.

Lemma undo_all_proper l v v' :
  same_changes v v' ->
  same_changes (foldl (fun v o => undo o v) v l) (foldl (fun v o => undo o v) v' l).
Proof. revert v v'. induction l as [|o l IH]; intros v v' E; simpl; [done|]. apply IH. by rewrite E. Qed.

Lemma same_changes_value v v' k : same_changes v v' -> view_value v' k = view_value v k.
Proof. intros (Hb & Hp & _). unfold view_value. by rewrite Hp, (same_base_parent v v' k Hb). Qed.

(** Every pending change has its size recorded. *)
Definition consistent (v : TStateView) : Prop :=
  forall k, v_pending v !! k = None <-> v_writes v !! k = None.

Lemma NewView_consistent ts scope storage : consistent (TState_NewView ts scope storage).
Proof. by intros k. Qed.

(** One journalled operation: it changes one key, and remembers what was
    there. *)
Record journalled (v v' : TStateView) (o : op) : Prop := {
  j_base : same_base v v';
  j_ops : v_ops v' = v_ops v ++ [o];
  j_pending k : k <> op_k o -> v_pending v' !! k = v_pending v !! k;
  j_writes k : k <> op_k o -> v_writes v' !! k = v_writes v !! k;
  j_both : v_pending v' !! op_k o = None <-> v_writes v' !! op_k o = None;
  j_past_writes : op_pastWrites o = v_writes v !! op_k o;
  j_past : match op_t o with
           | createOp => view_value v (op_k o) = Err ErrNotFound
           | _ => view_value v (op_k o) = Ok (op_pastV o)
           end;
}.

Lemma insert_journalled k b v v' :
  TStateView_Insert k b v = (Ok tt, v') -> v' = v \/ exists o, journalled v v' o.
Proof.
  intros (_ & _ & Hb & [[-> _]|(o & un & Ho & _ & Hp & Hk & Hpw & Hw & Ht)])%Insert_inv; [by left|].
  right. exists o. unfold put in Hp. split; [done|done|..].
  - intros k' Hk'. rewrite Hp. by destruct un; simplify_map_eq.
  - intros k' Hk'. rewrite Hw. by destruct un; simplify_map_eq.
  - rewrite Hp, Hw, Hk. by destruct un; simplify_map_eq.
  - by rewrite Hk.
  - rewrite Hk. by destruct Ht as [[-> ?]|(-> & ? & _)].
Qed.

Lemma remove_journalled k v v' :
  TStateView_Remove k v = (Ok tt, v') -> v' = v \/ exists o, journalled v v' o.
Proof.
  unfold TStateView_Remove. destruct (checkScope v k Write); [|done]. cbn [negb].
  destruct (view_value v k) as [past|e] eqn:Ev; [|case_decide; [intros [= <-]; by left|done]].
  destruct (isUnchanged v k None) as [un|e]; [|done]. cbv zeta. intros E. right.
  exists (mkOp removeOp k past (v_allocates v !! k) (v_writes v !! k)).
  destruct un, (v_allocates v !! k); simplify_eq;
    (split; simpl; [done|done|..|done|done]; [intros k' Hk'; by simplify_map_eq..|by simplify_map_eq]).
Qed.

Lemma restore_lookup {A} (m m' : gmap bytes A) k o :
  (forall k', k' <> k -> m' !! k' = m !! k') -> m !! k = o ->
  match o with Some x => <[k := x]> m' | None => delete k m' end = m.
Proof.
  intros Hne <-. apply map_eq. intros k'. destruct (decide (k' = k)) as [->|Hk].
  - destruct (m !! k) eqn:E; by simplify_map_eq.
  - destruct (m !! k) eqn:E; simplify_map_eq; by rewrite Hne.
Qed.

(** The pending change of a key that was found with value [x]. *)
Lemma consistent_pending v k x :
  consistent v ->
  view_value v k = match x with Some b => Ok b | None => Err ErrNotFound end ->
  v_pending v !! k = match v_writes v !! k with Some _ => Some x | None => None end.
Proof.
  intros Hc. destruct (Hc k) as [H1 H2]. clear Hc. unfold view_value.
  destruct (v_pending v !! k) as [[y|]|], (v_writes v !! k), x; naive_solver.
Qed.

Lemma undo_journalled v v' o : consistent v -> journalled v v' o -> same_changes v (undo o v').
Proof.
  intros Hc [Hb _ Hp Hw _ Hpw Hpast].
  pose proof (restore_lookup _ _ _ _ Hw eq_refl) as Hrw.
  assert (exists x, v_pending v !! op_k o = match v_writes v !! op_k o with Some _ => Some x | None => None end
    /\ x = match op_t o with createOp => None | _ => Some (op_pastV o) end) as (x & Hx & Ex).
  { eexists. split; [|done]. apply consistent_pending; [done|]. by destruct (op_t o). }
  pose proof (restore_lookup _ _ _ _ Hp Hx) as Hrp.
  unfold undo. rewrite Hpw. rewrite Ex in Hrp.
  destruct (op_t o), (v_writes v !! op_k o); by repeat split; try apply Hb.
Qed.

Lemma journalled_consistent v v' o : consistent v -> journalled v v' o -> consistent v'.
Proof.
  intros Hc [_ _ Hp Hw Hboth _ _] k. destruct (decide (k = op_k o)) as [->|Hk]; [done|].
  by rewrite Hp, Hw.
Qed.

Lemma view_step_journalled v v' : view_step v v' -> v' = v \/ exists o, journalled v v' o.
Proof. intros [k b E|k E]; [by eapply insert_journalled|by eapply remove_journalled]. Qed.

(** Undoing all operations since a point gets back to it. *)
Lemma rtc_undo v v' :
  consistent v -> rtc view_step v v' ->
  consistent v' /\ exists l, v_ops v' = v_ops v ++ l /\
    same_changes v (foldl (fun v o => undo o v) v' (rev l)).
Proof.
  intros Hc Hsteps. revert Hc. induction Hsteps as [v|v v1 v' Hs _ IH]; intros Hc.
  - split; [done|]. exists []. by rewrite app_nil_r.
  - apply view_step_journalled in Hs as [->|[o Hj]]; [by apply IH|].
    destruct (IH (journalled_consistent _ _ _ Hc Hj)) as (Hc' & l & Hl & Hu). split; [done|].
    exists (o :: l). split; [by rewrite Hl, (j_ops _ _ _ Hj), <- app_assoc|].
    cbn [rev]. rewrite foldl_app. cbn [foldl]. rewrite <- Hu. by apply undo_journalled.
Qed.

Lemma Rollback_changes v v' :
  consistent v -> rtc view_step v v' ->
  same_changes v (Rollback (OpIndex v) v') /\ v_ops (Rollback (OpIndex v) v') = v_ops v.
Proof.
  intros Hc Hsteps. destruct (rtc_undo v v' Hc Hsteps) as (_ & l & Hl & Hu).
  unfold Rollback, OpIndex. rewrite Hl, drop_app_length, take_app_length. split; [|done].
  destruct Hu as (Hb & Hp & Hw). by repeat split; try apply Hb.
Qed.
