(* ===== verification/StorageKeys.v ===== *)
(** * State keys (storage/)

    The byte keys under which balances, markets and share balances are
    stored: storage/state.go, storage/storage.go and storage/market.go.  The
    buffers are built with [make] and [copy] as the code does; the lemmas give
    their closed form, and show that the key families are injective and never
    meet. *)

From S2P Require Import Prelude GoErrors Lib Consts.
#[local] Open Scope Z_scope.

(** The prefixes of storage/storage.go.  [BalancePrefix] is not the one of
    the consts package. *)
Definition BalancePrefix : Z := 0.
Definition MarketPrefix : Z := 1.
Definition ShareBalancePrefix : Z := 2.

(** storage/state.go: the key [GetBalance] and [SetBalance] use. *)
Definition BalanceKey (addr : bytes) : bytes :=
  let k := make_bytes (1 + AddressLen + Uint16Len) in
  let k := set_byte 0 Consts.BalancePrefix k in
  let k := copy_at 1 addr k in
  copy_at (1 + AddressLen) (be_put 2 BalanceChunks) k.

(** storage/storage.go: the key RPC reads and the sponsor's declared key. *)
Definition StateKeysBalance (addr : bytes) : bytes :=
  let key := make_bytes (1 + AddressLen) in
  let key := set_byte 0 BalancePrefix key in
  copy_at 1 addr key.

Definition AddressFromKey (key : bytes) : result bytes :=
  if decide (length key <> 1 + AddressLen)%nat then Err (ErrFresh "invalid key length")
  else if decide (nth 0 key 0 <> BalancePrefix) then Err (ErrFresh "invalid prefix")
  else Ok (copy_at 0 (drop 1 key) (make_bytes AddressLen)).

(** storage/market.go. *)
Definition MarketKey (marketID : Z) : bytes :=
  let key := make_bytes (1 + 8) in
  let key := set_byte 0 MarketPrefix key in
  copy_at 1 (be_put 8 marketID) key.

Definition ShareBalanceKey (marketID : Z) (user : bytes) (shareType : Z) : bytes :=
  let key := make_bytes (1 + 8 + AddressLen + 1) in
  let key := set_byte 0 ShareBalancePrefix key in
  let offset := 1%nat in
  let key := copy_at offset (be_put 8 marketID) key in
  let offset := (offset + 8)%nat in
  let key := copy_at offset user key in
  let offset := (offset + AddressLen)%nat in
  set_byte offset shareType key.

(** ** Closed forms *)

Lemma BalanceKey_eq addr :
  length addr = AddressLen -> BalanceKey addr = [3] ++ addr ++ [0; 1].
Proof.
  intros Hl. unfold BalanceKey, Uint16Len.
  change (set_byte 0 Consts.BalancePrefix (make_bytes (1 + AddressLen + 2)))
    with ([3] ++ make_bytes AddressLen ++ [0; 0]).
  rewrite (copy_at_app 1 [3] addr _ [0; 0]) by (rewrite ?Hl; done).
  change [0; 0] with ([0; 0] ++ []). rewrite app_assoc.
  rewrite (copy_at_app _ ([3] ++ addr) _ [0; 0] []) by (rewrite ?length_app, ?Hl; done).
  by rewrite <- app_assoc.
Qed.

Lemma StateKeysBalance_eq addr :
  length addr = AddressLen -> StateKeysBalance addr = [0] ++ addr.
Proof.
  intros Hl. unfold StateKeysBalance.
  change (set_byte 0 BalancePrefix (make_bytes (1 + AddressLen)))
    with ([0] ++ make_bytes AddressLen ++ []).
  rewrite (copy_at_app 1 [0] addr _ []) by (rewrite ?Hl; done).
  by rewrite app_nil_r.
Qed.

Lemma MarketKey_eq marketID : MarketKey marketID = [1] ++ be_put 8 marketID.
Proof. reflexivity. Qed.

Lemma ShareBalanceKey_eq marketID user shareType :
  length user = AddressLen ->
  ShareBalanceKey marketID user shareType = [2] ++ be_put 8 marketID ++ user ++ [shareType].
Proof.
  intros Hl. unfold ShareBalanceKey. cbv zeta.
  change (set_byte 0 ShareBalancePrefix (make_bytes (1 + 8 + AddressLen + 1)))
    with ([2] ++ make_bytes 8 ++ (make_bytes AddressLen ++ [0])).
  rewrite (copy_at_app 1 [2] (be_put 8 marketID) _ (make_bytes AddressLen ++ [0])) by done.
  rewrite app_assoc.
  rewrite (copy_at_app _ ([2] ++ be_put 8 marketID) user _ [0]) by (rewrite ?Hl; done).
  unfold set_byte. rewrite <- !app_assoc, !app_assoc.
  rewrite insert_app_r_alt by (rewrite !length_app, length_be_put, Hl; simpl; lia).
  rewrite !length_app, length_be_put, Hl. done.
Qed.

(** ** Lengths *)

Lemma length_BalanceKey addr : length addr = AddressLen -> length (BalanceKey addr) = 36%nat.
Proof. intros Hl. rewrite BalanceKey_eq, !length_app, Hl by done. done. Qed.

Lemma length_StateKeysBalance addr :
  length addr = AddressLen -> length (StateKeysBalance addr) = 34%nat.
Proof. intros Hl. rewrite StateKeysBalance_eq, !length_app, Hl by done. done. Qed.

Lemma length_MarketKey marketID : length (MarketKey marketID) = 9%nat.
Proof. done. Qed.

Lemma length_ShareBalanceKey marketID user shareType :
  length user = AddressLen -> length (ShareBalanceKey marketID user shareType) = 43%nat.
Proof.
  intros Hl. rewrite ShareBalanceKey_eq, !length_app, length_be_put, Hl by done. done.
Qed.

(** ** Injectivity *)

Lemma BalanceKey_inj a b :
  length a = AddressLen -> length b = AddressLen -> BalanceKey a = BalanceKey b -> a = b.
Proof.
  intros Ha Hb. rewrite !BalanceKey_eq by done. intros E.
  apply app_inj_1 in E as [_ E]; [|done]. by apply app_inj_1 in E as [-> _]; [|by rewrite Ha, Hb].
Qed.

Lemma MarketKey_inj m n : is_u64 m -> is_u64 n -> MarketKey m = MarketKey n -> m = n.
Proof.
  intros Hm Hn. rewrite !MarketKey_eq. intros E. apply app_inj_1 in E as [_ E]; [|done].
  by apply be_put8_inj.
Qed.

Lemma ShareBalanceKey_inj m n a b t u :
  is_u64 m -> is_u64 n -> length a = AddressLen -> length b = AddressLen ->
  ShareBalanceKey m a t = ShareBalanceKey n b u -> m = n /\ a = b /\ t = u.
Proof.
  intros Hm Hn Ha Hb. rewrite !ShareBalanceKey_eq by done. intros E.
  apply app_inj_1 in E as [_ E]; [|done].
  apply app_inj_1 in E as [Emn E]; [|by rewrite !length_be_put].
  apply app_inj_1 in E as [-> E]; [|by rewrite Ha, Hb].
  apply be_put8_inj in Emn; [|done|done]. by simplify_eq.
Qed.

(** ** The families are disjoint *)

Lemma BalanceKey_MarketKey a m : length a = AddressLen -> BalanceKey a <> MarketKey m.
Proof.
  intros Ha E. apply (f_equal length) in E. by rewrite length_BalanceKey, length_MarketKey in E.
Qed.

Lemma BalanceKey_ShareBalanceKey a m b t :
  length a = AddressLen -> length b = AddressLen -> BalanceKey a <> ShareBalanceKey m b t.
Proof.
  intros Ha Hb E. apply (f_equal length) in E.
  by rewrite length_BalanceKey, length_ShareBalanceKey in E.
Qed.

Lemma MarketKey_ShareBalanceKey m n b t :
  length b = AddressLen -> MarketKey m <> ShareBalanceKey n b t.
Proof.
  intros Hb E. apply (f_equal length) in E.
  by rewrite length_MarketKey, length_ShareBalanceKey in E.
Qed.

Lemma StateKeysBalance_BalanceKey a b :
  length a = AddressLen -> length b = AddressLen -> StateKeysBalance a <> BalanceKey b.
Proof.
  intros Ha Hb E. apply (f_equal length) in E.
  by rewrite length_StateKeysBalance, length_BalanceKey in E.
Qed.

Lemma StateKeysBalance_MarketKey a m :
  length a = AddressLen -> StateKeysBalance a <> MarketKey m.
Proof.
  intros Ha E. apply (f_equal length) in E.
  by rewrite length_StateKeysBalance, length_MarketKey in E.
Qed.

Lemma StateKeysBalance_ShareBalanceKey a m b t :
  length a = AddressLen -> length b = AddressLen -> StateKeysBalance a <> ShareBalanceKey m b t.
Proof.
  intros Ha Hb E. apply (f_equal length) in E.
  by rewrite length_StateKeysBalance, length_ShareBalanceKey in E.
Qed.

#[export] Hint Resolve BalanceKey_MarketKey BalanceKey_ShareBalanceKey
  MarketKey_ShareBalanceKey StateKeysBalance_BalanceKey StateKeysBalance_MarketKey
  StateKeysBalance_ShareBalanceKey : vm.

#[global] Opaque BalanceKey StateKeysBalance MarketKey ShareBalanceKey.
