(* ===== verification/Balances.v ===== *)
(** * Native token balances (storage/storage.go, storage/state.go)

    Reading and writing the balance of an address, over any [Mutable] store,
    and the balance read the RPC server serves. *)

From S2P Require Import Prelude GoErrors Lib Consts Packer Store StorageKeys.
#[local] Open Scope Z_scope.

(** storage/errors.go and storage/storage.go. *)
Definition ErrInvalidAddress : error := ErrVar "storage.ErrInvalidAddress" "invalid address".
Definition ErrInvalidBalance : error := ErrVar "storage.ErrInvalidBalance" "invalid balance".
Definition ErrInsufficientBalance : error :=
  ErrVar "storage.ErrInsufficientBalance" "insufficient balance".

(** Decoding shared by [GetBalance] and [GetShareBalance]: a required
    [uint64] read from a reader over the whole value. *)
Definition read_required_uint64 (valBytes : bytes) : Z * option error :=
  let reader := NewReader valBytes (Z.of_nat (length valBytes)) in
  let '(balance, reader) := UnpackUint64 true reader in
  (balance, p_Err reader).

Section reads.
Context {S : Type} `{Immutable S}.

Definition GetBalance (im : S) (addr : bytes) : result Z :=
  let key := BalanceKey addr in
  match GetValue im key with
  | Err err => if errors_Is err ErrNotFound then Ok 0 else Err err
  | Ok valBytes =>
      if decide (length valBytes = 0%nat) then Ok 0
      else
        match read_required_uint64 valBytes with
        | (_, Some errs) => Err errs
        | (balance, None) => Ok balance
        end
  end.

Definition EnsureActorHasBalance (im : S) (actor : bytes) (required : Z) : result unit :=
  bal ← GetBalance im actor;
  if bal <? required then Err ErrInsufficientBalance else Ok tt.
End reads.

Section operations.
Context {S : Type} `{Mutable S}.

Definition SetBalance (addr : bytes) (amount : Z) : GoM S unit :=
  let key := BalanceKey addr in
  let writer := NewWriter 8 8 in
  let writer := PackUint64 amount writer in
  match p_Err writer with
  | Some errs => fail errs
  | None => Insert key (Bytes writer)
  end.

Definition DeductBalance (addr : bytes) (amount : Z) : GoM S unit :=
  currentBalance ← reading (fun mu => GetBalance mu addr);
  fail_if (currentBalance <? amount) ErrInsufficientBalance;;
  let newBalance := u64 (currentBalance - amount) in
  SetBalance addr newBalance.

Definition AddBalance (addr : bytes) (amount : Z) : GoM S unit :=
  currentBalance ← reading (fun mu => GetBalance mu addr);
  let newBalance := u64 (currentBalance + amount) in
  SetBalance addr newBalance.
End operations.

(** ** RPC reads *)

(** [type ReadState func(ctx, [][]byte) ([][]byte, []error)]. *)
Definition ReadState : Type := list bytes -> list bytes * list (option error).

Definition innerGetBalance (v : bytes) (err : option error) : Z * bool * option error :=
  match err with
  | Some err => if errors_Is err ErrNotFound then (0, false, None) else (0, false, Some err)
  | None =>
      match ParseUInt64 v with
      | Err err => (0, false, Some err)
      | Ok val => (val, true, None)
      end
  end.

(** Indexing an empty reply panics. *)
Definition index_out_of_range : error := ErrFresh "runtime error: index out of range [0] with length 0".

Definition GetBalanceFromState (f : ReadState) (addr : bytes) : outcome (Z * option error) :=
  let k := StateKeysBalance addr in
  let '(values, errs) := f [k] in
  match values !! 0%nat, errs !! 0%nat with
  | Some v, Some err => let '(bal, _, err) := innerGetBalance v err in Returns (bal, err)
  | _, _ => Panics index_out_of_range
  end.

(** The [ReadState] of a node whose committed state is [s]. *)
Definition node_ReadState {S} `{Immutable S} (s : S) : ReadState := fun keys =>
  (map (fun k => match GetValue s k with Ok v => v | Err _ => [] end) keys,
   map (fun k => match GetValue s k with Ok _ => None | Err e => Some e end) keys).

(** ** Reading and writing *)

Lemma read_required_uint64_long b :
  (8 <= length b)%nat ->
  read_required_uint64 b =
    (be_get (take 8 b),
     if be_get (take 8 b) =? 0
     then Some (Errorf_w "" ErrFieldNotPopulated ": Uint64 field is not populated")
     else None).
Proof.
  intros Hl. unfold read_required_uint64. rewrite UnpackUint64_required by done.
  simpl. by destruct (be_get (take 8 b) =? 0).
Qed.

Lemma read_required_uint64_short b :
  (length b < 8)%nat -> read_required_uint64 b = (0, Some ErrInsufficientLength).
Proof.
  intros Hl. unfold read_required_uint64.
  destruct (UnpackUint64_short b (Z.of_nat (length b)) true Hl) as [E1 E2].
  destruct (UnpackUint64 true _) as [v p]. simpl in *. by rewrite E1, E2.
Qed.

Lemma read_required_uint64_put v :
  is_u64 v ->
  read_required_uint64 (be_put 8 v) =
    (v, if v =? 0 then Some (Errorf_w "" ErrFieldNotPopulated ": Uint64 field is not populated")
        else None).
Proof.
  intros Hv. rewrite read_required_uint64_long by done.
  rewrite take_ge by (rewrite length_be_put; lia). by rewrite be_get_put8.
Qed.

Lemma read_required_uint64_bound b v :
  wf_bytes b -> read_required_uint64 b = (v, None) -> is_u64 v.
Proof.
  intros Hw. destruct (decide (length b < 8)%nat).
  - by rewrite read_required_uint64_short.
  - rewrite read_required_uint64_long by lia. case_match; [done|]. intros [= <-].
    apply be_get_u64; [auto with vm|rewrite length_take; lia].
Qed.

(** The error of a required read is never a missing key. *)
Lemma read_required_uint64_error b v e :
  read_required_uint64 b = (v, Some e) -> errors_Is e ErrNotFound = false.
Proof.
  destruct (decide (length b < 8)%nat).
  - rewrite read_required_uint64_short by done. by intros [= _ <-].
  - rewrite read_required_uint64_long by lia. case_match; by intros [= _ <-].
Qed.

Section balance_reads.
Context {S : Type} `{Immutable S}.

(** What a balance key that holds eight bytes reads as. *)
Lemma GetBalance_stored (s : S) addr v :
  is_u64 v -> GetValue s (BalanceKey addr) = Ok (be_put 8 v) ->
  GetBalance s addr =
    if v =? 0 then Err (Errorf_w "" ErrFieldNotPopulated ": Uint64 field is not populated")
    else Ok v.
Proof.
  intros Hv E. unfold GetBalance. rewrite E. rewrite decide_False by (by rewrite length_be_put).
  rewrite read_required_uint64_put by done. by destruct (v =? 0).
Qed.
End balance_reads.

Section lemmas.
Context {S : Type} `{MutableLaws S}.

Lemma SetBalance_eq addr amount :
  SetBalance addr amount = Insert (BalanceKey addr) (be_put 8 amount).
Proof.
  unfold SetBalance. destruct (PackUint64_bytes amount) as [Hb He]. by rewrite He, Hb.
Qed.

Lemma GetBalance_missing s addr :
  GetValue s (BalanceKey addr) = Err ErrNotFound -> GetBalance s addr = Ok 0.
Proof. intros E. unfold GetBalance. by rewrite E. Qed.

Lemma GetBalance_same_value s s' addr :
  GetValue s' (BalanceKey addr) = GetValue s (BalanceKey addr) ->
  GetBalance s' addr = GetBalance s addr.
Proof. intros E. unfold GetBalance. by rewrite E. Qed.

(** A successful write touches the one key. *)
Lemma SetBalance_frame s addr amount s' k :
  SetBalance addr amount s = (Ok tt, s') -> BalanceKey addr <> k ->
  GetValue s' k = GetValue s k.
Proof. rewrite SetBalance_eq. intros E Hk. by eapply insert_get_ne. Qed.

Lemma SetBalance_stored s addr amount s' :
  SetBalance addr amount s = (Ok tt, s') ->
  GetValue s' (BalanceKey addr) = Ok (be_put 8 amount).
Proof. rewrite SetBalance_eq. apply insert_get. Qed.

Lemma GetBalance_bound s addr v :
  (forall b, GetValue s (BalanceKey addr) = Ok b -> wf_bytes b) ->
  GetBalance s addr = Ok v -> is_u64 v.
Proof.
  intros Hw. unfold GetBalance. destruct (GetValue s (BalanceKey addr)) as [b|e] eqn:E.
  - case_decide; [intros [= <-]; int_lia|].
    destruct (read_required_uint64 b) as [w [e|]] eqn:Er; [done|]. intros [= <-].
    by eapply read_required_uint64_bound, Er; apply Hw.
  - case_match; [|done]. intros [= <-]. int_lia.
Qed.

(** The two updates, on every branch. *)
Lemma DeductBalance_ok s addr amount v :
  GetBalance s addr = Ok v -> amount <= v ->
  DeductBalance addr amount s = Insert (BalanceKey addr) (be_put 8 (u64 (v - amount))) s.
Proof.
  intros Hv Ha. unfold DeductBalance. erewrite run_bind_ok by (unfold reading; by rewrite Hv).
  rewrite run_fail_if_false by (apply Z.ltb_ge; lia). by rewrite SetBalance_eq.
Qed.

Lemma DeductBalance_insufficient s addr amount v :
  GetBalance s addr = Ok v -> v < amount ->
  DeductBalance addr amount s = (Err ErrInsufficientBalance, s).
Proof.
  intros Hv Ha. unfold DeductBalance. erewrite run_bind_ok by (unfold reading; by rewrite Hv).
  by rewrite run_fail_if_true by (apply Z.ltb_lt; lia).
Qed.

Lemma DeductBalance_read_error s addr amount e :
  GetBalance s addr = Err e -> DeductBalance addr amount s = (Err e, s).
Proof. intros Hv. unfold DeductBalance. apply run_bind_err. unfold reading. by rewrite Hv. Qed.

Lemma AddBalance_ok s addr amount v :
  GetBalance s addr = Ok v ->
  AddBalance addr amount s = Insert (BalanceKey addr) (be_put 8 (u64 (v + amount))) s.
Proof.
  intros Hv. unfold AddBalance. erewrite run_bind_ok by (unfold reading; by rewrite Hv).
  by rewrite SetBalance_eq.
Qed.

Lemma AddBalance_read_error s addr amount e :
  GetBalance s addr = Err e -> AddBalance addr amount s = (Err e, s).
Proof. intros Hv. unfold AddBalance. apply run_bind_err. unfold reading. by rewrite Hv. Qed.

Lemma DeductBalance_inv s addr amount s' :
  DeductBalance addr amount s = (Ok tt, s') ->
  exists v, GetBalance s addr = Ok v /\ amount <= v /\
    Insert (BalanceKey addr) (be_put 8 (u64 (v - amount))) s = (Ok tt, s').
Proof.
  intros E. destruct (GetBalance s addr) as [v|e] eqn:Ev.
  - destruct (Z.lt_ge_cases v amount) as [Hlt|Hge].
    + rewrite (DeductBalance_insufficient _ _ _ _ Ev Hlt) in E. done.
    + rewrite (DeductBalance_ok _ _ _ _ Ev Hge) in E. eauto.
  - by rewrite (DeductBalance_read_error _ _ _ _ Ev) in E.
Qed.
End lemmas.
