(* ===== verification/Markets.v ===== *)
(** * Markets and share balances (storage/market.go)

    The market record with its serialized form, and the share balances of
    users, over any [Mutable] store. *)

From S2P Require Import Prelude GoErrors Lib Consts Packer LinearCodec Store StorageKeys Balances.
#[local] Open Scope Z_scope.

(** ** Enumerations

    Both are [uint8] values: a stored market may carry any byte. *)

Definition MarketStatus_Open : Z := 0.
Definition MarketStatus_TradingClosed : Z := 1.
Definition MarketStatus_ResolvedYes : Z := 2.
Definition MarketStatus_ResolvedNo : Z := 3.

Definition MarketStatus_String (ms : Z) : string :=
  if ms =? MarketStatus_Open then "Open"
  else if ms =? MarketStatus_TradingClosed then "TradingClosed"
  else if ms =? MarketStatus_ResolvedYes then "ResolvedYes"
  else if ms =? MarketStatus_ResolvedNo then "ResolvedNo"
  else "UnknownMarketStatus:" +:+ fmt_d ms.

Definition Outcome_Pending : Z := 0.
Definition Outcome_Yes : Z := 1.
Definition Outcome_No : Z := 2.
Definition Outcome_Invalid : Z := 3.

Definition OutcomeType_String (ot : Z) : string :=
  if ot =? Outcome_Pending then "Pending"
  else if ot =? Outcome_Yes then "Yes"
  else if ot =? Outcome_No then "No"
  else if ot =? Outcome_Invalid then "Invalid"
  else "UnknownOutcomeType:" +:+ fmt_d ot.

(** ** The market *)

Record Market := mkMarket {
  ID : Z;
  Description : string;
  Status : Z;
  Creator : bytes;
  EndTime : Z;
  ResolutionTime : Z;
  TotalYesShares : Z;
  TotalNoShares : Z;
  OracleType : Z;
  OracleSource : string;
  OracleParameters : bytes;
  ResolvedOutcome : Z;
}.

#[export] Instance Market_eq_dec : EqDecision Market.
Proof. solve_decision. Defined.

(** The tagged fields, in order: to marshal ... *)
Definition Market_values (m : Market) : list value :=
  [VUint64 (ID m); VString (Description m); VUint8 (Status m); VByteArray (Creator m);
   VInt64 (EndTime m); VInt64 (ResolutionTime m);
   VUint64 (TotalYesShares m); VUint64 (TotalNoShares m);
   VUint8 (OracleType m); VString (OracleSource m); VByteSlice (OracleParameters m);
   VUint8 (ResolvedOutcome m)].

(** ... and to unmarshal into [&Market{}]. *)
Definition Market_kinds : list kind :=
  [KUint64; KString; KUint8; KByteArray AddressLen; KInt64; KInt64; KUint64; KUint64;
   KUint8; KString; KByteSlice; KUint8].

Definition Market_assign (vs : list (option value)) : Market := {|
  ID := field_Z 0 vs 0;
  Description := field_string "" vs 1;
  Status := field_Z 0 vs 2;
  Creator := field_bytes EmptyAddress vs 3;
  EndTime := field_Z 0 vs 4;
  ResolutionTime := field_Z 0 vs 5;
  TotalYesShares := field_Z 0 vs 6;
  TotalNoShares := field_Z 0 vs 7;
  OracleType := field_Z 0 vs 8;
  OracleSource := field_string "" vs 9;
  OracleParameters := field_bytes [] vs 10;
  ResolvedOutcome := field_Z 0 vs 11;
|}.

(** The values of the Go type [Market] whose strings the codec can carry. *)
Definition wf_market (m : Market) : Prop :=
  is_u64 (ID m) /\ len_string (Description m) <= MaxStringLen /\ is_u8 (Status m) /\
  wf_addr (Creator m) /\ is_i64 (EndTime m) /\ is_i64 (ResolutionTime m) /\
  is_u64 (TotalYesShares m) /\ is_u64 (TotalNoShares m) /\ is_u8 (OracleType m) /\
  len_string (OracleSource m) <= MaxStringLen /\
  (wf_bytes (OracleParameters m) /\ Z.of_nat (length (OracleParameters m)) <= MaxInt32) /\
  is_u8 (ResolvedOutcome m).

#[export] Instance wf_market_dec m : Decision (wf_market m).
Proof. unfold wf_market. apply _. Defined.

Section reads.
Context {S : Type} `{Immutable S} `{Hashing}.

Definition GetMarket (im : S) (marketID : Z) : result Market :=
  let key := MarketKey marketID in
  match GetValue im key with
  | Err err =>
      if errors_Is err ErrNotFound
      then Err (Errorf_w ("market " +:+ fmt_d marketID +:+ " not found: ") err "")
      else Err err
  | Ok valBytes =>
      if decide (length valBytes = 0%nat)
      then Err (ErrFresh ("market " +:+ fmt_d marketID +:+ " found but value is empty"))
      else
        let reader := NewReader valBytes MaxMarketDataSize in
        match UnmarshalFrom Market_kinds reader with
        | (_, Some err, _) =>
            Err (Errorf_w ("failed to unmarshal market " +:+ fmt_d marketID
                           +:+ " using LinearCodec: ") err "")
        | (market, None, reader) =>
            match p_Err reader with
            | Some err =>
                Err (Errorf_w ("reader error after unmarshaling market "
                               +:+ fmt_d marketID +:+ ": ") err "")
            | None => Ok (Market_assign market)
            end
        end
  end.

(** The [%d, user %s, type %d] part of the share messages. *)
Definition share_place (marketID : Z) (user : bytes) (shareType : Z) : string :=
  "market " +:+ fmt_d marketID +:+ ", user " +:+ Address_String user
  +:+ ", type " +:+ fmt_d shareType.

Definition GetShareBalance (im : S) (marketID : Z) (user : bytes) (shareType : Z) : result Z :=
  let key := ShareBalanceKey marketID user shareType in
  match GetValue im key with
  | Err err => if errors_Is err ErrNotFound then Ok 0 else Err err
  | Ok valBytes =>
      if decide (length valBytes = 0%nat) then Ok 0
      else
        match read_required_uint64 valBytes with
        | (_, Some errs) =>
            Err (Errorf_w ("failed to unpack share balance for "
                           +:+ share_place marketID user shareType +:+ ": ") errs "")
        | (balance, None) => Ok balance
        end
  end.
End reads.

Section operations.
Context {S : Type} `{Mutable S} `{Hashing}.

Definition SetMarket (market : Market) : GoM S unit :=
  let key := MarketKey (ID market) in
  let writer := NewWriter 0 MaxMarketDataSize in
  match MarshalInto (Market_values market) writer with
  | (Some err, _) =>
      fail (Errorf_w ("failed to marshal market " +:+ fmt_d (ID market)
                      +:+ " using LinearCodec: ") err "")
  | (None, writer) =>
      match p_Err writer with
      | Some err =>
          fail (Errorf_w ("writer error after marshaling market "
                          +:+ fmt_d (ID market) +:+ ": ") err "")
      | None => Insert key (Bytes writer)
      end
  end.

Definition SetShareBalance (marketID : Z) (user : bytes) (shareType amount : Z) : GoM S unit :=
  let key := ShareBalanceKey marketID user shareType in
  let writer := NewWriter 8 8 in
  let writer := PackUint64 amount writer in
  match p_Err writer with
  | Some errs =>
      fail (Errorf_w ("failed to pack share balance for "
                      +:+ share_place marketID user shareType +:+ ": ") errs "")
  | None => Insert key (Bytes writer)
  end.

(** The message both updates wrap a failed read in. *)
Definition current_share_error (marketID : Z) (user : bytes) (shareType : Z) (err : error) : error :=
  Errorf_w ("failed to get current share balance for user " +:+ Address_String user
            +:+ ", market " +:+ fmt_d marketID +:+ ", type " +:+ fmt_d shareType +:+ ": ") err "".

Definition AddShares (marketID : Z) (user : bytes) (shareType amountToAdd : Z) : GoM S unit :=
  currentShares ← on_error (current_share_error marketID user shareType)
    (reading (fun mu => GetShareBalance mu marketID user shareType));
  let newShares := u64 (currentShares + amountToAdd) in
  SetShareBalance marketID user shareType newShares.

Definition insufficient_shares (marketID : Z) (user : bytes) (shareType has needs : Z) : error :=
  ErrFresh ("insufficient " +:+ ShareTypeToString shareType +:+ " shares for user "
            +:+ Address_String user +:+ " in market " +:+ fmt_d marketID
            +:+ " (has " +:+ fmt_d has +:+ ", needs " +:+ fmt_d needs +:+ ")").

Definition DeductShares (marketID : Z) (user : bytes) (shareType amountToDeduct : Z) : GoM S unit :=
  currentShares ← on_error (current_share_error marketID user shareType)
    (reading (fun mu => GetShareBalance mu marketID user shareType));
  fail_if (currentShares <? amountToDeduct)
    (insufficient_shares marketID user shareType currentShares amountToDeduct);;
  let newShares := u64 (currentShares - amountToDeduct) in
  SetShareBalance marketID user shareType newShares.
End operations.

(** ** The serialized market *)

(** Bytes of the encoding: 84 plus the three variable parts. *)
Definition market_size (m : Market) : Z :=
  84 + len_string (Description m) + len_string (OracleSource m)
  + Z.of_nat (length (OracleParameters m)).

Definition market_bytes (m : Market) : bytes := encode (Market_values m).

Lemma length_market_bytes m :
  length (Creator m) = AddressLen -> Z.of_nat (length (market_bytes m)) = market_size m.
Proof.
  intros Hc. unfold market_bytes. rewrite length_encode. unfold market_size, Market_values.
  cbn [encoded_size foldr field_size]. rewrite Hc. unfold AddressLen. lia.
Qed.

Lemma wf_market_kinds m : wf_market m <-> Forall2 has_kind (Market_values m) Market_kinds.
Proof.
  unfold wf_market, wf_addr, Market_values, Market_kinds. split.
  - intros Hw. repeat (apply List.Forall2_cons; [cbn [has_kind]; tauto|]). apply List.Forall2_nil.
  - intros Hw. do 12 (let H := fresh in inversion_clear Hw as [|? ? ? ? H Hw']; rename Hw' into Hw).
    cbn [has_kind] in *. tauto.
Qed.

Lemma wf_market_packable m : wf_market m -> Forall packable (Market_values m).
Proof.
  rewrite wf_market_kinds. generalize (Market_values m) Market_kinds.
  induction 1; constructor; eauto using has_kind_packable.
Qed.

Lemma wf_market_creator m : wf_market m -> length (Creator m) = AddressLen.
Proof. unfold wf_market, wf_addr. tauto. Qed.

Lemma market_bytes_wf m : wf_market m -> wf_bytes (market_bytes m).
Proof. rewrite wf_market_kinds. apply encode_wf. Qed.

Lemma Market_assign_values m : Market_assign (Some <$> Market_values m) = m.
Proof. by destruct m. Qed.

(** Only markets have encodings of the market kinds. *)
Lemma Market_values_of_kinds vs :
  Forall2 has_kind vs Market_kinds -> exists m, vs = Market_values m /\ wf_market m.
Proof.
  intros Hk. assert (Hv : vs = Market_values (Market_assign (Some <$> vs))).
  { unfold Market_kinds in Hk.
    repeat match goal with
    | H : Forall2 has_kind _ (_ :: _) |- _ =>
        apply Forall2_cons_inv_r in H as (? & ? & ? & H & ->)
    | H : Forall2 has_kind _ [] |- _ => apply Forall2_nil_inv_r in H as ->
    | H : has_kind ?v _ |- _ => is_var v; destruct v; try done
    end. }
  exists (Market_assign (Some <$> vs)). split; [done|].
  apply wf_market_kinds. by rewrite <- Hv.
Qed.

Section market_reads.
Context {S : Type} `{Immutable S} `{Hashing}.

Lemma GetMarket_stored (s : S) id m rest :
  wf_market m -> GetValue s (MarketKey id) = Ok (market_bytes m ++ rest) ->
  GetMarket s id = Ok m.
Proof.
  intros Hw E. unfold GetMarket. rewrite E.
  rewrite decide_False.
  2: { pose proof (length_market_bytes m (wf_market_creator m Hw)) as Hl.
       unfold market_size, len_string in Hl. rewrite length_app. lia. }
  rewrite NewReader_reader. unfold market_bytes.
  rewrite (UnmarshalFrom_encode _ _ Market_kinds) by by apply wf_market_kinds.
  cbn [p_Err reader]. by rewrite Market_assign_values.
Qed.
End market_reads.

Section market_lemmas.
Context {S : Type} `{MutableLaws S} `{Hashing}.

(** [SetMarket] stores the encoding when it fits in the limit, and fails
    without touching the store when it does not. *)
Lemma SetMarket_fits m :
  wf_market m -> market_size m <= MaxMarketDataSize ->
  SetMarket m = Insert (MarketKey (ID m)) (market_bytes m).
Proof.
  intros Hw Hs. pose proof (length_market_bytes m (wf_market_creator m Hw)) as Hl.
  unfold SetMarket. rewrite MarshalInto_fits; [done|by apply wf_market_packable|].
  fold (market_bytes m). lia.
Qed.

Lemma SetMarket_overflow m s :
  wf_market m -> MaxMarketDataSize < market_size m ->
  exists w, SetMarket m s =
    (Err (Errorf_w ("failed to marshal market " +:+ fmt_d (ID m) +:+ " using LinearCodec: ") w ""), s)
    /\ w = ErrInsufficientLength.
Proof.
  intros Hw Hs. pose proof (length_market_bytes m (wf_market_creator m Hw)) as Hl.
  unfold SetMarket.
  pose proof (MarshalInto_overflow (Market_values m) 0 MaxMarketDataSize
    (wf_market_packable m Hw)) as Ho. fold (market_bytes m) in Ho.
  specialize (Ho ltac:(unfold MaxMarketDataSize in *; lia)).
  destruct (MarshalInto _ _) as [[err|] p]; simplify_eq/=. by eexists.
Qed.

(** A market that reads back is well formed and is a prefix of the value. *)
Lemma GetMarket_sound s id m :
  (forall b, GetValue s (MarketKey id) = Ok b -> wf_bytes b) ->
  GetMarket s id = Ok m ->
  wf_market m /\ exists rest, GetValue s (MarketKey id) = Ok (market_bytes m ++ rest).
Proof.
  intros Hw. unfold GetMarket. destruct (GetValue s (MarketKey id)) as [b|e] eqn:E; [|by case_match].
  case_decide; [done|]. rewrite NewReader_reader.
  destruct (UnmarshalFrom Market_kinds _) as [[ovs [err|]] p] eqn:Eu; [done|].
  apply UnmarshalFrom_sound in Eu as (vs & rest & -> & Hk & -> & ->); [|by apply Hw].
  apply Market_values_of_kinds in Hk as (m' & -> & Hw'). cbn [p_Err reader].
  rewrite Market_assign_values. intros [= <-]. split; [done|]. by exists rest.
Qed.

Lemma GetMarket_missing s id :
  GetValue s (MarketKey id) = Err ErrNotFound ->
  GetMarket s id = Err (Errorf_w ("market " +:+ fmt_d id +:+ " not found: ") ErrNotFound "").
Proof. intros E. unfold GetMarket. by rewrite E. Qed.

Lemma GetMarket_same_value s s' id :
  GetValue s' (MarketKey id) = GetValue s (MarketKey id) -> GetMarket s' id = GetMarket s id.
Proof. intros E. unfold GetMarket. by rewrite E. Qed.

(** [GetMarket] reports a missing key exactly when the key is missing. *)
Lemma GetMarket_not_found s id e :
  (forall b, GetValue s (MarketKey id) = Ok b -> wf_bytes b) ->
  GetMarket s id = Err e ->
  errors_Is e ErrNotFound = true <->
  exists e0, GetValue s (MarketKey id) = Err e0 /\ errors_Is e0 ErrNotFound = true.
Proof.
  intros Hw. unfold GetMarket. destruct (GetValue s (MarketKey id)) as [b|e0] eqn:E.
  - intros He. split; [|by intros (? & ? & ?)]. intros Hnf. exfalso. revert He.
    case_decide; [by intros [= <-]|]. rewrite NewReader_reader.
    destruct (UnmarshalFrom Market_kinds _) as [[ovs [err|]] p] eqn:Eu.
    + apply UnmarshalFrom_error in Eu; [|by apply Hw]. intros [= <-].
      rewrite errors_Is_Errorf_w in Hnf. by rewrite Eu in Hnf.
    + apply UnmarshalFrom_sound in Eu as (vs & rest & -> & Hk & -> & ->); [|by apply Hw]. done.
  - destruct (errors_Is e0 ErrNotFound) eqn:En; intros [= <-].
    + split; [eauto|]. intros _. by rewrite errors_Is_Errorf_w.
    + rewrite En. split; [done|]. intros (? & [= <-] & ?). congruence.
Qed.

(** *** Share balances *)

Lemma SetShareBalance_eq id user t amount :
  SetShareBalance id user t amount = Insert (ShareBalanceKey id user t) (be_put 8 amount).
Proof.
  unfold SetShareBalance. destruct (PackUint64_bytes amount) as [Hb He]. by rewrite He, Hb.
Qed.

Lemma GetShareBalance_missing s id user t :
  GetValue s (ShareBalanceKey id user t) = Err ErrNotFound -> GetShareBalance s id user t = Ok 0.
Proof. intros E. unfold GetShareBalance. by rewrite E. Qed.

Lemma GetShareBalance_stored s id user t v :
  is_u64 v -> GetValue s (ShareBalanceKey id user t) = Ok (be_put 8 v) ->
  GetShareBalance s id user t =
    if v =? 0 then
      Err (Errorf_w ("failed to unpack share balance for " +:+ share_place id user t +:+ ": ")
             (Errorf_w "" ErrFieldNotPopulated ": Uint64 field is not populated") "")
    else Ok v.
Proof.
  intros Hv E. unfold GetShareBalance. rewrite E. rewrite decide_False by (by rewrite length_be_put).
  rewrite read_required_uint64_put by done. by destruct (v =? 0).
Qed.

Lemma GetShareBalance_same_value s s' id user t :
  GetValue s' (ShareBalanceKey id user t) = GetValue s (ShareBalanceKey id user t) ->
  GetShareBalance s' id user t = GetShareBalance s id user t.
Proof. intros E. unfold GetShareBalance. by rewrite E. Qed.

(** The [ErrNotFound] the buy actions allow for never comes out. *)
Lemma GetShareBalance_error s id user t e :
  GetShareBalance s id user t = Err e -> errors_Is e ErrNotFound = false.
Proof.
  unfold GetShareBalance. destruct (GetValue s _) as [b|e0].
  - case_decide; [done|]. destruct (read_required_uint64 b) as [v [e0|]] eqn:E; [|done].
    intros [= <-]. apply read_required_uint64_error in E.
    by rewrite errors_Is_Errorf_w.
  - destruct (errors_Is e0 ErrNotFound) eqn:E; [done|]. by intros [= <-].
Qed.

Lemma GetShareBalance_bound s id user t v :
  (forall b, GetValue s (ShareBalanceKey id user t) = Ok b -> wf_bytes b) ->
  GetShareBalance s id user t = Ok v -> is_u64 v.
Proof.
  intros Hw. unfold GetShareBalance. destruct (GetValue s _) as [b|e] eqn:E.
  - case_decide; [intros [= <-]; int_lia|].
    destruct (read_required_uint64 b) as [w [e|]] eqn:Er; [done|]. intros [= <-].
    by eapply read_required_uint64_bound, Er; apply Hw.
  - case_match; [|done]. intros [= <-]. int_lia.
Qed.

Lemma AddShares_ok s id user t amount v :
  GetShareBalance s id user t = Ok v ->
  AddShares id user t amount s =
    Insert (ShareBalanceKey id user t) (be_put 8 (u64 (v + amount))) s.
Proof.
  intros Hv. unfold AddShares.
  erewrite run_bind_ok by (apply run_on_error_ok; unfold reading; by rewrite Hv).
  by rewrite SetShareBalance_eq.
Qed.

Lemma DeductShares_ok s id user t amount v :
  GetShareBalance s id user t = Ok v -> amount <= v ->
  DeductShares id user t amount s =
    Insert (ShareBalanceKey id user t) (be_put 8 (u64 (v - amount))) s.
Proof.
  intros Hv Ha. unfold DeductShares.
  erewrite run_bind_ok by (apply run_on_error_ok; unfold reading; by rewrite Hv).
  rewrite run_fail_if_false by (apply Z.ltb_ge; lia). by rewrite SetShareBalance_eq.
Qed.

Lemma DeductShares_insufficient s id user t amount v :
  GetShareBalance s id user t = Ok v -> v < amount ->
  DeductShares id user t amount s = (Err (insufficient_shares id user t v amount), s).
Proof.
  intros Hv Ha. unfold DeductShares.
  erewrite run_bind_ok by (apply run_on_error_ok; unfold reading; by rewrite Hv).
  by rewrite run_fail_if_true by (apply Z.ltb_lt; lia).
Qed.
End market_lemmas.
