(* ===== verification/Ledger.v ===== *)
(** * The ledger

    What the store means: three finite maps, from addresses to balances, from
    market IDs to markets, and from (market, user, share type) to share
    balances.  [represents] ties a store to the ledger it holds; the storage
    functions of storage/ are shown to implement reads and updates of it. *)

From S2P Require Import Prelude GoErrors Lib Consts Packer LinearCodec Store StorageKeys Balances Markets.
#[local] Open Scope Z_scope.

Record Ledger := mkLedger {
  balances : gmap bytes Z;
  markets : gmap Z Market;
  shares : gmap (Z * bytes * Z) Z;
}.

Definition empty_ledger : Ledger := mkLedger ∅ ∅ ∅.

Definition set_balance (a : bytes) (v : Z) (L : Ledger) : Ledger :=
  mkLedger (<[a := v]> (balances L)) (markets L) (shares L).
Definition set_market (id : Z) (m : Market) (L : Ledger) : Ledger :=
  mkLedger (balances L) (<[id := m]> (markets L)) (shares L).
Definition set_shares (id : Z) (a : bytes) (t v : Z) (L : Ledger) : Ledger :=
  mkLedger (balances L) (markets L) (<[(id, a, t) := v]> (shares L)).

(** The type invariant. *)
Definition wf_share_key (k : Z * bytes * Z) : Prop :=
  is_u64 k.1.1 /\ wf_addr k.1.2 /\ is_u8 k.2.

Definition wf_entry (id : Z) (m : Market) : Prop :=
  wf_market m /\ ID m = id /\ market_size m <= MaxMarketDataSize.

Record wf_ledger (L : Ledger) : Prop := {
  wl_balances : map_Forall (fun a v => wf_addr a /\ is_u64 v) (balances L);
  wl_markets : map_Forall wf_entry (markets L);
  wl_shares : map_Forall (fun k v => wf_share_key k /\ is_u64 v) (shares L);
}.

(** What the code reads from a counter: a missing one is 0, and a stored 0
    cannot be read. *)
Definition counter (o : option Z) : option Z :=
  match o with
  | None => Some 0
  | Some v => if v =? 0 then None else Some v
  end.

Lemma counter_None o : counter o = None -> o = Some 0.
Proof. destruct o as [v|]; simpl; [|done]. by destruct (Z.eqb_spec v 0) as [->|]. Qed.

Definition stored (o : option bytes) : result bytes :=
  match o with Some b => Ok b | None => Err ErrNotFound end.

(** The store [s] holds exactly the ledger [L] (and maybe values under keys
    of other shapes, such as the chain's own metadata). *)
Record represents {S} `{Immutable S} (s : S) (L : Ledger) : Prop := {
  rep_balance a : wf_addr a ->
    GetValue s (BalanceKey a) = stored (be_put 8 <$> balances L !! a);
  rep_market id : is_u64 id ->
    GetValue s (MarketKey id) = stored (market_bytes <$> markets L !! id);
  rep_shares id a t : is_u64 id -> wf_addr a ->
    GetValue s (ShareBalanceKey id a t) = stored (be_put 8 <$> shares L !! (id, a, t));
}.

#[export] Instance represents_proper {S} `{Immutable S} :
  Proper (same_reads ==> (=) ==> iff) (@represents S _).
Proof.
  assert (forall s1 s2 L, same_reads s1 s2 -> represents s1 L -> represents s2 L) as Himp.
  { intros s1 s2 L Es [Hb Hm Hs]. split; intros; rewrite <- Es; auto. }
  intros s1 s2 Es L ? <-. split; apply Himp; [done|by symmetry].
Qed.

(** ** Updates keep the type invariant *)

Section wf.
Context (L : Ledger) (Hwf : wf_ledger L).

Lemma wf_set_balance a v : wf_addr a -> is_u64 v -> wf_ledger (set_balance a v L).
Proof using Hwf. intros. destruct Hwf. split; simpl; [by apply map_Forall_insert_2|done..]. Qed.

Lemma wf_set_market id m : wf_entry id m -> wf_ledger (set_market id m L).
Proof using Hwf. intros. destruct Hwf. split; simpl; [done|by apply map_Forall_insert_2|done]. Qed.

Lemma wf_set_shares id a t v :
  is_u64 id -> wf_addr a -> is_u8 t -> is_u64 v -> wf_ledger (set_shares id a t v L).
Proof using Hwf.
  intros. destruct Hwf. split; simpl; auto. apply map_Forall_insert_2; [|done].
  unfold wf_share_key. by split_and!.
Qed.
End wf.

#[export] Hint Resolve wf_set_balance wf_set_market wf_set_shares : vm.

Lemma wf_empty_ledger : wf_ledger empty_ledger.
Proof. split; apply map_Forall_empty. Qed.

Lemma represents_empty : represents NewInMemoryStore empty_ledger.
Proof. by split. Qed.

(** ** Inserts update the ledger *)

Section update.
Context {S : Type} `{MutableLaws S}.
Implicit Types (s : S) (L : Ledger).

Lemma represents_set_balance s s' L a v :
  represents s L -> wf_addr a ->
  Insert (BalanceKey a) (be_put 8 v) s = (Ok tt, s') -> represents s' (set_balance a v L).
Proof.
  intros [Hb Hm Hs] [Ha Ha'] E. split; simpl.
  - intros b [Hl Hw]. rewrite (insert_lookup _ _ _ _ _ E). case_decide as Hk.
    + apply BalanceKey_inj in Hk as ->; [by simplify_map_eq|done..].
    + rewrite lookup_insert_ne by congruence. by apply Hb.
  - intros id Hid. rewrite (insert_get_ne _ _ _ _ _ E); auto with vm.
  - intros id b t Hid [Hl Hw]. rewrite (insert_get_ne _ _ _ _ _ E); [|auto with vm].
    by apply Hs.
Qed.

Lemma represents_set_market s s' L id m :
  represents s L -> is_u64 id ->
  Insert (MarketKey id) (market_bytes m) s = (Ok tt, s') -> represents s' (set_market id m L).
Proof.
  intros [Hb Hm Hs] Hid E. split; simpl.
  - intros b [Hl Hw]. rewrite (insert_get_ne _ _ _ _ _ E); [by apply Hb|].
    apply not_eq_sym. auto with vm.
  - intros id' Hid'. rewrite (insert_lookup _ _ _ _ _ E). case_decide as Hk.
    + apply MarketKey_inj in Hk as ->; [by simplify_map_eq|done..].
    + rewrite lookup_insert_ne by congruence. by apply Hm.
  - intros id' b t Hid' [Hl Hw]. rewrite (insert_get_ne _ _ _ _ _ E); [by apply Hs|auto with vm].
Qed.

Lemma represents_set_shares s s' L id a t v :
  represents s L -> is_u64 id -> wf_addr a ->
  Insert (ShareBalanceKey id a t) (be_put 8 v) s = (Ok tt, s') ->
  represents s' (set_shares id a t v L).
Proof.
  intros [Hb Hm Hs] Hid [Ha Ha'] E. split; simpl.
  - intros b [Hl Hw]. rewrite (insert_get_ne _ _ _ _ _ E); [by apply Hb|].
    apply not_eq_sym. auto with vm.
  - intros id' Hid'. rewrite (insert_get_ne _ _ _ _ _ E); [by apply Hm|].
    apply not_eq_sym. auto with vm.
  - intros id' b t' Hid' [Hl Hw]. rewrite (insert_lookup _ _ _ _ _ E). case_decide as Hk.
    + apply ShareBalanceKey_inj in Hk as (-> & -> & ->); [by simplify_map_eq|done..].
    + rewrite lookup_insert_ne by congruence. by apply Hs.
Qed.
End update.

(** ** Reads *)

Section reads.
Context {S : Type} `{MutableLaws S} `{Hashing}.
Context (s : S) (L : Ledger) (Hrep : represents s L) (Hwf : wf_ledger L).

Lemma balance_range a v : balances L !! a = Some v -> is_u64 v.
Proof using Hwf. intros E. by apply (wl_balances L Hwf) in E as []. Qed.

Lemma shares_range k v : shares L !! k = Some v -> is_u64 v.
Proof using Hwf. intros E. by apply (wl_shares L Hwf) in E as []. Qed.

Lemma rep_GetBalance a :
  wf_addr a ->
  match counter (balances L !! a) with
  | Some v => GetBalance s a = Ok v
  | None => exists e, GetBalance s a = Err e /\ errors_Is e ErrFieldNotPopulated = true
  end.
Proof using Hrep Hwf.
  intros Ha. pose proof (rep_balance s L Hrep a Ha) as E.
  destruct (balances L !! a) as [v|] eqn:El; simpl in *; [|by apply GetBalance_missing].
  rewrite (GetBalance_stored s a v (balance_range a v El) E).
  destruct (v =? 0); eauto.
Qed.

Lemma rep_GetShareBalance id a t :
  is_u64 id -> wf_addr a ->
  match counter (shares L !! (id, a, t)) with
  | Some v => GetShareBalance s id a t = Ok v
  | None => exists e, GetShareBalance s id a t = Err e /\ errors_Is e ErrFieldNotPopulated = true
  end.
Proof using Hrep Hwf.
  intros Hid Ha. pose proof (rep_shares s L Hrep id a t Hid Ha) as E.
  destruct (shares L !! (id, a, t)) as [v|] eqn:El; simpl in *; [|by apply GetShareBalance_missing].
  rewrite (GetShareBalance_stored s id a t v (shares_range _ v El) E).
  destruct (v =? 0); eauto.
Qed.

Lemma rep_GetMarket id :
  is_u64 id ->
  match markets L !! id with
  | Some m => GetMarket s id = Ok m
  | None => exists e, GetMarket s id = Err e /\ errors_Is e ErrNotFound = true
  end.
Proof using Hrep Hwf.
  intros Hid. pose proof (rep_market s L Hrep id Hid) as E.
  destruct (markets L !! id) as [m|] eqn:El; simpl in *.
  - apply (GetMarket_stored s id m []); [|by rewrite app_nil_r].
    by apply (wl_markets L Hwf) in El as [].
  - rewrite GetMarket_missing by done. eauto.
Qed.

(** A ledger is determined by the store that holds it. *)
Lemma counter_range o v : (forall w, o = Some w -> is_u64 w) -> counter o = Some v -> is_u64 v.
Proof.
  destruct o as [w|]; simpl; [|by intros ? [= <-]]. case_match; [done|].
  intros Hw [= <-]. by apply Hw.
Qed.

Lemma balance_counter_range a v : counter (balances L !! a) = Some v -> is_u64 v.
Proof using Hwf. apply counter_range. intros w. apply balance_range. Qed.

Lemma shares_counter_range k v : counter (shares L !! k) = Some v -> is_u64 v.
Proof using Hwf. apply counter_range. intros w. apply shares_range. Qed.
End reads.
