(* ===== verification/Controller.v ===== *)
(** * The balance handler (controller/controller.go)

    [chain.BalanceHandler] as an interface with its contract, stated on the
    ledger, and [Controller], which meets it for the native token.  The
    refinement lemmas of the storage functions it calls are here as well. *)

From S2P Require Import Prelude GoErrors Lib Consts Packer Store Permissions StorageKeys Balances Markets Ledger.
#[local] Open Scope Z_scope.

(** ** The interface (hypersdk/chain/dependencies.go) *)

Class BalanceHandler (H : Type) := {
  SponsorStateKeys : H -> bytes -> gmap bytes Z;
  CanDeduct {S} `{Mutable S} : H -> bytes -> Z -> S -> result unit;
  Deduct {S} `{Mutable S} : H -> bytes -> Z -> GoM S unit;
  Handler_AddBalance {S} `{Mutable S} : H -> bytes -> Z -> GoM S unit;
  Handler_GetBalance {S} `{Mutable S} : H -> bytes -> S -> result Z;
}.

(** ** The controller *)

Inductive Controller := New.

Definition Controller_SponsorStateKeys (c : Controller) (addr : bytes) : gmap bytes Z :=
  let key := StateKeysBalance addr in
  <[key := Read]> ∅.

Section operations.
Context {S : Type} `{Mutable S}.

Definition Controller_CanDeduct (c : Controller) (addr : bytes) (amount : Z) (im : S) : result unit :=
  bal ← GetBalance im addr;
  if bal <? amount then Err ErrInsufficientBalance else Ok tt.

Definition Controller_Deduct (c : Controller) (addr : bytes) (amount : Z) : GoM S unit :=
  DeductBalance addr amount.

Definition Controller_AddBalance (c : Controller) (addr : bytes) (amount : Z) : GoM S unit :=
  AddBalance addr amount.

Definition Controller_GetBalance (c : Controller) (addr : bytes) (im : S) : result Z :=
  GetBalance im addr.
End operations.

#[export] Instance Controller_BalanceHandler : BalanceHandler Controller := {|
  SponsorStateKeys := Controller_SponsorStateKeys;
  CanDeduct S _ := Controller_CanDeduct;
  Deduct S _ := Controller_Deduct;
  Handler_AddBalance S _ := Controller_AddBalance;
  Handler_GetBalance S _ := Controller_GetBalance;
|}.

(** ** The contract *)

Definition ErrZeroBalance : error := Errorf_w "" ErrFieldNotPopulated ": Uint64 field is not populated".

(** Reading, charging and crediting on the ledger. *)
Definition ledger_balance (a : bytes) (L : Ledger) : result Z :=
  match counter (balances L !! a) with
  | Some v => Ok v
  | None => Err ErrZeroBalance
  end.

Definition ledger_can_deduct (a : bytes) (amount : Z) (L : Ledger) : result unit :=
  v ← ledger_balance a L;
  if v <? amount then Err ErrInsufficientBalance else Ok tt.

Definition ledger_deduct (a : bytes) (amount : Z) (L : Ledger) : result unit * Ledger :=
  match ledger_can_deduct a amount L with
  | Err e => (Err e, L)
  | Ok _ => (Ok tt, set_balance a (default 0 (balances L !! a) - amount) L)
  end.

Definition ledger_add (a : bytes) (amount : Z) (L : Ledger) : result unit * Ledger :=
  match ledger_balance a L with
  | Err e => (Err e, L)
  | Ok v => (Ok tt, set_balance a (u64 (v + amount)) L)
  end.

(** What the chain relies on: charging and crediting are those ledger
    operations, and [CanDeduct] tells whether charging would succeed. *)
Class LawfulBalanceHandler (H : Type) `{BalanceHandler H} (S : Type) `{MutableLaws S} := {
  law_balance (h : H) a (s : S) L : represents s L -> wf_ledger L -> wf_addr a ->
    Handler_GetBalance h a s = ledger_balance a L;
  law_can_deduct (h : H) a amount (s : S) L : represents s L -> wf_ledger L -> wf_addr a ->
    CanDeduct h a amount s = ledger_can_deduct a amount L;
  law_deduct (h : H) a amount (s : S) L :
    represents s L -> wf_ledger L -> wf_addr a -> is_u64 amount ->
    let '(r, L') := ledger_deduct a amount L in
    exists s', Deduct h a amount s = (r, s') /\ represents s' L' /\ wf_ledger L';
  law_add (h : H) a amount (s : S) L :
    represents s L -> wf_ledger L -> wf_addr a ->
    let '(r, L') := ledger_add a amount L in
    exists s', Handler_AddBalance h a amount s = (r, s') /\ represents s' L' /\ wf_ledger L';
}.

(** ** The storage functions on the ledger *)

Lemma counter_default o v : counter o = Some v -> default 0 o = v.
Proof. destruct o as [w|]; simpl; [case_match|]; congruence. Qed.

Section refinement.
Context {S : Type} `{MutableLaws S} `{!TotalStore S}.
Implicit Types (s : S) (L : Ledger).

Lemma GetBalance_refines a s L :
  represents s L -> wf_ledger L -> wf_addr a -> GetBalance s a = ledger_balance a L.
Proof.
  intros Hrep Hwf Ha. unfold ledger_balance. pose proof (rep_balance s L Hrep a Ha) as E.
  destruct (balances L !! a) as [v|] eqn:El; simpl in *; [|by apply GetBalance_missing].
  rewrite (GetBalance_stored s a v (balance_range L Hwf a v El) E). by destruct (v =? 0).
Qed.

Lemma ledger_balance_range a L v : wf_ledger L -> ledger_balance a L = Ok v ->
  is_u64 v /\ default 0 (balances L !! a) = v.
Proof.
  unfold ledger_balance. intros Hwf. destruct (counter _) as [w|] eqn:E; [|done].
  intros [= <-]. split; [by eapply balance_counter_range|by apply counter_default].
Qed.

Lemma SetBalance_refines a v s L :
  represents s L -> wf_ledger L -> wf_addr a -> is_u64 v ->
  exists s', Insert (BalanceKey a) (be_put 8 v) s = (Ok tt, s') /\
    represents s' (set_balance a v L) /\ wf_ledger (set_balance a v L).
Proof.
  intros Hrep Hwf Ha Hv. destruct (insert_total_run s (BalanceKey a) (be_put 8 v)) as [s' E].
  exists s'. split_and!; [done|by eapply represents_set_balance|by apply wf_set_balance].
Qed.

Lemma CanDeduct_refines a amount s L :
  represents s L -> wf_ledger L -> wf_addr a ->
  Controller_CanDeduct New a amount s = ledger_can_deduct a amount L.
Proof.
  intros Hrep Hwf Ha. unfold Controller_CanDeduct. by rewrite (GetBalance_refines a s L).
Qed.

Lemma DeductBalance_refines a amount s L :
  represents s L -> wf_ledger L -> wf_addr a -> is_u64 amount ->
  let '(r, L') := ledger_deduct a amount L in
  exists s', DeductBalance a amount s = (r, s') /\ represents s' L' /\ wf_ledger L'.
Proof.
  intros Hrep Hwf Ha Hu. pose proof (GetBalance_refines a s L Hrep Hwf Ha) as Hg.
  unfold ledger_deduct, ledger_can_deduct. destruct (ledger_balance a L) as [v|e] eqn:Ev; simpl.
  2: { exists s. by rewrite (DeductBalance_read_error _ _ _ _ Hg). }
  destruct (ledger_balance_range a L v Hwf Ev) as [Hv ->].
  destruct (Z.ltb_spec v amount) as [Hlt|Hge].
  { exists s. by rewrite (DeductBalance_insufficient _ _ _ _ Hg Hlt). }
  rewrite (DeductBalance_ok _ _ _ _ Hg Hge), u64_small by int_lia.
  apply SetBalance_refines; auto. int_lia.
Qed.

Lemma AddBalance_refines a amount s L :
  represents s L -> wf_ledger L -> wf_addr a ->
  let '(r, L') := ledger_add a amount L in
  exists s', AddBalance a amount s = (r, s') /\ represents s' L' /\ wf_ledger L'.
Proof.
  intros Hrep Hwf Ha. pose proof (GetBalance_refines a s L Hrep Hwf Ha) as Hg.
  unfold ledger_add. destruct (ledger_balance a L) as [v|e] eqn:Ev.
  - rewrite (AddBalance_ok _ _ _ _ Hg). apply SetBalance_refines; auto with vm.
  - exists s. by rewrite (AddBalance_read_error _ _ _ _ Hg).
Qed.

#[export] Instance Controller_lawful : LawfulBalanceHandler Controller S.
Proof.
  split; intros []; intros.
  - by apply GetBalance_refines.
  - by apply CanDeduct_refines.
  - by apply DeductBalance_refines.
  - by apply AddBalance_refines.
Qed.
End refinement.
