(* ===== verification/BuyYes.v ===== *)
(** * The BuyYes action (actions/buy_yes_action.go)

    The action, its state keys, its execution over any [Mutable] store and
    its serialized form.  The theorems about [Execute] are in BuySpec.v. *)

From S2P Require Import Prelude GoErrors Lib Consts Packer LinearCodec Store Permissions StorageKeys Balances Markets.
#[local] Open Scope Z_scope.

Record BuyYes := mkBuyYes { by_MarketID : Z; by_Amount : Z; by_MaxPrice : Z }.

(** ** Errors of the buy actions *)

Definition ErrAmountCannotBeZero : error :=
  ErrVar "actions.ErrAmountCannotBeZero" "amount cannot be zero".
Definition ErrMaxPriceCannotBeZero : error :=
  ErrVar "actions.ErrMaxPriceCannotBeZero" "max price cannot be zero".
Definition ErrMarketNotFound : error := ErrVar "actions.ErrMarketNotFound" "market not found".
Definition ErrMarketInteraction : error :=
  ErrVar "actions.ErrMarketInteraction" "market interaction error".
Definition ErrInsufficientFunds : error := ErrVar "actions.ErrInsufficientFunds" "insufficient funds".

Definition BuyYes_GetTypeID : Z := BuyYesID.

Definition BuyYes_StateKeys (b : BuyYes) (actor : bytes) : gmap bytes Z :=
  <[BalanceKey actor := Z.lor Read Write]>
  (<[MarketKey (by_MarketID b) := Z.lor Read Write]>
  (<[ShareBalanceKey (by_MarketID b) actor YesShareType := Z.lor Read Write]> ∅)).

Section execute.
Context {S : Type} `{Mutable S} `{Hashing}.

Definition BuyYes_Execute (b : BuyYes) (txTimestamp : Z) (actor : bytes) : GoM S bytes :=
  (* basic validation *)
  fail_if (by_Amount b =? 0) ErrAmountCannotBeZero;;
  fail_if (by_MaxPrice b =? 0) ErrMaxPriceCannotBeZero;;
  (* 1. the market exists and is active *)
  market ← on_error (fun err =>
      if errors_Is err ErrNotFound
      then Errorf_w "" ErrMarketNotFound (": market " +:+ fmt_d (by_MarketID b) +:+ " not found when fetching")
      else Errorf_w ("failed to get market " +:+ fmt_d (by_MarketID b) +:+ ": ") err "")
    (reading (fun mu => GetMarket mu (by_MarketID b)));
  fail_if ((Status market =? MarketStatus_ResolvedYes) || (Status market =? MarketStatus_ResolvedNo))
    (Errorf_w "" ErrMarketInteraction (": market " +:+ fmt_d (by_MarketID b)
      +:+ " is already resolved (status: " +:+ MarketStatus_String (Status market) +:+ ")"));;
  fail_if ((EndTime market <? txTimestamp) && (Status market =? MarketStatus_Open))
    (Errorf_w "" ErrMarketInteraction (": market " +:+ fmt_d (by_MarketID b)
      +:+ " has ended or trading is closed (current: " +:+ fmt_d txTimestamp +:+ ", end: "
      +:+ fmt_d (EndTime market) +:+ ", status: " +:+ MarketStatus_String (Status market) +:+ ")"));;
  fail_if (Status market =? MarketStatus_TradingClosed)
    (Errorf_w "" ErrMarketInteraction (": market " +:+ fmt_d (by_MarketID b)
      +:+ " trading is closed (status: " +:+ MarketStatus_String (Status market) +:+ ")"));;
  fail_if (EndTime market <? txTimestamp)
    (Errorf_w "" ErrMarketInteraction (": market " +:+ fmt_d (by_MarketID b)
      +:+ " has ended (current: " +:+ fmt_d txTimestamp +:+ ", end: "
      +:+ fmt_d (EndTime market) +:+ ")"));;
  (* 2. the actor's balance *)
  let balanceKey := BalanceKey actor in
  currentBalanceBytes ← on_error (fun err =>
      if errors_Is err ErrNotFound
      then
        let cost := u64 (by_Amount b * by_MaxPrice b) in
        Errorf_w "" ErrInsufficientFunds (": actor " +:+ Address_String actor
          +:+ " has no balance record, cost is " +:+ fmt_d cost)
      else Errorf_w ("failed to get actor's balance for " +:+ Address_String actor +:+ ": ") err "")
    (reading (fun mu => GetValue mu balanceKey));
  currentBalance ← on_error (fun err =>
      Errorf_w ("failed to parse actor's balance for " +:+ Address_String actor +:+ ": ") err "")
    (lift (ParseUInt64 currentBalanceBytes));
  (* 3. the cost *)
  let cost := u64 (by_Amount b * by_MaxPrice b) in
  fail_if (currentBalance <? cost)
    (Errorf_w "" ErrInsufficientFunds (": actor balance " +:+ fmt_d currentBalance +:+ ", cost "
      +:+ fmt_d cost +:+ " for " +:+ fmt_d (by_Amount b) +:+ " shares at max price "
      +:+ fmt_d (by_MaxPrice b) +:+ " for market " +:+ fmt_d (by_MarketID b)));;
  (* 4. deduct funds *)
  let newBalance := u64 (currentBalance - cost) in
  on_error (fun err =>
      Errorf_w ("failed to set new balance " +:+ fmt_d newBalance +:+ " for actor "
        +:+ Address_String actor +:+ ": ") err "")
    (Insert balanceKey (PackUInt64 newBalance));;
  (* 5. credit YES shares *)
  got ← attempt (reading (fun mu => GetShareBalance mu (by_MarketID b) actor YesShareType));
  currentYesShares ← match got with
    | Ok shares => mret shares
    | Err err =>
        if negb (errors_Is err ErrNotFound)
        then fail (Errorf_w ("failed to get current share balance for actor " +:+ Address_String actor
               +:+ ", market " +:+ fmt_d (by_MarketID b) +:+ ", type YES: ") err "")
        else mret 0
    end;
  let newShareBalance := u64 (currentYesShares + by_Amount b) in
  on_error (fun err =>
      Errorf_w ("failed to set new share balance " +:+ fmt_d newShareBalance +:+ " for actor "
        +:+ Address_String actor +:+ ", market " +:+ fmt_d (by_MarketID b) +:+ ", type YES: ") err "")
    (SetShareBalance (by_MarketID b) actor YesShareType newShareBalance);;
  (* 6. the market's total *)
  let market := mkMarket (ID market) (Description market) (Status market) (Creator market)
    (EndTime market) (ResolutionTime market) (u64 (TotalYesShares market + by_Amount b))
    (TotalNoShares market) (OracleType market) (OracleSource market) (OracleParameters market)
    (ResolvedOutcome market) in
  on_error (fun err =>
      Errorf_w ("failed to update market " +:+ fmt_d (by_MarketID b)
        +:+ " total YES shares: ") err "")
    (SetMarket market);;
  mret [].
End execute.

Definition BuyYes_ComputeUnits : Z := 0.
Definition BuyYes_ValidRange : Z * Z := (-1, -1).

(** ** Serialization *)

Definition BuyYes_values (b : BuyYes) : list value :=
  [VUint64 (by_MarketID b); VUint64 (by_Amount b); VUint64 (by_MaxPrice b)].

Definition BuyYes_kinds : list kind := [KUint64; KUint64; KUint64].

(** A failed marshal prints and returns [nil]. *)
Definition BuyYes_Bytes (b : BuyYes) : bytes :=
  let packer := NewWriter 0 MaxActionSize in
  match MarshalInto (BuyYes_values b) packer with
  | (Some _, _) => []
  | (None, packer) => Bytes packer
  end.

(** The error and the receiver afterwards: the fields read before an error
    stay assigned. *)
Definition BuyYes_Unmarshal (d : bytes) (b : BuyYes) : option error * BuyYes :=
  let packer := NewReader d MaxActionSize in
  let '(vs, err, _) := UnmarshalFrom BuyYes_kinds packer in
  (err, mkBuyYes (field_Z (by_MarketID b) vs 0) (field_Z (by_Amount b) vs 1)
          (field_Z (by_MaxPrice b) vs 2)).

Definition UnmarshalBuyYes (b : bytes) : result BuyYes :=
  let action := mkBuyYes 0 0 0 in
  match BuyYes_Unmarshal b action with
  | (Some err, _) => Err err
  | (None, action) => Ok action
  end.

Definition wf_BuyYes (b : BuyYes) : Prop :=
  is_u64 (by_MarketID b) /\ is_u64 (by_Amount b) /\ is_u64 (by_MaxPrice b).

#[export] Instance wf_BuyYes_dec b : Decision (wf_BuyYes b).
Proof. unfold wf_BuyYes. apply _. Defined.
