(* ===== verification/BuyNo.v ===== *)
(** * The BuyNo action (actions/buy_no_action.go)

    The action, its state keys, its execution over any [Mutable] store and
    its serialized form.  The theorems about [Execute] are in BuySpec.v. *)

From S2P Require Import Prelude GoErrors Lib Consts Packer LinearCodec Store Permissions StorageKeys Balances Markets BuyYes.
#[local] Open Scope Z_scope.

Record BuyNo := mkBuyNo { bn_MarketID : Z; bn_Amount : Z; bn_MaxPrice : Z }.

Definition BuyNo_GetTypeID : Z := BuyNoID.

Definition BuyNo_StateKeys (b : BuyNo) (actor : bytes) : gmap bytes Z :=
  <[BalanceKey actor := Z.lor Read Write]>
  (<[MarketKey (bn_MarketID b) := Z.lor Read Write]>
  (<[ShareBalanceKey (bn_MarketID b) actor NoShareType := Z.lor Read Write]> ∅)).

Section execute.
Context {S : Type} `{Mutable S} `{Hashing}.

Definition BuyNo_Execute (b : BuyNo) (txTimestamp : Z) (actor : bytes) : GoM S bytes :=
  (* basic validation *)
  fail_if (bn_Amount b =? 0) ErrAmountCannotBeZero;;
  fail_if (bn_MaxPrice b =? 0) ErrMaxPriceCannotBeZero;;
  (* 1. the market exists and is active *)
  market ← on_error (fun err =>
      if errors_Is err ErrNotFound
      then Errorf_w "" ErrMarketNotFound (": market " +:+ fmt_d (bn_MarketID b) +:+ " not found when fetching")
      else Errorf_w ("failed to get market " +:+ fmt_d (bn_MarketID b) +:+ ": ") err "")
    (reading (fun mu => GetMarket mu (bn_MarketID b)));
  fail_if ((Status market =? MarketStatus_ResolvedYes) || (Status market =? MarketStatus_ResolvedNo))
    (Errorf_w "" ErrMarketInteraction (": market " +:+ fmt_d (bn_MarketID b)
      +:+ " is already resolved (status: " +:+ MarketStatus_String (Status market) +:+ ")"));;
  fail_if (Status market =? MarketStatus_TradingClosed)
    (Errorf_w "" ErrMarketInteraction (": market " +:+ fmt_d (bn_MarketID b)
      +:+ " trading is closed (status: " +:+ MarketStatus_String (Status market) +:+ ")"));;
  fail_if (EndTime market <? txTimestamp)
    (Errorf_w "" ErrMarketInteraction (": market " +:+ fmt_d (bn_MarketID b)
      +:+ " has ended (current: " +:+ fmt_d txTimestamp +:+ ", end: "
      +:+ fmt_d (EndTime market) +:+ ")"));;
  (* 2. the actor's balance *)
  let balanceKey := BalanceKey actor in
  currentBalanceBytes ← on_error (fun err =>
      if errors_Is err ErrNotFound
      then
        let cost := u64 (bn_Amount b * bn_MaxPrice b) in
        Errorf_w "" ErrInsufficientFunds (": actor " +:+ Address_String actor
          +:+ " has no balance record, cost is " +:+ fmt_d cost)
      else Errorf_w ("failed to get actor's balance for " +:+ Address_String actor +:+ ": ") err "")
    (reading (fun mu => GetValue mu balanceKey));
  currentBalance ← on_error (fun err =>
      Errorf_w ("failed to parse actor's balance for " +:+ Address_String actor +:+ ": ") err "")
    (lift (ParseUInt64 currentBalanceBytes));
  (* 3. the cost *)
  let cost := u64 (bn_Amount b * bn_MaxPrice b) in
  fail_if (currentBalance <? cost)
    (Errorf_w "" ErrInsufficientFunds (": actor balance " +:+ fmt_d currentBalance +:+ ", cost "
      +:+ fmt_d cost +:+ " for " +:+ fmt_d (bn_Amount b) +:+ " shares at max price "
      +:+ fmt_d (bn_MaxPrice b) +:+ " for market " +:+ fmt_d (bn_MarketID b)));;
  (* 4. deduct funds *)
  let newBalance := u64 (currentBalance - cost) in
  on_error (fun err =>
      Errorf_w ("failed to set new balance " +:+ fmt_d newBalance +:+ " for actor "
        +:+ Address_String actor +:+ ": ") err "")
    (Insert balanceKey (PackUInt64 newBalance));;
  (* 5. credit NO shares *)
  got ← attempt (reading (fun mu => GetShareBalance mu (bn_MarketID b) actor NoShareType));
  currentNoShares ← match got with
    | Ok shares => mret shares
    | Err err =>
        if negb (errors_Is err ErrNotFound)
        then fail (Errorf_w ("failed to get current NO share balance for actor " +:+ Address_String actor
               +:+ ", market " +:+ fmt_d (bn_MarketID b) +:+ ": ") err "")
        else mret 0
    end;
  let newShareBalance := u64 (currentNoShares + bn_Amount b) in
  on_error (fun err =>
      Errorf_w ("failed to set new NO share balance " +:+ fmt_d newShareBalance +:+ " for actor "
        +:+ Address_String actor +:+ ", market " +:+ fmt_d (bn_MarketID b) +:+ ": ") err "")
    (SetShareBalance (bn_MarketID b) actor NoShareType newShareBalance);;
  (* 6. the market's total *)
  let market := mkMarket (ID market) (Description market) (Status market) (Creator market)
    (EndTime market) (ResolutionTime market) (TotalYesShares market)
    (u64 (TotalNoShares market + bn_Amount b)) (OracleType market) (OracleSource market)
    (OracleParameters market) (ResolvedOutcome market) in
  on_error (fun err =>
      Errorf_w ("failed to update market " +:+ fmt_d (bn_MarketID b)
        +:+ " with new total NO shares: ") err "")
    (SetMarket market);;
  mret [].
End execute.

Definition BuyNo_ComputeUnits : Z := 0.
Definition BuyNo_ValidRange : Z * Z := (-1, -1).
Definition BuyNo_MaxGas : Z := 0.

(** ** Serialization *)

Definition BuyNo_values (b : BuyNo) : list value :=
  [VUint64 (bn_MarketID b); VUint64 (bn_Amount b); VUint64 (bn_MaxPrice b)].

Definition BuyNo_kinds : list kind := [KUint64; KUint64; KUint64].

(** A failed marshal prints and returns [nil]. *)
Definition BuyNo_Bytes (b : BuyNo) : bytes :=
  let packer := NewWriter 0 MaxActionSize in
  match MarshalInto (BuyNo_values b) packer with
  | (Some _, _) => []
  | (None, packer) => Bytes packer
  end.

(** The error and the receiver afterwards: the fields read before an error
    stay assigned. *)
Definition BuyNo_Unmarshal (d : bytes) (b : BuyNo) : option error * BuyNo :=
  let packer := NewReader d MaxActionSize in
  let '(vs, err, _) := UnmarshalFrom BuyNo_kinds packer in
  (err, mkBuyNo (field_Z (bn_MarketID b) vs 0) (field_Z (bn_Amount b) vs 1)
          (field_Z (bn_MaxPrice b) vs 2)).

Definition wf_BuyNo (b : BuyNo) : Prop :=
  is_u64 (bn_MarketID b) /\ is_u64 (bn_Amount b) /\ is_u64 (bn_MaxPrice b).

#[export] Instance wf_BuyNo_dec b : Decision (wf_BuyNo b).
Proof. unfold wf_BuyNo. apply _. Defined.
