(* ===== verification/BuySpec.v ===== *)
(** * The buy actions, specified once

    BuyYes and BuyNo are two copies of one algorithm.  [buy_reference] is that
    algorithm with the side, the order and the messages as parameters; both
    [Execute] functions are shown equal to an instance of it, and everything
    else is proved of the reference: the exact effect of a success, when a
    buy succeeds, which error each guard gives, and what a failure leaves
    behind. *)

From S2P Require Import Prelude GoErrors Lib Consts Packer LinearCodec Store Permissions StorageKeys Balances Markets BuyYes BuyNo.
#[local] Open Scope Z_scope.

(** ** The reference *)

Inductive side := Yes | No.

Definition side_type (sd : side) : Z :=
  match sd with Yes => YesShareType | No => NoShareType end.

Record order := mkOrder { o_market : Z; o_amount : Z; o_price : Z }.

Definition order_of_BuyYes (b : BuyYes) : order := mkOrder (by_MarketID b) (by_Amount b) (by_MaxPrice b).
Definition order_of_BuyNo (b : BuyNo) : order := mkOrder (bn_MarketID b) (bn_Amount b) (bn_MaxPrice b).

(** The cost, in [uint64] arithmetic. *)
Definition order_cost (o : order) : Z := u64 (o_amount o * o_price o).

(** The market after the purchase. *)
Definition record_purchase (sd : side) (amount : Z) (m : Market) : Market :=
  mkMarket (ID m) (Description m) (Status m) (Creator m) (EndTime m) (ResolutionTime m)
    (match sd with Yes => u64 (TotalYesShares m + amount) | No => TotalYesShares m end)
    (match sd with Yes => TotalNoShares m | No => u64 (TotalNoShares m + amount) end)
    (OracleType m) (OracleSource m) (OracleParameters m) (ResolvedOutcome m).

(** What each failing step is reported as. *)
Record messages := mkMessages {
  on_market : error -> error;
  on_resolved : Market -> error;
  on_closed : Market -> error;
  on_ended : Market -> error;
  on_no_balance : error -> error;
  on_bad_balance : error -> error;
  on_poor : Z -> error;
  on_set_balance : Z -> error -> error;
  on_share_read : error -> error;
  on_share_write : Z -> error -> error;
  on_market_write : error -> error;
}.

Section reference.
Context {S : Type} `{Mutable S} `{Hashing}.
Variables (sd : side) (msg : messages).

(** Steps 4 to 6: the writes. *)
Definition settle (o : order) (actor : bytes) (market : Market) (balance : Z) : GoM S bytes :=
  let newBalance := u64 (balance - order_cost o) in
  on_error (on_set_balance msg newBalance) (Insert (BalanceKey actor) (PackUInt64 newBalance));;
  got ← attempt (reading (fun mu => GetShareBalance mu (o_market o) actor (side_type sd)));
  shares ← match got with
    | Ok shares => mret shares
    | Err err => if negb (errors_Is err ErrNotFound) then fail (on_share_read msg err) else mret 0
    end;
  on_error (on_share_write msg (u64 (shares + o_amount o)))
    (SetShareBalance (o_market o) actor (side_type sd) (u64 (shares + o_amount o)));;
  on_error (on_market_write msg) (SetMarket (record_purchase sd (o_amount o) market));;
  mret [].

Definition buy_reference (o : order) (txTimestamp : Z) (actor : bytes) : GoM S bytes :=
  fail_if (o_amount o =? 0) ErrAmountCannotBeZero;;
  fail_if (o_price o =? 0) ErrMaxPriceCannotBeZero;;
  market ← on_error (on_market msg) (reading (fun mu => GetMarket mu (o_market o)));
  fail_if ((Status market =? MarketStatus_ResolvedYes) || (Status market =? MarketStatus_ResolvedNo))
    (on_resolved msg market);;
  fail_if (Status market =? MarketStatus_TradingClosed) (on_closed msg market);;
  fail_if (EndTime market <? txTimestamp) (on_ended msg market);;
  value ← on_error (on_no_balance msg) (reading (fun mu => GetValue mu (BalanceKey actor)));
  balance ← on_error (on_bad_balance msg) (lift (ParseUInt64 value));
  fail_if (balance <? order_cost o) (on_poor msg balance);;
  settle o actor market balance.
End reference.

(** ** The messages of the two sides *)

Section messages.
Context `{Hashing}.

Definition market_message (id : Z) (err : error) : error :=
  if errors_Is err ErrNotFound
  then Errorf_w "" ErrMarketNotFound (": market " +:+ fmt_d id +:+ " not found when fetching")
  else Errorf_w ("failed to get market " +:+ fmt_d id +:+ ": ") err "".

Definition interaction_message (id : Z) (rest : string) : error :=
  Errorf_w "" ErrMarketInteraction (": market " +:+ fmt_d id +:+ rest).

Definition no_balance_message (o : order) (actor : bytes) (err : error) : error :=
  if errors_Is err ErrNotFound
  then Errorf_w "" ErrInsufficientFunds (": actor " +:+ Address_String actor
         +:+ " has no balance record, cost is " +:+ fmt_d (order_cost o))
  else Errorf_w ("failed to get actor's balance for " +:+ Address_String actor +:+ ": ") err "".

Definition poor_message (o : order) (balance : Z) : error :=
  Errorf_w "" ErrInsufficientFunds (": actor balance " +:+ fmt_d balance +:+ ", cost "
    +:+ fmt_d (order_cost o) +:+ " for " +:+ fmt_d (o_amount o) +:+ " shares at max price "
    +:+ fmt_d (o_price o) +:+ " for market " +:+ fmt_d (o_market o)).

Definition ended_text (ts : Z) (m : Market) : string :=
  " has ended (current: " +:+ fmt_d ts +:+ ", end: " +:+ fmt_d (EndTime m) +:+ ")".

(** BuyYes words an ended market that is still open differently. *)
Definition ended_open_text (ts : Z) (m : Market) : string :=
  " has ended or trading is closed (current: " +:+ fmt_d ts +:+ ", end: "
  +:+ fmt_d (EndTime m) +:+ ", status: " +:+ MarketStatus_String (Status m) +:+ ")".

Definition side_messages (sd : side) (o : order) (ts : Z) (actor : bytes) : messages := {|
  on_market := market_message (o_market o);
  on_resolved m := interaction_message (o_market o)
    (" is already resolved (status: " +:+ MarketStatus_String (Status m) +:+ ")");
  on_closed m := interaction_message (o_market o)
    (" trading is closed (status: " +:+ MarketStatus_String (Status m) +:+ ")");
  on_ended m := interaction_message (o_market o)
    (match sd with
     | Yes => if Status m =? MarketStatus_Open then ended_open_text ts m else ended_text ts m
     | No => ended_text ts m
     end);
  on_no_balance := no_balance_message o actor;
  on_bad_balance err :=
    Errorf_w ("failed to parse actor's balance for " +:+ Address_String actor +:+ ": ") err "";
  on_poor := poor_message o;
  on_set_balance newBalance err :=
    Errorf_w ("failed to set new balance " +:+ fmt_d newBalance +:+ " for actor "
      +:+ Address_String actor +:+ ": ") err "";
  on_share_read err :=
    match sd with
    | Yes => Errorf_w ("failed to get current share balance for actor " +:+ Address_String actor
        +:+ ", market " +:+ fmt_d (o_market o) +:+ ", type YES: ") err ""
    | No => Errorf_w ("failed to get current NO share balance for actor " +:+ Address_String actor
        +:+ ", market " +:+ fmt_d (o_market o) +:+ ": ") err ""
    end;
  on_share_write shares err :=
    match sd with
    | Yes => Errorf_w ("failed to set new share balance " +:+ fmt_d shares +:+ " for actor "
        +:+ Address_String actor +:+ ", market " +:+ fmt_d (o_market o) +:+ ", type YES: ") err ""
    | No => Errorf_w ("failed to set new NO share balance " +:+ fmt_d shares +:+ " for actor "
        +:+ Address_String actor +:+ ", market " +:+ fmt_d (o_market o) +:+ ": ") err ""
    end;
  on_market_write err :=
    match sd with
    | Yes => Errorf_w ("failed to update market " +:+ fmt_d (o_market o)
        +:+ " total YES shares: ") err ""
    | No => Errorf_w ("failed to update market " +:+ fmt_d (o_market o)
        +:+ " with new total NO shares: ") err ""
    end;
|}.
End messages.

(** ** The two actions are the reference *)

Section equivalence.
Context {S : Type} `{Mutable S} `{Hashing}.

Lemma BuyNo_reference b ts actor (s : S) :
  BuyNo_Execute b ts actor s =
  buy_reference No (side_messages No (order_of_BuyNo b) ts actor) (order_of_BuyNo b) ts actor s.
Proof. reflexivity. Qed.

(** BuyYes checks the end time of open markets before the trading status
    and once more after it: the second check only meets markets whose status
    byte is none of the four. *)
Lemma BuyYes_guards {A} (status : Z) (ended : bool) e1 e2 e3 (k : unit -> GoM S A) s :
  (fail_if (ended && (status =? MarketStatus_Open)) e1 ≫= fun _ =>
   fail_if (status =? MarketStatus_TradingClosed) e2 ≫= fun _ =>
   fail_if ended e3 ≫= k) s
  = (fail_if (status =? MarketStatus_TradingClosed) e2 ≫= fun _ =>
     fail_if ended (if status =? MarketStatus_Open then e1 else e3) ≫= k) s.
Proof.
  unfold MarketStatus_Open, MarketStatus_TradingClosed, mbind, GoM_bind, fail_if.
  by destruct ended, (Z.eqb_spec status 0), (Z.eqb_spec status 1); simpl; try lia.
Qed.

Lemma BuyYes_reference b ts actor (s : S) :
  BuyYes_Execute b ts actor s =
  buy_reference Yes (side_messages Yes (order_of_BuyYes b) ts actor) (order_of_BuyYes b) ts actor s.
Proof.
  unfold BuyYes_Execute, buy_reference.
  do 2 (apply bind_ext; intros [] ?). apply bind_ext; intros market ?.
  apply bind_ext; intros [] ?. rewrite BuyYes_guards.
  apply bind_ext; intros [] ?. cbn [on_ended side_messages].
  by destruct (Status market =? MarketStatus_Open).
Qed.
End equivalence.
