(* ===== verification/BuyFacts.v ===== *)
(** * What a buy does

    The lemmas about [buy_reference] from which the theorems on BuyYes,
    BuyNo and whole transactions follow: the preconditions of a success and
    its exact effect, over any lawful store; when it succeeds and what each
    refusal is, over stores that accept every insert. *)

From S2P Require Import Prelude GoErrors Lib Consts Packer LinearCodec Store Permissions StorageKeys Balances Markets BuyYes BuyNo BuySpec.
#[local] Open Scope Z_scope.

Definition wf_order (o : order) : Prop :=
  is_u64 (o_market o) /\ is_u64 (o_amount o) /\ is_u64 (o_price o).

(** Trading is possible at time [ts]. *)
Definition tradable (m : Market) (ts : Z) : bool :=
  negb ((Status m =? MarketStatus_ResolvedYes) || (Status m =? MarketStatus_ResolvedNo)) &&
  negb (Status m =? MarketStatus_TradingClosed) && (ts <=? EndTime m).

Section facts.
Context {S : Type} `{MutableLaws S} `{Hashing}.
Implicit Types s : S.

(** What a buy finds in the store when it goes through. *)
Record ready (sd : side) (o : order) (ts : Z) (actor : bytes) s (m : Market) (bal sh : Z) : Prop := {
  ready_amount : o_amount o <> 0;
  ready_price : o_price o <> 0;
  ready_market : GetMarket s (o_market o) = Ok m;
  ready_tradable : tradable m ts = true;
  ready_balance : exists v, GetValue s (BalanceKey actor) = Ok v /\ ParseUInt64 v = Ok bal;
  ready_funds : order_cost o <= bal;
  ready_shares : GetShareBalance s (o_market o) actor (side_type sd) = Ok sh;
}.

(** The store after it, key by key. *)
Definition bought (sd : side) (o : order) (actor : bytes) (m : Market) (bal sh : Z) s s' : Prop :=
  forall k, GetValue s' k =
    if decide (MarketKey (ID m) = k) then Ok (market_bytes (record_purchase sd (o_amount o) m))
    else if decide (ShareBalanceKey (o_market o) actor (side_type sd) = k)
    then Ok (be_put 8 (u64 (sh + o_amount o)))
    else if decide (BalanceKey actor = k) then Ok (be_put 8 (bal - order_cost o))
    else GetValue s k.

Lemma record_purchase_wf sd amount m : wf_market m -> wf_market (record_purchase sd amount m).
Proof. unfold wf_market. destruct sd; simpl; intuition auto with vm. Qed.

Lemma record_purchase_size sd amount m : market_size (record_purchase sd amount m) = market_size m.
Proof. by destruct sd. Qed.

Lemma record_purchase_ID sd amount m : ID (record_purchase sd amount m) = ID m.
Proof. by destruct sd. Qed.

Lemma order_cost_range o : is_u64 (order_cost o).
Proof. apply u64_range. Qed.

Lemma cost_deducted o bal : is_u64 bal -> order_cost o <= bal -> u64 (bal - order_cost o) = bal - order_cost o.
Proof. intros Hb Hc. apply u64_small. pose proof (order_cost_range o). int_lia. Qed.

(** The share balance is not disturbed by the deduction before it. *)
Lemma shares_after_deduction s k v s1 id a b t :
  length a = AddressLen -> length b = AddressLen -> k = BalanceKey a ->
  Insert k v s = (Ok tt, s1) -> GetShareBalance s1 id b t = GetShareBalance s id b t.
Proof.
  intros Ha Hb -> E. apply GetShareBalance_same_value.
  rewrite (insert_get_ne _ _ _ _ _ E); [done|]. auto with vm.
Qed.

Lemma SetMarket_inv m s s' :
  wf_market m -> SetMarket m s = (Ok tt, s') ->
  market_size m <= MaxMarketDataSize /\ Insert (MarketKey (ID m)) (market_bytes m) s = (Ok tt, s').
Proof.
  intros Hw E. destruct (decide (market_size m <= MaxMarketDataSize)).
  - by rewrite SetMarket_fits in E.
  - destruct (SetMarket_overflow m s Hw ltac:(lia)) as (w & E' & _). congruence.
Qed.

(** Steps 4 to 6, when they succeed. *)
Lemma settle_inv sd msg o actor m bal s out s' :
  wf_addr actor -> wf_market m -> is_u64 bal -> order_cost o <= bal ->
  settle sd msg o actor m bal s = (Ok out, s') ->
  out = [] /\ market_size m <= MaxMarketDataSize /\
  exists sh, GetShareBalance s (o_market o) actor (side_type sd) = Ok sh /\
    bought sd o actor m bal sh s s'.
Proof.
  intros [Ha _] Hm Hbal Hc E. unfold settle in E. cbv zeta in E. go_inv.
  rewrite (cost_deducted o bal Hbal Hc) in Hrun. repeat match goal with u : unit |- _ => destruct u end.
  match goal with
  | H : Insert (BalanceKey _) _ _ = _ |- _ => rename H into E1
  end.
  rewrite (shares_after_deduction _ _ _ _ (o_market o) actor actor (side_type sd) Ha Ha eq_refl E1) in *.
  destruct (GetShareBalance s (o_market o) actor (side_type sd)) as [sh|err] eqn:Es.
  2: { rewrite (GetShareBalance_error _ _ _ _ _ Es) in *. done. }
  go_inv.
  match goal with
  | H : SetShareBalance _ _ _ _ _ = _, H' : SetMarket _ _ = _ |- _ => rename H into E3, H' into E4
  end.
  rewrite SetShareBalance_eq in E3.
  apply SetMarket_inv in E4 as [Hsz E4]; [|by apply record_purchase_wf].
  rewrite record_purchase_size in Hsz. rewrite record_purchase_ID in E4.
  split_and!; [done|done|]. eexists. split; [done|]. intros k.
  rewrite (insert_lookup _ _ _ _ _ E4). case_decide; [done|].
  rewrite (insert_lookup _ _ _ _ _ E3). case_decide; [done|].
  by rewrite (insert_lookup _ _ _ _ _ E1).
Qed.

(** A buy that goes through found what it needs, and did exactly this. *)
Lemma reference_inv sd msg o ts actor s out s' :
  wf_values s -> wf_addr actor ->
  buy_reference sd msg o ts actor s = (Ok out, s') ->
  out = [] /\ exists m bal sh,
    ready sd o ts actor s m bal sh /\ bought sd o actor m bal sh s s' /\
    wf_market m /\ market_size m <= MaxMarketDataSize /\ is_u64 bal /\ is_u64 sh.
Proof.
  intros Hv Ha E. unfold buy_reference in E. go_inv.
  match goal with
  | Hm : GetMarket ?s _ = Ok ?m, Hb : GetValue ?s _ = Ok ?v, Hp : ParseUInt64 ?v = Ok ?bal |- _ =>
      destruct (GetMarket_sound s _ m (Hv _) Hm) as [Hwm _];
      destruct (PackUInt64_ParseUInt64 v bal (Hv _ _ Hb) Hp) as [_ Hbal];
      apply settle_inv in E as (-> & Hsz & sh & Hsh & Hbought); try done;
        [|by apply Z.ltb_ge];
      pose proof (GetShareBalance_bound s _ _ _ _ (Hv _) Hsh) as Hub;
      split; [done|]; exists m, bal, sh
  end.
  split_and!; try done. split; eauto.
  1, 2: by apply Z.eqb_neq.
  2: by apply Z.ltb_ge.
  unfold tradable. rewrite Hguard1, Hguard2. simpl. apply Z.leb_le. by apply Z.ltb_ge.
Qed.

(** The stored balance before and after. *)
Lemma bought_balance sd msg o ts actor s out s' :
  wf_values s -> wf_addr actor ->
  buy_reference sd msg o ts actor s = (Ok out, s') ->
  exists bal, is_u64 bal /\ order_cost o <= bal /\
    GetValue s (BalanceKey actor) = Ok (be_put 8 bal) /\
    GetValue s' (BalanceKey actor) = Ok (be_put 8 (bal - order_cost o)).
Proof.
  intros Hv Ha E. apply reference_inv in E as (_ & m & bal & sh & Hr & Hb & _ & _ & Hbal & _); auto.
  exists bal. destruct (ready_balance _ _ _ _ _ _ _ _ Hr) as (v & E & Hp).
  destruct (PackUInt64_ParseUInt64 v bal (Hv _ _ E) Hp) as [<- _]. destruct Ha as [Hl _].
  split_and!; [done|apply (ready_funds _ _ _ _ _ _ _ _ Hr)|done|]. rewrite (Hb (BalanceKey actor)).
  rewrite !decide_False by (auto using not_eq_sym with vm). by rewrite decide_True.
Qed.
End facts.
