(* ===== verification/Trade.v ===== *)
(** * Buying shares, on the ledger

    The specification of the two buy actions as an operation on the ledger,
    and the refinement: over a store that accepts every insert, both
    [Execute] functions compute exactly [ledger_buy], on every branch. *)

From S2P Require Import Prelude GoErrors Lib Consts Packer LinearCodec Store StorageKeys Balances Markets Ledger BuyYes BuyNo BuySpec BuyFacts.
#[local] Open Scope Z_scope.

(** Why a buy is refused. *)
Inductive refusal :=
| ZeroAmount
| ZeroPrice
| NoMarket
| AlreadyResolved (m : Market)
| TradingClosed (m : Market)
| Ended (m : Market)
| NoBalance
| NoFunds (balance : Z)
| SharesUnreadable.

(** The ledger after [order] bought [sh] up. *)
Definition settled (sd : side) (o : order) (actor : bytes) (m : Market) (bal sh : Z) (L : Ledger) : Ledger :=
  set_market (o_market o) (record_purchase sd (o_amount o) m)
    (set_shares (o_market o) actor (side_type sd) (u64 (sh + o_amount o))
       (set_balance actor (bal - order_cost o) L)).

(** The specification: the refusal, if any, and the ledger afterwards.  A
    share balance that cannot be read is noticed after the money is taken. *)
Definition ledger_buy (sd : side) (o : order) (ts : Z) (actor : bytes) (L : Ledger)
    : option refusal * Ledger :=
  if o_amount o =? 0 then (Some ZeroAmount, L)
  else if o_price o =? 0 then (Some ZeroPrice, L)
  else match markets L !! o_market o with
  | None => (Some NoMarket, L)
  | Some m =>
      if (Status m =? MarketStatus_ResolvedYes) || (Status m =? MarketStatus_ResolvedNo)
      then (Some (AlreadyResolved m), L)
      else if Status m =? MarketStatus_TradingClosed then (Some (TradingClosed m), L)
      else if EndTime m <? ts then (Some (Ended m), L)
      else match balances L !! actor with
      | None => (Some NoBalance, L)
      | Some bal =>
          if bal <? order_cost o then (Some (NoFunds bal), L)
          else match counter (shares L !! (o_market o, actor, side_type sd)) with
          | None => (Some SharesUnreadable, set_balance actor (bal - order_cost o) L)
          | Some sh => (None, settled sd o actor m bal sh L)
          end
      end
  end.

Section errors.
Context `{Hashing}.

(** The error value of each refusal, with its text. *)
Definition refusal_error (sd : side) (o : order) (ts : Z) (actor : bytes) (r : refusal) : error :=
  let msg := side_messages sd o ts actor in
  match r with
  | ZeroAmount => ErrAmountCannotBeZero
  | ZeroPrice => ErrMaxPriceCannotBeZero
  | NoMarket =>
      on_market msg (Errorf_w ("market " +:+ fmt_d (o_market o) +:+ " not found: ") ErrNotFound "")
  | AlreadyResolved m => on_resolved msg m
  | TradingClosed m => on_closed msg m
  | Ended m => on_ended msg m
  | NoBalance => on_no_balance msg ErrNotFound
  | NoFunds bal => on_poor msg bal
  | SharesUnreadable =>
      on_share_read msg
        (Errorf_w ("failed to unpack share balance for "
                   +:+ share_place (o_market o) actor (side_type sd) +:+ ": ")
          (Errorf_w "" ErrFieldNotPopulated ": Uint64 field is not populated") "")
  end.
End errors.

(** The package variable a caller can test the error against. *)
Definition refusal_var (r : refusal) : error :=
  match r with
  | ZeroAmount => ErrAmountCannotBeZero
  | ZeroPrice => ErrMaxPriceCannotBeZero
  | NoMarket => ErrMarketNotFound
  | AlreadyResolved _ | TradingClosed _ | Ended _ => ErrMarketInteraction
  | NoBalance | NoFunds _ => ErrInsufficientFunds
  | SharesUnreadable => ErrFieldNotPopulated
  end.

(** The two actions as one operation. *)
Section buy.
Context {S : Type} `{Mutable S} `{Hashing}.

Definition buy (sd : side) (o : order) (ts : Z) (actor : bytes) : GoM S bytes :=
  match sd with
  | Yes => BuyYes_Execute (mkBuyYes (o_market o) (o_amount o) (o_price o)) ts actor
  | No => BuyNo_Execute (mkBuyNo (o_market o) (o_amount o) (o_price o)) ts actor
  end.

Lemma buy_is_reference sd o ts actor s :
  buy sd o ts actor s = buy_reference sd (side_messages sd o ts actor) o ts actor s.
Proof. destruct o, sd; [apply BuyYes_reference|apply BuyNo_reference]. Qed.
End buy.

(** ** The refinement *)

(** Runs the first [fail_if] of the goal, on both branches of its condition. *)
Ltac run_guard :=
  match goal with
  | |- context [fail_if ?c _ ≫= _] =>
      destruct c eqn:?;
      [rewrite run_fail_if_true by done; by eexists|rewrite run_fail_if_false by done]
  end.

Section refinement.
Context {S : Type} `{MutableLaws S} `{!TotalStore S} `{Hashing}.
Implicit Types (s : S) (L : Ledger).

Lemma wf_settled sd o actor m bal sh L :
  wf_ledger L -> wf_order o -> wf_addr actor ->
  markets L !! o_market o = Some m -> balances L !! actor = Some bal -> order_cost o <= bal ->
  wf_ledger (settled sd o actor m bal sh L).
Proof.
  intros Hwf (Hid & _ & _) Ha Hm Hb Hc.
  pose proof (balance_range L Hwf _ _ Hb). pose proof (order_cost_range o).
  destruct (wl_markets L Hwf _ _ Hm) as (Hwm & HID & Hsz).
  apply wf_set_market; [apply wf_set_shares; auto with vm|].
  - apply wf_set_balance; auto. int_lia.
  - by destruct sd.
  - split_and!; [by apply record_purchase_wf|by destruct sd|by rewrite record_purchase_size].
Qed.

(** The share and market writes. *)
Lemma last_writes_refine f g id a t v m s L :
  represents s L -> is_u64 id -> wf_addr a -> wf_entry id m ->
  exists s', (on_error f (SetShareBalance id a t v);; on_error g (SetMarket m);; mret []) s
      = (Ok [] : result bytes, s')
    /\ represents s' (set_market id m (set_shares id a t v L)).
Proof.
  intros Hrep Hid Ha (Hw & HID & Hsz). rewrite SetShareBalance_eq, (SetMarket_fits m Hw Hsz), HID.
  destruct (insert_total_run s (ShareBalanceKey id a t) (be_put 8 v)) as [s1 E1].
  destruct (insert_total_run s1 (MarketKey id) (market_bytes m)) as [s2 E2].
  exists s2. rewrite (run_bind_ok _ _ _ _ _ (run_on_error_ok _ _ _ _ _ E1)).
  rewrite (run_bind_ok _ _ _ _ _ (run_on_error_ok _ _ _ _ _ E2)). split; [done|].
  eapply represents_set_market; [|done..]. by eapply represents_set_shares.
Qed.

Lemma unreadable_shares id a t s L :
  represents s L -> is_u64 id -> wf_addr a -> shares L !! (id, a, t) = Some 0 ->
  GetShareBalance s id a t =
    Err (Errorf_w ("failed to unpack share balance for " +:+ share_place id a t +:+ ": ")
          (Errorf_w "" ErrFieldNotPopulated ": Uint64 field is not populated") "").
Proof.
  intros Hrep Hid Ha E. pose proof (rep_shares s L Hrep id a t Hid Ha) as Er.
  rewrite E in Er. by rewrite (GetShareBalance_stored _ _ _ _ 0) by done.
Qed.

(** The three writes, once the checks are passed. *)
Lemma settle_refines sd o ts actor m bal s L :
  represents s L -> wf_ledger L -> wf_addr actor -> wf_order o ->
  markets L !! o_market o = Some m -> balances L !! actor = Some bal -> order_cost o <= bal ->
  let '(r, L') := match counter (shares L !! (o_market o, actor, side_type sd)) with
    | None => (Some SharesUnreadable, set_balance actor (bal - order_cost o) L)
    | Some sh => (None, settled sd o actor m bal sh L)
    end in
  exists s', settle sd (side_messages sd o ts actor) o actor m bal s =
    (match r with None => Ok [] | Some r => Err (refusal_error sd o ts actor r) end, s')
    /\ represents s' L' /\ wf_ledger L'.
Proof.
  intros Hrep Hwf Ha Ho Hm Hb Hc. pose proof (balance_range L Hwf _ _ Hb) as Hbal.
  pose proof (wf_settled sd o actor m bal 0 L Hwf Ho Ha Hm Hb Hc) as Hwf'.
  assert (wf_entry (o_market o) (record_purchase sd (o_amount o) m)) as He
    by (eapply (wl_markets _ Hwf'), lookup_insert_eq).
  assert (wf_ledger (set_balance actor (bal - order_cost o) L)) as Hwf1
    by (apply wf_set_balance; auto; pose proof (order_cost_range o); int_lia).
  unfold settle. cbv zeta. rewrite (cost_deducted o bal Hbal Hc).
  destruct (insert_total_run s (BalanceKey actor) (PackUInt64 (bal - order_cost o))) as [s1 E1].
  rewrite (run_bind_ok _ _ _ _ _ (run_on_error_ok _ _ _ _ _ E1)).
  pose proof (represents_set_balance _ _ _ _ _ Hrep Ha E1) as Hrep1.
  pose proof (rep_GetShareBalance s1 _ Hrep1 Hwf1 (o_market o) actor (side_type sd)
    (proj1 Ho) Ha) as Er.
  cbn [shares set_balance] in Er. destruct (counter _) as [sh|] eqn:Esh; simpl in Er.
  - erewrite run_bind_ok by (unfold attempt, reading; by rewrite Er).
    erewrite run_bind_ok by done.
    destruct (last_writes_refine (on_share_write (side_messages sd o ts actor) (u64 (sh + o_amount o)))
      (on_market_write (side_messages sd o ts actor)) (o_market o) actor (side_type sd)
      (u64 (sh + o_amount o)) (record_purchase sd (o_amount o) m) s1 _ Hrep1 (proj1 Ho) Ha He)
      as (s' & E & Hrep').
    exists s'. split_and!; [done|done|]. by apply wf_settled.
  - assert (shares (set_balance actor (bal - order_cost o) L) !! (o_market o, actor, side_type sd) = Some 0)
      as E0 by by apply counter_None.
    exists s1. split_and!; [|done..].
    erewrite run_bind_ok by (unfold attempt, reading; by rewrite (unreadable_shares _ _ _ _ _ Hrep1 (proj1 Ho) Ha E0)).
    reflexivity.
Qed.

Lemma buy_refines sd o ts actor s L :
  represents s L -> wf_ledger L -> wf_addr actor -> wf_order o ->
  let '(r, L') := ledger_buy sd o ts actor L in
  exists s', buy sd o ts actor s =
    (match r with None => Ok [] | Some r => Err (refusal_error sd o ts actor r) end, s')
    /\ represents s' L' /\ wf_ledger L'.
Proof.
  intros Hrep Hwf Ha Ho. rewrite buy_is_reference. unfold buy_reference, ledger_buy.
  pose proof (proj1 Ho) as Hid.
  do 2 run_guard.
  pose proof (rep_market s L Hrep _ Hid) as Em.
  pose proof (rep_GetMarket s L Hrep Hwf _ Hid) as Em'.
  destruct (markets L !! o_market o) as [m|] eqn:Elm; simpl in Em.
  2: { erewrite run_bind_err; [by eexists|].
       unfold on_error, reading. by rewrite (GetMarket_missing _ _ Em). }
  erewrite run_bind_ok by (apply run_on_error_ok; unfold reading; by rewrite Em').
  do 3 run_guard.
  pose proof (rep_balance s L Hrep _ Ha) as Eb.
  destruct (balances L !! actor) as [bal|] eqn:Elb; simpl in Eb.
  2: { erewrite run_bind_err; [by eexists|]. unfold on_error, reading. by rewrite Eb. }
  erewrite run_bind_ok by (apply run_on_error_ok; unfold reading; by rewrite Eb).
  pose proof (balance_range L Hwf _ _ Elb) as Hbal.
  erewrite run_bind_ok
    by (apply run_on_error_ok; unfold lift; by rewrite (ParseUInt64_PackUInt64 bal Hbal : ParseUInt64 (be_put 8 bal) = _)).
  run_guard. apply settle_refines; auto. by apply Z.ltb_ge.
Qed.
End refinement.

(** ** Refusals *)

Lemma refusal_error_var `{Hashing} sd o ts actor r :
  errors_Is (refusal_error sd o ts actor r) (refusal_var r) = true.
Proof. by destruct sd, r. Qed.

(** A refused buy changes nothing, but for the payment when the share balance
    turns out to be unreadable. *)
Lemma ledger_buy_refused sd o ts actor L r L' :
  ledger_buy sd o ts actor L = (Some r, L') ->
  L' = L \/ r = SharesUnreadable /\ exists bal, balances L !! actor = Some bal /\
    L' = set_balance actor (bal - order_cost o) L.
Proof.
  unfold ledger_buy. intros E.
  repeat (case_match; simplify_eq; try (by left)). right. eauto.
Qed.

(** The guards, as a condition. *)
Lemma ledger_buy_ready sd o ts actor L m bal sh :
  o_amount o <> 0 -> o_price o <> 0 -> markets L !! o_market o = Some m -> tradable m ts = true ->
  balances L !! actor = Some bal -> order_cost o <= bal ->
  counter (shares L !! (o_market o, actor, side_type sd)) = Some sh ->
  ledger_buy sd o ts actor L = (None, settled sd o actor m bal sh L).
Proof.
  intros Ham Hpr Hm Ht Hb Hc Hs. unfold ledger_buy, tradable in *.
  apply andb_true_iff in Ht as [[Hr%negb_true_iff Hcl%negb_true_iff]%andb_true_iff Hend].
  apply Z.eqb_neq in Ham as ->, Hpr as ->. rewrite Hm, Hr, Hcl, Hb, Hs.
  apply Z.leb_le, Z.ltb_ge in Hend as ->. by apply Z.ltb_ge in Hc as ->.
Qed.
