(* ===== verification/CreateMarket.v ===== *)
(** * The CreateMarket action (actions/create_market_action.go)

    The action, its state keys, its execution over any [Mutable] store and
    its serialized form.  [crypto/rand.Read] is an argument of [Execute]: the
    32 bytes it delivers, or its error. *)

From S2P Require Import Prelude GoErrors Lib Consts Packer LinearCodec Store Permissions StorageKeys Balances Markets Ledger.
#[local] Open Scope Z_scope.

Record CreateMarket := mkCreateMarket {
  cm_Description : string;
  cm_EndTime : Z;
  cm_ResolutionTime : Z;
  cm_OracleType : Z;
  cm_OracleSource : string;
  cm_OracleParameters : bytes;
}.

Definition CreateMarketComputeUnits : Z := 2000.
Definition MaxCreateMarketSize : Z := 1024.

Definition ErrUnmarshalEmptyCreateMarket : error :=
  ErrVar "actions.ErrUnmarshalEmptyCreateMarket" "cannot unmarshal empty bytes as CreateMarket action".
Definition ErrDescriptionTooLong : error :=
  ErrVar "actions.ErrDescriptionTooLong" "market description is too long".
Definition ErrOracleSourceTooLong : error :=
  ErrVar "actions.ErrOracleSourceTooLong" "oracle source is too long".
Definition ErrOracleParametersTooLong : error :=
  ErrVar "actions.ErrOracleParametersTooLong" "oracle parameters are too long".
Definition ErrEndTimeInPast : error :=
  ErrVar "actions.ErrEndTimeInPast" "market end time is in the past".
Definition ErrResolutionTimeBeforeEndTime : error :=
  ErrVar "actions.ErrResolutionTimeBeforeEndTime" "market resolution time is before or at end time".
Definition empty_description_error : error := ErrFresh "market description cannot be empty".

Definition CreateMarket_GetTypeID : Z := CreateMarketID.

(** ** Serialization *)

Definition CreateMarket_values (cm : CreateMarket) : list value :=
  [VString (cm_Description cm); VInt64 (cm_EndTime cm); VInt64 (cm_ResolutionTime cm);
   VUint8 (cm_OracleType cm); VString (cm_OracleSource cm); VByteSlice (cm_OracleParameters cm)].

Definition CreateMarket_kinds : list kind :=
  [KString; KInt64; KInt64; KUint8; KString; KByteSlice].

Definition CreateMarket_assign (vs : list (option value)) : CreateMarket := {|
  cm_Description := field_string "" vs 0;
  cm_EndTime := field_Z 0 vs 1;
  cm_ResolutionTime := field_Z 0 vs 2;
  cm_OracleType := field_Z 0 vs 3;
  cm_OracleSource := field_string "" vs 4;
  cm_OracleParameters := field_bytes [] vs 5;
|}.

Definition CreateMarket_Bytes (cm : CreateMarket) : outcome bytes :=
  let p := NewWriter MaxCreateMarketSize MaxCreateMarketSize in
  let p := PackByte CreateMarketID p in
  match MarshalInto (CreateMarket_values cm) p with
  | (Some err, _) => Panics (Errorf_w "failed to marshal CreateMarket action: " err "")
  | (None, p) => Returns (Bytes p)
  end.

Definition UnmarshalCreateMarket (b : bytes) : result CreateMarket :=
  match b with
  | [] => Err ErrUnmarshalEmptyCreateMarket
  | typeID :: rest =>
      if negb (typeID =? CreateMarketID)
      then Err (ErrFresh ("unexpected CreateMarket typeID: " +:+ fmt_d typeID
                          +:+ " != " +:+ fmt_d CreateMarketID))
      else match UnmarshalFrom CreateMarket_kinds (NewReader rest 0) with
           | (_, Some err, _) => Err (Errorf_w "failed to unmarshal CreateMarket action: " err "")
           | (vs, None, _) => Ok (CreateMarket_assign vs)
           end
  end.

Definition CreateMarket_StateKeys (actor : bytes) : gmap bytes Z :=
  <[StateKeysBalance actor := Write]> (<[[MarketPrefix] := Write]> ∅).

(** ** Execution *)

(** The market ID: the first eight of the random bytes. *)
Definition market_id_of (randomBytes : bytes) : result Z :=
  marketID ← ToID randomBytes;
  Ok (be_get (take 8 marketID)).

Definition new_market (cm : CreateMarket) (id : Z) (actor : bytes) : Market := {|
  ID := id;
  Description := cm_Description cm;
  Status := MarketStatus_Open;
  Creator := actor;
  EndTime := cm_EndTime cm;
  ResolutionTime := cm_ResolutionTime cm;
  TotalYesShares := 0;
  TotalNoShares := 0;
  OracleType := cm_OracleType cm;
  OracleSource := cm_OracleSource cm;
  OracleParameters := cm_OracleParameters cm;
  ResolvedOutcome := Outcome_Pending;
|}.

Section execute.
Context {S : Type} `{Mutable S} `{Hashing}.

Definition created_message (id : Z) (actor : bytes) : bytes :=
  bytes_of_string ("Market " +:+ fmt_d id +:+ " created successfully by " +:+ Address_String actor).

Definition set_market_error (id : Z) (err : error) : error :=
  Errorf_w ("failed to set new market " +:+ fmt_d id +:+ ": ") err "".

Definition CreateMarket_Execute (cm : CreateMarket) (rand_Read : result bytes)
    (timestamp : Z) (actor : bytes) : GoM S bytes :=
  fail_if (len_string (cm_Description cm) =? 0) empty_description_error;;
  fail_if (256 <? len_string (cm_Description cm)) ErrDescriptionTooLong;;
  fail_if (256 <? len_string (cm_OracleSource cm)) ErrOracleSourceTooLong;;
  fail_if (512 <? Z.of_nat (length (cm_OracleParameters cm))) ErrOracleParametersTooLong;;
  fail_if (cm_EndTime cm <=? timestamp) ErrEndTimeInPast;;
  fail_if (cm_ResolutionTime cm <=? cm_EndTime cm) ErrResolutionTimeBeforeEndTime;;
  randomBytes ← on_error (fun err =>
      Errorf_w "failed to generate random bytes for market ID: " err "")
    (lift rand_Read);
  marketIDUint64 ← on_error (fun err =>
      Errorf_w "failed to convert random bytes to market ID: " err "")
    (lift (market_id_of randomBytes));
  let market := new_market cm marketIDUint64 actor in
  on_error (set_market_error (ID market)) (SetMarket market);;
  mret (created_message (ID market) actor).
End execute.

Definition CreateMarket_ComputeUnits : Z := CreateMarketComputeUnits.
Definition CreateMarket_ValidRange : Z * Z := (-1, -1).

(** The values the Go struct can hold. *)
Definition wf_CreateMarket (cm : CreateMarket) : Prop :=
  len_string (cm_Description cm) <= MaxStringLen /\ is_i64 (cm_EndTime cm) /\
  is_i64 (cm_ResolutionTime cm) /\ is_u8 (cm_OracleType cm) /\
  len_string (cm_OracleSource cm) <= MaxStringLen /\
  (wf_bytes (cm_OracleParameters cm) /\ Z.of_nat (length (cm_OracleParameters cm)) <= MaxInt32).

#[export] Instance wf_CreateMarket_dec cm : Decision (wf_CreateMarket cm).
Proof. unfold wf_CreateMarket. apply _. Defined.

(** ** Serialization lemmas *)

Definition create_size (cm : CreateMarket) : Z :=
  26 + len_string (cm_Description cm) + len_string (cm_OracleSource cm)
  + Z.of_nat (length (cm_OracleParameters cm)).

Lemma wf_CreateMarket_kinds cm :
  wf_CreateMarket cm -> Forall2 has_kind (CreateMarket_values cm) CreateMarket_kinds.
Proof.
  unfold wf_CreateMarket, CreateMarket_values, CreateMarket_kinds. intros Hw.
  repeat (apply List.Forall2_cons; [cbn [has_kind]; tauto|]). apply List.Forall2_nil.
Qed.

Lemma wf_CreateMarket_packable cm : wf_CreateMarket cm -> Forall packable (CreateMarket_values cm).
Proof.
  intros Hw%wf_CreateMarket_kinds. revert Hw.
  generalize (CreateMarket_values cm) CreateMarket_kinds.
  induction 1; constructor; eauto using has_kind_packable.
Qed.

Lemma CreateMarket_assign_values cm : CreateMarket_assign (Some <$> CreateMarket_values cm) = cm.
Proof. by destruct cm. Qed.

Lemma length_create_bytes cm :
  Z.of_nat (length (CreateMarketID :: encode (CreateMarket_values cm))) = create_size cm.
Proof.
  cbn [length]. rewrite Nat2Z.inj_succ, length_encode. unfold create_size, CreateMarket_values.
  cbn [encoded_size foldr field_size]. lia.
Qed.

Lemma CreateMarket_Bytes_cases cm :
  wf_CreateMarket cm ->
  CreateMarket_Bytes cm =
    if create_size cm <=? MaxCreateMarketSize
    then Returns (CreateMarketID :: encode (CreateMarket_values cm))
    else Panics (Errorf_w "failed to marshal CreateMarket action: " ErrInsufficientLength "").
Proof.
  intros Hw%wf_CreateMarket_packable. unfold CreateMarket_Bytes.
  change (PackByte CreateMarketID (NewWriter MaxCreateMarketSize MaxCreateMarketSize))
    with (writer MaxCreateMarketSize [CreateMarketID]).
  destruct (MarshalInto_marshals MaxCreateMarketSize (CreateMarket_values cm) [CreateMarketID] Hw)
    as [Hfit Hover].
  pose proof (length_create_bytes cm) as Hl. cbn [length] in Hl.
  change (length [CreateMarketID]) with 1%nat in *. unfold MaxCreateMarketSize in *.
  destruct (Z.leb_spec (create_size cm) 1024) as [Hs|Hs].
  - by rewrite Hfit by lia.
  - specialize (Hover ltac:(lia)).
    destruct (MarshalInto _ _) as [[err|] p]; by simplify_eq/=.
Qed.

Lemma UnmarshalCreateMarket_encode cm rest :
  wf_CreateMarket cm ->
  UnmarshalCreateMarket (CreateMarketID :: encode (CreateMarket_values cm) ++ rest) = Ok cm.
Proof.
  intros Hw%wf_CreateMarket_kinds. unfold UnmarshalCreateMarket. rewrite Z.eqb_refl. cbn [negb].
  rewrite NewReader_reader, (UnmarshalFrom_encode _ _ _ Hw).
  by rewrite CreateMarket_assign_values.
Qed.
