(* ===== verification/Creation.v ===== *)
(** * Creating markets, on the ledger

    The specification of CreateMarket as an operation on the ledger and the
    refinement, on every branch: which inputs are refused and how, the ID
    taken from the random bytes, and the market that is stored. *)

From S2P Require Import Prelude GoErrors Lib Consts Packer LinearCodec Store StorageKeys Balances Markets Ledger CreateMarket Trade.
#[local] Open Scope Z_scope.

(** The input checks, in order. *)
Definition create_guard (cm : CreateMarket) (ts : Z) : option error :=
  if len_string (cm_Description cm) =? 0 then Some empty_description_error
  else if 256 <? len_string (cm_Description cm) then Some ErrDescriptionTooLong
  else if 256 <? len_string (cm_OracleSource cm) then Some ErrOracleSourceTooLong
  else if 512 <? Z.of_nat (length (cm_OracleParameters cm)) then Some ErrOracleParametersTooLong
  else if cm_EndTime cm <=? ts then Some ErrEndTimeInPast
  else if cm_ResolutionTime cm <=? cm_EndTime cm then Some ErrResolutionTimeBeforeEndTime
  else None.

Definition no_random_bytes (err : error) : error :=
  Errorf_w "failed to generate random bytes for market ID: " err "".

(** A market over the storage limit. *)
Definition too_large (id : Z) : error :=
  set_market_error id
    (Errorf_w ("failed to marshal market " +:+ fmt_d id +:+ " using LinearCodec: ")
       ErrInsufficientLength "").

(** The random bytes are 32 when they are there at all. *)
Definition ledger_create (cm : CreateMarket) (rand_Read : result bytes) (ts : Z) (actor : bytes)
    (L : Ledger) : option error * Ledger :=
  match create_guard cm ts with
  | Some err => (Some err, L)
  | None =>
      match rand_Read with
      | Err err => (Some (no_random_bytes err), L)
      | Ok randomBytes =>
          let id := be_get (take 8 randomBytes) in
          let m := new_market cm id actor in
          if MaxMarketDataSize <? market_size m then (Some (too_large id), L)
          else (None, set_market id m L)
      end
  end.

Definition wf_random (rand_Read : result bytes) : Prop :=
  match rand_Read with Ok b => length b = IDLen /\ wf_bytes b | Err _ => True end.

Definition create_reply `{Hashing} (rand_Read : result bytes) (actor : bytes) : bytes :=
  match rand_Read with
  | Ok b => created_message (be_get (take 8 b)) actor
  | Err _ => []
  end.

Lemma market_id_of_ok b : length b = IDLen -> market_id_of b = Ok (be_get (take 8 b)).
Proof. intros Hl. unfold market_id_of. by rewrite ToID_ok. Qed.

Lemma random_id_range b : length b = IDLen -> wf_bytes b -> is_u64 (be_get (take 8 b)).
Proof.
  intros Hl Hw. apply be_get_u64; [auto with vm|]. rewrite length_take, Hl. done.
Qed.

Lemma new_market_size cm id actor :
  market_size (new_market cm id actor) =
  84 + len_string (cm_Description cm) + len_string (cm_OracleSource cm)
  + Z.of_nat (length (cm_OracleParameters cm)).
Proof. done. Qed.

Lemma new_market_wf cm id actor :
  wf_CreateMarket cm -> is_u64 id -> wf_addr actor -> wf_market (new_market cm id actor).
Proof.
  unfold wf_CreateMarket, wf_market. simpl. unfold MarketStatus_Open, Outcome_Pending.
  intros. split_and!; try tauto; int_lia.
Qed.

Lemma ledger_create_accepted cm b ts actor L :
  fst (ledger_create cm (Ok b) ts actor L) = None <->
  1 <= len_string (cm_Description cm) <= 256 /\ len_string (cm_OracleSource cm) <= 256 /\
  Z.of_nat (length (cm_OracleParameters cm)) <= 512 /\
  ts < cm_EndTime cm < cm_ResolutionTime cm /\
  len_string (cm_Description cm) + len_string (cm_OracleSource cm)
    + Z.of_nat (length (cm_OracleParameters cm)) <= 940.
Proof.
  unfold ledger_create. rewrite new_market_size. unfold MaxMarketDataSize.
  pose proof (len_string_nonneg (cm_Description cm)) as Hd.
  destruct (create_guard cm ts) eqn:E; unfold create_guard in E;
    repeat case_match; simplify_eq/=; split; intros; try done; lia.
Qed.

Lemma ledger_create_inv cm b ts actor L L' :
  ledger_create cm (Ok b) ts actor L = (None, L') ->
  L' = set_market (be_get (take 8 b)) (new_market cm (be_get (take 8 b)) actor) L.
Proof.
  unfold ledger_create. destruct (create_guard cm ts); [done|].
  destruct (MaxMarketDataSize <? _); [done|]. by intros [= <-].
Qed.

Section refinement.
Context {S : Type} `{MutableLaws S} `{!TotalStore S} `{Hashing}.
Implicit Types (s : S) (L : Ledger).

Lemma create_guard_run {A} cm ts (k : GoM S A) s :
  (fail_if (len_string (cm_Description cm) =? 0) empty_description_error;;
   fail_if (256 <? len_string (cm_Description cm)) ErrDescriptionTooLong;;
   fail_if (256 <? len_string (cm_OracleSource cm)) ErrOracleSourceTooLong;;
   fail_if (512 <? Z.of_nat (length (cm_OracleParameters cm))) ErrOracleParametersTooLong;;
   fail_if (cm_EndTime cm <=? ts) ErrEndTimeInPast;;
   fail_if (cm_ResolutionTime cm <=? cm_EndTime cm) ErrResolutionTimeBeforeEndTime;; k) s
  = match create_guard cm ts with Some err => (Err err, s) | None => k s end.
Proof.
  unfold create_guard, fail_if, mbind, GoM_bind.
  by repeat (match goal with |- context [if ?c then Some _ else _] => destruct c end; [done|]).
Qed.

Lemma create_refines cm rand_Read ts actor s L :
  represents s L -> wf_ledger L -> wf_addr actor -> wf_CreateMarket cm -> wf_random rand_Read ->
  let '(r, L') := ledger_create cm rand_Read ts actor L in
  exists s', CreateMarket_Execute cm rand_Read ts actor s =
    (match r with None => Ok (create_reply rand_Read actor) | Some err => Err err end, s')
    /\ represents s' L' /\ wf_ledger L'.
Proof.
  intros Hrep Hwf Ha Hcm Hr. unfold CreateMarket_Execute, ledger_create. rewrite create_guard_run.
  destruct (create_guard cm ts) as [err|]; [by eexists|].
  destruct rand_Read as [b|err]; simpl in Hr; [|by eexists]. destruct Hr as [Hl Hw].
  pose proof (random_id_range b Hl Hw) as Hid.
  pose proof (new_market_wf cm _ actor Hcm Hid Ha) as Hm.
  erewrite run_bind_ok by done.
  erewrite run_bind_ok by (apply run_on_error_ok; unfold lift; by rewrite (market_id_of_ok b Hl)).
  cbv zeta. set (m := new_market cm _ actor) in *.
  destruct (Z.ltb_spec MaxMarketDataSize (market_size m)) as [Hs|Hs].
  - destruct (SetMarket_overflow m s Hm Hs) as (w & E & ->).
    exists s. erewrite run_bind_err; [by split_and!|]. unfold on_error. by rewrite E.
  - destruct (insert_total_run s (MarketKey (ID m)) (market_bytes m)) as [s1 E1].
    exists s1. erewrite run_bind_ok by (apply run_on_error_ok; rewrite SetMarket_fits by done; apply E1).
    split_and!; [done| |].
    + by eapply represents_set_market.
    + by apply wf_set_market.
Qed.
End refinement.
