(* ===== verification/Accounting.v ===== *)
(** * Histories and accounting

    Histories of committed operations: credits (genesis allocations), fee
    charges, buys and market creations, each all-or-nothing as the chain's
    rollback makes it.  Running a history on a store keeps representing the
    ledger run; over every history that never draws a used market ID, the
    totals of each market are the sums of the shares held in it. *)

From S2P Require Import Prelude GoErrors Lib Consts Packer LinearCodec Store StorageKeys Balances Markets Ledger Controller BuyYes BuyNo BuySpec BuyFacts Trade CreateMarket Creation.
#[local] Open Scope Z_scope.

Inductive event :=
| Credit (a : bytes) (amount : Z)
| Charge (a : bytes) (amount : Z)
| Buy (sd : side) (o : order) (ts : Z) (actor : bytes)
| Create (cm : CreateMarket) (rand_Read : result bytes) (ts : Z) (actor : bytes).

Definition wf_event (e : event) : Prop :=
  match e with
  | Credit a n | Charge a n => wf_addr a /\ is_u64 n
  | Buy sd o ts actor => wf_addr actor /\ wf_order o
  | Create cm rand_Read ts actor => wf_addr actor /\ wf_CreateMarket cm /\ wf_random rand_Read
  end.

(** An operation that fails is rolled back. *)
Definition committed {S A} (m : GoM S A) (s : S) : S :=
  match m s with (Ok _, s') => s' | (Err _, _) => s end.

Definition accepted {E} (r : option E * Ledger) (L : Ledger) : Ledger :=
  match r with (None, L') => L' | (Some _, _) => L end.

Definition apply_event (e : event) (L : Ledger) : Ledger :=
  match e with
  | Credit a n => snd (ledger_add a n L)
  | Charge a n => snd (ledger_deduct a n L)
  | Buy sd o ts actor => accepted (ledger_buy sd o ts actor L) L
  | Create cm rand_Read ts actor => accepted (ledger_create cm rand_Read ts actor L) L
  end.

Definition run_event {S} `{Mutable S} `{Hashing} (e : event) (s : S) : S :=
  match e with
  | Credit a n => committed (Handler_AddBalance New a n) s
  | Charge a n => committed (Deduct New a n) s
  | Buy sd o ts actor => committed (buy sd o ts actor) s
  | Create cm rand_Read ts actor => committed (CreateMarket_Execute cm rand_Read ts actor) s
  end.

Section simulation.
Context {S : Type} {HM : Mutable S} {HL : MutableLaws S} {HT : TotalStore S} {HH : Hashing}.

Lemma run_event_refines e (s : S) L :
  wf_event e -> represents s L -> wf_ledger L ->
  represents (run_event e s) (apply_event e L) /\ wf_ledger (apply_event e L).
Proof.
  intros He Hrep Hwf. destruct e as [a n|a n|sd o ts actor|cm rnd ts actor];
    cbn [wf_event run_event apply_event] in *; unfold committed, accepted.
  - pose proof (law_add New a n s L Hrep Hwf (proj1 He)) as Hadd.
    destruct (ledger_add a n L) as [[u|e] L'] eqn:E; destruct Hadd as (s' & -> & ? & ?); [done|].
    unfold ledger_add in E. by destruct (ledger_balance a L); simplify_eq.
  - pose proof (law_deduct New a n s L Hrep Hwf (proj1 He) (proj2 He)) as Hded.
    destruct (ledger_deduct a n L) as [[u|e] L'] eqn:E; destruct Hded as (s' & -> & ? & ?); [done|].
    unfold ledger_deduct in E. by destruct (ledger_can_deduct a n L); simplify_eq.
  - pose proof (buy_refines sd o ts actor s L Hrep Hwf (proj1 He) (proj2 He)) as Hb.
    destruct (ledger_buy sd o ts actor L) as [[r|] L']; by destruct Hb as (s' & -> & ? & ?).
  - destruct He as (Ha & Hcm & Hr).
    pose proof (create_refines cm rnd ts actor s L Hrep Hwf Ha Hcm Hr) as Hc.
    destruct (ledger_create cm rnd ts actor L) as [[r|] L']; by destruct Hc as (s' & -> & ? & ?).
Qed.

Lemma run_history_refines es : forall (s : S) L,
  Forall wf_event es -> represents s L -> wf_ledger L ->
  represents (foldl (fun s e => run_event e s) s es) (foldl (fun L e => apply_event e L) L es) /\
  wf_ledger (foldl (fun L e => apply_event e L) L es).
Proof.
  induction es as [|e es IH]; intros s L Hes Hrep Hwf; simpl; [done|].
  inversion_clear Hes. destruct (run_event_refines e s L) as [Hrep' Hwf']; auto.
Qed.
End simulation.

(** ** Accounting *)

Definition shares_of (id t : Z) (L : Ledger) : Z :=
  sum_map (fun k v => if bool_decide (k.1.1 = id /\ k.2 = t) then v else 0) (shares L).

Definition money (L : Ledger) : Z := sum_map (fun _ v => v) (balances L).

Lemma shares_of_set id t id' a t' v L :
  shares_of id t (set_shares id' a t' v L) =
    if bool_decide (id' = id /\ t' = t)
    then shares_of id t L - default 0 (shares L !! (id', a, t')) + v
    else shares_of id t L.
Proof.
  unfold shares_of. simpl. rewrite sum_map_insert. simpl.
  case_bool_decide; destruct (shares L !! (id', a, t')); simpl; lia.
Qed.

Lemma money_set a v L : money (set_balance a v L) = money L - default 0 (balances L !! a) + v.
Proof. unfold money. simpl. rewrite sum_map_insert. by destruct (balances L !! a). Qed.

(** The books are in order: each total is the sum of the shares, as a
    [uint64], and no one holds shares of a market that does not exist. *)
Record accounted (L : Ledger) : Prop := {
  acc_yes id m : markets L !! id = Some m -> TotalYesShares m = u64 (shares_of id YesShareType L);
  acc_no id m : markets L !! id = Some m -> TotalNoShares m = u64 (shares_of id NoShareType L);
  acc_exists id a t : is_Some (shares L !! (id, a, t)) -> is_Some (markets L !! id);
}.

(** The drawn ID is not in use. *)
Definition fresh_event (e : event) (L : Ledger) : Prop :=
  match e with
  | Create _ (Ok b) _ _ => markets L !! be_get (take 8 b) = None
  | _ => True
  end.

Inductive reachable : Ledger -> Prop :=
| reachable_empty : reachable empty_ledger
| reachable_event L e :
    reachable L -> wf_event e -> fresh_event e L -> reachable (apply_event e L).

(** No event of a history draws a used ID. *)
Fixpoint fresh_history (es : list event) (L : Ledger) : Prop :=
  match es with
  | [] => True
  | e :: es => fresh_event e L /\ fresh_history es (apply_event e L)
  end.

Lemma history_reachable es : forall L,
  reachable L -> Forall wf_event es -> fresh_history es L ->
  reachable (foldl (fun L e => apply_event e L) L es).
Proof.
  induction es as [|e es IH]; intros L HL Hes Hf; simpl in *; [done|].
  inversion_clear Hes. destruct Hf. apply IH; [by apply reachable_event|done..].
Qed.

Lemma accounted_set_balance a v L : accounted L -> accounted (set_balance a v L).
Proof. by intros []. Qed.

Lemma accounted_empty : accounted empty_ledger.
Proof. by split; simpl; intros ? ?; rewrite ?lookup_empty; try intros ? [? ?]. Qed.

Lemma u64_add_l x y : u64 (u64 x + y) = u64 (x + y).
Proof. unfold u64. by rewrite Zplus_mod_idemp_l. Qed.

(** Replacing the part [y] of a sum by its [uint64] increase. *)
Lemma u64_replace x y a : u64 (x - y + u64 (y + a)) = u64 (x + a).
Proof. unfold u64. rewrite Zplus_mod_idemp_r. f_equal. lia. Qed.

(** The shares held once [sh] of them became [sh + amount]. *)
Lemma shares_of_settled sd o actor m bal sh L id t :
  counter (shares L !! (o_market o, actor, side_type sd)) = Some sh ->
  u64 (shares_of id t (settled sd o actor m bal sh L)) =
    if bool_decide (o_market o = id /\ side_type sd = t)
    then u64 (shares_of id t L + o_amount o)
    else u64 (shares_of id t L).
Proof.
  intros Hc. unfold settled.
  change (shares_of id t (set_market ?i ?m ?L')) with (shares_of id t L').
  rewrite shares_of_set. change (shares_of id t (set_balance _ _ L)) with (shares_of id t L).
  cbn [shares set_balance]. rewrite (counter_default _ _ Hc).
  case_bool_decide; [|done]. apply u64_replace.
Qed.

Lemma accounted_settled sd o actor m bal sh L :
  accounted L -> markets L !! o_market o = Some m ->
  counter (shares L !! (o_market o, actor, side_type sd)) = Some sh ->
  accounted (settled sd o actor m bal sh L).
Proof.
  intros [Hy Hn He] Hm Hc. split.
  - intros id m'. rewrite shares_of_settled by done. unfold settled. simpl.
    intros [[<- <-]|[Hne Hl]]%lookup_insert_Some.
    + destruct sd; simpl.
      * rewrite bool_decide_true, (Hy _ _ Hm) by done. apply u64_add_l.
      * rewrite bool_decide_false by (by intros [_ [=]]). by apply Hy.
    + rewrite bool_decide_false by tauto. by apply Hy.
  - intros id m'. rewrite shares_of_settled by done. unfold settled. simpl.
    intros [[<- <-]|[Hne Hl]]%lookup_insert_Some.
    + destruct sd; simpl.
      * rewrite bool_decide_false by (by intros [_ [=]]). by apply Hn.
      * rewrite bool_decide_true, (Hn _ _ Hm) by done. apply u64_add_l.
    + rewrite bool_decide_false by tauto. by apply Hn.
  - intros id a t. unfold settled. simpl. rewrite !lookup_insert_is_Some'.
    intros [E|Hs]; [left; congruence|right; by eapply He].
Qed.

Lemma accounted_created cm id actor L :
  accounted L -> markets L !! id = None -> accounted (set_market id (new_market cm id actor) L).
Proof.
  intros [Hy Hn He] Hm.
  assert (forall t, shares_of id t L = 0) as Hz.
  { intros t. apply sum_map_zero. intros [[id' a] t'] v Hl. simpl. case_bool_decide as Hk; [|done].
    destruct Hk as [-> ->]. destruct (He _ _ _ (mk_is_Some _ _ Hl)). congruence. }
  split; simpl.
  - intros id' m' [[-> <-]|[Hne Hl]]%lookup_insert_Some.
    + change (shares_of id' YesShareType (set_market _ _ L)) with (shares_of id' YesShareType L).
      by rewrite Hz.
    + by apply Hy.
  - intros id' m' [[-> <-]|[Hne Hl]]%lookup_insert_Some.
    + change (shares_of id' NoShareType (set_market _ _ L)) with (shares_of id' NoShareType L).
      by rewrite Hz.
    + by apply Hn.
  - intros id' a t Hs. rewrite lookup_insert_is_Some'. right. by eapply He.
Qed.

(** What an accepted buy saw. *)
Lemma ledger_buy_accepted sd o ts actor L L' :
  ledger_buy sd o ts actor L = (None, L') ->
  exists m bal sh, markets L !! o_market o = Some m /\ balances L !! actor = Some bal /\
    order_cost o <= bal /\ counter (shares L !! (o_market o, actor, side_type sd)) = Some sh /\
    L' = settled sd o actor m bal sh L.
Proof.
  unfold ledger_buy. do 2 (case_match; [done|]). destruct (markets L !! o_market o) as [m|]; [|done].
  do 3 (case_match; [done|]). destruct (balances L !! actor) as [bal|]; [|done].
  destruct (Z.ltb_spec bal (order_cost o)); [done|].
  destruct (counter _) as [sh|] eqn:E; [|done]. intros [= <-]. by exists m, bal, sh.
Qed.

Lemma accounted_event e L :
  accounted L -> fresh_event e L -> accounted (apply_event e L).
Proof.
  intros Ha Hf. destruct e as [a n|a n|sd o ts actor|cm rnd ts actor]; cbn [apply_event].
  - unfold ledger_add. by destruct (ledger_balance a L); [apply accounted_set_balance|].
  - unfold ledger_deduct. by destruct (ledger_can_deduct a n L); [apply accounted_set_balance|].
  - destruct (ledger_buy sd o ts actor L) as [[r|] L'] eqn:E; [done|]. simpl.
    apply ledger_buy_accepted in E as (m & bal & sh & Hm & _ & _ & Hc & ->).
    by apply accounted_settled.
  - unfold ledger_create, accepted. destruct (create_guard cm ts); [done|].
    destruct rnd as [b|err]; [|done]. simpl in Hf |- *.
    destruct (MaxMarketDataSize <? _); [done|].
    by apply accounted_created.
Qed.

Lemma reachable_accounted L : reachable L -> accounted L.
Proof. induction 1; auto using accounted_empty, accounted_event. Qed.

(** ** Where the money goes

    Credits bring money in, charges and buys take it out: what a buyer pays is
    credited to no one. *)

Definition inflow (e : event) (L : Ledger) : Z :=
  match e with
  | Credit a n => if is_ok (ledger_balance a L) then n else 0
  | _ => 0
  end.

Definition outflow (e : event) (L : Ledger) : Z :=
  match e with
  | Charge a n => if is_ok (ledger_can_deduct a n L) then n else 0
  | Buy sd o ts actor =>
      match ledger_buy sd o ts actor L with (None, _) => order_cost o | (Some _, _) => 0 end
  | _ => 0
  end.

(** The totals over a history. *)
Fixpoint flows (es : list event) (L : Ledger) : Z * Z :=
  match es with
  | [] => (0, 0)
  | e :: es =>
      let '(i, o) := flows es (apply_event e L) in
      (inflow e L + i, outflow e L + o)
  end.

Lemma money_settled sd o actor m bal sh L :
  balances L !! actor = Some bal ->
  money (settled sd o actor m bal sh L) = money L - order_cost o.
Proof.
  intros Hb. unfold settled.
  change (money (set_market ?i ?m (set_shares ?j ?a ?t ?v ?L'))) with (money L').
  rewrite money_set, Hb. simpl. lia.
Qed.

Lemma balances_nonneg L : wf_ledger L -> map_Forall (fun _ v => 0 <= v) (balances L).
Proof. intros Hwf a v Hl. apply (wl_balances L Hwf) in Hl as [_ Hv]. int_lia. Qed.

Lemma balance_le_money L a : wf_ledger L -> default 0 (balances L !! a) <= money L.
Proof.
  intros Hwf. pose proof (balances_nonneg L Hwf) as Hp. destruct (balances L !! a) as [v|] eqn:E.
  - by apply (sum_map_lookup_le (fun _ v => v) _ a v).
  - by apply (sum_map_nonneg (fun _ v => v)).
Qed.

Lemma can_deduct_inv a n L u :
  ledger_can_deduct a n L = Ok u -> exists v, ledger_balance a L = Ok v /\ n <= v.
Proof.
  unfold ledger_can_deduct, mbind, result_bind. destruct (ledger_balance a L) as [v|]; [|done].
  destruct (Z.ltb_spec v n); [done|]. eauto.
Qed.

Lemma event_money e L :
  wf_ledger L -> wf_event e -> money L + inflow e L < two64 ->
  money (apply_event e L) = money L + inflow e L - outflow e L.
Proof.
  intros Hwf He Hlt. destruct e as [a n|a n|sd o ts actor|cm rnd ts actor]; cbn [apply_event inflow outflow wf_event] in *.
  - unfold ledger_add. destruct (ledger_balance a L) as [v|e] eqn:E; simpl in *; [|lia].
    apply ledger_balance_range in E as [Hv Hd]; [|done]. rewrite money_set, Hd.
    pose proof (balance_le_money L a Hwf). rewrite u64_small; [lia|]. int_lia.
  - unfold ledger_deduct. destruct (ledger_can_deduct a n L); simpl; [|lia].
    rewrite money_set. lia.
  - destruct (ledger_buy sd o ts actor L) as [[r|] L'] eqn:E; simpl; [lia|].
    apply ledger_buy_accepted in E as (m & bal & sh & _ & Hb & _ & _ & ->).
    rewrite (money_settled _ _ _ _ _ _ _ Hb). lia.
  - unfold ledger_create, accepted. destruct (create_guard cm ts); [lia|].
    destruct rnd as [b|err]; [|lia]. destruct (MaxMarketDataSize <? _); [lia|].
    change (money (set_market ?i ?m ?L')) with (money L'). lia.
Qed.

Lemma outflow_nonneg e L : wf_event e -> 0 <= outflow e L.
Proof.
  destruct e as [a n|a n|sd o ts actor|cm rnd ts actor]; simpl; try lia.
  - intros [_ Hn]. case_match; int_lia.
  - intros _. pose proof (order_cost_range o). repeat case_match; int_lia.
Qed.

Lemma flows_nonneg es : forall L,
  Forall wf_event es -> 0 <= fst (flows es L) /\ 0 <= snd (flows es L).
Proof.
  induction es as [|e es IH]; intros L Hes; simpl; [lia|]. inversion_clear Hes as [|? ? He Hes'].
  destruct (flows es (apply_event e L)) as [i o] eqn:E.
  specialize (IH (apply_event e L) Hes'). rewrite E in IH. simpl in *.
  pose proof (outflow_nonneg e L He).
  assert (0 <= inflow e L) by (destruct e; simpl in *; repeat case_match; int_lia). lia.
Qed.

Lemma apply_event_wf e L : wf_event e -> wf_ledger L -> wf_ledger (apply_event e L).
Proof.
  intros He Hwf. destruct e as [a n|a n|sd o ts actor|cm rnd ts actor]; cbn [apply_event wf_event] in *.
  - unfold ledger_add. destruct (ledger_balance a L); [|done]. apply wf_set_balance; auto with vm. tauto.
  - unfold ledger_deduct. destruct (ledger_can_deduct a n L) as [u|] eqn:E; [|done].
    apply can_deduct_inv in E as (v & Hv & Hle).
    destruct (ledger_balance_range a L v Hwf Hv) as [Hu ->]. destruct He as [Ha Hn].
    apply wf_set_balance; auto. int_lia.
  - destruct (ledger_buy sd o ts actor L) as [[r|] L'] eqn:E; [done|].
    apply ledger_buy_accepted in E as (m & bal & sh & Hm & Hb & Hc & _ & ->).
    destruct He. by apply wf_settled.
  - unfold ledger_create, accepted. destruct (create_guard cm ts); [done|].
    destruct rnd as [b|err]; [|done]. destruct He as (Ha & Hcm & Hl & Hw).
    destruct (Z.ltb_spec MaxMarketDataSize (market_size (new_market cm (be_get (take 8 b)) actor)));
      [done|].
    apply wf_set_market; [done|]. pose proof (random_id_range b Hl Hw).
    split_and!; [by apply new_market_wf|done|done].
Qed.

Lemma reachable_wf L : reachable L -> wf_ledger L.
Proof. induction 1; auto using wf_empty_ledger, apply_event_wf. Qed.

Lemma history_money es : forall L,
  wf_ledger L -> Forall wf_event es -> money L + fst (flows es L) < two64 ->
  money (foldl (fun L e => apply_event e L) L es) + snd (flows es L) = money L + fst (flows es L).
Proof.
  induction es as [|e es IH]; intros L Hwf Hes; simpl; [lia|]. inversion_clear Hes as [|? ? He Hes'].
  pose proof (flows_nonneg es (apply_event e L) Hes') as Hnn.
  pose proof (event_money e L Hwf He) as Hm. pose proof (outflow_nonneg e L He).
  specialize (IH _ (apply_event_wf e L He Hwf) Hes').
  destruct (flows es (apply_event e L)) as [i o]. simpl in *. intros Hlt.
  rewrite Hm in IH by lia. lia.
Qed.
