(* ===== verification/Examples.v ===== *)
(** * Example states

    A small concrete store with the ledger it holds, on which the theorems
    are exercised. *)

From S2P Require Import Prelude GoErrors Lib Consts Packer LinearCodec Store Permissions TState StorageKeys Balances Markets Ledger Controller BuyYes BuyNo BuySpec BuyFacts Trade CreateMarket Creation Accounting.
#[local] Open Scope Z_scope.

#[export] Existing Instance zero_checksum.

Definition alice : bytes := set_byte 0 1 (make_bytes AddressLen).
Definition bob : bytes := set_byte 0 2 (make_bytes AddressLen).

Definition rain : Market := {|
  ID := 7;
  Description := "Will it rain?";
  Status := MarketStatus_Open;
  Creator := bob;
  EndTime := 1000;
  ResolutionTime := 2000;
  TotalYesShares := 0;
  TotalNoShares := 0;
  OracleType := 0;
  OracleSource := "weather";
  OracleParameters := [1; 2];
  ResolvedOutcome := Outcome_Pending;
|}.

(** Alice has 1000, and there is one market. *)
Definition demo_store : InMemoryStore :=
  mkStore (<[MarketKey 7 := market_bytes rain]> (<[BalanceKey alice := be_put 8 1000]> ∅)).

Definition demo_ledger : Ledger := set_market 7 rain (set_balance alice 1000 empty_ledger).

(** Ten shares for at most 15 each. *)
Definition demo_order : order := mkOrder 7 10 15.

Lemma wf_alice : wf_addr alice.
Proof. by apply (bool_decide_unpack _). Qed.

Lemma wf_bob : wf_addr bob.
Proof. by apply (bool_decide_unpack _). Qed.

Lemma wf_rain : wf_entry 7 rain.
Proof. split_and!; [by apply (bool_decide_unpack _)|done|done]. Qed.

Lemma wf_demo_order : wf_order demo_order.
Proof. by apply (bool_decide_unpack _). Qed.

Lemma demo_represents : represents demo_store demo_ledger.
Proof.
  unfold demo_ledger.
  eapply (represents_set_market (mkStore (<[BalanceKey alice := be_put 8 1000]> ∅))); [|done..].
  eapply (represents_set_balance NewInMemoryStore); [apply represents_empty|apply wf_alice|done].
Qed.

Lemma demo_wf : wf_ledger demo_ledger.
Proof.
  apply wf_set_market; [|apply wf_rain].
  apply wf_set_balance; [apply wf_empty_ledger|apply wf_alice|done].
Qed.

Lemma demo_values : wf_values demo_store.
Proof.
  intros k b. unfold GetValue. simpl. unfold InMemoryStore_GetValue. simpl.
  destruct (_ !! k) as [v|] eqn:E; [|done]. intros [= <-]. revert E.
  rewrite !lookup_insert_Some, lookup_empty. intros [[_ <-]|(_ & [[_ <-]|(_ & [=])])];
    by apply (bool_decide_unpack _).
Qed.

Definition demo_credit : list event := [Credit alice 1000].
