(* ===== verification/Footprint.v ===== *)
(** * Footprints

    Which keys the operations write.  Every operation of storage/ and every
    action is a program that only inserts, under the keys given here; a buy
    stays within the keys it declares. *)

From S2P Require Import Prelude GoErrors Lib Consts Packer LinearCodec Store Permissions StorageKeys Balances Markets Controller BuyYes BuyNo BuySpec BuyFacts Trade CreateMarket Creation Accounting.
#[local] Open Scope Z_scope.

Section footprints.
Context {S : Type} `{MutableLaws S} `{Hashing}.
Variable (K : bytes -> Prop).

Lemma SetBalance_inserts a v : K (BalanceKey a) -> inserts K (SetBalance a v : GoM S unit).
Proof. intros Hk. rewrite SetBalance_eq. auto with vm. Qed.

Lemma SetShareBalance_inserts id a t v :
  K (ShareBalanceKey id a t) -> inserts K (SetShareBalance id a t v : GoM S unit).
Proof. intros Hk. rewrite SetShareBalance_eq. auto with vm. Qed.

Lemma SetMarket_inserts m : K (MarketKey (ID m)) -> inserts K (SetMarket m : GoM S unit).
Proof. intros Hk. unfold SetMarket. inserting. Qed.

#[local] Hint Resolve SetBalance_inserts SetShareBalance_inserts SetMarket_inserts : vm.

Lemma DeductBalance_inserts a n : K (BalanceKey a) -> inserts K (DeductBalance a n : GoM S unit).
Proof. intros Hk. unfold DeductBalance. inserting. Qed.

Lemma AddBalance_inserts a n : K (BalanceKey a) -> inserts K (AddBalance a n : GoM S unit).
Proof. intros Hk. unfold AddBalance. inserting. Qed.

Lemma AddShares_inserts id a t n :
  K (ShareBalanceKey id a t) -> inserts K (AddShares id a t n : GoM S unit).
Proof. intros Hk. unfold AddShares. inserting. Qed.

Lemma DeductShares_inserts id a t n :
  K (ShareBalanceKey id a t) -> inserts K (DeductShares id a t n : GoM S unit).
Proof. intros Hk. unfold DeductShares. inserting. Qed.

Lemma settle_inserts sd msg o actor m bal :
  K (BalanceKey actor) -> K (ShareBalanceKey (o_market o) actor (side_type sd)) ->
  K (MarketKey (ID m)) -> inserts K (settle sd msg o actor m bal : GoM S bytes).
Proof.
  intros Hb Hs Hm. unfold settle. inserting.
Qed.

Lemma buy_inserts_any sd o ts actor :
  K (BalanceKey actor) -> K (ShareBalanceKey (o_market o) actor (side_type sd)) ->
  (forall id, K (MarketKey id)) -> inserts K (buy sd o ts actor : GoM S bytes).
Proof.
  intros Hb Hs Hm s r s'. rewrite buy_is_reference. revert s r s'.
  fold (inserts K (buy_reference sd (side_messages sd o ts actor) o ts actor : GoM S bytes)).
  unfold buy_reference. inserting. by apply settle_inserts.
Qed.

Lemma CreateMarket_inserts cm rand_Read ts actor :
  (forall id, K (MarketKey id)) -> inserts K (CreateMarket_Execute cm rand_Read ts actor : GoM S bytes).
Proof. intros Hm. unfold CreateMarket_Execute. inserting. Qed.
End footprints.

#[export] Hint Resolve SetBalance_inserts SetShareBalance_inserts SetMarket_inserts
  DeductBalance_inserts AddBalance_inserts AddShares_inserts DeductShares_inserts : vm.

(** The keys a buy declares. *)
Definition buy_StateKeys (sd : side) (o : order) (actor : bytes) : gmap bytes Z :=
  match sd with
  | Yes => BuyYes_StateKeys (mkBuyYes (o_market o) (o_amount o) (o_price o)) actor
  | No => BuyNo_StateKeys (mkBuyNo (o_market o) (o_amount o) (o_price o)) actor
  end.

Definition declared (keys : gmap bytes Z) (k : bytes) : Prop := k ∈ dom keys.

Lemma buy_declares sd o actor :
  declared (buy_StateKeys sd o actor) (BalanceKey actor) /\
  declared (buy_StateKeys sd o actor) (ShareBalanceKey (o_market o) actor (side_type sd)) /\
  declared (buy_StateKeys sd o actor) (MarketKey (o_market o)).
Proof. unfold declared. destruct sd; simpl; unfold BuyYes_StateKeys, BuyNo_StateKeys; simpl; set_solver. Qed.

Section declared.
Context {S : Type} `{MutableLaws S} `{Hashing}.

(** With the market stored under its own ID, a buy writes declared keys
    only. *)
Lemma buy_declared sd o ts actor (s : S) r s' :
  (forall m, GetMarket s (o_market o) = Ok m -> ID m = o_market o) ->
  buy sd o ts actor s = (r, s') -> rtc (insert_step (declared (buy_StateKeys sd o actor))) s s'.
Proof.
  intros Hid. rewrite buy_is_reference. unfold buy_reference.
  destruct (buy_declares sd o actor) as (Hb & Hs & Hm).
  do 2 (match goal with |- context [fail_if ?c _ ≫= _] => destruct c end;
    [by rewrite run_fail_if_true by done; intros [= _ <-]|rewrite run_fail_if_false by done]).
  destruct (GetMarket s (o_market o)) as [m|e] eqn:Em.
  - erewrite run_bind_ok by (apply run_on_error_ok; unfold reading; by rewrite Em).
    rewrite <- (Hid m eq_refl) in Hm.
    match goal with |- ?rest s = _ -> _ =>
      assert (inserts (declared (buy_StateKeys sd o actor)) rest) as Hrest; [|apply Hrest]
    end.
    inserting. by apply settle_inserts.
  - erewrite run_bind_err; [by intros [= _ <-]|]. unfold on_error, reading. by rewrite Em.
Qed.
End declared.

(** ** The RPC key

    Nothing is ever written under [StateKeysBalance]. *)

Section off_key.
Context {S : Type} `{MutableLaws S} `{Hashing}.

Lemma committed_frame {A} (K : bytes -> Prop) (m : GoM S A) s k :
  inserts K m -> ~ K k -> GetValue (committed m s) k = GetValue s k.
Proof.
  intros Hm Hk. unfold committed. destruct (m s) as [[a|e] s'] eqn:E; [|done].
  by eapply inserts_frame.
Qed.

Lemma run_event_off_key e a (s : S) :
  wf_addr a -> wf_event e ->
  GetValue (run_event e s) (StateKeysBalance a) = GetValue s (StateKeysBalance a).
Proof.
  intros [Ha _] He.
  destruct e as [b n|b n|sd o ts actor|cm rnd ts actor]; cbn [wf_event run_event] in *;
    destruct_and?; unfold wf_addr in *; destruct_and?;
    apply (committed_frame (fun k => k <> StateKeysBalance a)); try (intros Hk; by apply Hk).
  - apply AddBalance_inserts. apply not_eq_sym. auto with vm.
  - apply DeductBalance_inserts. apply not_eq_sym. auto with vm.
  - apply buy_inserts_any; intros; apply not_eq_sym; auto with vm.
  - apply CreateMarket_inserts. intros. apply not_eq_sym. auto with vm.
Qed.

Lemma history_off_key es a : forall s : S,
  wf_addr a -> Forall wf_event es ->
  GetValue (foldl (fun s e => run_event e s) s es) (StateKeysBalance a) = GetValue s (StateKeysBalance a).
Proof.
  induction es as [|e es IH]; intros s Ha Hes; simpl; [done|]. inversion_clear Hes.
  rewrite IH by done. by apply run_event_off_key.
Qed.
End off_key.
