(* ===== verification/TradeCorrect.v ===== *)
(** * Theorems on buying shares

    The refinement of both buy actions, what a buy does on any store, its
    errors, its price and its footprint, each at a concrete order too. *)

From S2P Require Import Prelude GoErrors Lib Consts Packer LinearCodec Store Permissions TState StorageKeys Balances Markets Ledger Controller BuyYes BuyNo BuySpec BuyFacts Trade CreateMarket Creation Accounting Examples Footprint.
#[local] Open Scope Z_scope.

(** C1: BuyYes.Execute and BuyNo.Execute implement the ledger operation
    [ledger_buy]: over a store that holds the ledger [L] and accepts inserts,
    the action returns exactly the refusal the ledger operation gives, with
    its error text, or succeeds with empty output; and the store afterwards
    holds the resulting ledger, which is well formed. *)
Theorem buy_implements_ledger {S} `{MutableLaws S} `{!TotalStore S} `{Hashing} sd o ts actor (s : S) L :
  represents s L -> wf_ledger L -> wf_addr actor -> wf_order o ->
  let '(r, L') := ledger_buy sd o ts actor L in
  exists s', buy sd o ts actor s =
    (match r with None => Ok [] | Some r => Err (refusal_error sd o ts actor r) end, s')
    /\ represents s' L' /\ wf_ledger L'.
Proof. apply buy_refines. Qed.

Lemma buy_implements_ledger_witness :
  exists s', buy Yes demo_order 500 alice demo_store = (Ok [], s') /\
    represents s' (settled Yes demo_order alice rain 1000 0 demo_ledger) /\
    wf_ledger (settled Yes demo_order alice rain 1000 0 demo_ledger).
Proof.
  exact (buy_implements_ledger Yes demo_order 500 alice demo_store demo_ledger
    demo_represents demo_wf wf_alice wf_demo_order).
Defined.

(** The two actions are one algorithm.  BuyYes.Execute (whose guards come
    in another order) and BuyNo.Execute equal, on every store and input, the
    reference buy of their side with their messages. *)
Lemma buys_are_one_algorithm {S} `{Mutable S} `{Hashing} (y : BuyYes) (n : BuyNo) ts actor (s : S) :
  BuyYes_Execute y ts actor s =
    buy_reference Yes (side_messages Yes (order_of_BuyYes y) ts actor) (order_of_BuyYes y) ts actor s /\
  BuyNo_Execute n ts actor s =
    buy_reference No (side_messages No (order_of_BuyNo n) ts actor) (order_of_BuyNo n) ts actor s.
Proof. split; [apply BuyYes_reference|apply BuyNo_reference]. Qed.

(** C6: on any lawful store (the transaction views included), a buy that
    succeeds had a non-zero amount and price, an existing market open for
    trading, a readable balance covering the cost and a readable share
    balance; it returns no output, and changes exactly the market's total,
    the share balance and the balance, by the amount and the cost. *)
Theorem buy_success_effect {S} `{MutableLaws S} `{Hashing} sd o ts actor (s : S) out s' :
  wf_values s -> wf_addr actor -> buy sd o ts actor s = (Ok out, s') ->
  out = [] /\ exists m bal sh,
    ready sd o ts actor s m bal sh /\ bought sd o actor m bal sh s s' /\
    wf_market m /\ market_size m <= MaxMarketDataSize /\ is_u64 bal /\ is_u64 sh.
Proof. rewrite buy_is_reference. apply reference_inv. Qed.

Lemma buy_success_effect_witness :
  @nil Z = [] /\ exists m bal sh,
    ready No demo_order 500 alice demo_store m bal sh /\
    bought No demo_order alice m bal sh demo_store (snd (buy No demo_order 500 alice demo_store)) /\
    wf_market m /\ market_size m <= MaxMarketDataSize /\ is_u64 bal /\ is_u64 sh.
Proof.
  apply (buy_success_effect No demo_order 500 alice demo_store []);
    [apply demo_values|apply wf_alice|vm_compute; reflexivity].
Defined.

(** C7: errors of a buy.  A failing buy is refused for the reason the ledger
    gives; [errors.Is] finds the package variable of that reason in the
    error; and the store reads as before, unless the reason is an unreadable
    share balance, where the balance is already reduced by the cost. *)
Theorem buy_failure_classified {S} `{MutableLaws S} `{!TotalStore S} `{Hashing} sd o ts actor (s : S) L err s' :
  represents s L -> wf_ledger L -> wf_addr actor -> wf_order o ->
  buy sd o ts actor s = (Err err, s') ->
  exists r L', ledger_buy sd o ts actor L = (Some r, L') /\
    errors_Is err (refusal_var r) = true /\ represents s' L' /\
    (L' = L \/ r = SharesUnreadable /\ exists bal, balances L !! actor = Some bal /\
       L' = set_balance actor (bal - order_cost o) L).
Proof.
  intros Hrep Hwf Ha Ho E. pose proof (buy_refines sd o ts actor s L Hrep Hwf Ha Ho) as Hr.
  destruct (ledger_buy sd o ts actor L) as [[r|] L'] eqn:El; destruct Hr as (s1 & E1 & Hrep' & _);
    [|congruence].
  exists r, L'. assert (err = refusal_error sd o ts actor r /\ s1 = s') as [-> ->] by (split; congruence).
  split_and!; [done|by apply refusal_error_var|done|by eapply ledger_buy_refused].
Qed.

Lemma buy_failure_classified_witness :
  exists r L', ledger_buy Yes (mkOrder 8 10 15) 500 alice demo_ledger = (Some r, L') /\
    errors_Is (refusal_error Yes (mkOrder 8 10 15) 500 alice NoMarket) (refusal_var r) = true /\
    represents demo_store L' /\
    (L' = demo_ledger \/ r = SharesUnreadable /\ exists bal, balances demo_ledger !! alice = Some bal /\
       L' = set_balance alice (bal - order_cost (mkOrder 8 10 15)) demo_ledger).
Proof.
  apply (buy_failure_classified Yes (mkOrder 8 10 15) 500 alice demo_store);
    [apply demo_represents|apply demo_wf|apply wf_alice|by apply (bool_decide_unpack _)|vm_compute; reflexivity].
Defined.

(** C24: the price paid.  On any lawful store, an accepted buy lowers the
    buyer's stored balance by amount times price exactly when that product
    fits in 64 bits; otherwise the product wraps around and the buyer pays
    less. *)
Theorem buy_price_exact {S} `{MutableLaws S} `{Hashing} sd o ts actor (s : S) out s' :
  wf_values s -> wf_addr actor -> wf_order o -> buy sd o ts actor s = (Ok out, s') ->
  exists bal bal', GetValue s (BalanceKey actor) = Ok (be_put 8 bal) /\
    GetValue s' (BalanceKey actor) = Ok (be_put 8 bal') /\ 0 <= bal' <= bal /\
    (bal - bal' = o_amount o * o_price o <-> o_amount o * o_price o < two64) /\
    bal - bal' <= o_amount o * o_price o.
Proof.
  intros Hv Ha (_ & Ham & Hpr) E. rewrite buy_is_reference in E.
  destruct (bought_balance _ _ _ _ _ _ _ _ Hv Ha E) as (bal & Hbal & Hc & Hb & Hb').
  exists bal, (bal - order_cost o). pose proof (order_cost_range o) as Hr.
  assert (0 <= o_amount o * o_price o) as Hp by (apply Z.mul_nonneg_nonneg; int_lia).
  pose proof (u64_le _ Hp) as Hle. pose proof (u64_exact _ Hp) as Hex. fold (order_cost o) in Hle, Hex.
  split_and!; try done; int_lia.
Qed.

Lemma buy_price_exact_witness :
  exists bal bal', GetValue demo_store (BalanceKey alice) = Ok (be_put 8 bal) /\
    GetValue (snd (buy Yes demo_order 500 alice demo_store)) (BalanceKey alice) = Ok (be_put 8 bal') /\
    0 <= bal' <= bal /\
    (bal - bal' = o_amount demo_order * o_price demo_order <-> o_amount demo_order * o_price demo_order < two64) /\
    bal - bal' <= o_amount demo_order * o_price demo_order.
Proof.
  apply (buy_price_exact Yes demo_order 500 alice demo_store []);
    [apply demo_values|apply wf_alice|apply wf_demo_order|vm_compute; reflexivity].
Defined.

(** Free shares.  At any price and amount whose product is a multiple of
    2^64, a buyer with any readable balance record in an open market that has
    not ended gets the shares: the stored balance stays what it was and the
    share balance becomes the amount. *)
Lemma buy_free_shares {S} `{MutableLaws S} `{!TotalStore S} `{Hashing} sd o ts actor (s : S) L m bal k :
  represents s L -> wf_ledger L -> wf_addr actor -> wf_order o ->
  markets L !! o_market o = Some m -> tradable m ts = true ->
  balances L !! actor = Some bal -> shares L !! (o_market o, actor, side_type sd) = None ->
  0 < o_amount o -> 0 < o_price o -> o_amount o * o_price o = k * two64 ->
  exists s', buy sd o ts actor s = (Ok [], s') /\
    GetValue s' (BalanceKey actor) = GetValue s (BalanceKey actor) /\
    GetShareBalance s' (o_market o) actor (side_type sd) = Ok (o_amount o).
Proof.
  intros Hrep Hwf Ha Ho Hm Ht Hb Hs Ham Hpr Hk.
  assert (order_cost o = 0) as Hc by (unfold order_cost; rewrite Hk; apply Z_mod_mult).
  pose proof (balance_range L Hwf _ _ Hb) as Hbal. destruct Ho as (Hid & Hau & Hpu).
  pose proof (buy_refines sd o ts actor s L Hrep Hwf Ha ltac:(by split_and!)) as Hr.
  rewrite (ledger_buy_ready sd o ts actor L m bal 0) in Hr; [|try done; int_lia..|by rewrite Hs].
  destruct Hr as (s' & E & Hrep' & Hwf'). exists s'. split; [done|].
  rewrite (rep_balance _ _ Hrep actor Ha), (rep_balance _ _ Hrep' actor Ha), Hb.
  pose proof (rep_GetShareBalance s' _ Hrep' Hwf' (o_market o) actor (side_type sd) Hid Ha) as Hg.
  unfold settled in *. simpl in *. rewrite Hc, Z.sub_0_r, !lookup_insert_eq in *. split; [done|].
  unfold counter in Hg. rewrite Z.add_0_l, u64_small in Hg by done.
  by destruct (Z.eqb_spec (o_amount o) 0); [lia|].
Qed.

Lemma buy_free_shares_witness :
  exists s', buy No (mkOrder 7 4294967296 4294967296) 500 alice demo_store = (Ok [], s') /\
    GetValue s' (BalanceKey alice) = GetValue demo_store (BalanceKey alice) /\
    GetShareBalance s' 7 alice (side_type No) = Ok 4294967296.
Proof.
  apply (buy_free_shares No (mkOrder 7 4294967296 4294967296) 500 alice demo_store demo_ledger rain 1000 1);
    [apply demo_represents|apply demo_wf|apply wf_alice|by apply (bool_decide_unpack _)
    |vm_compute; congruence || reflexivity..].
Defined.

(** Footprint.  When the market is stored under its own ID, a buy,
    failing or not, leaves every key it does not declare in StateKeys with
    its value: other users, other markets, the other side. *)
Lemma buy_frame {S} `{MutableLaws S} `{Hashing} sd o ts actor (s : S) r s' k :
  (forall m, GetMarket s (o_market o) = Ok m -> ID m = o_market o) ->
  buy sd o ts actor s = (r, s') -> k ∉ dom (buy_StateKeys sd o actor) ->
  GetValue s' k = GetValue s k.
Proof. intros Hid E Hk. eapply insert_step_frame; [by eapply buy_declared|done]. Qed.

Lemma buy_frame_witness :
  GetValue (snd (buy Yes demo_order 500 alice demo_store)) (BalanceKey bob) = GetValue demo_store (BalanceKey bob).
Proof.
  apply (buy_frame Yes demo_order 500 alice demo_store (Ok [])).
  - intros m. vm_compute. by intros [= <-].
  - vm_compute. reflexivity.
  - by apply (bool_decide_unpack _).
Defined.
