(* ===== verification/LedgerCorrect.v ===== *)
(** * Theorems on market creation, balances and histories *)

From S2P Require Import Prelude GoErrors Lib Consts Packer LinearCodec Store Permissions TState StorageKeys Balances Markets Ledger Controller BuyYes BuyNo BuySpec BuyFacts Trade CreateMarket Creation Accounting Examples Footprint.
#[local] Open Scope Z_scope.

(** A market proposal, and the random bytes drawn for it. *)
Definition proposal : CreateMarket := {|
  cm_Description := "Will it snow?";
  cm_EndTime := 5000;
  cm_ResolutionTime := 6000;
  cm_OracleType := 1;
  cm_OracleSource := "weather";
  cm_OracleParameters := [];
|}.

Definition random_nine : bytes := set_byte 7 9 (make_bytes IDLen).
Definition random_seven : bytes := set_byte 7 7 (make_bytes IDLen).

Lemma wf_proposal : wf_CreateMarket proposal.
Proof. by apply (bool_decide_unpack _). Qed.

Lemma wf_random_nine : wf_random (Ok random_nine).
Proof. by apply (bool_decide_unpack _). Qed.

(** C2: CreateMarket.Execute implements [ledger_create]: the input checks in
    the order of the code with their errors, the failures of the random
    source and of the size limit, and otherwise the new open market stored
    under the first eight random bytes, with the success message. *)
Theorem create_implements_ledger {S} `{MutableLaws S} `{!TotalStore S} `{Hashing}
    cm rand_Read ts actor (s : S) L :
  represents s L -> wf_ledger L -> wf_addr actor -> wf_CreateMarket cm -> wf_random rand_Read ->
  let '(r, L') := ledger_create cm rand_Read ts actor L in
  exists s', CreateMarket_Execute cm rand_Read ts actor s =
    (match r with None => Ok (create_reply rand_Read actor) | Some err => Err err end, s')
    /\ represents s' L' /\ wf_ledger L'.
Proof. apply create_refines. Qed.

Lemma create_implements_ledger_witness :
  exists s', CreateMarket_Execute proposal (Ok random_nine) 500 alice demo_store =
    (Ok (created_message 9 alice), s') /\
    represents s' (set_market 9 (new_market proposal 9 alice) demo_ledger) /\
    wf_ledger (set_market 9 (new_market proposal 9 alice) demo_ledger).
Proof.
  exact (create_implements_ledger proposal (Ok random_nine) 500 alice demo_store demo_ledger
    demo_represents demo_wf wf_alice wf_proposal wf_random_nine).
Defined.

(** The effective limits of a market.  With random bytes at hand,
    CreateMarket.Execute accepts exactly when the description is not empty,
    each text is within its own limit, the times are in order, and the texts
    take at most 940 bytes together; the declared limits alone (256, 256 and
    512) allow 1024. *)
Lemma create_accepted_iff {S} `{MutableLaws S} `{!TotalStore S} `{Hashing} cm b ts actor (s : S) L :
  represents s L -> wf_ledger L -> wf_addr actor -> wf_CreateMarket cm -> wf_random (Ok b) ->
  (exists out, fst (CreateMarket_Execute cm (Ok b) ts actor s) = Ok out) <->
  1 <= len_string (cm_Description cm) <= 256 /\ len_string (cm_OracleSource cm) <= 256 /\
  Z.of_nat (length (cm_OracleParameters cm)) <= 512 /\
  ts < cm_EndTime cm < cm_ResolutionTime cm /\
  len_string (cm_Description cm) + len_string (cm_OracleSource cm)
    + Z.of_nat (length (cm_OracleParameters cm)) <= 940.
Proof.
  intros Hrep Hwf Ha Hcm Hr.
  pose proof (create_refines cm (Ok b) ts actor s L Hrep Hwf Ha Hcm Hr) as E.
  rewrite <- (ledger_create_accepted cm b ts actor L).
  destruct (ledger_create cm (Ok b) ts actor L) as [[e|] L']; destruct E as (s' & -> & _); simpl.
  - split; [by intros [? ?]|done].
  - split; [done|by eexists].
Qed.

Lemma create_accepted_iff_witness :
  (exists out, fst (CreateMarket_Execute proposal (Ok random_nine) 500 alice demo_store) = Ok out) <->
  1 <= len_string (cm_Description proposal) <= 256 /\ len_string (cm_OracleSource proposal) <= 256 /\
  Z.of_nat (length (cm_OracleParameters proposal)) <= 512 /\
  500 < cm_EndTime proposal < cm_ResolutionTime proposal /\
  len_string (cm_Description proposal) + len_string (cm_OracleSource proposal)
    + Z.of_nat (length (cm_OracleParameters proposal)) <= 940.
Proof.
  exact (create_accepted_iff proposal random_nine 500 alice demo_store demo_ledger
    demo_represents demo_wf wf_alice wf_proposal wf_random_nine).
Defined.

(** A market ID that is drawn twice loses the first market.  There is no
    check that the ID is free: when CreateMarket.Execute accepts over an ID
    under which a market is stored, the market read there afterwards has
    totals of 0 and the new creator, and every share balance of the old
    market reads as before. *)
Lemma create_overwrites {S} `{MutableLaws S} `{!TotalStore S} `{Hashing} cm b ts actor (s : S) L m out s' :
  represents s L -> wf_ledger L -> wf_addr actor -> wf_CreateMarket cm -> wf_random (Ok b) ->
  GetMarket s (be_get (take 8 b)) = Ok m ->
  CreateMarket_Execute cm (Ok b) ts actor s = (Ok out, s') ->
  (exists m', GetMarket s' (be_get (take 8 b)) = Ok m' /\
    TotalYesShares m' = 0 /\ TotalNoShares m' = 0 /\ Creator m' = actor) /\
  forall id a t, is_u64 id -> wf_addr a ->
    GetValue s' (ShareBalanceKey id a t) = GetValue s (ShareBalanceKey id a t).
Proof.
  intros Hrep Hwf Ha Hcm Hr _ Ex.
  pose proof (create_refines cm (Ok b) ts actor s L Hrep Hwf Ha Hcm Hr) as E.
  destruct (ledger_create cm (Ok b) ts actor L) as [r L'] eqn:El; destruct E as (s1 & E & Hrep' & Hwf').
  rewrite Ex in E. destruct r as [e|]; [done|]. injection E as _ <-.
  apply ledger_create_inv in El as ->. split.
  - pose proof (random_id_range b (proj1 Hr) (proj2 Hr)) as Hid.
    pose proof (rep_GetMarket s' _ Hrep' Hwf' _ Hid) as Hg. cbn [markets set_market] in Hg.
    rewrite lookup_insert_eq in Hg. eauto.
  - intros id a t Hid Haa. by rewrite (rep_shares _ _ Hrep), (rep_shares _ _ Hrep').
Qed.

Lemma create_overwrites_witness :
  let s' := snd (CreateMarket_Execute proposal (Ok random_seven) 500 alice demo_store) in
  (exists m', GetMarket s' (be_get (take 8 random_seven)) = Ok m' /\
    TotalYesShares m' = 0 /\ TotalNoShares m' = 0 /\ Creator m' = alice) /\
  forall id a t, is_u64 id -> wf_addr a ->
    GetValue s' (ShareBalanceKey id a t) = GetValue demo_store (ShareBalanceKey id a t).
Proof.
  intros s'.
  apply (create_overwrites proposal random_seven 500 alice demo_store demo_ledger rain
    (created_message 7 alice));
    [apply demo_represents|apply demo_wf|apply wf_alice|apply wf_proposal
    |by apply (bool_decide_unpack _)|vm_compute; reflexivity..].
Defined.

(** ** Histories *)

(** Alice is funded, bob creates market 9, alice buys, alice pays a fee. *)
Definition demo_history : list event :=
  [Credit alice 1000; Create proposal (Ok random_nine) 100 bob;
   Buy Yes (mkOrder 9 10 15) 200 alice; Charge alice 50].

Lemma wf_demo_history : Forall wf_event demo_history.
Proof.
  repeat constructor; try apply wf_alice; try apply wf_bob; try apply wf_proposal;
    try apply wf_random_nine; by apply (bool_decide_unpack _).
Qed.

(** C3: whole histories refine.  Running credits, fee charges, buys and
    creations one after another on a store, each rolled back when it fails,
    keeps the store holding the ledger that the ledger operations compute. *)
Theorem history_refines {S} `{MutableLaws S} `{!TotalStore S} `{Hashing} es (s : S) L :
  Forall wf_event es -> represents s L -> wf_ledger L ->
  represents (foldl (fun s e => run_event e s) s es) (foldl (fun L e => apply_event e L) L es) /\
  wf_ledger (foldl (fun L e => apply_event e L) L es).
Proof. apply run_history_refines. Qed.

Lemma history_refines_witness :
  represents (foldl (fun s e => run_event e s) NewInMemoryStore demo_history)
    (foldl (fun L e => apply_event e L) empty_ledger demo_history) /\
  wf_ledger (foldl (fun L e => apply_event e L) empty_ledger demo_history).
Proof.
  apply (history_refines demo_history NewInMemoryStore empty_ledger);
    [apply wf_demo_history|apply represents_empty|apply wf_empty_ledger].
Defined.

(** C4: the books stay in order.  After any history of credits, fee charges,
    buys and creations from an empty store that never draws a used market
    ID, the YES and NO totals stored with each market are the sums of the YES
    and NO shares held in it (as 64-bit integers), and shares are only held
    in markets that exist. *)
Theorem totals_are_sums {S} `{MutableLaws S} `{!TotalStore S} `{Hashing} es (start : S) :
  represents start empty_ledger -> Forall wf_event es -> fresh_history es empty_ledger ->
  let s := foldl (fun s e => run_event e s) start es in
  let L := foldl (fun L e => apply_event e L) empty_ledger es in
  represents s L /\
  (forall id m, is_u64 id -> GetMarket s id = Ok m ->
     TotalYesShares m = u64 (shares_of id YesShareType L) /\
     TotalNoShares m = u64 (shares_of id NoShareType L)) /\
  (forall id a t v, is_u64 id -> wf_addr a ->
     GetValue s (ShareBalanceKey id a t) = Ok v -> exists m, GetMarket s id = Ok m).
Proof.
  intros Hstart Hes Hf s L.
  destruct (run_history_refines es start empty_ledger Hes Hstart wf_empty_ledger) as [Hrep Hwf].
  fold s L in Hrep, Hwf.
  destruct (reachable_accounted L (history_reachable es empty_ledger reachable_empty Hes Hf)) as [Hy Hn He].
  split_and!; [done| |].
  - intros id m Hid Hm. pose proof (rep_GetMarket s L Hrep Hwf id Hid) as Hg.
    destruct (markets L !! id) as [m'|] eqn:E; [|by destruct Hg as (e & Hg & _); congruence].
    assert (m' = m) as -> by congruence. eauto.
  - intros id a t v Hid Ha Hv. pose proof (rep_GetMarket s L Hrep Hwf id Hid) as Hg.
    rewrite (rep_shares _ _ Hrep id a t Hid Ha) in Hv.
    destruct (shares L !! (id, a, t)) as [w|] eqn:Es; [|done].
    destruct (He id a t ltac:(by eexists)) as [m Em]. rewrite Em in Hg. eauto.
Qed.

Lemma totals_are_sums_witness :
  let s := foldl (fun s e => run_event e s) NewInMemoryStore demo_history in
  let L := foldl (fun L e => apply_event e L) empty_ledger demo_history in
  represents s L /\
  (forall id m, is_u64 id -> GetMarket s id = Ok m ->
     TotalYesShares m = u64 (shares_of id YesShareType L) /\
     TotalNoShares m = u64 (shares_of id NoShareType L)) /\
  (forall id a t v, is_u64 id -> wf_addr a ->
     GetValue s (ShareBalanceKey id a t) = Ok v -> exists m, GetMarket s id = Ok m).
Proof.
  apply (totals_are_sums demo_history NewInMemoryStore);
    [apply represents_empty|apply wf_demo_history|vm_compute; split_and!; done].
Defined.

(** C5: conservation of money.  Over any history of well-formed operations on
    a store that holds a well-formed ledger, as long as the money in
    circulation before and all the credits add up to less than 2^64, the balances stored
    afterwards plus the fees charged and the prices paid add up to what was
    stored before plus the credits: the prices paid are credited to no
    one. *)
Theorem money_conserved {S} `{MutableLaws S} `{!TotalStore S} `{Hashing} es (s : S) L :
  represents s L -> wf_ledger L -> Forall wf_event es -> money L + fst (flows es L) < two64 ->
  exists L', represents (foldl (fun s e => run_event e s) s es) L' /\
    money L' + snd (flows es L) = money L + fst (flows es L).
Proof.
  intros Hrep Hwf Hes Hlt. eexists. split; [by apply run_history_refines|by apply history_money].
Qed.

Lemma money_conserved_witness :
  flows demo_history empty_ledger = (1000, 200) /\
  exists L', represents (foldl (fun s e => run_event e s) NewInMemoryStore demo_history) L' /\
    money L' + 200 = 0 + 1000.
Proof.
  split; [vm_compute; reflexivity|].
  apply (money_conserved demo_history NewInMemoryStore empty_ledger);
    [apply represents_empty|apply wf_empty_ledger|apply wf_demo_history|vm_compute; reflexivity].
Defined.

(** ** Balances *)

(** The controller keeps its contract.  On a store that holds [L],
    [CanDeduct] succeeds exactly when [Deduct] does, with the same error
    otherwise; a successful [Deduct] lowers that balance by exactly the
    amount and changes nothing else. *)
Lemma can_deduct_then_deduct {S} `{MutableLaws S} `{!TotalStore S} a amount (s : S) L :
  represents s L -> wf_ledger L -> wf_addr a -> is_u64 amount ->
  match CanDeduct New a amount s with
  | Ok _ => exists s' v, Deduct New a amount s = (Ok tt, s') /\
      Handler_GetBalance New a s = Ok v /\ amount <= v /\
      represents s' (set_balance a (v - amount) L)
  | Err err => exists s', Deduct New a amount s = (Err err, s') /\ represents s' L
  end.
Proof.
  intros Hrep Hwf Ha Hu. pose proof (law_deduct New a amount s L Hrep Hwf Ha Hu) as Hd.
  rewrite (law_can_deduct New a amount s L Hrep Hwf Ha). unfold ledger_deduct in Hd.
  destruct (ledger_can_deduct a amount L) as [u|e] eqn:E; destruct Hd as (s' & Hd & Hrep' & _); [|eauto].
  apply can_deduct_inv in E as (v & Hv & Hle).
  destruct (ledger_balance_range a L v Hwf Hv) as [_ Hdef]. rewrite Hdef in Hrep'.
  exists s', v. by rewrite (law_balance New a s L Hrep Hwf Ha).
Qed.

Lemma can_deduct_then_deduct_witness :
  exists s' v, Deduct New alice 300 demo_store = (Ok tt, s') /\
    Handler_GetBalance New alice demo_store = Ok v /\ 300 <= v /\
    represents s' (set_balance alice (v - 300) demo_ledger).
Proof.
  assert (CanDeduct New alice 300 demo_store = Ok tt) as E by (vm_compute; reflexivity).
  pose proof (can_deduct_then_deduct alice 300 demo_store demo_ledger
    demo_represents demo_wf wf_alice ltac:(by apply (bool_decide_unpack _))) as Hd.
  rewrite E in Hd. exact Hd.
Defined.

(** C25: an emptied account is stuck.  After a balance is spent to exactly 0,
    by a fee charge, reading it fails with [ErrFieldNotPopulated] (the stored
    0 is taken for a missing field), and so does every later credit and
    charge, while an account that never existed reads as 0. *)
Theorem emptied_account_is_stuck {S} `{MutableLaws S} `{!TotalStore S} a v n (s : S) L :
  represents s L -> wf_ledger L -> wf_addr a -> is_u64 n ->
  balances L !! a = Some v -> v <> 0 ->
  exists s', Deduct New a v s = (Ok tt, s') /\
    Handler_GetBalance New a s' = Err ErrZeroBalance /\
    Handler_AddBalance New a n s' = (Err ErrZeroBalance, s') /\
    Deduct New a n s' = (Err ErrZeroBalance, s').
Proof.
  intros Hrep Hwf Ha Hn Hv Hnz. pose proof (balance_range L Hwf a v Hv) as Hu.
  pose proof (law_deduct New a v s L Hrep Hwf Ha Hu) as Hd.
  assert (ledger_deduct a v L = (Ok tt, set_balance a 0 L)) as Ed.
  { unfold ledger_deduct, ledger_can_deduct, ledger_balance. rewrite Hv. simpl.
    rewrite (proj2 (Z.eqb_neq v 0) Hnz). simpl. rewrite Z.ltb_irrefl. by rewrite Z.sub_diag. }
  rewrite Ed in Hd. destruct Hd as (s' & E & Hrep' & Hwf'). exists s'.
  assert (ledger_balance a (set_balance a 0 L) = Err ErrZeroBalance) as Hz
    by (unfold ledger_balance; simpl; by rewrite lookup_insert_eq).
  pose proof (law_balance New a s' _ Hrep' Hwf' Ha) as Hg. rewrite Hz in Hg.
  split_and!; [done|done|by apply AddBalance_read_error|by apply DeductBalance_read_error].
Qed.

Lemma emptied_account_is_stuck_witness :
  exists s', Deduct New alice 1000 demo_store = (Ok tt, s') /\
    Handler_GetBalance New alice s' = Err ErrZeroBalance /\
    Handler_AddBalance New alice 5 s' = (Err ErrZeroBalance, s') /\
    Deduct New alice 5 s' = (Err ErrZeroBalance, s').
Proof.
  apply (emptied_account_is_stuck alice 1000 5 demo_store demo_ledger);
    [apply demo_represents|apply demo_wf|apply wf_alice|by apply (bool_decide_unpack _)
    |vm_compute; reflexivity|done].
Defined.
