(* ===== verification/ConvertBits.v ===== *)
(** * Regrouping bits (btcutil/bech32 ConvertBits)

    [bech32.ConvertBits] turns bytes of [fromBits] bits into bytes of [toBits]
    bits.  It is proved against its meaning on bit lists: the bits of the
    output, followed by what was left over, are the bits of the input. *)

From S2P Require Import Prelude GoErrors.
#[local] Open Scope Z_scope.

Definition ErrInvalidBitGroups : error := ErrFresh "only bit groups between 1 and 8 allowed".
Definition ErrInvalidIncompleteGroup : error := ErrFresh "invalid incomplete group".

(** Conversion to [byte]. *)
Definition to_byte (z : Z) : Z := z mod 256.

(** [regrouped], [nextByte] and [filledBits]. *)
Record regrouping := mkRegrouping { regrouped : bytes; nextByte : Z; filledBits : nat }.

(** The inner loop over the [remFromBits] bits left at the top of [b].  Each
    round takes at least one of them, so [fuel] is enough when it is at least
    [remFromBits]. *)
Fixpoint extract (fuel toBits : nat) (b : Z) (remFromBits : nat) (st : regrouping) : regrouping :=
  match fuel with
  | O => st
  | S fuel =>
      if (0 <? remFromBits)%nat then
        let remToBits := (toBits - filledBits st)%nat in
        let toExtract := if (remToBits <? remFromBits)%nat then remToBits else remFromBits in
        let nextByte := Z.lor (to_byte (Z.shiftl (nextByte st) (Z.of_nat toExtract)))
                              (Z.shiftr b (Z.of_nat (8 - toExtract))) in
        let b := to_byte (Z.shiftl b (Z.of_nat toExtract)) in
        let remFromBits := (remFromBits - toExtract)%nat in
        let filledBits := (filledBits st + toExtract)%nat in
        extract fuel toBits b remFromBits
          (if (filledBits =? toBits)%nat then mkRegrouping (regrouped st ++ [nextByte]) 0 0
           else mkRegrouping (regrouped st) nextByte filledBits)
      else st
  end.

(** The outer loop. *)
Definition regroup (fromBits toBits : nat) (data : bytes) (st : regrouping) : regrouping :=
  foldl (fun st b =>
    extract fromBits toBits (to_byte (Z.shiftl b (Z.of_nat (8 - fromBits)))) fromBits st) st data.

Definition ConvertBits (data : bytes) (fromBits toBits : nat) (pad : bool) : result bytes :=
  if (fromBits <? 1)%nat || (8 <? fromBits)%nat || (toBits <? 1)%nat || (8 <? toBits)%nat
  then Err ErrInvalidBitGroups
  else
    let st := regroup fromBits toBits data (mkRegrouping [] 0 0) in
    let st :=
      if pad && (0 <? filledBits st)%nat
      then mkRegrouping
             (regrouped st ++ [to_byte (Z.shiftl (nextByte st) (Z.of_nat (toBits - filledBits st)))]) 0 0
      else st in
    if (0 <? filledBits st)%nat && ((4 <? filledBits st)%nat || negb (nextByte st =? 0))
    then Err ErrInvalidIncompleteGroup
    else Ok (regrouped st).

(** ** Bits *)

(** The low [n] bits of [v], the highest first. *)
Fixpoint bits (n : nat) (v : Z) : list bool :=
  match n with
  | O => []
  | S n => Z.testbit v (Z.of_nat n) :: bits n v
  end.

Definition all_bits (n : nat) (data : bytes) : list bool := concat (map (bits n) data).

Lemma length_bits n v : length (bits n v) = n.
Proof. induction n; simpl; auto. Qed.

Lemma length_all_bits n data : length (all_bits n data) = (n * length data)%nat.
Proof.
  unfold all_bits. induction data as [|x data IH]; simpl; [lia|].
  rewrite length_app, length_bits, IH. lia.
Qed.

Lemma all_bits_app n d1 d2 : all_bits n (d1 ++ d2) = all_bits n d1 ++ all_bits n d2.
Proof. unfold all_bits. by rewrite map_app, concat_app. Qed.

Lemma bits_ext n v w :
  (forall i, 0 <= i < Z.of_nat n -> Z.testbit v i = Z.testbit w i) -> bits n v = bits n w.
Proof.
  induction n as [|n IH]; intros E; simpl; [done|]. f_equal; [apply E; lia|].
  apply IH. intros i Hi. apply E. lia.
Qed.

Lemma bits_inv n v w i :
  bits n v = bits n w -> 0 <= i < Z.of_nat n -> Z.testbit v i = Z.testbit w i.
Proof.
  induction n as [|n IH]; intros E Hi; [lia|]. simpl in E. injection E as E1 E2.
  destruct (decide (i = Z.of_nat n)) as [->|]; [done|]. apply IH; [done|lia].
Qed.

Lemma bits_plus f k v : bits (f + k) v = bits f (Z.shiftr v (Z.of_nat k)) ++ bits k v.
Proof.
  induction f as [|f IH]; simpl; [done|]. rewrite IH. f_equal.
  rewrite Z.shiftr_spec by lia. f_equal. lia.
Qed.

Lemma bits_take n k v : (k <= n)%nat -> take k (bits n v) = bits k (Z.shiftr v (Z.of_nat (n - k))).
Proof.
  intros Hk. replace n with (k + (n - k))%nat at 1 by lia.
  by rewrite bits_plus, take_app_length' by (by rewrite length_bits).
Qed.

Lemma bits_drop n k v : (k <= n)%nat -> drop k (bits n v) = bits (n - k) v.
Proof.
  intros Hk. replace n with (k + (n - k))%nat at 1 by lia.
  by rewrite bits_plus, drop_app_length' by (by rewrite length_bits).
Qed.

Lemma bits_zero n : bits n 0 = replicate n false.
Proof. induction n as [|n IH]; simpl; [done|]. by rewrite Z.bits_0, IH. Qed.

Lemma testbit_high v n i : 0 <= v < 2 ^ n -> n <= i -> Z.testbit v i = false.
Proof.
  intros [Hv Hlt] Hi. destruct (decide (0 <= n)) as [Hn|Hn].
  - destruct (decide (v = 0)) as [->|]; [apply Z.bits_0|].
    apply Z.bits_above_log2; [done|]. apply Z.log2_lt_pow2 in Hlt; lia.
  - rewrite (Z.pow_neg_r 2 n) in Hlt by lia. lia.
Qed.

(** A number below [2^n] is determined by its [n] bits. *)
Lemma bits_inj n v w :
  0 <= v < 2 ^ Z.of_nat n -> 0 <= w < 2 ^ Z.of_nat n -> bits n v = bits n w -> v = w.
Proof.
  intros Hv Hw E. apply Z.bits_inj'. intros i Hi. destruct (decide (i < Z.of_nat n)).
  - by apply (bits_inv n).
  - by rewrite !(testbit_high _ (Z.of_nat n)) by lia.
Qed.

Lemma testbit_to_byte z i : 0 <= i -> Z.testbit (to_byte z) i = (i <? 8) && Z.testbit z i.
Proof.
  intros Hi. unfold to_byte. change 256 with (2 ^ 8). destruct (Z.ltb_spec i 8).
  - by rewrite Z.mod_pow2_bits_low by lia.
  - by rewrite Z.mod_pow2_bits_high by lia.
Qed.

Lemma to_byte_range z : 0 <= to_byte z < 2 ^ 8.
Proof. apply Z.mod_pos_bound. lia. Qed.

#[local] Arguments bits : simpl never.

Lemma bits_0 v : bits 0 v = [].
Proof. done. Qed.

Lemma nonneg_below n v :
  0 <= v -> (forall i, Z.of_nat n <= i -> Z.testbit v i = false) -> v < 2 ^ Z.of_nat n.
Proof.
  intros Hv Hb. destruct (Z.lt_ge_cases v (2 ^ Z.of_nat n)) as [|Hge]; [done|].
  assert (0 < v) as Hp by (pose proof (Z.pow_pos_nonneg 2 (Z.of_nat n)); lia).
  pose proof (Z.log2_le_pow2 v (Z.of_nat n) Hp) as [H1 _]. specialize (H1 Hge).
  pose proof (Z.bit_log2 v Hp). rewrite Hb in *; done || lia.
Qed.

(** Moving the first [k] of the bits of [b] behind those of [next]. *)
Section move.
Context (f k : nat) (next b : Z).
Context (Hf : (f + k <= 8)%nat) (Hn : 0 <= next < 2 ^ Z.of_nat f) (Hb : 0 <= b < 2 ^ 8).

Definition moved : Z :=
  Z.lor (to_byte (Z.shiftl next (Z.of_nat k))) (Z.shiftr b (Z.of_nat (8 - k))).

Lemma testbit_moved i : 0 <= i ->
  Z.testbit moved i =
    if i <? Z.of_nat k then Z.testbit b (i + Z.of_nat (8 - k)) else Z.testbit next (i - Z.of_nat k).
Proof using Hf Hn Hb.
  intros Hi. unfold moved. rewrite Z.lor_spec, testbit_to_byte, Z.shiftl_spec, Z.shiftr_spec by done.
  destruct (Z.ltb_spec i (Z.of_nat k)).
  - rewrite (Z.testbit_neg_r next) by lia. by rewrite andb_false_r.
  - rewrite (testbit_high b 8) by lia. rewrite orb_false_r.
    destruct (Z.ltb_spec i 8); [done|]. by rewrite (testbit_high next (Z.of_nat f)) by lia.
Qed.

Lemma moved_range : 0 <= moved < 2 ^ Z.of_nat (f + k).
Proof using Hf Hn Hb.
  assert (0 <= moved) as H0.
  { unfold moved. apply Z.lor_nonneg. split; [apply to_byte_range|apply Z.shiftr_nonneg; lia]. }
  split; [done|]. apply nonneg_below; [done|]. intros i Hi. rewrite testbit_moved by lia.
  destruct (Z.ltb_spec i (Z.of_nat k)); [lia|]. apply (testbit_high next (Z.of_nat f)); lia.
Qed.

Lemma bits_moved : bits (f + k) moved = bits f next ++ take k (bits 8 b).
Proof using Hf Hn Hb.
  rewrite bits_plus. f_equal.
  - apply bits_ext. intros i Hi. rewrite Z.shiftr_spec, testbit_moved by lia.
    destruct (Z.ltb_spec (i + Z.of_nat k) (Z.of_nat k)); [lia|]. f_equal. lia.
  - rewrite bits_take by lia. apply bits_ext. intros i Hi.
    rewrite testbit_moved, Z.shiftr_spec by lia. by rewrite (proj2 (Z.ltb_lt _ _)) by lia.
Qed.

Lemma bits_rest : bits 8 (to_byte (Z.shiftl b (Z.of_nat k))) = drop k (bits 8 b) ++ replicate k false.
Proof using Hf.
  rewrite bits_drop by lia. replace 8%nat with ((8 - k) + k)%nat at 1 by lia.
  rewrite bits_plus. f_equal.
  - apply bits_ext. intros i Hi. rewrite Z.shiftr_spec, testbit_to_byte, Z.shiftl_spec by lia.
    rewrite (proj2 (Z.ltb_lt _ _)) by lia. simpl. f_equal. lia.
  - rewrite <- bits_zero. apply bits_ext. intros i Hi.
    rewrite testbit_to_byte, Z.shiftl_spec by lia. rewrite (Z.testbit_neg_r b) by lia.
    by rewrite andb_false_r, Z.bits_0.
Qed.
End move.

(** ** What regrouping does *)

Definition content (toBits : nat) (st : regrouping) : list bool :=
  all_bits toBits (regrouped st) ++ bits (filledBits st) (nextByte st).

Definition in_range (n : nat) (v : Z) : Prop := 0 <= v < 2 ^ Z.of_nat n.

Record wf_regrouping (toBits : nat) (st : regrouping) : Prop := {
  wr_out : Forall (in_range toBits) (regrouped st);
  wr_next : in_range (filledBits st) (nextByte st);
  wr_filled : (filledBits st < toBits)%nat;
}.

Lemma extract_content toBits fuel : forall b rem st,
  (1 <= toBits <= 8)%nat -> wf_regrouping toBits st -> 0 <= b < 2 ^ 8 ->
  (rem <= 8)%nat -> (rem <= fuel)%nat ->
  wf_regrouping toBits (extract fuel toBits b rem st) /\
  content toBits (extract fuel toBits b rem st) = content toBits st ++ take rem (bits 8 b).
Proof.
  induction fuel as [|fuel IH]; intros b rem st Ht Hwf Hb H8 Hfuel; simpl.
  { assert (rem = 0%nat) as -> by lia. simpl. by rewrite app_nil_r. }
  destruct (Nat.ltb_spec 0 rem) as [Hr|Hr].
  2: { assert (rem = 0%nat) as -> by lia. simpl. by rewrite app_nil_r. }
  destruct Hwf as [Hout Hnext Hfill]. destruct st as [out next f]. simpl in *.
  set (k := if (toBits - f <? rem)%nat then (toBits - f)%nat else rem).
  assert ((1 <= k)%nat /\ (k <= rem)%nat /\ (f + k <= toBits)%nat) as (Hk1 & Hk2 & Hk3)
    by (unfold k; destruct (Nat.ltb_spec (toBits - f) rem); lia).
  clearbody k. fold (moved k next b).
  pose proof (moved_range f k next b ltac:(lia) Hnext Hb) as Hm.
  pose proof (bits_moved f k next b ltac:(lia) Hnext Hb) as Hbm.
  pose proof (bits_rest f k b ltac:(lia)) as Hbr.
  set (st1 := if (f + k =? toBits)%nat then mkRegrouping (out ++ [moved k next b]) 0 0
              else mkRegrouping out (moved k next b) (f + k)).
  assert (wf_regrouping toBits st1 /\
          content toBits st1 = content toBits (mkRegrouping out next f) ++ take k (bits 8 b)) as [Hwf1 Hc1].
  { unfold st1, content. destruct (Nat.eqb_spec (f + k) toBits) as [E|E]; cbn [regrouped nextByte filledBits].
    - split; [split; simpl; [|done|lia]|].
      + rewrite E in Hm. apply Forall_app. auto.
      + rewrite all_bits_app, bits_0, app_nil_r, <- app_assoc, <- Hbm, E. unfold all_bits at 2.
        cbn [map concat]. by rewrite app_nil_r.
    - split; [by split; simpl; [..|lia]|]. by rewrite Hbm, app_assoc. }
  destruct (IH (to_byte (Z.shiftl b (Z.of_nat k))) (rem - k)%nat st1 Ht Hwf1 (to_byte_range _)
    ltac:(lia) ltac:(lia)) as [Hwf2 Hc2].
  split; [done|]. rewrite Hc2, Hc1, Hbr, <- app_assoc. f_equal.
  rewrite take_app_le by (rewrite length_drop, length_bits; lia).
  rewrite take_take_drop. f_equal. lia.
Qed.

Lemma regroup_content fromBits toBits data : forall st,
  (1 <= fromBits <= 8)%nat -> (1 <= toBits <= 8)%nat -> wf_regrouping toBits st ->
  wf_regrouping toBits (regroup fromBits toBits data st) /\
  content toBits (regroup fromBits toBits data st) = content toBits st ++ all_bits fromBits data.
Proof.
  unfold regroup. induction data as [|x data IH]; intros st Hf Ht Hwf; simpl.
  { by rewrite app_nil_r. }
  destruct (extract_content toBits fromBits (to_byte (Z.shiftl x (Z.of_nat (8 - fromBits)))) fromBits st
    Ht Hwf (to_byte_range _) ltac:(lia) ltac:(lia)) as [Hwf1 Hc1].
  destruct (IH _ Hf Ht Hwf1) as [Hwf2 Hc2]. split; [done|]. rewrite Hc2, Hc1, <- app_assoc. f_equal.
  unfold all_bits. simpl. f_equal.
  rewrite bits_take by lia. apply bits_ext. intros i Hi.
  rewrite Z.shiftr_spec, testbit_to_byte, Z.shiftl_spec by lia.
  rewrite (proj2 (Z.ltb_lt _ _)) by lia. simpl. f_equal. lia.
Qed.

Lemma all_bits_inj n d1 : forall d2,
  Forall (in_range n) d1 -> Forall (in_range n) d2 -> length d1 = length d2 ->
  all_bits n d1 = all_bits n d2 -> d1 = d2.
Proof.
  induction d1 as [|x d1 IH]; intros [|y d2] H1 H2 Hl E; try done.
  unfold all_bits in *. simpl in *. inversion_clear H1. inversion_clear H2.
  apply app_inj_1 in E as [Ex Ed]; [|by rewrite !length_bits]. f_equal; [by apply (bits_inj n)|].
  apply IH; auto.
Qed.

(** Bit lists cut into groups of [n] have one reading. *)
Lemma groups_unique n d1 d2 r1 r2 :
  (length r1 < n)%nat -> (length r2 < n)%nat ->
  Forall (in_range n) d1 -> Forall (in_range n) d2 ->
  all_bits n d1 ++ r1 = all_bits n d2 ++ r2 -> d1 = d2 /\ r1 = r2.
Proof.
  intros H1 H2 Hd1 Hd2 E. pose proof (f_equal length E) as El.
  rewrite !length_app, !length_all_bits in El.
  assert (length d1 = length d2) as Hl by nia.
  apply app_inj_1 in E as [Ed ->]; [|rewrite !length_all_bits; lia].
  split; [|done]. by apply (all_bits_inj n).
Qed.

Section convert.
Context (fromBits toBits : nat) (data : bytes).
Context (Hfrom : (1 <= fromBits <= 8)%nat) (Hto : (1 <= toBits <= 8)%nat).

Lemma groups_supported :
  ((fromBits <? 1) || (8 <? fromBits) || (toBits <? 1) || (8 <? toBits))%nat = false.
Proof using Hfrom Hto.
  destruct (Nat.ltb_spec fromBits 1), (Nat.ltb_spec 8 fromBits), (Nat.ltb_spec toBits 1),
    (Nat.ltb_spec 8 toBits); done || lia.
Qed.

Lemma regroup_all :
  let st := regroup fromBits toBits data (mkRegrouping [] 0 0) in
  wf_regrouping toBits st /\ content toBits st = all_bits fromBits data.
Proof using Hfrom Hto. apply regroup_content; [done..|]. split; simpl; [done|by split|lia]. Qed.

(** Without padding: the output is the one cutting of the input's bits with
    at most four zeros left over. *)
Lemma ConvertBits_exact out :
  ConvertBits data fromBits toBits false = Ok out <->
  Forall (in_range toBits) out /\ exists k, (k <= 4)%nat /\ (k < toBits)%nat /\
    all_bits fromBits data = all_bits toBits out ++ replicate k false.
Proof using Hfrom Hto.
  destruct regroup_all as [[Hout Hnext Hfill] Hc]. unfold ConvertBits. rewrite groups_supported.
  unfold content in Hc. cbn [andb].
  destruct (regroup fromBits toBits data _) as [res next f]. cbn [regrouped nextByte filledBits] in *.
  split.
  - intros E. assert (res = out /\ (f = 0%nat \/ (f <= 4)%nat /\ next = 0)) as [-> Hz].
    { destruct (Nat.ltb_spec 0 f), (Nat.ltb_spec 4 f), (Z.eqb_spec next 0); simpl in E;
        simplify_eq; split; auto; lia. }
    split; [done|]. exists f. rewrite <- Hc, <- bits_zero.
    destruct Hz as [->|[? ->]]; split_and!; done || lia.
  - intros (Hr & k & Hk4 & Hk & E). rewrite E in Hc.
    apply groups_unique in Hc as [-> Hb]; [|by rewrite ?length_bits, ?length_replicate..|done|done].
    assert (f = k) as -> by (apply (f_equal length) in Hb; by rewrite length_bits, length_replicate in Hb).
    rewrite <- bits_zero in Hb. apply bits_inj in Hb as ->; [|done|split; [done|by apply Z.pow_pos_nonneg; lia]].
    rewrite (proj2 (Nat.ltb_ge 4 k)) by lia. simpl. by rewrite andb_false_r.
Qed.

(** With padding: never an error, and fewer zeros than a group added. *)
Lemma ConvertBits_pad :
  exists out k, ConvertBits data fromBits toBits true = Ok out /\ Forall (in_range toBits) out /\
    (k < toBits)%nat /\ all_bits toBits out = all_bits fromBits data ++ replicate k false.
Proof using Hfrom Hto.
  destruct regroup_all as [[Hout Hnext Hfill] Hc]. unfold ConvertBits. rewrite groups_supported.
  unfold content in Hc. cbn [andb].
  destruct (regroup fromBits toBits data _) as [res next f]. cbn [regrouped nextByte filledBits] in *.
  destruct (Nat.ltb_spec 0 f) as [Hf|Hf]; cbn [regrouped nextByte filledBits].
  - set (k := (toBits - f)%nat).
    assert (to_byte (Z.shiftl next (Z.of_nat k)) = moved k next 0) as ->
      by (unfold moved; by rewrite Z.shiftr_0_l, Z.lor_0_r).
    pose proof (moved_range f k next 0 ltac:(lia) Hnext ltac:(lia)) as Hm.
    pose proof (bits_moved f k next 0 ltac:(lia) Hnext ltac:(lia)) as Hbm.
    replace (f + k)%nat with toBits in Hm, Hbm by lia.
    eexists _, k. split_and!; [done| |lia|].
    + apply Forall_app. auto.
    + rewrite <- Hc, all_bits_app, <- app_assoc. unfold all_bits at 2. simpl.
      rewrite app_nil_r, Hbm, bits_zero. f_equal. f_equal. rewrite take_replicate. f_equal. lia.
  - assert (f = 0%nat) as -> by lia. rewrite bits_0, app_nil_r in Hc.
    exists res, 0%nat. split_and!; [done|done|lia|]. by rewrite Hc, app_nil_r.
Qed.
End convert.

Lemma in_range_bytes d : Forall (in_range 8) d <-> wf_bytes d.
Proof. done. Qed.

(** Bytes survive the way to 5-bit groups and back. *)
Lemma ConvertBits_roundtrip data :
  wf_bytes data ->
  exists groups, ConvertBits data 8 5 true = Ok groups /\ Forall (in_range 5) groups /\
    (5 * length groups < 8 * length data + 5)%nat /\ ConvertBits groups 5 8 false = Ok data.
Proof.
  intros Hw. destruct (ConvertBits_pad 8 5 data ltac:(lia) ltac:(lia)) as (groups & k & E & Hr & Hk & Hb).
  exists groups. split_and!; [done|done| |].
  - pose proof (f_equal length Hb) as Hl. rewrite length_app, !length_all_bits, length_replicate in Hl. lia.
  - apply ConvertBits_exact; [lia..|]. split; [done|]. exists k. by split_and!; [lia..|].
Qed.
