(* ===== verification/Bech32.v ===== *)
(** * bech32 addresses (btcutil/bech32)

    The decoder that genesis/genesis.go reads its allocations with, and the
    encoder it inverts.  A Go string is the list of its bytes here.  The
    checksum is proved linear, from which decoding is shown to accept exactly
    the strings the encoder writes, in the two checksum versions. *)

From S2P Require Import Prelude GoErrors ConvertBits.
#[local] Open Scope Z_scope.
#[local] Arguments bits : simpl never.

Definition charset : bytes := bytes_of_string "qpzry9x8gf2tvdw0s3jn54khce6mua7l".

Definition gen : list Z := [0x3b6a57b2; 0x26508e6d; 0x1ea119fa; 0x3d4233dd; 0x2a1462b3].

(** ** Errors *)

Definition ErrMixedCase : error := ErrFresh "string not all lowercase or all uppercase".
Definition ErrInvalidLength (n : Z) : error := ErrFresh ("invalid bech32 string length " +:+ fmt_d n).

(** [%c] of a byte: a rune, which takes two bytes of UTF-8 from 128 on. *)
Definition fmt_c (c : Z) : string :=
  string_of_bytes (if c <? 128 then [c] else [Z.lor 192 (Z.shiftr c 6); Z.lor 128 (Z.land c 63)]).

Definition ErrInvalidCharacter (c : Z) : error :=
  ErrFresh ("invalid character in string: '" +:+ fmt_c c +:+ "'").
Definition ErrInvalidSeparatorIndex (i : Z) : error :=
  ErrFresh ("invalid separator index " +:+ fmt_d i).
Definition ErrNonCharsetChar (c : Z) : error :=
  ErrFresh ("invalid character not part of charset: " +:+ fmt_d c).
Definition ErrInvalidChecksum (expected expectedM actual : bytes) : error :=
  ErrFresh ("invalid checksum (expected (bech32=" +:+ string_of_bytes expected +:+ ", bech32m="
    +:+ string_of_bytes expectedM +:+ "), got " +:+ string_of_bytes actual +:+ ")").
Definition ErrInvalidDataByte (b : Z) : error := ErrFresh ("invalid data byte: " +:+ fmt_d b).

(** ** Versions *)

Inductive Version := Version0 | VersionM | VersionUnknown.

Definition Version0Const : Z := 1.
Definition VersionMConst : Z := 0x2bc830a3.

(** A missing entry of a Go map reads as 0. *)
Definition VersionToConsts (v : Version) : Z :=
  match v with Version0 => Version0Const | VersionM => VersionMConst | VersionUnknown => 0 end.

Definition ConstsToVersion (c : Z) : option Version :=
  if c =? Version0Const then Some Version0 else if c =? VersionMConst then Some VersionM else None.

(** ** strings *)

(** The index of the first [c], or -1; and of the last one. *)
Fixpoint IndexByte_from (i : Z) (s : bytes) (c : Z) : Z :=
  match s with
  | [] => -1
  | x :: s => if x =? c then i else IndexByte_from (i + 1) s c
  end.
Definition IndexByte (s : bytes) (c : Z) : Z := IndexByte_from 0 s c.

Fixpoint LastIndexByte_from (i last : Z) (s : bytes) (c : Z) : Z :=
  match s with
  | [] => last
  | x :: s => LastIndexByte_from (i + 1) (if x =? c then i else last) s c
  end.
Definition LastIndexByte (s : bytes) (c : Z) : Z := LastIndexByte_from 0 (-1) s c.

Definition is_upper (c : Z) : bool := (65 <=? c) && (c <=? 90).
Definition is_lower (c : Z) : bool := (97 <=? c) && (c <=? 122).

(** [strings.ToLower] on ASCII text. *)
Definition ToLower (s : bytes) : bytes := map (fun c => if is_upper c then c + 32 else c) s.

(** ** The checksum *)

(** [for i := 0; i < 5; i++ { if (b>>uint(i))&1 == 1 { chk ^= gen[i] } }] *)
Fixpoint polymod_mix (i : Z) (gens : list Z) (b chk : Z) : Z :=
  match gens with
  | [] => chk
  | g :: gens =>
      polymod_mix (i + 1) gens b (if Z.land (Z.shiftr b i) 1 =? 1 then Z.lxor chk g else chk)
  end.

(** One value; the rounds with an implicit 0 are those of the value 0. *)
Definition polymod_round (chk v : Z) : Z :=
  let b := Z.shiftr chk 25 in
  let chk := Z.lxor (Z.shiftl (Z.land chk 0x1ffffff) 5) v in
  polymod_mix 0 gen b chk.

Definition bech32Polymod (hrp values : bytes) (checksum : option bytes) : Z :=
  let chk := 1 in
  let chk := foldl (fun chk c => polymod_round chk (Z.shiftr c 5)) chk hrp in
  let chk := polymod_round chk 0 in
  let chk := foldl (fun chk c => polymod_round chk (Z.land c 31)) chk hrp in
  let chk := foldl polymod_round chk values in
  match checksum with
  | None => foldl polymod_round chk [0; 0; 0; 0; 0; 0]
  | Some checksum => foldl polymod_round chk checksum
  end.

(** The six characters [writeBech32Checksum] appends. *)
Definition checksum_digits (polymod : Z) : bytes :=
  map (fun i => Z.land (Z.shiftr polymod (5 * (5 - i))) 31) [0; 1; 2; 3; 4; 5].

Definition char_of (b : Z) : Z := nth (Z.to_nat b) charset 0.

Definition writeBech32Checksum (hrp data bldr : bytes) (version : Version) : bytes :=
  let polymod := Z.lxor (bech32Polymod hrp data None) (VersionToConsts version) in
  bldr ++ map char_of (checksum_digits polymod).

(** On data of six elements or more. *)
Definition bech32VerifyChecksum (hrp data : bytes) : option Version :=
  let checksum := drop (length data - 6) data in
  let values := take (length data - 6) data in
  ConstsToVersion (bech32Polymod hrp values (Some checksum)).

(** ** Decoding *)

Fixpoint toBytes (chars : bytes) : result bytes :=
  match chars with
  | [] => Ok []
  | c :: chars =>
      let index := IndexByte charset c in
      if index <? 0 then Err (ErrNonCharsetChar c)
      else rest ← toBytes chars; Ok (index :: rest)
  end.

(** The loop over the characters; it gives [hasUpper]. *)
Fixpoint check_characters (hasLower hasUpper : bool) (bech : bytes) : result bool :=
  match bech with
  | [] => Ok hasUpper
  | c :: bech =>
      if (c <? 33) || (126 <? c) then Err (ErrInvalidCharacter c)
      else
        let hasLower := hasLower || is_lower c in
        let hasUpper := hasUpper || is_upper c in
        if hasLower && hasUpper then Err ErrMixedCase else check_characters hasLower hasUpper bech
  end.

(** [decodeNoLimit] after the case check, on the lower-case text [t].  The
    error carries what the checksum should have been.  Both are written to one
    builder, so the bech32m text comes after the bech32 one. *)
Definition decode_text (t : bytes) : result (bytes * bytes * Version) :=
  let one := LastIndexByte t 49 in
  if (one <? 1) || (Z.of_nat (length t) <? one + 7) then Err (ErrInvalidSeparatorIndex one)
  else
    let hrp := take (Z.to_nat one) t in
    let data := drop (Z.to_nat (one + 1)) t in
    decoded ← toBytes data;
    let payload := take (length decoded - 6) decoded in
    match bech32VerifyChecksum hrp decoded with
    | None =>
        let actual := drop (length t - 6) t in
        let expectedVersion0 := writeBech32Checksum hrp payload [] Version0 in
        let expectedVersionM := writeBech32Checksum hrp payload expectedVersion0 VersionM in
        Err (ErrInvalidChecksum expectedVersion0 expectedVersionM actual)
    | Some version => Ok (hrp, payload, version)
    end.

Definition decodeNoLimit (bech : bytes) : result (bytes * bytes * Version) :=
  if (length bech <? 8)%nat then Err (ErrInvalidLength (Z.of_nat (length bech)))
  else
    hasUpper ← check_characters false false bech;
    decode_text (if (hasUpper : bool) then ToLower bech else bech).

Definition Decode (bech : bytes) : result (bytes * bytes) :=
  if (90 <? length bech)%nat then Err (ErrInvalidLength (Z.of_nat (length bech)))
  else '(hrp, data, _) ← decodeNoLimit bech; Ok (hrp, data).

(** ** Encoding *)

Fixpoint write_data (data bldr : bytes) : result bytes :=
  match data with
  | [] => Ok bldr
  | b :: data =>
      if Z.of_nat (length charset) <=? b then Err (ErrInvalidDataByte b)
      else write_data data (bldr ++ [char_of b])
  end.

Definition encodeGeneric (hrp data : bytes) (version : Version) : result bytes :=
  let hrp := ToLower hrp in
  bldr ← write_data data (hrp ++ [49]);
  Ok (writeBech32Checksum hrp data bldr version).

Definition Encode (hrp data : bytes) : result bytes := encodeGeneric hrp data Version0.
Definition EncodeM (hrp data : bytes) : result bytes := encodeGeneric hrp data VersionM.

Definition EncodeFromBase256 (hrp data : bytes) : result bytes :=
  converted ← ConvertBits data 8 5 true;
  Encode hrp converted.

Definition DecodeToBase256 (bech : bytes) : result (bytes * bytes) :=
  '(hrp, data) ← Decode bech;
  converted ← ConvertBits data 5 8 false;
  Ok (hrp, converted).

(** ** The checksum is linear

    [polymod_round chk v] is [polymod_shift chk] xor [v], and [polymod_shift]
    commutes with xor. *)

Definition generator (b : Z) : Z := polymod_mix 0 gen b 0.

Definition polymod_shift (chk : Z) : Z :=
  Z.lxor (Z.shiftl (Z.land chk 0x1ffffff) 5) (generator (Z.shiftr chk 25)).

Lemma land_1_testbit b i : 0 <= i -> (Z.land (Z.shiftr b i) 1 =? 1) = Z.testbit b i.
Proof.
  intros Hi. change 1 with (Z.ones 1) at 1. rewrite Z.land_ones by lia.
  change (2 ^ 1) with 2. rewrite <- Z.bit0_mod, Z.shiftr_spec by lia.
  by destruct (Z.testbit b (0 + i)) eqn:E; rewrite Z.add_0_l in E; rewrite E.
Qed.

Lemma polymod_mix_lxor gens b : forall i c1 c2,
  polymod_mix i gens b (Z.lxor c1 c2) = Z.lxor c1 (polymod_mix i gens b c2).
Proof.
  induction gens as [|g gens IH]; intros i c1 c2; simpl; [done|].
  destruct (Z.land (Z.shiftr b i) 1 =? 1); [|apply IH]. by rewrite <- IH, Z.lxor_assoc.
Qed.

Lemma polymod_mix_linear gens b1 b2 : forall i c1 c2, 0 <= i ->
  polymod_mix i gens (Z.lxor b1 b2) (Z.lxor c1 c2) =
    Z.lxor (polymod_mix i gens b1 c1) (polymod_mix i gens b2 c2).
Proof.
  induction gens as [|g gens IH]; intros i c1 c2 Hi; simpl; [done|].
  rewrite !land_1_testbit, Z.lxor_spec by done.
  destruct (Z.testbit b1 i), (Z.testbit b2 i); simpl; rewrite <- ?IH by lia; f_equal;
    apply Z.bits_inj'; intros n Hn; rewrite !Z.lxor_spec; by destruct (Z.testbit c1 n), (Z.testbit c2 n), (Z.testbit g n).
Qed.

Lemma polymod_round_shift chk v : polymod_round chk v = Z.lxor (polymod_shift chk) v.
Proof.
  unfold polymod_round, polymod_shift, generator. cbv zeta.
  rewrite <- polymod_mix_lxor, Z.lxor_0_r, (Z.lxor_comm _ v), polymod_mix_lxor. apply Z.lxor_comm.
Qed.

Lemma polymod_shift_linear a b :
  polymod_shift (Z.lxor a b) = Z.lxor (polymod_shift a) (polymod_shift b).
Proof.
  unfold polymod_shift, generator. rewrite Z.shiftr_lxor.
  pose proof (polymod_mix_linear gen (Z.shiftr a 25) (Z.shiftr b 25) 0 0 0 ltac:(lia)) as E.
  change (Z.lxor 0 0) with 0 in E. rewrite E.
  apply Z.bits_inj'. intros n Hn.
  rewrite !Z.lxor_spec, !Z.shiftl_spec, !Z.land_spec, !Z.lxor_spec by done.
  by destruct (Z.testbit a (n - 5)), (Z.testbit b (n - 5)), (Z.testbit 0x1ffffff (n - 5)),
    (Z.testbit (polymod_mix 0 gen (Z.shiftr a 25) 0) n),
    (Z.testbit (polymod_mix 0 gen (Z.shiftr b 25) 0) n).
Qed.

(** Below 25 bits a shift is a shift. *)
Lemma polymod_shift_small x : 0 <= x < 2 ^ 25 -> polymod_shift x = Z.shiftl x 5.
Proof.
  intros Hx. unfold polymod_shift. change 0x1ffffff with (Z.ones 25). rewrite Z.land_ones by lia.
  rewrite Z.mod_small by done. rewrite Z.shiftr_div_pow2, Z.div_small by lia. apply Z.lxor_0_r.
Qed.

(** The checksum register keeps to 30 bits. *)
Lemma polymod_mix_range gens b n : forall i chk,
  0 <= i -> Forall (fun g => 0 <= g < 2 ^ Z.of_nat n) gens -> 0 <= chk < 2 ^ Z.of_nat n ->
  0 <= polymod_mix i gens b chk < 2 ^ Z.of_nat n.
Proof.
  induction gens as [|g gens IH]; intros i chk Hi Hg Hc; simpl; [done|].
  inversion_clear Hg. apply IH; [lia|done|]. case_match; [|done].
  assert (0 <= Z.lxor chk g) by (apply Z.lxor_nonneg; lia).
  split; [done|]. apply nonneg_below; [done|]. intros j Hj.
  by rewrite Z.lxor_spec, !(testbit_high _ (Z.of_nat n)) by lia.
Qed.

Lemma polymod_shift_range c : 0 <= c -> 0 <= polymod_shift c < 2 ^ 30.
Proof.
  intros Hc. unfold polymod_shift, generator. rewrite <- polymod_mix_lxor, Z.lxor_0_r.
  apply (polymod_mix_range gen _ 30); [lia|by repeat constructor|].
  change 0x1ffffff with (Z.ones 25). rewrite Z.land_ones by lia.
  pose proof (Z.mod_pos_bound c (2 ^ 25) ltac:(lia)). rewrite Z.shiftl_mul_pow2 by lia. lia.
Qed.

Lemma lxor_range n a b :
  0 <= a < 2 ^ Z.of_nat n -> 0 <= b < 2 ^ Z.of_nat n -> 0 <= Z.lxor a b < 2 ^ Z.of_nat n.
Proof.
  intros Ha Hb. assert (0 <= Z.lxor a b) by (apply Z.lxor_nonneg; lia).
  split; [done|]. apply nonneg_below; [done|]. intros j Hj.
  by rewrite Z.lxor_spec, !(testbit_high _ (Z.of_nat n)) by lia.
Qed.

(** Every round with a small value keeps the register at 30 bits, so Go's
    [int] never overflows. *)
Lemma polymod_round_range c v : 0 <= c -> 0 <= v < 2 ^ 30 -> 0 <= polymod_round c v < 2 ^ 30.
Proof.
  intros Hc Hv. rewrite polymod_round_shift. apply (lxor_range 30); [by apply polymod_shift_range|done].
Qed.

Lemma polymod_rounds_range vs : forall c,
  0 <= c < 2 ^ 30 -> Forall (fun v => 0 <= v < 2 ^ 30) vs -> 0 <= foldl polymod_round c vs < 2 ^ 30.
Proof.
  induction vs as [|v vs IH]; intros c Hc Hv; simpl; [done|]. inversion_clear Hv.
  apply IH; [|done]. apply polymod_round_range; lia.
Qed.

(** Groups of 5 bits as one number. *)
Definition pack (a : Z) (vs : bytes) : Z := foldl (fun a v => Z.lxor (Z.shiftl a 5) v) a vs.

Lemma push_range n a v :
  in_range n a -> in_range 5 v -> in_range (n + 5) (Z.lxor (Z.shiftl a 5) v).
Proof.
  unfold in_range. intros Ha Hv. apply lxor_range.
  - rewrite Z.shiftl_mul_pow2, Nat2Z.inj_add, Z.pow_add_r by lia. nia.
  - split; [lia|]. eapply Z.lt_le_trans; [apply Hv|]. apply Z.pow_le_mono_r; lia.
Qed.

Lemma push_bits n a v : in_range 5 v ->
  bits (n + 5) (Z.lxor (Z.shiftl a 5) v) = bits n a ++ bits 5 v.
Proof.
  intros Hv. rewrite bits_plus. f_equal; apply bits_ext; intros i Hi.
  - rewrite Z.shiftr_spec, Z.lxor_spec, Z.shiftl_spec by lia.
    rewrite (testbit_high v 5) by (done || lia). rewrite xorb_false_r. f_equal. lia.
  - rewrite Z.lxor_spec, Z.shiftl_spec by lia. by rewrite (Z.testbit_neg_r a) by lia.
Qed.

Lemma pack_bits vs : forall n a, in_range n a -> Forall (in_range 5) vs ->
  in_range (n + 5 * length vs) (pack a vs) /\
  bits (n + 5 * length vs) (pack a vs) = bits n a ++ all_bits 5 vs.
Proof.
  induction vs as [|v vs IH]; intros n a Ha Hv; cbn [pack foldl length].
  - replace (n + 5 * 0)%nat with n by lia. unfold all_bits. simpl. by rewrite app_nil_r.
  - inversion_clear Hv. replace (n + 5 * S (length vs))%nat with ((n + 5) + 5 * length vs)%nat by lia.
    destruct (IH (n + 5)%nat (Z.lxor (Z.shiftl a 5) v)) as [Hr E]; [by apply push_range|done|].
    split; [done|]. etrans; [exact E|]. rewrite push_bits by done.
    unfold all_bits. cbn [map concat]. by rewrite app_assoc.
Qed.

(** Up to six rounds on small values. *)
Lemma polymod_rounds vs : forall c n a,
  in_range (5 * n) a -> (n + length vs <= 6)%nat -> Forall (in_range 5) vs ->
  foldl polymod_round (Z.lxor c a) vs = Z.lxor (Nat.iter (length vs) polymod_shift c) (pack a vs).
Proof.
  induction vs as [|v vs IH]; intros c n a Ha Hn Hv; [done|]. inversion_clear Hv.
  cbn [foldl length pack]. cbn [length] in Hn.
  rewrite polymod_round_shift, polymod_shift_linear, (polymod_shift_small a), Z.lxor_assoc.
  2: { destruct Ha. split; [done|]. eapply Z.lt_le_trans; [done|]. apply Z.pow_le_mono_r; lia. }
  rewrite (IH (polymod_shift c) (S n)); [|replace (5 * S n)%nat with (5 * n + 5)%nat by lia;
    by apply push_range|lia|done].
  f_equal. by rewrite Nat.iter_succ_r.
Qed.

Lemma length_checksum_digits q : length (checksum_digits q) = 6%nat.
Proof. done. Qed.

Lemma checksum_digits_bits q :
  Forall (in_range 5) (checksum_digits q) /\ all_bits 5 (checksum_digits q) = bits 30 q.
Proof.
  assert (forall x, in_range 5 (Z.land x 31)) as Hr.
  { intros x. change 31 with (Z.ones 5). rewrite Z.land_ones by lia. apply Z.mod_pos_bound. lia. }
  assert (forall x, bits 5 (Z.land x 31) = bits 5 x) as Hb.
  { intros x. apply bits_ext. intros i Hi. change 31 with (Z.ones 5).
    by rewrite Z.land_spec, Z.ones_spec_low, andb_true_r by lia. }
  unfold checksum_digits, all_bits. split; [repeat constructor; apply Hr|].
  cbn [map concat]. rewrite !Hb, app_nil_r.
  rewrite (bits_plus 5 25), (bits_plus 5 20), (bits_plus 5 15), (bits_plus 5 10), (bits_plus 5 5).
  by rewrite Z.shiftr_0_r.
Qed.

(** Six digits are the digits of [q] exactly when they pack to [q]. *)
Lemma checksum_digits_pack q cs :
  0 <= q < 2 ^ 30 -> Forall (in_range 5) cs -> length cs = 6%nat ->
  cs = checksum_digits q <-> pack 0 cs = q.
Proof.
  intros Hq Hc Hl. destruct (checksum_digits_bits q) as [Hd Eb].
  destruct (pack_bits cs 0 0) as [Hr E]; [by split|done|]. rewrite Hl in Hr, E.
  change (0 + 5 * 6)%nat with 30%nat in Hr, E. change (bits 0 0) with (@nil bool) in E. split.
  - intros ->. apply (bits_inj 30); [done|done|]. etrans; [exact E|exact Eb].
  - intros <-. apply (all_bits_inj 5); [done|done|by rewrite length_checksum_digits|].
    rewrite Eb. symmetry. exact E.
Qed.

(** ** Verifying the checksum *)

Lemma hrp_rounds_range (f : Z -> Z) (hrp : bytes) : forall c,
  0 <= c < 2 ^ 30 -> (forall x, x ∈ hrp -> 0 <= f x < 2 ^ 30) ->
  0 <= foldl (fun chk x => polymod_round chk (f x)) c hrp < 2 ^ 30.
Proof.
  induction hrp as [|x hrp IH]; intros c Hc Hf; simpl; [done|].
  apply IH; [|intros y Hy; apply Hf; by right].
  apply polymod_round_range; [lia|]. apply Hf. by left.
Qed.

(** The register before the checksum. *)
Definition polymod_prefix (hrp values : bytes) : Z :=
  foldl polymod_round
    (foldl (fun chk c => polymod_round chk (Z.land c 31))
      (polymod_round (foldl (fun chk c => polymod_round chk (Z.shiftr c 5)) 1 hrp) 0) hrp) values.

Lemma polymod_prefix_range hrp values :
  wf_bytes hrp -> Forall (in_range 5) values -> 0 <= polymod_prefix hrp values < 2 ^ 30.
Proof.
  intros Hh Hv. apply polymod_rounds_range.
  - apply hrp_rounds_range; [apply polymod_round_range; [|lia]; apply hrp_rounds_range; [lia|]|].
    + intros x Hx. rewrite Z.shiftr_div_pow2 by lia.
      unfold wf_bytes in Hh. rewrite list.Forall_forall in Hh. destruct (Hh x Hx).
      split; [apply Z.div_pos; lia|]. eapply Z.le_lt_trans; [apply (Z.div_le_upper_bound _ _ 255); lia|lia].
    + intros x _. change 31 with (Z.ones 5). rewrite Z.land_ones by lia.
      pose proof (Z.mod_pos_bound x (2 ^ 5) ltac:(lia)). lia.
  - revert Hv. apply Forall_impl. intros x []. change (2 ^ Z.of_nat 5) with 32 in *. lia.
Qed.

Lemma polymod_checksum hrp values cs :
  wf_bytes hrp -> Forall (in_range 5) values -> Forall (in_range 5) cs -> length cs = 6%nat ->
  bech32Polymod hrp values (Some cs) = Z.lxor (bech32Polymod hrp values None) (pack 0 cs) /\
  0 <= bech32Polymod hrp values None < 2 ^ 30.
Proof.
  intros Hh Hv Hc Hl. pose proof (polymod_prefix_range hrp values Hh Hv) as Hp.
  change (bech32Polymod hrp values (Some cs)) with (foldl polymod_round (polymod_prefix hrp values) cs).
  change (bech32Polymod hrp values None)
    with (foldl polymod_round (polymod_prefix hrp values) [0; 0; 0; 0; 0; 0]).
  set (c := polymod_prefix hrp values) in *. split.
  - rewrite <- (Z.lxor_0_r c).
    assert (in_range (5 * 0) 0) as H0 by by split.
    rewrite !(polymod_rounds _ c 0 0 H0); [|simpl; lia|by repeat constructor|lia|done].
    rewrite Hl. change (pack 0 [0; 0; 0; 0; 0; 0]) with 0. by rewrite Z.lxor_0_r.
  - apply polymod_rounds_range; [done|by repeat constructor].
Qed.

(** The digits that make the checksum of a version. *)
Definition checksum_for (hrp data : bytes) (v : Version) : bytes :=
  checksum_digits (Z.lxor (bech32Polymod hrp data None) (VersionToConsts v)).

Lemma ConstsToVersion_spec c v : ConstsToVersion c = Some v <-> v <> VersionUnknown /\ c = VersionToConsts v.
Proof.
  unfold ConstsToVersion. destruct (Z.eqb_spec c Version0Const) as [->|H0].
  - split; [by intros [= <-]|]. by destruct v; intros [? E].
  - destruct (Z.eqb_spec c VersionMConst) as [->|HM].
    + split; [by intros [= <-]|]. by destruct v; intros [? E].
    + split; [done|]. by destruct v; intros [? E].
Qed.

Lemma verify_checksum hrp values cs v :
  wf_bytes hrp -> Forall (in_range 5) values -> Forall (in_range 5) cs -> length cs = 6%nat ->
  bech32VerifyChecksum hrp (values ++ cs) = Some v <-> v <> VersionUnknown /\ cs = checksum_for hrp values v.
Proof.
  intros Hh Hv Hc Hl. unfold bech32VerifyChecksum.
  replace (length (values ++ cs) - 6)%nat with (length values) by (rewrite length_app; lia).
  rewrite drop_app_length, take_app_length, ConstsToVersion_spec.
  destruct (polymod_checksum hrp values cs Hh Hv Hc Hl) as [-> Hr].
  set (p := bech32Polymod hrp values None) in *. unfold checksum_for. fold p.
  assert (v <> VersionUnknown -> 0 <= Z.lxor p (VersionToConsts v) < 2 ^ 30) as Hq.
  { intros Hk. apply (lxor_range 30); [done|]. by destruct v. }
  split; intros [Hk E]; (split; [done|]).
  - apply checksum_digits_pack; auto. rewrite <- E. by rewrite <- Z.lxor_assoc, Z.lxor_nilpotent.
  - apply checksum_digits_pack in E; auto. rewrite E. by rewrite <- Z.lxor_assoc, Z.lxor_nilpotent.
Qed.

(** ** Characters *)

Lemma IndexByte_from_spec s c : forall i, 0 <= i -> 0 <= IndexByte_from i s c ->
  i <= IndexByte_from i s c < i + Z.of_nat (length s) /\
  nth (Z.to_nat (IndexByte_from i s c - i)) s 0 = c.
Proof.
  induction s as [|x s IH]; intros i Hi; cbn [IndexByte_from length]; [lia|].
  destruct (Z.eqb_spec x c) as [->|]; [intros _; rewrite Z.sub_diag; split; [lia|done]|].
  intros H. destruct (IH (i + 1) ltac:(lia) H) as [Hr Hn]. split; [lia|].
  by replace (Z.to_nat (IndexByte_from (i + 1) s c - i))
    with (S (Z.to_nat (IndexByte_from (i + 1) s c - (i + 1)))) by lia.
Qed.

Lemma IndexByte_charset c :
  0 <= IndexByte charset c -> in_range 5 (IndexByte charset c) /\ char_of (IndexByte charset c) = c.
Proof.
  intros H. destruct (IndexByte_from_spec charset c 0 ltac:(lia) H) as [Hr Hn].
  rewrite Z.sub_0_r in Hn. split; [|exact Hn]. change (Z.of_nat (length charset)) with 32 in Hr.
  split; [done|]. unfold IndexByte. change (2 ^ Z.of_nat 5) with 32. lia.
Qed.

(** The character of each digit: found again, printable, never upper case nor
    the separator. *)
Definition digit_ok (b : Z) : bool :=
  (IndexByte charset (char_of b) =? b) && (33 <=? char_of b) && (char_of b <=? 126) &&
  negb (is_upper (char_of b)) && negb (char_of b =? 49).

Lemma digits_ok b : in_range 5 b -> digit_ok b = true.
Proof.
  intros [H0 H1]. change (2 ^ Z.of_nat 5) with 32 in H1.
  assert (forallb (fun n => digit_ok (Z.of_nat n)) (seq 0 32) = true) as Hall by (vm_compute; reflexivity).
  rewrite forallb_forall in Hall. rewrite <- (Z2Nat.id b H0). apply Hall, in_seq. lia.
Qed.

Lemma char_of_spec b : in_range 5 b ->
  IndexByte charset (char_of b) = b /\ 33 <= char_of b <= 126 /\
  is_upper (char_of b) = false /\ char_of b <> 49.
Proof.
  intros H%digits_ok. unfold digit_ok in H. rewrite !andb_true_iff, !negb_true_iff in H.
  rewrite Z.eqb_eq, !Z.leb_le, Z.eqb_neq in H. tauto.
Qed.

Lemma toBytes_spec cs : forall ds,
  toBytes cs = Ok ds <-> Forall (in_range 5) ds /\ cs = map char_of ds.
Proof.
  induction cs as [|c cs IH]; intros ds; cbn [toBytes].
  { split; [intros [= <-]; by split|]. intros [_ E]. by destruct ds. }
  split.
  - destruct (Z.ltb_spec (IndexByte charset c) 0) as [|Hi]; [done|].
    destruct (IndexByte_charset c Hi) as [Hr Hc]. unfold mbind, result_bind.
    destruct (toBytes cs) as [rest|] eqn:E; [|done]. intros [= <-].
    destruct (proj1 (IH rest) eq_refl) as [Hd ->]. split; [by constructor|]. cbn [map]. by rewrite Hc.
  - intros [Hd E]. destruct ds as [|d ds]; [done|]. injection E as -> ->.
    inversion_clear Hd as [|? ? H1 H2]. destruct (char_of_spec d H1) as (Hi & _). rewrite Hi.
    destruct H1. rewrite (proj2 (Z.ltb_ge _ _)) by done.
    by rewrite (proj2 (IH ds) (conj H2 eq_refl)).
Qed.

(** ** The separator and the case *)

Lemma LastIndexByte_from_absent s c : forall i last,
  c ∉ s -> LastIndexByte_from i last s c = last.
Proof.
  induction s as [|x s IH]; intros i last Hc; simpl; [done|].
  apply not_elem_of_cons in Hc as [Hx Hc]. rewrite (proj2 (Z.eqb_neq x c)) by done. by apply IH.
Qed.

Lemma LastIndexByte_app a b c :
  c ∉ b -> LastIndexByte (a ++ c :: b) c = Z.of_nat (length a).
Proof.
  intros Hb. unfold LastIndexByte. change (Z.of_nat (length a)) with (0 + Z.of_nat (length a)).
  generalize 0 (-1). induction a as [|x a IH]; intros i last; simpl.
  - rewrite Z.eqb_refl, LastIndexByte_from_absent by done. lia.
  - rewrite IH. lia.
Qed.

Lemma split_last (s : bytes) c : c ∈ s -> exists a b, s = a ++ c :: b /\ c ∉ b.
Proof.
  induction s as [|x s IH]; intros Hc; [by apply not_elem_of_nil in Hc|].
  destruct (decide (c ∈ s)) as [Hs|Hs].
  - destruct (IH Hs) as (a & b & -> & Hb). by exists (x :: a), b.
  - apply elem_of_cons in Hc as [->|]; [|done]. by exists [], s.
Qed.

Lemma LastIndexByte_found s c :
  0 <= LastIndexByte s c ->
  exists a b, s = a ++ c :: b /\ LastIndexByte s c = Z.of_nat (length a).
Proof.
  intros H. destruct (decide (c ∈ s)) as [Hin|Hin].
  - destruct (split_last s c Hin) as (a & b & -> & Hb). exists a, b. by rewrite LastIndexByte_app.
  - unfold LastIndexByte in H. rewrite LastIndexByte_from_absent in H by done. lia.
Qed.

Definition printable (s : bytes) : Prop := Forall (fun c => 33 <= c <= 126) s.

Definition mixed_case (s : bytes) : bool := existsb is_lower s && existsb is_upper s.

Lemma check_characters_spec s : forall lower upper r,
  lower && upper = false ->
  check_characters lower upper s = Ok r <->
  printable s /\ (lower || existsb is_lower s) && (upper || existsb is_upper s) = false /\
  r = upper || existsb is_upper s.
Proof.
  unfold printable. induction s as [|c s IH]; intros lower upper r Hlu; cbn [check_characters existsb].
  { rewrite !orb_false_r. split; [intros [= ->]; by split_and!|]. by intros (_ & _ & ->). }
  rewrite Forall_cons_iff, !orb_assoc.
  destruct (Z.ltb_spec c 33), (Z.ltb_spec 126 c); cbn [orb]; try (split; [done|intros ([? ?] & _); lia]).
  destruct ((lower || is_lower c) && (upper || is_upper c)) eqn:E.
  - split; [done|]. intros (_ & E' & _). apply andb_true_iff in E as [El Eu]. by rewrite El, Eu in E'.
  - rewrite IH by done. split; [intros (? & ? & ?)|intros ([_ ?] & ? & ?)]; split_and!; done || lia.
Qed.

Lemma ToLower_id s : existsb is_upper s = false -> ToLower s = s.
Proof.
  unfold ToLower. induction s as [|c s IH]; simpl; [done|].
  intros [-> Hs]%orb_false_iff. by rewrite IH.
Qed.

Lemma ToLower_not_upper s : existsb is_upper (ToLower s) = false.
Proof.
  induction s as [|c s IH]; simpl; [done|]. rewrite IH, orb_false_r. unfold is_upper at 2.
  destruct (Z.leb_spec 65 c), (Z.leb_spec c 90); simpl; unfold is_upper;
    destruct (Z.leb_spec 65 (c + 32)), (Z.leb_spec (c + 32) 90), (Z.leb_spec 65 c), (Z.leb_spec c 90);
    simpl; done || lia.
Qed.

Lemma ToLower_lowered s : (if existsb is_upper s then ToLower s else s) = ToLower s.
Proof. destruct (existsb is_upper s) eqn:E; [done|]. by rewrite ToLower_id. Qed.

Lemma ToLower_printable s : printable s -> printable (ToLower s).
Proof.
  unfold printable, ToLower. intros H. induction H as [|c s Hc _ IH]; simpl; constructor; [|done].
  unfold is_upper. destruct (Z.leb_spec 65 c), (Z.leb_spec c 90); simpl; lia.
Qed.

Lemma printable_bytes s : printable s -> wf_bytes s.
Proof. apply Forall_impl. intros c Hc. unfold is_u8. lia. Qed.

Lemma length_ToLower s : length (ToLower s) = length s.
Proof. apply length_map. Qed.

(** ** Decoding is exact *)

(** The lower-case text of a human-readable part, payload and version. *)
Definition text_of (hrp data : bytes) (v : Version) : bytes :=
  hrp ++ 49 :: map char_of (data ++ checksum_for hrp data v).

Lemma length_text_of hrp data v : length (text_of hrp data v) = (length hrp + length data + 7)%nat.
Proof.
  unfold text_of, checksum_for.
  rewrite length_app. cbn [length]. rewrite length_map, length_app, length_checksum_digits. lia.
Qed.

Lemma checksum_for_range hrp data v : Forall (in_range 5) (checksum_for hrp data v).
Proof. apply checksum_digits_bits. Qed.

Lemma write_data_spec data : forall bldr r,
  write_data data bldr = Ok r <-> Forall (fun b => b < 32) data /\ r = bldr ++ map char_of data.
Proof.
  induction data as [|b data IH]; intros bldr r; cbn [write_data map].
  { rewrite app_nil_r. split; [intros [= ->]; by split|]. by intros [_ ->]. }
  change (Z.of_nat (length charset)) with 32. rewrite Forall_cons_iff.
  destruct (Z.leb_spec 32 b); [split; [done|intros [[? _] _]; lia]|].
  rewrite IH, <- app_assoc. simpl. tauto.
Qed.

#[local] Opaque bech32Polymod checksum_digits char_of charset.

Lemma encodeGeneric_spec hrp data v t :
  encodeGeneric hrp data v = Ok t <->
  Forall (fun b => b < 32) data /\
  t = ToLower hrp ++ 49 :: map char_of (data ++
        checksum_digits (Z.lxor (bech32Polymod (ToLower hrp) data None) (VersionToConsts v))).
Proof.
  unfold encodeGeneric, mbind, result_bind.
  destruct (write_data data (ToLower hrp ++ [49])) as [r|e] eqn:E.
  - apply write_data_spec in E as [Hd ->]. unfold writeBech32Checksum. rewrite map_app, <- !app_assoc.
    set (cs := map char_of (checksum_digits _)). cbn [app]. split; [|by intros [_ ->]].
    intros E. injection E as <-. by split.
  - split; [discriminate|]. intros [Hd _].
    rewrite (proj2 (write_data_spec data (ToLower hrp ++ [49]) _) (conj Hd eq_refl)) in E. discriminate.
Qed.

Lemma separator_not_digit ds : Forall (in_range 5) ds -> 49 ∉ map char_of ds.
Proof.
  intros Hd Hin. apply list_elem_of_In, in_map_iff in Hin as (d & E & Hin).
  rewrite List.Forall_forall in Hd. destruct (char_of_spec d (Hd d Hin)) as (_ & _ & _ & Hne). done.
Qed.

Lemma decode_text_split hrp decoded t :
  t = hrp ++ 49 :: map char_of decoded -> Forall (in_range 5) decoded ->
  decode_text t =
    if (Z.of_nat (length hrp) <? 1) || (length decoded <? 6)%nat
    then Err (ErrInvalidSeparatorIndex (Z.of_nat (length hrp)))
    else match bech32VerifyChecksum hrp decoded with
         | None =>
             let payload := take (length decoded - 6) decoded in
             let expectedVersion0 := writeBech32Checksum hrp payload [] Version0 in
             let expectedVersionM := writeBech32Checksum hrp payload expectedVersion0 VersionM in
             Err (ErrInvalidChecksum expectedVersion0 expectedVersionM (drop (length t - 6) t))
         | Some version => Ok (hrp, take (length decoded - 6) decoded, version)
         end.
Proof.
  intros Ht Hd. unfold decode_text.
  assert (LastIndexByte t 49 = Z.of_nat (length hrp)) as ->
    by (rewrite Ht; by apply LastIndexByte_app, separator_not_digit).
  assert (length t = (length hrp + S (length decoded))%nat) as Hl
    by (rewrite Ht, length_app; simpl; by rewrite length_map).
  replace (Z.of_nat (length t) <? Z.of_nat (length hrp) + 7) with (length decoded <? 6)%nat.
  2: { destruct (Nat.ltb_spec (length decoded) 6), (Z.ltb_spec (Z.of_nat (length t)) (Z.of_nat (length hrp) + 7));
         done || lia. }
  destruct (_ || _); [done|]. cbv zeta.
  replace (take (Z.to_nat (Z.of_nat (length hrp))) t) with hrp
    by (rewrite Ht, take_app_length' by lia; done).
  replace (drop (Z.to_nat (Z.of_nat (length hrp) + 1)) t) with (map char_of decoded).
  2: { rewrite Ht. replace (Z.to_nat (Z.of_nat (length hrp) + 1)) with (length hrp + 1)%nat by lia.
       by rewrite <- drop_drop, drop_app_length. }
  by rewrite (proj2 (toBytes_spec (map char_of decoded) decoded) (conj Hd eq_refl)).
Qed.

(** Which lower-case texts decode. *)
Lemma decode_text_exact t hrp data v :
  wf_bytes t ->
  decode_text t = Ok (hrp, data, v) <->
  hrp <> [] /\ Forall (in_range 5) data /\ v <> VersionUnknown /\ t = text_of hrp data v.
Proof.
  intros Hw. split.
  - intros E. assert (exists a decoded, t = a ++ 49 :: map char_of decoded /\ Forall (in_range 5) decoded)
      as (a & decoded & Ht & Hd).
    { unfold decode_text in E. destruct (Z.ltb_spec (LastIndexByte t 49) 1) as [|H1]; [done|].
      destruct (Z.ltb_spec (Z.of_nat (length t)) (LastIndexByte t 49 + 7)); [done|].
      destruct (LastIndexByte_found t 49 ltac:(lia)) as (a & b & Ht & Hl).
      rewrite Hl in E. cbn [orb] in E. cbv zeta in E.
      assert (drop (Z.to_nat (Z.of_nat (length a) + 1)) t = b) as Hb.
      { rewrite Ht. replace (Z.to_nat (Z.of_nat (length a) + 1)) with (length a + 1)%nat by lia.
        by rewrite <- drop_drop, drop_app_length. }
      rewrite Hb in E. unfold mbind, result_bind in E.
      destruct (toBytes b) as [decoded|] eqn:Eb; [|done].
      apply toBytes_spec in Eb as [Hd ->]. eauto. }
    rewrite (decode_text_split a decoded t Ht Hd) in E.
    destruct (Z.ltb_spec (Z.of_nat (length a)) 1); [done|].
    destruct (Nat.ltb_spec (length decoded) 6); [done|]. cbn [orb] in E.
    destruct (bech32VerifyChecksum a decoded) as [w|] eqn:Ev; [|done].
    injection E as <- <- <-. set (n := (length decoded - 6)%nat).
    rewrite <- (take_drop n decoded) in Ev, Hd, Ht. apply Forall_app in Hd as [Hd1 Hd2].
    assert (wf_bytes a) as Ha by (rewrite Ht in Hw; by apply Forall_app in Hw as [? _]).
    apply verify_checksum in Ev as [Hk Hc]; auto; [|rewrite length_drop; lia].
    split_and!; auto; [by intros ->|]. unfold text_of. by rewrite <- Hc.
  - intros (Hh & Hd & Hv & Ht). pose proof (checksum_for_range hrp data v) as Hc.
    rewrite (decode_text_split hrp (data ++ checksum_for hrp data v) t Ht) by (by apply Forall_app).
    assert (length (checksum_for hrp data v) = 6%nat) as Hl by apply length_checksum_digits.
    rewrite length_app, Hl. destruct (Z.ltb_spec (Z.of_nat (length hrp)) 1); [destruct hrp; simpl in *; done || lia|].
    rewrite (proj2 (Nat.ltb_ge _ 6)) by lia. cbn [orb].
    assert (wf_bytes hrp) as Hhw by (rewrite Ht in Hw; by apply Forall_app in Hw as [? _]).
    rewrite (proj2 (verify_checksum hrp data _ v Hhw Hd Hc Hl)) by done.
    replace (length data + 6 - 6)%nat with (length data) by lia. by rewrite take_app_length.
Qed.

Lemma Decode_text s hrp data :
  Decode s = Ok (hrp, data) <->
  (length s <= 90)%nat /\ printable s /\ mixed_case s = false /\ hrp <> [] /\
  Forall (in_range 5) data /\ exists v, v <> VersionUnknown /\ ToLower s = text_of hrp data v.
Proof.
  unfold Decode. destruct (Nat.ltb_spec 90 (length s)); [split; [done|lia]|].
  unfold decodeNoLimit, mbind, result_bind.
  pose proof (check_characters_spec s false false) as Hcc. cbn [orb andb] in Hcc.
  destruct (Nat.ltb_spec (length s) 8) as [H8|H8].
  { split; [done|]. intros (_ & _ & _ & Hh & _ & v & _ & E). apply (f_equal length) in E.
    rewrite length_ToLower, length_text_of in E. destruct hrp; simpl in *; done || lia. }
  destruct (check_characters false false s) as [up|] eqn:E.
  - destruct (proj1 (Hcc up eq_refl) eq_refl) as (Hp & Hm & ->). rewrite ToLower_lowered.
    assert (wf_bytes (ToLower s)) as Hw by by apply printable_bytes, ToLower_printable.
    destruct (decode_text (ToLower s)) as [[[h d] v]|] eqn:Ed.
    + split.
      * intros [= <- <-]. apply decode_text_exact in Ed as (? & ? & ? & ?); [|done]. split_and!; eauto.
      * intros (_ & _ & _ & Hh & Hd & w & Hw' & Et).
        rewrite (proj2 (decode_text_exact _ hrp data w Hw)) in Ed by done. congruence.
    + split; [done|]. intros (_ & _ & _ & Hh & Hd & w & Hw' & Et).
      by rewrite (proj2 (decode_text_exact _ hrp data w Hw)) in Ed.
  - split; [done|]. intros (_ & Hp & Hm & _).
    pose proof (proj2 (Hcc (existsb is_upper s) eq_refl) (conj Hp (conj Hm eq_refl))). discriminate.
Qed.

(** The text of lower-case parts has no upper case and prints. *)
Lemma text_of_lower hrp data v :
  existsb is_upper hrp = false -> Forall (in_range 5) data ->
  existsb is_upper (text_of hrp data v) = false.
Proof.
  intros Hh Hd. unfold text_of. rewrite existsb_app, Hh. cbn [existsb orb].
  assert (Forall (in_range 5) (data ++ checksum_for hrp data v)) as Hc
    by (apply Forall_app; split; [done|apply checksum_for_range]).
  induction Hc as [|d ds Hd' _ IH]; [done|]. cbn [map existsb].
  destruct (char_of_spec d Hd') as (_ & _ & -> & _). exact IH.
Qed.

Lemma text_of_printable hrp data v :
  printable hrp -> Forall (in_range 5) data -> printable (text_of hrp data v).
Proof.
  intros Hh Hd. apply Forall_app. split; [done|]. constructor; [lia|].
  assert (Forall (in_range 5) (data ++ checksum_for hrp data v)) as Hc
    by (apply Forall_app; split; [done|apply checksum_for_range]).
  induction Hc as [|d ds Hd' _ IH]; [constructor|]. cbn [map]. constructor; [|exact IH].
  by destruct (char_of_spec d Hd') as (_ & ? & _).
Qed.

Lemma encode_text hrp data v t :
  wf_bytes data ->
  encodeGeneric hrp data v = Ok t <-> Forall (in_range 5) data /\ t = text_of (ToLower hrp) data v.
Proof.
  intros Hw. rewrite encodeGeneric_spec. unfold text_of, checksum_for.
  assert (Forall (fun b => b < 32) data <-> Forall (in_range 5) data) as ->; [|done].
  unfold wf_bytes in Hw. rewrite !List.Forall_forall in *.
  split; intros H x Hx; specialize (H x Hx); specialize (Hw x Hx); unfold in_range, is_u8 in *;
    change (2 ^ Z.of_nat 5) with 32 in *; lia.
Qed.

Lemma groups_bytes d : Forall (in_range 5) d -> wf_bytes d.
Proof. apply Forall_impl. unfold in_range, is_u8. intros x. change (2 ^ Z.of_nat 5) with 32. lia. Qed.

(** What [Decode] accepts: the strings that one of the two encoders writes,
    in one case, of up to 90 characters. *)
Lemma Decode_encoded s hrp data :
  Decode s = Ok (hrp, data) <->
  (length s <= 90)%nat /\ printable s /\ mixed_case s = false /\ hrp <> [] /\ ToLower hrp = hrp /\
  wf_bytes data /\ (Encode hrp data = Ok (ToLower s) \/ EncodeM hrp data = Ok (ToLower s)).
Proof.
  rewrite Decode_text. split.
  - intros (Hl & Hp & Hm & Hh & Hd & v & Hv & E). pose proof (groups_bytes data Hd) as Hw.
    assert (ToLower hrp = hrp) as Hlow.
    { apply ToLower_id. pose proof (ToLower_not_upper s) as Hu. rewrite E in Hu. unfold text_of in Hu.
      rewrite existsb_app in Hu. by apply orb_false_iff in Hu as [? _]. }
    split_and!; auto. unfold Encode, EncodeM. rewrite !encode_text, Hlow, E by done.
    destruct v; [by left|by right|done].
  - intros (Hl & Hp & Hm & Hh & Hlow & Hw & E). unfold Encode, EncodeM in E.
    rewrite !encode_text, Hlow in E by done.
    destruct E as [[Hd E]|[Hd E]]; split_and!; auto; [exists Version0|exists VersionM]; by split.
Qed.

(** Encoding bytes and decoding them. *)
Lemma base256_roundtrip hrp data :
  printable hrp -> hrp <> [] -> wf_bytes data -> (5 * length hrp + 8 * length data <= 411)%nat ->
  exists s, EncodeFromBase256 hrp data = Ok s /\ wf_bytes s /\ DecodeToBase256 s = Ok (ToLower hrp, data) /\
    exists groups, Decode s = Ok (ToLower hrp, groups) /\ ConvertBits groups 5 8 false = Ok data.
Proof.
  intros Hp Hne Hw Hl.
  destruct (ConvertBits_roundtrip data Hw) as (groups & E1 & Hg & Hlen & E2).
  pose proof (groups_bytes groups Hg) as Hgw.
  set (t := text_of (ToLower hrp) groups Version0).
  assert (existsb is_upper t = false) as Hu by (apply text_of_lower; [apply ToLower_not_upper|done]).
  assert (printable t) as Hpt by (apply text_of_printable; [by apply ToLower_printable|done]).
  assert (Decode t = Ok (ToLower hrp, groups)) as Ed.
  { apply Decode_text. split_and!; auto.
    - unfold t. rewrite length_text_of, length_ToLower. lia.
    - unfold mixed_case. by rewrite Hu, andb_false_r.
    - by destruct hrp.
    - exists Version0. by rewrite (ToLower_id t Hu). }
  exists t. split_and!; [|by apply printable_bytes| |by exists groups].
  - unfold EncodeFromBase256. rewrite E1. by apply encode_text.
  - unfold DecodeToBase256. rewrite Ed. unfold mbind, result_bind. by rewrite E2.
Qed.
