(* ===== verification/Rules.v ===== *)
(** * The rules of the chain (chain.Rules, genesis/rules.go, actions_test_utils.go)

    [chain.Rules] as an interface, the rules a genesis carries with their
    defaults, and the mock the unit tests of actions/ use.  The fee formulas
    and the tests are written against the interface. *)

From S2P Require Import Prelude GoErrors Lib.
#[local] Open Scope Z_scope.

(** [fees.Dimensions]: five numbers, bandwidth, compute, storage reads,
    allocations and writes. *)
Abbreviation Dimensions := (list Z).

Definition FeeDimensions : nat := 5.

(** [any]: a value with its type. *)
Definition Any : Type := {T : Type & T}.

Class ChainRules (R : Type) := {
  GetNetworkID : R -> Z;
  GetChainID : R -> bytes;
  GetMinBlockGap : R -> Z;
  GetMinEmptyBlockGap : R -> Z;
  GetValidityWindow : R -> Z;
  GetMaxActionsPerTx : R -> Z;
  GetMinUnitPrice : R -> Dimensions;
  GetUnitPriceChangeDenominator : R -> Dimensions;
  GetWindowTargetUnits : R -> Dimensions;
  GetMaxBlockUnits : R -> Dimensions;
  GetBaseComputeUnits : R -> Z;
  GetSponsorStateKeysMaxChunks : R -> list Z;
  GetStorageKeyReadUnits : R -> Z;
  GetStorageValueReadUnits : R -> Z;
  GetStorageKeyAllocateUnits : R -> Z;
  GetStorageValueAllocateUnits : R -> Z;
  GetStorageKeyWriteUnits : R -> Z;
  GetStorageValueWriteUnits : R -> Z;
  (** A nil value is [None]. *)
  FetchCustom : R -> string -> option Any * bool;
}.

(** ** genesis.Rules *)

Record Rules := mkRules {
  NetworkID : Z;
  ChainID : bytes;
  MinBlockGap : Z;
  MinEmptyBlockGap : Z;
  MinUnitPrice : Dimensions;
  UnitPriceChangeDenominator : Dimensions;
  WindowTargetUnits : Dimensions;
  MaxBlockUnits : Dimensions;
  ValidityWindow : Z;
  MaxActionsPerTx : Z;
  MaxOutputsPerAction : Z;
  BaseComputeUnits : Z;
  StorageKeyReadUnits : Z;
  StorageValueReadUnits : Z;
  StorageKeyAllocateUnits : Z;
  StorageValueAllocateUnits : Z;
  StorageKeyWriteUnits : Z;
  StorageValueWriteUnits : Z;
  SponsorStateKeysMaxChunks : list Z;
}.

Definition NewDefaultRules : Rules := {|
  NetworkID := 0;
  ChainID := make_bytes IDLen;
  MinBlockGap := 100;
  MinEmptyBlockGap := 750;
  MinUnitPrice := [100; 100; 100; 100; 100];
  UnitPriceChangeDenominator := [48; 48; 48; 48; 48];
  WindowTargetUnits := [20000000; 1000; 1000; 1000; 1000];
  MaxBlockUnits := [1800000; 2000; 2000; 2000; 2000];
  ValidityWindow := 60 * 1000;
  MaxActionsPerTx := 16;
  MaxOutputsPerAction := 1;
  BaseComputeUnits := 1;
  StorageKeyReadUnits := 5;
  StorageValueReadUnits := 2;
  StorageKeyAllocateUnits := 20;
  StorageValueAllocateUnits := 5;
  StorageKeyWriteUnits := 10;
  StorageValueWriteUnits := 3;
  SponsorStateKeysMaxChunks := [1];
|}.

#[export] Instance Rules_ChainRules : ChainRules Rules := {|
  GetNetworkID := NetworkID;
  GetChainID := ChainID;
  GetMinBlockGap := MinBlockGap;
  GetMinEmptyBlockGap := MinEmptyBlockGap;
  GetValidityWindow := ValidityWindow;
  GetMaxActionsPerTx := MaxActionsPerTx;
  GetMinUnitPrice := MinUnitPrice;
  GetUnitPriceChangeDenominator := UnitPriceChangeDenominator;
  GetWindowTargetUnits := WindowTargetUnits;
  GetMaxBlockUnits := MaxBlockUnits;
  GetBaseComputeUnits := BaseComputeUnits;
  GetSponsorStateKeysMaxChunks := SponsorStateKeysMaxChunks;
  GetStorageKeyReadUnits := StorageKeyReadUnits;
  GetStorageValueReadUnits := StorageValueReadUnits;
  GetStorageKeyAllocateUnits := StorageKeyAllocateUnits;
  GetStorageValueAllocateUnits := StorageValueAllocateUnits;
  GetStorageKeyWriteUnits := StorageKeyWriteUnits;
  GetStorageValueWriteUnits := StorageValueWriteUnits;
  FetchCustom _ _ := (None, false);
|}.

(** ** actions.MockRules

    A field per function; a nil function field makes the method return its
    default.  The functions keep no state here, so the ones without an
    argument are their results. *)
Record MockRules (Action : Type) := mkMockRules {
  MaxActionGasFunc : option (Action -> Z);
  FetchCustomFunc : option (string -> option Any * bool);
  GetTimeFunc : option Z;
  MaxBlockGasFunc : option Z;
  GetBaseComputeUnitsFunc : option Z;
  GetChainIDFunc : option bytes;
  GetMaxActionsPerTxFunc : option Z;
  GetMaxBlockUnitsFunc : option Dimensions;
  GetMinBlockGapFunc : option Z;
  GetMinEmptyBlockGapFunc : option Z;
  GetMinUnitPriceFunc : option Dimensions;
  GetNetworkIDFunc : option Z;
  GetSponsorStateKeysMaxChunksFunc : option (list Z);
  GetStorageKeyAllocateUnitsFunc : option Z;
  GetStorageKeyReadUnitsFunc : option Z;
  GetStorageKeyWriteUnitsFunc : option Z;
  GetStorageValueAllocateUnitsFunc : option Z;
  GetStorageValueReadUnitsFunc : option Z;
  GetStorageValueWriteUnitsFunc : option Z;
  GetUnitPriceChangeDenominatorFunc : option Dimensions;
  GetValidityWindowFunc : option Z;
  GetWindowTargetUnitsFunc : option Dimensions;
}.

Arguments mkMockRules {Action}.
Arguments MaxActionGasFunc {Action}.
Arguments FetchCustomFunc {Action}.
Arguments GetTimeFunc {Action}.
Arguments MaxBlockGasFunc {Action}.
Arguments GetBaseComputeUnitsFunc {Action}.
Arguments GetChainIDFunc {Action}.
Arguments GetMaxActionsPerTxFunc {Action}.
Arguments GetMaxBlockUnitsFunc {Action}.
Arguments GetMinBlockGapFunc {Action}.
Arguments GetMinEmptyBlockGapFunc {Action}.
Arguments GetMinUnitPriceFunc {Action}.
Arguments GetNetworkIDFunc {Action}.
Arguments GetSponsorStateKeysMaxChunksFunc {Action}.
Arguments GetStorageKeyAllocateUnitsFunc {Action}.
Arguments GetStorageKeyReadUnitsFunc {Action}.
Arguments GetStorageKeyWriteUnitsFunc {Action}.
Arguments GetStorageValueAllocateUnitsFunc {Action}.
Arguments GetStorageValueReadUnitsFunc {Action}.
Arguments GetStorageValueWriteUnitsFunc {Action}.
Arguments GetUnitPriceChangeDenominatorFunc {Action}.
Arguments GetValidityWindowFunc {Action}.
Arguments GetWindowTargetUnitsFunc {Action}.

Definition zero_dimensions : Dimensions := [0; 0; 0; 0; 0].

Definition GetTime {A} (m : MockRules A) : Z := default 0 (GetTimeFunc m).
Definition MaxActionGas {A} (m : MockRules A) (action : A) : Z :=
  match MaxActionGasFunc m with Some f => f action | None => 0 end.
Definition MaxBlockGas {A} (m : MockRules A) : Z := default 0 (MaxBlockGasFunc m).

#[export] Instance MockRules_ChainRules {A} : ChainRules (MockRules A) := {|
  GetNetworkID m := default 0 (GetNetworkIDFunc m);
  GetChainID m := default (make_bytes IDLen) (GetChainIDFunc m);
  GetMinBlockGap m := default 0 (GetMinBlockGapFunc m);
  GetMinEmptyBlockGap m := default 0 (GetMinEmptyBlockGapFunc m);
  GetValidityWindow m := default 0 (GetValidityWindowFunc m);
  GetMaxActionsPerTx m := default 0 (GetMaxActionsPerTxFunc m);
  GetMinUnitPrice m := default zero_dimensions (GetMinUnitPriceFunc m);
  GetUnitPriceChangeDenominator m := default zero_dimensions (GetUnitPriceChangeDenominatorFunc m);
  GetWindowTargetUnits m := default zero_dimensions (GetWindowTargetUnitsFunc m);
  GetMaxBlockUnits m := default zero_dimensions (GetMaxBlockUnitsFunc m);
  GetBaseComputeUnits m := default 0 (GetBaseComputeUnitsFunc m);
  GetSponsorStateKeysMaxChunks m := default [] (GetSponsorStateKeysMaxChunksFunc m);
  GetStorageKeyReadUnits m := default 0 (GetStorageKeyReadUnitsFunc m);
  GetStorageValueReadUnits m := default 0 (GetStorageValueReadUnitsFunc m);
  GetStorageKeyAllocateUnits m := default 0 (GetStorageKeyAllocateUnitsFunc m);
  GetStorageValueAllocateUnits m := default 0 (GetStorageValueAllocateUnitsFunc m);
  GetStorageKeyWriteUnits m := default 0 (GetStorageKeyWriteUnitsFunc m);
  GetStorageValueWriteUnits m := default 0 (GetStorageValueWriteUnitsFunc m);
  FetchCustom m key := match FetchCustomFunc m with Some f => f key | None => (None, false) end;
|}.
