(* ===== verification/Genesis.v ===== *)
(** * Genesis (genesis/genesis.go, hypersdk/genesis/genesis.go, tests/workload/genesis.go)

    Two genesis types fill the initial state through the balance handler:
    the program's own [Genesis], with bech32 addresses, and hypersdk's
    [DefaultGenesis], which the VM's factory uses. *)

From S2P Require Import Prelude GoErrors Lib Consts Store Balances Markets Ledger Controller ConvertBits Bech32 Rules.
#[local] Open Scope Z_scope.

(** ** genesis.Genesis *)

Record CustomMarket := mkCustomMarket {
  cg_ID : Z;
  cg_Question : string;
  cg_ClosingTime : Z;
  cg_CollateralAssetID : string;
}.

Record Allocation := mkAllocation { al_Address : string; al_Balance : Z }.

Record Genesis := mkGenesis {
  Magic : Z;
  Timestamp : Z;
  Custom_Markets : list CustomMarket;
  Allocations : list Allocation;
}.

Definition GetMagic (g : Genesis) : Z := Magic g.
Definition GetTimestamp (g : Genesis) : Z := Timestamp g.

(** [time.Now()] and a day later, in Unix seconds, are arguments. *)
Definition GetDefault (now tomorrow : Z) : Genesis := {|
  Magic := 12345;
  Timestamp := now;
  Custom_Markets := [mkCustomMarket 1 "Will X happen by Y date?" tomorrow "AVAX"];
  Allocations := [];
|}.

(** The address of an allocation: shorter data is padded with zeros. *)
Definition allocation_address (address : string) : result bytes :=
  match Decode (bytes_of_string address) with
  | Err err => Err (Errorf_w ("failed to decode bech32 address " +:+ address +:+ ": ") err "")
  | Ok (hrp, data5bit) =>
      match ConvertBits data5bit 5 8 false with
      | Err err =>
          Err (Errorf_w ("failed to convert bech32 data bits for address " +:+ address +:+ ": ") err "")
      | Ok data8bit =>
          if (AddressLen <? length data8bit)%nat
          then Err (ErrFresh ("decoded address " +:+ address +:+ " is too long: got "
            +:+ fmt_d (Z.of_nat (length data8bit)) +:+ " bytes, expected max "
            +:+ fmt_d (Z.of_nat AddressLen)))
          else Ok (copy_at 0 data8bit EmptyAddress)
      end
  end.

Section initialize.
Context {S BH : Type} `{Mutable S} `{BalanceHandler BH}.

Fixpoint allocate (bh : BH) (allocs : list Allocation) : GoM S unit :=
  match allocs with
  | [] => mret tt
  | alloc :: rest =>
      addr ← lift (allocation_address (al_Address alloc));
      Handler_AddBalance bh addr (al_Balance alloc);;
      allocate bh rest
  end.

(** The custom markets are not used. *)
Definition InitializeState (g : Genesis) (bh : BH) : GoM S unit := allocate bh (Allocations g).
End initialize.

(** ** genesis.DefaultGenesis *)

Record CustomAllocation := mkCustomAllocation { ca_Address : bytes; ca_Balance : Z }.

(** [Rules] is a pointer. *)
Record DefaultGenesis := mkDefaultGenesis {
  StateBranchFactor : Z;
  CustomAllocations : list CustomAllocation;
  dg_Rules : option Rules;
}.

Definition BranchFactor16 : Z := 16.

Definition NewDefaultGenesis (customAllocations : list CustomAllocation) : DefaultGenesis :=
  mkDefaultGenesis BranchFactor16 customAllocations (Some NewDefaultRules).

Definition GetStateBranchFactor (g : DefaultGenesis) : Z := StateBranchFactor g.

(** encoding/json on the types of the genesis. *)
Class GenesisJSON := {
  MarshalGenesis : DefaultGenesis -> result bytes;
  UnmarshalGenesis : bytes -> result DefaultGenesis;
  UnmarshalAllocations : bytes -> result (list CustomAllocation);
}.

Definition set_network (networkID : Z) (chainID : bytes) (r : Rules) : Rules :=
  mkRules networkID chainID (MinBlockGap r) (MinEmptyBlockGap r) (MinUnitPrice r)
    (UnitPriceChangeDenominator r) (WindowTargetUnits r) (MaxBlockUnits r) (ValidityWindow r)
    (MaxActionsPerTx r) (MaxOutputsPerAction r) (BaseComputeUnits r) (StorageKeyReadUnits r)
    (StorageValueReadUnits r) (StorageKeyAllocateUnits r) (StorageValueAllocateUnits r)
    (StorageKeyWriteUnits r) (StorageValueWriteUnits r) (SponsorStateKeysMaxChunks r).

Definition nil_rules : error :=
  ErrFresh "runtime error: invalid memory address or nil pointer dereference".

(** [DefaultGenesisFactory.Load]: the genesis and the rules of the network. *)
Definition DefaultGenesisFactory_Load `{GenesisJSON} (genesisBytes : bytes) (networkID : Z) (chainID : bytes)
  : outcome (result (DefaultGenesis * Rules)) :=
  match UnmarshalGenesis genesisBytes with
  | Err err => Returns (Err err)
  | Ok genesis =>
      match dg_Rules genesis with
      | None => Panics nil_rules
      | Some r =>
          let r := set_network networkID chainID r in
          Returns (Ok (mkDefaultGenesis (StateBranchFactor genesis) (CustomAllocations genesis) (Some r), r))
      end
  end.

Section default_genesis.
Context {S BH : Type} `{Mutable S} `{BalanceHandler BH} `{Hashing}.

Fixpoint default_allocate (bh : BH) (supply : Z) (allocs : list CustomAllocation) : GoM S unit :=
  match allocs with
  | [] => mret tt
  | alloc :: rest =>
      supply ← lift (safemath_Add supply (ca_Balance alloc));
      on_error (fun err => Errorf_w "" err (": addr=" +:+ Address_String (ca_Address alloc)
          +:+ ", bal=" +:+ fmt_d (ca_Balance alloc)))
        (Handler_AddBalance bh (ca_Address alloc) (ca_Balance alloc));;
      default_allocate bh supply rest
  end.

Definition DefaultGenesis_InitializeState (g : DefaultGenesis) (bh : BH) : GoM S unit :=
  default_allocate bh 0 (CustomAllocations g).
End default_genesis.

(** tests/workload/genesis.go: the same balance for each address, and rules
    that limit blocks by bandwidth only; the gap in milliseconds. *)
Definition InitialBalance : Z := 3000000000000000000.

Definition workload_rules (minBlockGap : Z) (r : Rules) : Rules :=
  let MaxUint64 := two64 - 1 in
  mkRules 0 (make_bytes IDLen) minBlockGap (MinEmptyBlockGap r) (MinUnitPrice r)
    (UnitPriceChangeDenominator r) [MaxUint64; MaxUint64; MaxUint64; MaxUint64; MaxUint64]
    [1800000; MaxUint64; MaxUint64; MaxUint64; MaxUint64] (ValidityWindow r)
    (MaxActionsPerTx r) (MaxOutputsPerAction r) (BaseComputeUnits r) (StorageKeyReadUnits r)
    (StorageValueReadUnits r) (StorageKeyAllocateUnits r) (StorageValueAllocateUnits r)
    (StorageKeyWriteUnits r) (StorageValueWriteUnits r) (SponsorStateKeysMaxChunks r).

Definition newGenesis (addresses : list bytes) (minBlockGap : Z) : DefaultGenesis :=
  let genesis := NewDefaultGenesis (map (fun a => mkCustomAllocation a InitialBalance) addresses) in
  mkDefaultGenesis (StateBranchFactor genesis) (CustomAllocations genesis)
    (workload_rules minBlockGap <$> dg_Rules genesis).

(** ** On the ledger *)

Definition wf_allocation (alloc : CustomAllocation) : Prop :=
  wf_addr (ca_Address alloc) /\ is_u64 (ca_Balance alloc).

Definition total_allocated (allocs : list CustomAllocation) : Z :=
  foldr (fun alloc n => ca_Balance alloc + n) 0 allocs.

(** The ledger with each account of a list set to its allocation. *)
Definition funded (allocs : list CustomAllocation) (L : Ledger) : Ledger :=
  foldl (fun L alloc => set_balance (ca_Address alloc) (ca_Balance alloc) L) L allocs.

(** The program's own genesis on the ledger: what was credited before an
    error stays. *)
Fixpoint ledger_allocate (address : string -> result bytes) (allocs : list Allocation) (L : Ledger)
  : result unit * Ledger :=
  match allocs with
  | [] => (Ok tt, L)
  | alloc :: rest =>
      match address (al_Address alloc) with
      | Err err => (Err err, L)
      | Ok a =>
          match ledger_add a (al_Balance alloc) L with
          | (Err err, L) => (Err err, L)
          | (Ok _, L) => ledger_allocate address rest L
          end
      end
  end.

Lemma allocation_address_wf address a : allocation_address address = Ok a -> wf_addr a.
Proof.
  unfold allocation_address. destruct (Decode _) as [[hrp d]|]; [|done].
  destruct (ConvertBits d 5 8 false) as [b|] eqn:E; [|done].
  apply ConvertBits_exact in E as [Hb _]; [|lia..].
  destruct (Nat.ltb_spec AddressLen (length b)) as [|Hl]; [done|]. intros [= <-]. split.
  - rewrite length_copy_at; [done|]. unfold EmptyAddress, make_bytes. by rewrite length_replicate.
  - unfold copy_at. rewrite !wf_bytes_app. unfold wf_bytes. split_and!.
    + done.
    + by apply Forall_take.
    + apply Forall_drop. by apply (bool_decide_unpack _).
Qed.

(** The bech32 text of an address stands for it. *)
Lemma allocation_address_text hrp a :
  printable hrp -> hrp <> [] -> (length hrp <= 29)%nat -> wf_addr a ->
  exists s, EncodeFromBase256 hrp a = Ok s /\ allocation_address (string_of_bytes s) = Ok a.
Proof.
  intros Hp Hne Hl [Ha Hw].
  destruct (base256_roundtrip hrp a Hp Hne Hw) as (s & E & Hs & _ & groups & Ed & Ec).
  { rewrite Ha. unfold AddressLen. lia. }
  exists s. split; [done|]. unfold allocation_address. rewrite bytes_of_string_of_bytes, Ed, Ec, Ha by done.
  rewrite Nat.ltb_irrefl. f_equal. unfold copy_at, EmptyAddress, make_bytes.
  rewrite length_replicate, Nat.sub_0_r, Nat.add_0_l, Ha, drop_ge by (by rewrite length_replicate).
  rewrite (take_ge a) by lia. simpl. apply app_nil_r.
Qed.

Lemma funded_frame allocs : forall L a,
  a ∉ map ca_Address allocs -> balances (funded allocs L) !! a = balances L !! a.
Proof.
  induction allocs as [|alloc rest IH]; intros L a Ha; simpl; [done|].
  apply not_elem_of_cons in Ha as [Hne Ha]. rewrite IH by done. simpl. by rewrite lookup_insert_ne.
Qed.

Lemma funded_lookup allocs : forall L alloc,
  NoDup (map ca_Address allocs) -> alloc ∈ allocs ->
  balances (funded allocs L) !! ca_Address alloc = Some (ca_Balance alloc).
Proof.
  induction allocs as [|x rest IH]; intros L alloc Hnd Hin; [by apply not_elem_of_nil in Hin|].
  apply list.NoDup_cons in Hnd as [Hx Hnd]. apply elem_of_cons in Hin as [->|Hin]; simpl; [|by apply IH].
  rewrite funded_frame by done. simpl. apply lookup_insert_eq.
Qed.

Lemma total_allocated_nonneg allocs : Forall wf_allocation allocs -> 0 <= total_allocated allocs.
Proof. induction 1 as [|alloc rest [_ Hb] _ IH]; simpl; int_lia. Qed.

Lemma funded_money allocs : forall L,
  NoDup (map ca_Address allocs) -> (forall a, a ∈ map ca_Address allocs -> balances L !! a = None) ->
  sum_map (fun _ v => v) (balances (funded allocs L)) =
    sum_map (fun _ v => v) (balances L) + total_allocated allocs.
Proof.
  induction allocs as [|alloc rest IH]; intros L Hnd Hnone; simpl; [lia|].
  apply list.NoDup_cons in Hnd as [Hx Hnd]. rewrite IH; [|done|].
  - simpl. rewrite sum_map_insert_new by (apply Hnone; by left). lia.
  - intros a Hin. simpl. rewrite lookup_insert_ne by (by intros <-). apply Hnone. by right.
Qed.

Section refinement.
Context {S BH : Type} `{LawfulBalanceHandler BH S} `{Hashing}.
Variable (bh : BH).

Lemma allocate_refines allocs : forall (s : S) L,
  represents s L -> wf_ledger L ->
  let '(r, L') := ledger_allocate allocation_address allocs L in
  exists s', allocate bh allocs s = (r, s') /\ represents s' L' /\ wf_ledger L'.
Proof.
  induction allocs as [|alloc rest IH]; intros s L Hrep Hwf; simpl; [by eexists|].
  destruct (allocation_address (al_Address alloc)) as [a|e] eqn:Ea; [|by eexists].
  pose proof (allocation_address_wf _ _ Ea) as Ha.
  pose proof (law_add bh a (al_Balance alloc) s L Hrep Hwf Ha) as Hadd.
  destruct (ledger_add a (al_Balance alloc) L) as [[u|e] L'];
    destruct Hadd as (s1 & E1 & Hrep1 & Hwf1).
  - specialize (IH s1 L' Hrep1 Hwf1). destruct (ledger_allocate _ rest L') as [r L2].
    destruct IH as (s2 & E2 & Hrep2 & Hwf2). exists s2. split; [|done].
    erewrite run_bind_ok by done. by erewrite run_bind_ok by done.
  - exists s1. split; [|done]. erewrite run_bind_ok by done. by erewrite run_bind_err by done.
Qed.

Lemma default_allocate_refines allocs : forall supply (s : S) L,
  represents s L -> wf_ledger L -> Forall wf_allocation allocs -> is_u64 supply ->
  NoDup (map ca_Address allocs) -> (forall a, a ∈ map ca_Address allocs -> balances L !! a = None) ->
  if supply + total_allocated allocs <? two64
  then exists s', default_allocate bh supply allocs s = (Ok tt, s') /\
         represents s' (funded allocs L) /\ wf_ledger (funded allocs L)
  else exists s', default_allocate bh supply allocs s = (Err ErrOverflow, s').
Proof.
  induction allocs as [|alloc rest IH]; intros supply s L Hrep Hwf Hw Hsup Hnd Hnone.
  { simpl. rewrite (proj2 (Z.ltb_lt _ _)) by int_lia. by eexists. }
  inversion_clear Hw as [|? ? [Ha Hb] Hrest]. apply list.NoDup_cons in Hnd as [Hx Hnd].
  cbn [default_allocate total_allocated foldr funded foldl].
  fold (total_allocated rest). fold (funded rest).
  pose proof (total_allocated_nonneg rest Hrest) as Hnn.
  pose proof (safemath_Add_cases supply (ca_Balance alloc) Hb) as Hadd.
  destruct (Z.ltb_spec (supply + ca_Balance alloc) two64) as [Hlt|Hge].
  2: { rewrite (proj2 (Z.ltb_ge _ _)) by lia. exists s.
       apply run_bind_err. unfold lift. by rewrite Hadd. }
  erewrite run_bind_ok by (unfold lift; by rewrite Hadd).
  pose proof (law_add bh (ca_Address alloc) (ca_Balance alloc) s L Hrep Hwf Ha) as Hl.
  unfold ledger_add, ledger_balance in Hl. rewrite (Hnone (ca_Address alloc)) in Hl by (by left).
  cbn [counter] in Hl. rewrite Z.add_0_l, (u64_small _ Hb) in Hl. destruct Hl as (s1 & E1 & Hrep1 & Hwf1).
  erewrite run_bind_ok by (apply run_on_error_ok; exact E1).
  rewrite Z.add_assoc. apply IH; auto; [int_lia|].
  intros a Hin. simpl. rewrite lookup_insert_ne by (by intros <-). apply Hnone. by right.
Qed.
End refinement.

(** ** Allocations to distinct addresses *)

(** An allocation whose text is read as the address of [alloc]. *)
Definition names (alloc : Allocation) (c : CustomAllocation) : Prop :=
  allocation_address (al_Address alloc) = Ok (ca_Address c) /\ al_Balance alloc = ca_Balance c.

Lemma ledger_allocate_funded allocs cs : forall L,
  Forall2 names allocs cs -> Forall wf_allocation cs -> NoDup (map ca_Address cs) ->
  (forall a, a ∈ map ca_Address cs -> balances L !! a = None) ->
  ledger_allocate allocation_address allocs L = (Ok tt, funded cs L).
Proof.
  revert cs. induction allocs as [|alloc allocs IH]; intros cs L Hn Hw Hnd Hnone;
    inversion Hn as [|? c ? cs' [Ea Eb] Hn']; subst; [done|].
  inversion_clear Hw as [|? ? [_ Hb] Hw']. apply list.NoDup_cons in Hnd as [Hx Hnd].
  cbn [ledger_allocate funded foldl]. rewrite Ea, Eb. unfold ledger_add, ledger_balance.
  rewrite (Hnone (ca_Address c)) by (by left). cbn [counter]. rewrite Z.add_0_l, (u64_small _ Hb).
  apply IH; auto. intros a Hin. simpl. rewrite lookup_insert_ne by (by intros <-). apply Hnone. by right.
Qed.
