(* ===== verification/Strconv.v ===== *)
(** * Numbers and flags in text (strconv, hypersdk/fees/dimension.go)

    [strconv.ParseUint], [ParseInt] and [ParseBool] as the command line uses
    them, and [fees.ParseDimensions] over them.  [strconv.Quote], which only
    error texts need, is a class. *)

From S2P Require Import Prelude GoErrors Lib Rules.
#[local] Open Scope Z_scope.

Class Quoting := {
  Quote : string -> string;
  (** [fmt.Sprintf("%q", c)] of a byte. *)
  QuoteByte : Ascii.ascii -> string;
}.

Definition ErrSyntax : error := ErrVar "strconv.ErrSyntax" "invalid syntax".
Definition ErrRange : error := ErrVar "strconv.ErrRange" "value out of range".

(** ** Digits *)

(** [lower(c)]: the ASCII letter in lower case. *)
Definition lower (c : Z) : Z := Z.lor c 32.

Definition is_digit (c : Z) : bool := (48 <=? c) && (c <=? 57).

(** The value of a digit, whatever the base. *)
Definition digit (c : Z) : option Z :=
  if is_digit c then Some (c - 48)
  else if (97 <=? lower c) && (lower c <=? 122) then Some (lower c - 97 + 10)
  else None.

Definition maxUint64 : Z := two64 - 1.

Definition underscore : Z := 95.

(** ** underscoreOK *)

(** The last character seen. *)
Inductive seen := SawStart | SawDigit | SawUnderscore | SawOther.

Fixpoint underscore_scan (hex : bool) (saw : seen) (s : bytes) : bool :=
  match s with
  | [] => match saw with SawUnderscore => false | _ => true end
  | c :: rest =>
      if is_digit c || (hex && (97 <=? lower c) && (lower c <=? 102))
      then underscore_scan hex SawDigit rest
      else if c =? underscore
      then match saw with
           | SawDigit => underscore_scan hex SawUnderscore rest
           | _ => false
           end
      else match saw with
           | SawUnderscore => false
           | _ => underscore_scan hex SawOther rest
           end
  end.

Definition strip_sign (s : bytes) : bytes :=
  match s with
  | c :: rest => if (c =? 45) || (c =? 43) then rest else s
  | [] => []
  end.

Definition underscoreOK (s : bytes) : bool :=
  match strip_sign s with
  | 48 :: x :: rest =>
      if (lower x =? 98) || (lower x =? 111) || (lower x =? 120)
      then underscore_scan (lower x =? 120) SawDigit rest
      else underscore_scan false SawStart (48 :: x :: rest)
  | s => underscore_scan false SawStart s
  end.

(** ** ParseUint, ParseInt (64 bits) *)

Section parse.
Context `{Quoting}.

Definition NumError (func : string) (num : bytes) (err : error) : error :=
  ErrWrap ("strconv." +:+ func +:+ ": parsing " +:+ Quote (string_of_bytes num) +:+ ": " +:+ Error err) err.

(** The loop over the digits.  The number read so far, whether underscores
    were seen; on an error, the value returned beside it. *)
Fixpoint parse_digits (base0 : bool) (base : Z) (n : Z) (underscores : bool) (s : bytes)
  : (Z * bool) + (Z * error) :=
  match s with
  | [] => inl (n, underscores)
  | c :: rest =>
      if (c =? underscore) && base0 then parse_digits base0 base n true rest
      else match digit c with
      | None => inr (0, ErrSyntax)
      | Some d =>
          if base <=? d then inr (0, ErrSyntax)
          else if maxUint64 / base + 1 <=? n then inr (maxUint64, ErrRange)
          else
            let n := u64 (n * base) in
            let n1 := u64 (n + d) in
            if (n1 <? n) || (maxUint64 <? n1) then inr (maxUint64, ErrRange)
            else parse_digits base0 base n1 underscores rest
      end
  end.

(** The base and the digits, for base 0 by the prefix. *)
Definition base_prefix (s : bytes) : Z * bytes :=
  match s with
  | [] => (10, s)
  | c :: rest =>
      if c =? 48 then
        match rest with
        | x :: ((_ :: _) as digits) =>
            if lower x =? 98 then (2, digits)
            else if lower x =? 111 then (8, digits)
            else if lower x =? 120 then (16, digits)
            else (8, rest)
        | _ => (8, rest)
        end
      else (10, s)
  end.

(** The value, and the error if there is one: an out-of-range number still
    has a value. *)
Definition parse_uint (s : bytes) (base : Z) : Z * option error :=
  if decide (s = []) then (0, Some ErrSyntax)
  else
    let '(b, digits) := if base =? 0 then base_prefix s else (base, s) in
    match parse_digits (base =? 0) b 0 false digits with
    | inr (v, err) => (v, Some err)
    | inl (n, underscores) =>
        if underscores && negb (underscoreOK s) then (0, Some ErrSyntax) else (n, None)
    end.

Definition ParseUint (s : string) (base : Z) : Z * option error :=
  let b := bytes_of_string s in
  let '(v, err) := parse_uint b base in
  (v, NumError "ParseUint" b <$> err).

Definition ParseInt (s : string) (base : Z) : Z * option error :=
  let s0 := bytes_of_string s in
  match s0 with
  | [] => (0, Some (NumError "ParseInt" s0 ErrSyntax))
  | c :: rest =>
      let neg := c =? 45 in
      let '(un, err) := parse_uint (if (c =? 43) || neg then rest else s0) base in
      if decide (err = Some ErrSyntax) then (0, Some (NumError "ParseInt" s0 ErrSyntax))
      else if negb neg && (two63 <=? un) then (two63 - 1, Some (NumError "ParseInt" s0 ErrRange))
      else if neg && (two63 <? un) then (- two63, Some (NumError "ParseInt" s0 ErrRange))
      else
        let n := i64_of_u64 un in
        (if neg then i64_of_u64 (u64 (- n)) else n, None)
  end.

Definition ParseBool (s : string) : bool * option error :=
  if bool_decide (s ∈ ["1"; "t"; "T"; "true"; "TRUE"; "True"]) then (true, None)
  else if bool_decide (s ∈ ["0"; "f"; "F"; "false"; "FALSE"; "False"]) then (false, None)
  else (false, Some (NumError "ParseBool" (bytes_of_string s) ErrSyntax)).

(** ** fees.ParseDimensions *)

Definition ErrWrongDimensionSize : error := ErrVar "fees.ErrWrongDimensionSize" "wrong dimensions size".

Fixpoint parse_values (raw : list string) : result Dimensions :=
  match raw with
  | [] => Ok []
  | s :: rest =>
      match ParseUint s 10 with
      | (_, Some err) => Err err
      | (v, None) => d ← parse_values rest; Ok (v :: d)
      end
  end.

Definition ParseDimensions (raw : list string) : result Dimensions :=
  if decide (length raw <> FeeDimensions) then Err ErrWrongDimensionSize
  else parse_values raw.
End parse.

(** ** Decimal numbers *)

Definition dec_value (n : Z) (s : bytes) : Z := fold_left (fun n c => n * 10 + (c - 48)) s n.

Definition decimal (s : bytes) : Prop := s <> [] /\ Forall (fun c => is_digit c = true) s.

#[export] Instance decimal_dec s : Decision (decimal s).
Proof. unfold decimal. apply _. Defined.

Lemma is_digit_iff c : is_digit c = true <-> 48 <= c <= 57.
Proof. unfold is_digit. by rewrite andb_true_iff, !Z.leb_le. Qed.

Lemma dec_value_ge s : forall n,
  0 <= n -> Forall (fun c => is_digit c = true) s -> n <= dec_value n s.
Proof.
  induction s as [|c s IH]; intros n Hn; [simpl; lia|].
  intros [Hc%is_digit_iff Hs]%Forall_cons_iff.
  change (dec_value n (c :: s)) with (dec_value (n * 10 + (c - 48)) s).
  specialize (IH (n * 10 + (c - 48)) ltac:(lia) Hs). lia.
Qed.

Lemma digit_decimal c d : digit c = Some d -> d < 10 <-> is_digit c = true.
Proof.
  unfold digit. destruct (is_digit c) eqn:Hc.
  - intros [= <-]. apply is_digit_iff in Hc. split; [done|lia].
  - destruct ((97 <=? lower c) && (lower c <=? 122)) eqn:Hl; intros [= <-].
    apply andb_true_iff in Hl as [Hl%Z.leb_le _]. split; [lia|done].
Qed.

Lemma digit_of c : is_digit c = true -> digit c = Some (c - 48).
Proof. unfold digit. by intros ->. Qed.

(** One digit of the loop, in base 10. *)
Lemma parse_digits_step n c s : is_u64 n -> is_digit c = true ->
  parse_digits false 10 n false (c :: s) =
    if n * 10 + (c - 48) <? two64 then parse_digits false 10 (n * 10 + (c - 48)) false s
    else inr (maxUint64, ErrRange).
Proof.
  intros Hn Hc. cbn [parse_digits]. rewrite andb_false_r, (digit_of c Hc).
  apply is_digit_iff in Hc. change (maxUint64 / 10 + 1) with 1844674407370955162. unfold maxUint64, is_u64, two64 in *.
  destruct (Z.leb_spec 10 (c - 48)); [lia|].
  destruct (Z.leb_spec 1844674407370955162 n).
  { destruct (Z.ltb_spec (n * 10 + (c - 48)) 18446744073709551616); [lia|done]. }
  rewrite (u64_small (n * 10)) by (unfold is_u64, two64; lia).
  destruct (Z.ltb_spec (n * 10 + (c - 48)) 18446744073709551616) as [Hlt|Hge].
  - rewrite u64_small by (unfold is_u64, two64; lia).
    destruct (Z.ltb_spec (n * 10 + (c - 48)) (n * 10)); [lia|].
    destruct (Z.ltb_spec (18446744073709551616 - 1) (n * 10 + (c - 48))); [lia|done].
  - replace (u64 (n * 10 + (c - 48))) with (n * 10 + (c - 48) - 18446744073709551616).
    + destruct (Z.ltb_spec (n * 10 + (c - 48) - 18446744073709551616) (n * 10)); [done|lia].
    + unfold u64, two64.
      apply (Z.mod_unique_pos _ _ 1); lia.
Qed.

Lemma parse_digits_other n c s : is_digit c = false ->
  exists r, parse_digits false 10 n false (c :: s) = inr (r, ErrSyntax).
Proof.
  intros Hc. cbn [parse_digits]. rewrite andb_false_r.
  destruct (digit c) as [d|] eqn:E; [|by eexists].
  pose proof (digit_decimal c d E) as Hd. destruct (Z.leb_spec 10 d); [by eexists|].
  rewrite (proj1 Hd) in Hc by lia. done.
Qed.

Lemma parse_digits_decimal s : forall n v,
  is_u64 n ->
  parse_digits false 10 n false s = inl (v, false) <->
  Forall (fun c => is_digit c = true) s /\ v = dec_value n s /\ v < two64.
Proof.
  induction s as [|c s IH]; intros n v Hn.
  { simpl. unfold is_u64 in Hn. split; [intros [= <-]; repeat split; auto; lia|].
    by intros (_ & -> & _). }
  rewrite Forall_cons_iff.
  destruct (is_digit c) eqn:Hc.
  - rewrite parse_digits_step by done.
    change (dec_value n (c :: s)) with (dec_value (n * 10 + (c - 48)) s).
    assert (0 <= n * 10 + (c - 48)) by (apply is_digit_iff in Hc; unfold is_u64 in *; lia).
    destruct (Z.ltb_spec (n * 10 + (c - 48)) two64) as [Hlt|Hge].
    + rewrite IH by (unfold is_u64; lia). by split; [intros (? & ? & ?)|intros ((_ & ?) & ? & ?)].
    + split; [done|]. intros ((_ & Hs) & -> & Hv).
      pose proof (dec_value_ge s (n * 10 + (c - 48)) ltac:(lia) Hs). lia.
  - destruct (parse_digits_other n c s Hc) as [r ->]. split; [done|]. by intros [[? _] _].
Qed.

(** Base 10 never reports an underscore. *)
Lemma parse_digits_no_underscore s : forall n r,
  parse_digits false 10 n false s = inl r -> snd r = false.
Proof.
  induction s as [|c s IH]; intros n r; [by intros [= <-]|].
  cbn [parse_digits]. rewrite andb_false_r.
  repeat case_match; try done. apply IH.
Qed.

Lemma parse_uint_decimal s v :
  parse_uint s 10 = (v, None) <-> decimal s /\ v = dec_value 0 s /\ v < two64.
Proof.
  unfold parse_uint, decimal. destruct (decide (s = [])) as [->|Hs]; [by split; [|intros [[? _] _]]|].
  change (10 =? 0) with false. cbv iota beta.
  pose proof (parse_digits_decimal s 0) as H.
  destruct (parse_digits false 10 0 false s) as [[n u]|[r e]] eqn:E.
  - pose proof (parse_digits_no_underscore s 0 _ E) as Hu. simpl in Hu. subst u. simpl.
    specialize (H v ltac:(done)). split.
    + intros [= ->]. destruct (proj1 H eq_refl) as (? & ? & ?). auto.
    + intros ((_ & Hd) & Hv). apply (conj Hd), H in Hv. by injection Hv as ->.
  - specialize (H v ltac:(done)). split; [done|]. intros ((_ & Hd) & Hv). by discriminate (proj2 H (conj Hd Hv)).
Qed.

(** Printing a number and reading it back. *)
Lemma dec_value_app a b n : dec_value n (a ++ b) = dec_value (dec_value n a) b.
Proof. apply fold_left_app. Qed.

Lemma pretty_N_go_spec n : forall s,
  exists l, bytes_of_string (pretty_N_go n s) = l ++ bytes_of_string s /\
    Forall (fun c => is_digit c = true) l /\
    dec_value 0 l = Z.of_N n /\ (n <> 0%N -> exists c l', l = c :: l' /\ c <> 48) /\
    (n = 0%N -> l = []).
Proof.
  induction (N.lt_wf_0 n) as [n _ IH]; intros s.
  destruct (decide (n = 0%N)) as [->|Hn].
  { exists []. rewrite pretty_N_go_0. by repeat split. }
  rewrite pretty_N_go_step by lia.
  destruct (IH (n `div` 10)%N (N.div_lt n 10 ltac:(lia) ltac:(lia)) (String (pretty_N_char (n `mod` 10)) s))
    as (l & E & Hl & Hv & Hne & Hnil).
  pose proof (N.mod_lt n 10 ltac:(lia)) as Hm.
  assert (Hc : Z.of_N (Ascii.N_of_ascii (pretty_N_char (n `mod` 10))) = 48 + Z.of_N (n `mod` 10)).
  { revert Hm. generalize (n `mod` 10)%N. intros m Hm.
    assert (m = 0 \/ m = 1 \/ m = 2 \/ m = 3 \/ m = 4 \/ m = 5 \/ m = 6 \/ m = 7 \/ m = 8 \/ m = 9)%N by lia.
    destruct_or!; by subst. }
  assert (0 <= Z.of_N (n `mod` 10) < 10) as Hz by (split; [apply N2Z.is_nonneg|by apply N2Z.inj_lt in Hm]).
  exists (l ++ [48 + Z.of_N (n `mod` 10)]). repeat split.
  - rewrite E. cbn [bytes_of_string]. by rewrite Hc, <- app_assoc.
  - apply Forall_app. split; [done|]. constructor; [|done]. apply is_digit_iff. clear -Hz. lia.
  - rewrite dec_value_app, Hv. unfold dec_value. cbn [fold_left].
    rewrite (N.div_mod n 10) at 3 by lia. rewrite N2Z.inj_add, N2Z.inj_mul. lia.
  - intros _. destruct (decide (n `div` 10 = 0)%N) as [H0|H0].
    + assert (Z.of_N (n `mod` 10) = Z.of_N n) as ->.
      { f_equal. pose proof (N.div_mod n 10 ltac:(lia)) as Hd. rewrite H0 in Hd. clear -Hd. lia. }
      rewrite (Hnil H0). eexists _, _. split; [reflexivity|]. clear -Hn. lia.
    + destruct (Hne H0) as (c & l' & -> & Hc0). by exists c, (l' ++ [48 + Z.of_N (n `mod` 10)]).
  - done.
Qed.

(** The digits of a printed number; only 0 starts with a 0. *)
Lemma pretty_digits v : 0 <= v ->
  decimal (bytes_of_string (pretty v)) /\ dec_value 0 (bytes_of_string (pretty v)) = v /\
  (v <> 0 -> exists c l, bytes_of_string (pretty v) = c :: l /\ c <> 48).
Proof.
  intros Hv. assert (pretty v = pretty (Z.to_N v)) as -> by (by destruct v as [|p|p]).
  unfold pretty, pretty_N. case_decide as Hd.
  { simpl. split; [by apply (bool_decide_unpack _)|]. split; [simpl; lia|lia]. }
  destruct (pretty_N_go_spec (Z.to_N v) "") as (l & E & Hl & Hx & Hne & _).
  rewrite E. simpl. rewrite app_nil_r. destruct (Hne Hd) as (c & l' & -> & Hc).
  split; [by split|]. split; [lia|]. by exists c, l'.
Qed.

(** Base 0 reads such a number in base 10. *)
Lemma parse_digits_base0 s : forall b n u,
  Forall (fun c => is_digit c = true) s -> parse_digits true b n u s = parse_digits false b n u s.
Proof.
  induction s as [|c s IH]; intros b n u; [done|]. intros [Hc Hs]%Forall_cons_iff.
  cbn [parse_digits]. apply is_digit_iff in Hc. unfold underscore.
  destruct (Z.eqb_spec c 95); [lia|]. simpl. repeat (case_match; try done). by apply IH.
Qed.

Lemma parse_uint_base0 v : is_u64 v -> parse_uint (bytes_of_string (pretty v)) 0 = (v, None).
Proof.
  intros [H0 H1]. destruct (decide (v = 0)) as [->|Hne]; [reflexivity|].
  destruct (pretty_digits v H0) as ([Hd Hds] & Hv & Hc). destruct (Hc Hne) as (c & l & E & Hc48).
  pose proof (proj2 (parse_uint_decimal _ v) (conj (conj Hd Hds) (conj (eq_sym Hv) H1))) as Hp.
  rewrite E in *. unfold parse_uint in *. change (10 =? 0) with false in Hp. change (0 =? 0) with true.
  unfold base_prefix. destruct (Z.eqb_spec c 48); [done|].
  rewrite parse_digits_base0 by done.
  destruct (decide (c :: l = [])); [done|]. cbv iota beta in *.
  destruct (parse_digits false 10 0 false (c :: l)) as [[m u]|[m e]] eqn:Ep; [|done].
  apply parse_digits_no_underscore in Ep. simpl in Ep. subst u. simpl in *. by injection Hp as ->.
Qed.

(** What a decimal text of 64 bits reads as. *)
Definition reads_as (s : string) (v : Z) : Prop :=
  decimal (bytes_of_string s) /\ v = dec_value 0 (bytes_of_string s) /\ v < two64.

#[export] Instance reads_as_dec s v : Decision (reads_as s v).
Proof. unfold reads_as. apply _. Defined.

Lemma pretty_reads_as v : is_u64 v -> reads_as (pretty v) v.
Proof. intros [H0 H1]. destruct (pretty_digits v H0) as (Hd & Hv & _). split; [done|]. split; [by symmetry|done]. Qed.

Section exact.
Context `{Quoting}.

Lemma ParseUint_exact s v : ParseUint s 10 = (v, None) <-> reads_as s v.
Proof.
  unfold ParseUint, reads_as. rewrite <- parse_uint_decimal.
  destruct (parse_uint (bytes_of_string s) 10) as [w [e|]]; simpl; [done|].
  split; by intros [= ->].
Qed.

Lemma parse_values_exact raw : forall d,
  parse_values raw = Ok d <-> Forall2 reads_as raw d.
Proof.
  induction raw as [|s raw IH]; intros d; simpl.
  { split; [by intros [= <-]|]. by inversion 1. }
  pose proof (ParseUint_exact s) as Hs. destruct (ParseUint s 10) as [w [e|]].
  - split; [done|]. inversion_clear 1 as [|? ? ? ? Hv]. by apply (proj2 (Hs _)) in Hv.
  - specialize (proj1 (Hs w) eq_refl) as Hw. destruct (parse_values raw) as [d'|e]; simpl.
    + split; [intros [= <-]; constructor; [done|by apply IH]|].
      inversion_clear 1 as [|? ? ? ? Hv Ht]. apply (proj2 (Hs _)) in Hv. apply (proj2 (IH _)) in Ht. congruence.
    + split; [done|]. inversion_clear 1 as [|? ? ? ? _ Ht]. by apply (proj2 (IH _)) in Ht.
Qed.

(** A non-negative [int64] is read back, whatever the base rules. *)
Lemma ParseInt_pretty v : 0 <= v < two63 -> ParseInt (pretty v) 0 = (v, None).
Proof.
  intros Hv. assert (is_u64 v) as Hu by int_lia.
  unfold ParseInt. destruct (pretty_digits v ltac:(lia)) as ([Hne Hds] & _ & _).
  pose proof (parse_uint_base0 v Hu) as Hp.
  destruct (bytes_of_string (pretty v)) as [|c l] eqn:E; [done|].
  apply Forall_cons_iff in Hds as [Hc%is_digit_iff _].
  destruct (Z.eqb_spec c 45); [lia|]. destruct (Z.eqb_spec c 43); [lia|]. simpl. rewrite Hp.
  destruct (Z.leb_spec two63 v); [lia|]. simpl. unfold i64_of_u64.
  by destruct (Z.ltb_spec v two63); [|lia].
Qed.

(** [ParseDimensions] takes exactly five decimal numbers of 64 bits. *)
Lemma ParseDimensions_exact raw d :
  ParseDimensions raw = Ok d <-> length raw = FeeDimensions /\ Forall2 reads_as raw d.
Proof.
  unfold ParseDimensions. rewrite <- parse_values_exact. case_decide as Hl.
  - split; [done|]. by intros [].
  - split; [auto|by intros [_ ?]].
Qed.

Lemma ParseDimensions_pretty d : length d = FeeDimensions -> Forall is_u64 d ->
  ParseDimensions (map pretty d) = Ok d.
Proof.
  intros Hl Hd. apply ParseDimensions_exact. rewrite length_map. split; [done|].
  clear Hl. induction Hd as [|v d Hv _ IH]; constructor; auto using pretty_reads_as.
Qed.
End exact.

(** Quoting nothing, to evaluate examples. *)
Definition plain_quote : Quoting := {| Quote s := s; QuoteByte c := String c EmptyString |}.

(** The integers a flag takes, evaluated. *)
Section examples.
#[local] Existing Instance plain_quote.

Example parse_int_examples :
  map (fun s => fst (ParseInt s 0)) ["0"; "-1"; "100"; "0x10"; "010"; "0b101"; "1_000"; "9223372036854775808"; "-9223372036854775808"; "-9223372036854775809"]
  = [0; -1; 100; 16; 8; 5; 1000; 9223372036854775807; -9223372036854775808; -9223372036854775808]%Z.
Proof. vm_compute. reflexivity. Qed.

Example parse_int_errors :
  map (fun s => Error <$> snd (ParseInt s 0)) [""; "x"; "1__0"; "_1"; "09"; "9223372036854775808"; "-"]
  = [Some "strconv.ParseInt: parsing : invalid syntax"; Some "strconv.ParseInt: parsing x: invalid syntax";
     Some "strconv.ParseInt: parsing 1__0: invalid syntax"; Some "strconv.ParseInt: parsing _1: invalid syntax";
     Some "strconv.ParseInt: parsing 09: invalid syntax";
     Some "strconv.ParseInt: parsing 9223372036854775808: value out of range";
     Some "strconv.ParseInt: parsing -: invalid syntax"].
Proof. vm_compute. reflexivity. Qed.
End examples.
