(* ===== verification/Canoto.v ===== *)
(** * canoto (StephenButtolph/canoto, with encoding/binary)

    The primitives of the wire format transactions are serialized in:
    varints, zigzag and fixed integers, length-prefixed bytes, tags, and the
    loop over the fields of a message.  The format is canonical: every reader
    here accepts exactly the bytes its writer makes ([exact_reader]). *)

From S2P Require Import Prelude GoErrors.
#[local] Open Scope Z_scope.

Definition ErrInvalidFieldOrder : error := ErrVar "canoto.ErrInvalidFieldOrder" "invalid field order".
Definition ErrUnexpectedWireType : error := ErrVar "canoto.ErrUnexpectedWireType" "unexpected wire type".
Definition ErrInvalidLength : error := ErrVar "canoto.ErrInvalidLength" "decoded length is invalid".
Definition ErrZeroValue : error := ErrVar "canoto.ErrZeroValue" "zero value".
Definition ErrUnknownField : error := ErrVar "canoto.ErrUnknownField" "unknown field".
Definition ErrPaddedZeroes : error := ErrVar "canoto.ErrPaddedZeroes" "padded zeroes".
Definition canoto_ErrOverflow : error := ErrVar "canoto.ErrOverflow" "overflow".
Definition ErrInvalidWireType : error := ErrVar "canoto.ErrInvalidWireType" "invalid wire type".
Definition io_ErrUnexpectedEOF : error := ErrVar "io.ErrUnexpectedEOF" "unexpected EOF".
(** Never the result: the loops are given the length of their input. *)
Definition ErrFuel : error := ErrFresh "out of fuel".

(** ** encoding/binary *)

Definition MaxVarintLen64 : Z := 10.

(** The value and the number of bytes read: 0 when the buffer ends too soon,
    negative when the value does not fit. *)
Fixpoint Uvarint_loop (i x s : Z) (buf : bytes) : Z * Z :=
  match buf with
  | [] => (0, 0)
  | b :: buf =>
      if i =? MaxVarintLen64 then (0, - (i + 1))
      else if b <? 128 then
        if (i =? MaxVarintLen64 - 1) && (1 <? b) then (0, - (i + 1))
        else (Z.lor x (u64 (Z.shiftl b s)), i + 1)
      else Uvarint_loop (i + 1) (Z.lor x (u64 (Z.shiftl (Z.land b 127) s))) (s + 7) buf
  end.

Definition Uvarint (buf : bytes) : Z * Z := Uvarint_loop 0 0 0 buf.

(** Nine shifts leave nothing above the seventh bit of a [uint64]. *)
Fixpoint AppendUvarint_loop (fuel : nat) (x : Z) : bytes :=
  match fuel with
  | S fuel => if 128 <=? x then Z.lor (Z.land x 255) 128 :: AppendUvarint_loop fuel (Z.shiftr x 7)
              else [Z.land x 255]
  | O => [Z.land x 255]
  end.

Definition AppendUvarint (x : Z) : bytes := AppendUvarint_loop 9 x.

Definition le_PutUint64 (x : Z) : bytes := rev (be_put 8 x).
Definition le_Uint64 (b : bytes) : Z := be_get (rev (take 8 b)).

(** ** Readers

    A reader consumes a slice ([Reader.B]); what it allocates and shares does
    not matter, as nothing writes into the slice.  [AppendX] gives the bytes
    that are appended. *)

(** The bound is that of the type of the value. *)
Definition ReadUint (top : Z) : GoM bytes Z := fun B =>
  let '(val, bytesRead) := Uvarint B in
  if bytesRead =? 0 then (Err io_ErrUnexpectedEOF, B)
  else if (bytesRead <? 0) || negb (val mod top =? val) then (Err canoto_ErrOverflow, B)
  else if (1 <? bytesRead) && (nth (Z.to_nat (bytesRead - 1)) B 0 =? 0) then (Err ErrPaddedZeroes, B)
  else (Ok (val mod top), drop (Z.to_nat bytesRead) B).

Definition two32 : Z := 4294967296.

(** [bits.Len64]. *)
Definition Len64 (x : Z) : Z := if x =? 0 then 0 else Z.log2 x + 1.

Definition SizeUint (v : Z) : Z := if v =? 0 then 1 else (Len64 v + 6) / 7.

(** Wire types. *)
Definition Varint : Z := 0.
Definition I64 : Z := 1.
Definition Len : Z := 2.
Definition I32 : Z := 5.

Definition WireType_IsValid (w : Z) : bool := bool_decide (w ∈ [Varint; I64; Len; I32]).

Definition Tag (fieldNumber wireType : Z) : bytes :=
  AppendUvarint (Z.lor (Z.shiftl fieldNumber 3) wireType).

Definition ReadTag : GoM bytes (Z * Z) :=
  val ← ReadUint two32;
  let wireType := Z.land val 7 in
  fail_if (negb (WireType_IsValid wireType)) ErrInvalidWireType;;
  mret (Z.shiftr val 3, wireType).

(** For [int64]. *)
Definition AppendInt (v : Z) : bytes :=
  AppendUvarint (if 0 <=? v then u64 (Z.shiftl (u64 v) 1)
                 else Z.lor (u64 (Z.shiftl (u64 (Z.lnot (u64 v))) 1)) 1).

Definition SizeInt (v : Z) : Z :=
  if v =? 0 then 1
  else let uv := if 0 <? v then u64 (Z.shiftl (u64 v) 1)
                 else Z.lor (u64 (Z.shiftl (u64 (Z.lnot (u64 v))) 1)) 1 in
       (Len64 uv + 6) / 7.

Definition ReadInt : GoM bytes Z :=
  largeVal ← ReadUint two64;
  let uVal := Z.shiftr largeVal 1 in
  let val := i64_of_u64 uVal in
  fail_if (negb (u64 val =? uVal)) canoto_ErrOverflow;;
  mret (if Z.land largeVal 1 =? 0 then val else Z.lnot val).

Definition SizeFint64 : Z := 8.

Definition ReadFint64 : GoM bytes Z := fun B =>
  if Z.of_nat (length B) <? SizeFint64 then (Err io_ErrUnexpectedEOF, B)
  else (Ok (le_Uint64 B), drop 8 B).

Definition AppendBytes (v : bytes) : bytes := AppendUvarint (Z.of_nat (length v)) ++ v.

Definition SizeBytes (v : bytes) : Z :=
  let length := Z.of_nat (length v) in SizeUint length + length.

Definition TakeBytes (length' : Z) : GoM bytes bytes := fun B =>
  if Z.of_nat (length B) <? length' then (Err io_ErrUnexpectedEOF, B)
  else (Ok (take (Z.to_nat length') B), drop (Z.to_nat length') B).

Definition ReadBytes : GoM bytes bytes :=
  length' ← ReadUint two64;
  TakeBytes length'.

Definition bytes_HasPrefix (B prefix : bytes) : bool :=
  (length prefix <=? length B)%nat && bool_decide (take (length prefix) B = prefix).

(** How many entries with the tag follow each other; each takes a byte at
    least. *)
Fixpoint CountBytes_loop (fuel : nat) (tag B : bytes) : result nat :=
  if bytes_HasPrefix B tag then
    match fuel with
    | O => Err ErrFuel
    | S fuel =>
        match ReadBytes (drop (length tag) B) with
        | (Err err, _) => Err err
        | (Ok _, B) =>
            count ← CountBytes_loop fuel tag B;
            Ok (S count)
        end
    end
  else Ok O.

Definition CountBytes (B tag : bytes) : result nat := CountBytes_loop (length B) tag B.

(** Entries that follow the first one, each behind the tag. *)
Fixpoint ReadEntries (n : nat) (tag : bytes) : GoM bytes (list bytes) :=
  match n with
  | O => mret []
  | S n => fun B =>
      (v ← ReadBytes; rest ← ReadEntries n tag; mret (v :: rest)) (drop (length tag) B)
  end.

(** The generated code for a repeated field of bytes, the tag of the first
    entry being read: the entries are counted, then read. *)
Definition ReadRepeatedBytes (tag : bytes) : GoM bytes (list bytes) := fun B =>
  match ReadBytes B with
  | (Err err, _) => (Err err, B)
  | (Ok _, B') =>
      match CountBytes B' tag with
      | Err err => (Err err, B)
      | Ok countMinus1 =>
          (v ← ReadBytes; rest ← ReadEntries countMinus1 tag; mret (v :: rest)) B
      end
  end.

(** The loop of a generated [UnmarshalCanotoFrom] over the fields of a message
    [c]; [read_field] is its switch. *)
Section fields.
Context {C : Type}.
Variable (read_field : Z -> Z -> C -> GoM bytes C).

Fixpoint read_fields (fuel : nat) (minField : Z) (c : C) : GoM bytes C := fun B =>
  match B, fuel with
  | [], _ => (Ok c, B)
  | _, O => (Err ErrFuel, B)
  | _, S fuel =>
      ('(field, wireType) ← ReadTag;
       fail_if (field <? minField) ErrInvalidFieldOrder;;
       c ← read_field field wireType c;
       read_fields fuel (field + 1) c) B
  end.
End fields.

(** ** Exact readers *)

(** The reader accepts what the writer makes of a good value, whatever comes
    after, and nothing else. *)
Record exact_reader {A} (read : GoM bytes A) (write : A -> bytes) (good : A -> Prop) : Prop := {
  reader_complete a rest : good a -> read (write a ++ rest) = (Ok a, rest);
  reader_sound B a rest : wf_bytes B -> read B = (Ok a, rest) ->
    B = write a ++ rest /\ good a /\ wf_bytes rest;
}.

(** *** Varints *)

(** The canonical varints of a number. *)
Inductive varint : Z -> bytes -> Prop :=
| varint_last v : 0 <= v < 128 -> varint v [v]
| varint_more v b : 128 <= v -> varint (v / 128) b -> varint v (v mod 128 + 128 :: b).

Lemma varint_det v b1 b2 : varint v b1 -> varint v b2 -> b1 = b2.
Proof.
  intros H1. revert b2. induction H1 as [v Hv|v b Hv _ IH]; intros b2 H2; inversion H2; subst; first [lia|done|f_equal; auto].
Qed.

Lemma varint_nonneg v b : varint v b -> 0 <= v.
Proof. destruct 1; lia. Qed.

Lemma varint_wf v b : varint v b -> wf_bytes b /\ b <> [].
Proof.
  induction 1 as [v Hv|v b Hv _ [IH _]]; split; try done; apply wf_bytes_cons; (split; [|done || by constructor]); unfold is_u8.
  - lia.
  - pose proof (Z.mod_pos_bound v 128). lia.
Qed.

(** Only 0 ends in a 0 byte. *)
Lemma varint_end v b : varint v b -> v <> 0 -> List.last b 0 <> 0.
Proof.
  induction 1 as [v Hv|v b Hv Hb IH]; [done|]. intros _. destruct (varint_wf _ _ Hb) as [_ Hne].
  destruct b; [done|]. apply IH. pose proof (Z.div_le_lower_bound v 128 1). lia.
Qed.

Lemma varint_AppendUvarint_loop fuel : forall v,
  0 <= v < 2 ^ (7 * Z.of_nat (S fuel)) -> varint v (AppendUvarint_loop fuel v).
Proof.
  induction fuel as [|fuel IH]; intros v Hv; cbn [AppendUvarint_loop].
  { change (2 ^ _) with 128 in Hv. rewrite land_255, Z.mod_small by lia. by constructor. }
  destruct (Z.leb_spec 128 v) as [Hbig|Hsmall]; [|rewrite land_255, Z.mod_small by lia; constructor; lia].
  rewrite Z.shiftr_div_pow2 by lia. change (2 ^ 7) with 128.
  assert (Z.lor (Z.land v 255) 128 = v mod 128 + 128) as ->.
  { assert (Z.lor (Z.land v 255) 128 = Z.lor (Z.shiftl 1 7) (Z.land v 127)) as ->.
    { apply Z.bits_inj'. intros n Hn. rewrite !Z.lor_spec, !Z.land_spec.
      change 255 with (Z.ones 8). change 127 with (Z.ones 7). change 128 with (Z.shiftl 1 7).
      rewrite !Z.testbit_ones_nonneg by lia. rewrite Z.shiftl_spec by lia.
      destruct (Z.eq_dec n 7) as [->|]; [by rewrite !orb_true_r|].
      assert (Z.testbit 1 (n - 7) = false) as ->.
      { destruct (Z.ltb_spec n 7); [apply Z.testbit_neg_r; lia|]. apply Z.bits_above_log2; cbn; lia. }
      rewrite orb_false_r. simpl. f_equal. destruct (Z.ltb_spec n 8), (Z.ltb_spec n 7); lia. }
    change 127 with (Z.ones 7). rewrite Z.land_ones by lia.
    rewrite lor_shiftl_add by (lia || (apply Z.mod_pos_bound; lia)).
    change (2 ^ 7) with 128. lia. }
  constructor; [done|]. apply IH. split; [by apply Z.div_pos; lia|].
  apply Z.div_lt_upper_bound; [lia|]. destruct Hv as [_ Hv].
  replace (7 * Z.of_nat (S (S fuel))) with (7 + 7 * Z.of_nat (S fuel)) in Hv by lia.
  rewrite Z.pow_add_r in Hv by lia. exact Hv.
Qed.

Lemma varint_AppendUvarint v : is_u64 v -> varint v (AppendUvarint v).
Proof.
  intros Hv. apply varint_AppendUvarint_loop. unfold is_u64, two64 in Hv.
  change (2 ^ _) with 1180591620717411303424. lia.
Qed.

Lemma shiftl_byte_u64 c i : 0 <= i -> 0 <= c -> c * 2 ^ (7 * i) < two64 ->
  u64 (Z.shiftl c (7 * i)) = c * 2 ^ (7 * i).
Proof.
  intros Hi Hc Hlt. rewrite Z.shiftl_mul_pow2 by lia. apply u64_small. split; [|done].
  apply Z.mul_nonneg_nonneg; [done|]. apply Z.pow_nonneg. lia.
Qed.

Lemma lor_above x c i : 0 <= i -> 0 <= x < 2 ^ (7 * i) -> Z.lor x (c * 2 ^ (7 * i)) = x + c * 2 ^ (7 * i).
Proof.
  intros Hi Hx. rewrite Z.lor_comm, <- Z.shiftl_mul_pow2, lor_shiftl_add, Z.shiftl_mul_pow2 by lia. lia.
Qed.

Lemma pow2_64 i : 0 <= i <= 9 -> 2 ^ (7 * i) * 2 ^ (64 - 7 * i) = two64.
Proof. intros Hi. rewrite <- Z.pow_add_r by lia. by replace (7 * i + (64 - 7 * i)) with 64 by lia. Qed.

(** The low seven bits that are added to an accumulator. *)
Lemma acc_bound x c i : 0 <= i -> 0 <= x < 2 ^ (7 * i) -> 0 <= c < 128 ->
  0 <= x + c * 2 ^ (7 * i) < 2 ^ (7 * (i + 1)).
Proof.
  intros Hi Hx Hc. replace (7 * (i + 1)) with (7 + 7 * i) by lia. rewrite Z.pow_add_r by lia.
  change (2 ^ 7) with 128. nia.
Qed.

Lemma Uvarint_loop_complete v b : varint v b -> forall i x rest,
  0 <= i <= 9 -> 0 <= x < 2 ^ (7 * i) -> v < 2 ^ (64 - 7 * i) ->
  Uvarint_loop i x (7 * i) (b ++ rest) = (x + v * 2 ^ (7 * i), i + Z.of_nat (length b)).
Proof.
  induction 1 as [v Hv|v b Hv Hb IH]; intros i x rest Hi Hx Hlt; pose proof (pow2_64 i Hi) as H64;
    assert (0 < 2 ^ (7 * i)) as Hpos by (apply Z.pow_pos_nonneg; lia);
    cbn [Uvarint_loop app]; unfold MaxVarintLen64; rewrite (proj2 (Z.eqb_neq i 10)) by lia.
  - rewrite (proj2 (Z.ltb_lt v 128)) by lia.
    assert ((i =? 10 - 1) && (1 <? v) = false) as ->.
    { destruct (Z.eqb_spec i (10 - 1)) as [->|]; [|done]. change (2 ^ _) with 2 in Hlt. apply Z.ltb_ge. lia. }
    rewrite shiftl_byte_u64, lor_above by (done || lia || nia). done.
  - rewrite (proj2 (Z.ltb_ge _ 128)) by (pose proof (Z.mod_pos_bound v 128); lia).
    assert (Z.land (v mod 128 + 128) 127 = v mod 128) as ->.
    { change 127 with (Z.ones 7). rewrite Z.land_ones by lia. change (2 ^ 7) with 128.
      rewrite <- (Z.mul_1_l 128) at 2. rewrite Z.mod_add, Z.mod_mod by lia. done. }
    pose proof (Z.mod_pos_bound v 128 ltac:(lia)) as Hm.
    assert (i < 9) as Hi9.
    { destruct (Z.eq_dec i 9) as [->|]; [|lia]. change (2 ^ _) with 2 in Hlt. lia. }
    assert (2 ^ (64 - 7 * i) = 128 * 2 ^ (64 - 7 * (i + 1))) as Hp.
    { replace (64 - 7 * i) with (7 + (64 - 7 * (i + 1))) by lia. by rewrite Z.pow_add_r by lia. }
    rewrite shiftl_byte_u64, lor_above by (done || lia || nia).
    replace (7 * i + 7) with (7 * (i + 1)) by lia. rewrite IH.
    + f_equal; [|cbn [length]; lia]. replace (7 * (i + 1)) with (7 + 7 * i) by lia. rewrite Z.pow_add_r by lia.
      change (2 ^ 7) with 128. pose proof (Z.div_mod v 128 ltac:(lia)). nia.
    + lia.
    + by apply acc_bound; [lia|..].
    + apply Z.div_lt_upper_bound; lia.
Qed.

(** What the loop read, unpadded or not. *)
Lemma Uvarint_loop_sound B : forall i x val n,
  wf_bytes B -> 0 <= i <= 10 -> 0 <= x < 2 ^ (7 * i) ->
  Uvarint_loop i x (7 * i) B = (val, n) -> 0 < n ->
  exists b rest v, B = b ++ rest /\ b <> [] /\ n = i + Z.of_nat (length b) /\
    val = x + v * 2 ^ (7 * i) /\ 0 <= v < 2 ^ (64 - 7 * i) /\
    (length b = 1%nat \/ List.last b 0 <> 0 -> varint v b).
Proof.
  induction B as [|c B IH]; intros i x val n Hw Hi Hx; cbn [Uvarint_loop]; [intros [= <- <-]; lia|].
  apply wf_bytes_cons in Hw as [Hc Hw]. unfold MaxVarintLen64.
  destruct (Z.eqb_spec i 10) as [->|Hi10]; [intros [= <- <-]; lia|].
  assert (0 < 2 ^ (7 * i)) as Hpos by (apply Z.pow_pos_nonneg; lia).
  destruct (Z.ltb_spec c 128) as [Hs|Hb].
  - destruct (Z.eqb_spec i (10 - 1)) as [->|Hi9]; cbn [andb].
    + destruct (Z.ltb_spec 1 c); intros [= <- <-] Hn; [lia|]. exists [c], B, c.
      rewrite shiftl_byte_u64, lor_above by (unfold is_u8, two64 in *; lia).
      split_and!; try done; try (unfold is_u8 in *; lia). intros _. constructor. unfold is_u8 in Hc. lia.
    + intros [= <- <-] Hn.
      assert (0 <= i <= 9) as Hi' by lia. pose proof (pow2_64 i Hi') as H64.
      assert (2 ^ 8 <= 2 ^ (64 - 7 * i)) as Hle by (apply Z.pow_le_mono_r; lia). change (2 ^ 8) with 256 in Hle.
      exists [c], B, c. unfold is_u8 in Hc. rewrite shiftl_byte_u64, lor_above by (lia || nia).
      split_and!; try done; try lia. intros _. apply varint_last. lia.
  - destruct (Z.eq_dec i 9) as [->|Hi9].
    { destruct B; cbn [Uvarint_loop]; intros [= <- <-]; unfold MaxVarintLen64; lia. }
    assert (0 <= i <= 9) as Hi' by lia. pose proof (pow2_64 i Hi') as H64.
    assert (2 ^ (64 - 7 * i) = 128 * 2 ^ (64 - 7 * (i + 1))) as Hp.
    { replace (64 - 7 * i) with (7 + (64 - 7 * (i + 1))) by lia. by rewrite Z.pow_add_r by lia. }
    assert (0 < 2 ^ (64 - 7 * (i + 1))) as Hpos' by (apply Z.pow_pos_nonneg; lia).
    assert (Z.land c 127 = c - 128) as ->.
    { change 127 with (Z.ones 7). rewrite Z.land_ones by lia. change (2 ^ 7) with 128.
      replace c with (c - 128 + 1 * 128) at 1 by lia. rewrite Z.mod_add by lia. unfold is_u8 in Hc. apply Z.mod_small. lia. }
    unfold is_u8 in Hc. rewrite shiftl_byte_u64, lor_above by (lia || nia).
    replace (7 * i + 7) with (7 * (i + 1)) by lia. intros E Hn.
    apply IH in E as (b & rest & v & -> & Hne & -> & -> & Hv & Hcan); [|done|lia|apply acc_bound; lia|done].
    exists (c :: b), rest, (c - 128 + v * 128). split_and!; [done..| | |lia|nia|].
    + cbn [length]. lia.
    + replace (7 * (i + 1)) with (7 + 7 * i) by lia. rewrite Z.pow_add_r by lia. change (2 ^ 7) with 128. ring.
    + intros [Hl|Hl]; [by destruct b|]. assert (List.last b 0 <> 0) as Hl' by (by destruct b).
      pose proof (Hcan (or_intror Hl')) as Hvar.
      assert (v <> 0) as Hv0.
      { intros ->. inversion Hvar; subst; [done|lia]. }
      replace c with ((c - 128 + v * 128) mod 128 + 128) at 2 by (rewrite Z.mod_add by lia; rewrite Z.mod_small by lia; lia).
      apply varint_more; [lia|]. rewrite Z.div_add by lia. rewrite Z.div_small by lia. done.
Qed.

Lemma last_nth (b rest : bytes) : b <> [] -> nth (length b - 1) (b ++ rest) 0 = List.last b 0.
Proof.
  induction b as [|x b IH]; [done|]. intros _. destruct b as [|y b]; [done|].
  cbn [length]. replace (S (S (length b)) - 1)%nat with (S (length (y :: b) - 1)) by (cbn [length]; lia).
  cbn [app nth]. by apply IH.
Qed.

Lemma ReadUint_exact top : 0 < top <= two64 ->
  exact_reader (ReadUint top) AppendUvarint (fun v => 0 <= v < top).
Proof.
  intros Ht. split.
  - intros v rest Hv. assert (is_u64 v) as Hu by (unfold is_u64; lia).
    pose proof (varint_AppendUvarint v Hu) as Hvar. set (b := AppendUvarint v) in *. clearbody b.
    unfold ReadUint, Uvarint. change (Uvarint_loop 0 0 0 (b ++ rest)) with (Uvarint_loop 0 0 (7 * 0) (b ++ rest)).
    rewrite (Uvarint_loop_complete v b Hvar 0 0 rest) by (try lia; unfold is_u64, two64 in Hu; lia).
    destruct (varint_wf _ _ Hvar) as [_ Hne]. assert (0 < length b)%nat as Hl by (destruct b; [done|cbn; lia]).
    change (2 ^ (7 * 0)) with 1. rewrite Z.mul_1_r, !Z.add_0_l.
    rewrite (proj2 (Z.eqb_neq _ 0)), (proj2 (Z.ltb_ge _ 0)), Z.mod_small, Z.eqb_refl by lia. cbn [negb orb].
    rewrite Nat2Z.id, drop_app_length.
    destruct (Z.ltb_spec 1 (Z.of_nat (length b))) as [Hl1|]; [|done]. cbn [andb].
    replace (Z.to_nat (Z.of_nat (length b) - 1)) with (length b - 1)%nat by lia.
    rewrite last_nth by done. rewrite (proj2 (Z.eqb_neq _ 0)); [done|].
    apply (varint_end _ _ Hvar). intros ->.
    inversion Hvar; subst; [cbn in Hl1|]; lia.
  - intros B v rest Hw. unfold ReadUint, Uvarint.
    change (Uvarint_loop 0 0 0 B) with (Uvarint_loop 0 0 (7 * 0) B).
    destruct (Uvarint_loop 0 0 (7 * 0) B) as [val n] eqn:E.
    destruct (Z.eqb_spec n 0); [done|]. destruct (Z.ltb_spec n 0); [done|]. cbn [orb].
    destruct (Z.eqb_spec (val mod top) val) as [Hval|]; [|done]. cbn [negb].
    destruct ((1 <? n) && (nth (Z.to_nat (n - 1)) B 0 =? 0)) eqn:Ez; [done|]. intros [= <- <-].
    apply (Uvarint_loop_sound B 0 0) in E as (b & rest & v & -> & Hne & -> & -> & Hv & Hcan); [|done|lia|done|lia].
    apply wf_bytes_app in Hw as [Hwb Hwr]. change (2 ^ (7 * 0)) with 1 in *. rewrite Z.mul_1_r, !Z.add_0_l in *.
    rewrite Hval, Nat2Z.id, drop_app_length. pose proof (Z.mod_pos_bound v top ltac:(lia)).
    split_and!; [|lia|lia|done]. f_equal. symmetry. apply (varint_det v).
    + apply varint_AppendUvarint. split; lia.
    + apply Hcan. destruct (Nat.eq_dec (length b) 1%nat) as [|Hl]; [by left|right].
      assert (0 < length b)%nat by (destruct b; [done|cbn; lia]).
      rewrite (proj2 (Z.ltb_lt 1 _)) in Ez by lia. cbn [andb] in Ez. apply Z.eqb_neq in Ez.
      replace (Z.to_nat (Z.of_nat (length b) - 1)) with (length b - 1)%nat in Ez by lia.
      by rewrite last_nth in Ez.
Qed.

(** *** Sizes *)

Lemma varint_size v b : varint v b -> Z.of_nat (length b) = SizeUint v.
Proof.
  induction 1 as [v Hv|v b Hv Hb IH]; unfold SizeUint, Len64 in *; cbn [length].
  - destruct (Z.eqb_spec v 0); [done|].
    assert (0 <= Z.log2 v < 7) by (split; [apply Z.log2_nonneg|apply Z.log2_lt_pow2; cbn; lia]).
    apply (Z.div_unique_pos _ _ 1 (Z.log2 v)); lia.
  - assert (1 <= v / 128) as Hd by (apply Z.div_le_lower_bound; lia).
    rewrite !(proj2 (Z.eqb_neq _ 0)) in * by lia. rewrite Nat2Z.inj_succ, IH.
    assert (Z.log2 v = 7 + Z.log2 (v / 128)) as ->.
    { pose proof (Z.log2_shiftr v 7 ltac:(lia)) as Hl. rewrite Z.shiftr_div_pow2 in Hl by lia.
      change (2 ^ 7) with 128 in Hl. pose proof (Z.log2_nonneg v). pose proof (Z.log2_le_mono 128 v Hv).
      change (Z.log2 128) with 7 in *. lia. }
    replace (7 + Z.log2 (v / 128) + 1 + 6) with (Z.log2 (v / 128) + 1 + 6 + 1 * 7) by lia.
    rewrite Z.div_add by lia. lia.
Qed.

Lemma length_AppendUvarint v : is_u64 v -> Z.of_nat (length (AppendUvarint v)) = SizeUint v.
Proof. intros Hv. by apply varint_size, varint_AppendUvarint. Qed.

Lemma AppendUvarint_wf v : is_u64 v -> wf_bytes (AppendUvarint v) /\ AppendUvarint v <> [].
Proof. intros Hv. by eapply varint_wf, varint_AppendUvarint. Qed.

Lemma SizeUint_bounds v : is_u64 v -> 1 <= SizeUint v <= 10.
Proof.
  intros [H0 H1]. unfold SizeUint, Len64. destruct (Z.eqb_spec v 0); [lia|].
  pose proof (Z.log2_nonneg v). assert (Z.log2 v < 64) by (apply Z.log2_lt_pow2; [lia|exact H1]).
  split; [apply Z.div_le_lower_bound; lia|]. apply Z.lt_succ_r, Z.div_lt_upper_bound; lia.
Qed.

(** *** Tags and fixed integers *)

Definition good_tag (t : Z * Z) : Prop := 0 <= t.1 < 2 ^ 29 /\ WireType_IsValid t.2 = true.

Lemma WireType_cases w : WireType_IsValid w = true <-> w = 0 \/ w = 1 \/ w = 2 \/ w = 5.
Proof.
  unfold WireType_IsValid, Varint, I64, Len, I32. rewrite bool_decide_eq_true, !elem_of_cons, elem_of_nil. tauto.
Qed.

Lemma tag_value field w : 0 <= w < 8 -> Z.lor (Z.shiftl field 3) w = field * 8 + w.
Proof. intros Hw. by rewrite lor_shiftl_add by lia. Qed.

Lemma land_7 z : Z.land z 7 = z mod 8.
Proof. change 7 with (Z.ones 3). by rewrite Z.land_ones by lia. Qed.

Lemma ReadTag_exact : exact_reader ReadTag (fun t => Tag t.1 t.2) good_tag.
Proof.
  assert (0 < two32 <= two64) as H32 by (unfold two32, two64; lia).
  split.
  - intros [field w] rest [Hf Hw]. cbn [fst snd] in *. unfold ReadTag, Tag, mbind, GoM_bind.
    assert (0 <= w < 8) as Hw8 by (apply WireType_cases in Hw; lia). rewrite tag_value by done.
    rewrite (reader_complete _ _ _ (ReadUint_exact two32 H32)) by (unfold two32; lia).
    rewrite land_7, Z.shiftr_div_pow2 by lia. change (2 ^ 3) with 8.
    rewrite Z.add_comm, Z.mod_add, Z.div_add, Z.mod_small, Z.div_small, Hw by lia. done.
  - intros B [field w] rest Hwf. unfold ReadTag, mbind, GoM_bind.
    destruct (ReadUint two32 B) as [[val|e] B'] eqn:E; [|done].
    apply (reader_sound _ _ _ (ReadUint_exact two32 H32)) in E as (-> & Hv & Hwr); [|done].
    unfold fail_if. destruct (WireType_IsValid (Z.land val 7)) eqn:Ev; cbn [negb]; [|done]. intros [= <- <- <-].
    unfold Tag. cbn [fst snd]. rewrite land_7, tag_value in * by (apply Z.mod_pos_bound; lia).
    rewrite Z.shiftr_div_pow2 by lia. change (2 ^ 3) with 8.
    split_and!; [|split; cbn [fst snd]|done].
    + by rewrite (Z.mul_comm _ 8), <- Z.div_mod by lia.
    + unfold two32 in Hv. split; [apply Z.div_pos; lia|]. apply Z.div_lt_upper_bound; lia.
    + done.
Qed.

Lemma le_roundtrip v : is_u64 v -> le_Uint64 (le_PutUint64 v) = v.
Proof.
  intros Hv. unfold le_Uint64, le_PutUint64. rewrite take_ge by (rewrite length_rev, length_be_put; lia).
  by rewrite rev_involutive, be_get_put8.
Qed.

Lemma ReadFint64_exact : exact_reader ReadFint64 le_PutUint64 is_u64.
Proof.
  assert (forall v, length (le_PutUint64 v) = 8%nat) as Hl by (intros; unfold le_PutUint64; by rewrite length_rev, length_be_put).
  split.
  - intros v rest Hv. unfold ReadFint64, SizeFint64. rewrite length_app, Hl, (proj2 (Z.ltb_ge _ _)) by lia.
    rewrite drop_app_length' by done. do 2 f_equal. unfold le_Uint64. rewrite take_app_length' by done.
    rewrite <- (le_roundtrip v Hv) at 2. unfold le_Uint64. by rewrite take_ge by (rewrite Hl; lia).
  - intros B v rest Hw. unfold ReadFint64, SizeFint64. destruct (Z.ltb_spec (Z.of_nat (length B)) 8); [done|].
    intros [= <- <-]. unfold le_Uint64, le_PutUint64.
    assert (wf_bytes (rev (take 8 B))) as Hw8.
    { apply Forall_rev. by apply wf_bytes_take. }
    rewrite be_put8_get by (done || rewrite length_rev, length_take; lia). rewrite rev_involutive, take_drop.
    split_and!; [done| |auto with vm]. apply be_get_u64; [done|]. rewrite length_rev, length_take. lia.
Qed.

(** *** Signed integers *)

(** The zigzag encoding. *)
Definition zigzag (v : Z) : Z := if 0 <=? v then 2 * v else 2 * (- v - 1) + 1.

Lemma zigzag_u64 v : is_i64 v -> is_u64 (zigzag v).
Proof. unfold zigzag, is_i64, is_u64, two63, two64. intros Hv. destruct (Z.leb_spec 0 v); lia. Qed.

Lemma zigzag_code v : is_i64 v -> 
  (if 0 <=? v then u64 (Z.shiftl (u64 v) 1) else Z.lor (u64 (Z.shiftl (u64 (Z.lnot (u64 v))) 1)) 1) = zigzag v.
Proof.
  intros Hv. unfold zigzag. destruct (Z.leb_spec 0 v) as [Hp|Hn].
  - rewrite (u64_small v), Z.shiftl_mul_pow2, u64_small by int_lia. lia.
  - assert (u64 (Z.lnot (u64 v)) = - v - 1) as ->.
    { unfold Z.lnot. unfold_int. Z.div_mod_to_equations. lia. }
    rewrite u64_small by (rewrite Z.shiftl_mul_pow2 by lia; int_lia). rewrite lor_shiftl_add by lia. lia.
Qed.

Lemma AppendInt_eq v : is_i64 v -> AppendInt v = AppendUvarint (zigzag v).
Proof. intros Hv. unfold AppendInt. by rewrite zigzag_code. Qed.

Lemma SizeInt_eq v : is_i64 v -> SizeInt v = Z.of_nat (length (AppendInt v)).
Proof.
  intros Hv. rewrite AppendInt_eq, length_AppendUvarint by auto using zigzag_u64.
  unfold SizeInt, SizeUint. rewrite <- (zigzag_code v Hv) at 2.
  destruct (Z.eqb_spec v 0) as [->|Hv0]; [done|].
  rewrite (proj2 (Z.eqb_neq (zigzag v) 0)) by (unfold zigzag; destruct (Z.leb_spec 0 v); lia).
  destruct (Z.ltb_spec 0 v), (Z.leb_spec 0 v); done || lia.
Qed.

Lemma land_1 z : Z.land z 1 = z mod 2.
Proof. change 1 with (Z.ones 1). by rewrite Z.land_ones by lia. Qed.

Lemma ReadInt_exact : exact_reader ReadInt AppendInt is_i64.
Proof.
  assert (0 < two64 <= two64) as H64 by (unfold two64; lia).
  split.
  - intros v rest Hv. unfold ReadInt, mbind, GoM_bind. rewrite AppendInt_eq by done.
    rewrite (reader_complete _ _ _ (ReadUint_exact two64 H64)) by by apply zigzag_u64.
    rewrite Z.shiftr_div_pow2, land_1 by lia. change (2 ^ 1) with 2.
    assert (zigzag v / 2 = (if 0 <=? v then v else - v - 1)) as ->.
    { unfold zigzag. destruct (0 <=? v); Z.div_mod_to_equations; lia. }
    assert (zigzag v mod 2 = (if 0 <=? v then 0 else 1)) as ->.
    { unfold zigzag. destruct (0 <=? v); Z.div_mod_to_equations; lia. }
    assert (is_u64 (if 0 <=? v then v else - v - 1)) as Hu by (destruct (Z.leb_spec 0 v); int_lia).
    unfold fail_if. rewrite u64_of_i64, Z.eqb_refl by done. cbn [negb].
    destruct (Z.leb_spec 0 v); cbn; unfold mret, GoM_ret; do 2 f_equal;
      unfold Z.lnot, i64_of_u64; rewrite (proj2 (Z.ltb_lt _ _)) by int_lia; lia.
  - intros B v rest Hw. unfold ReadInt, mbind, GoM_bind.
    destruct (ReadUint two64 B) as [[val|e] B'] eqn:E; [|done].
    apply (reader_sound _ _ _ (ReadUint_exact two64 H64)) in E as (-> & Hval & Hwr); [|done].
    rewrite Z.shiftr_div_pow2, land_1 by lia. change (2 ^ 1) with 2.
    unfold fail_if. destruct (negb _); [done|]. unfold mret, GoM_ret. intros [= <- <-].
    pose proof (Z.div_mod val 2 ltac:(lia)) as Hd. pose proof (Z.mod_pos_bound val 2 ltac:(lia)) as Hm.
    assert (i64_of_u64 (val / 2) = val / 2) as ->.
    { unfold i64_of_u64. rewrite (proj2 (Z.ltb_lt _ _)); [done|]. unfold two64, two63 in *. lia. }
    assert (is_i64 (if val mod 2 =? 0 then val / 2 else Z.lnot (val / 2)) /\
            zigzag (if val mod 2 =? 0 then val / 2 else Z.lnot (val / 2)) = val) as [Hi Hz].
    { unfold zigzag, Z.lnot, is_i64, two63, two64 in *.
      destruct (Z.eqb_spec (val mod 2) 0);
        match goal with |- context [0 <=? ?x] => destruct (Z.leb_spec 0 x) end; lia. }
    by rewrite AppendInt_eq, Hz by done.
Qed.

(** *** Bytes *)

Definition good_bytes (b : bytes) : Prop := wf_bytes b /\ Z.of_nat (length b) < two64.

#[export] Instance good_bytes_dec b : Decision (good_bytes b).
Proof. unfold good_bytes. apply _. Defined.

Lemma ReadBytes_exact : exact_reader ReadBytes AppendBytes good_bytes.
Proof.
  assert (0 < two64 <= two64) as H64 by (unfold two64; lia).
  split.
  - intros b rest [Hw Hl]. unfold ReadBytes, mbind, GoM_bind, AppendBytes. rewrite <- app_assoc.
    rewrite (reader_complete _ _ _ (ReadUint_exact two64 H64)) by lia.
    unfold TakeBytes. rewrite length_app, (proj2 (Z.ltb_ge _ _)), Nat2Z.id by lia.
    by rewrite take_app_length, drop_app_length.
  - intros B b rest Hw. unfold ReadBytes, mbind, GoM_bind.
    destruct (ReadUint two64 B) as [[n|e] B'] eqn:E; [|done].
    apply (reader_sound _ _ _ (ReadUint_exact two64 H64)) in E as (-> & Hn & Hwr); [|done].
    unfold TakeBytes. destruct (Z.ltb_spec (Z.of_nat (length B')) n); [done|]. intros [= <- <-].
    assert (Z.of_nat (length (take (Z.to_nat n) B')) = n) as Hl by (rewrite length_take; lia).
    unfold AppendBytes. rewrite Hl, <- app_assoc, take_drop.
    split_and!; [done|split; [auto with vm|lia]|auto with vm].
Qed.

Lemma length_AppendBytes b : good_bytes b -> Z.of_nat (length (AppendBytes b)) = SizeBytes b.
Proof.
  intros [_ Hl]. unfold AppendBytes, SizeBytes. rewrite length_app, Nat2Z.inj_add, length_AppendUvarint; [done|].
  split; lia.
Qed.

(** *** Repeated bytes *)

Section repeated.
Variable (tag : bytes).

Definition entries (l : list bytes) : bytes := concat (map (fun v => tag ++ AppendBytes v) l).

Lemma bytes_HasPrefix_app b : bytes_HasPrefix (tag ++ b) tag = true.
Proof.
  unfold bytes_HasPrefix. rewrite (proj2 (Nat.leb_le _ _)) by (rewrite length_app; lia).
  by rewrite take_app_length, bool_decide_true.
Qed.

Lemma bytes_HasPrefix_split B : bytes_HasPrefix B tag = true -> B = tag ++ drop (length tag) B.
Proof.
  unfold bytes_HasPrefix. intros [_ Hp]%andb_prop. apply bool_decide_eq_true in Hp.
  rewrite <- Hp at 1. by rewrite take_drop.
Qed.

Lemma entries_cons v l rest : entries (v :: l) ++ rest = tag ++ AppendBytes v ++ entries l ++ rest.
Proof. unfold entries. simpl. by rewrite <- !app_assoc. Qed.

Lemma AppendBytes_ne v : good_bytes v -> (0 < length (AppendBytes v))%nat.
Proof.
  intros [_ Hv]. unfold AppendBytes. rewrite length_app.
  destruct (AppendUvarint_wf (Z.of_nat (length v))) as [_ Hne]; [split; lia|]. destruct (AppendUvarint _); [done|simpl; lia].
Qed.

Lemma entries_length l : Forall good_bytes l -> (length l <= length (entries l))%nat.
Proof.
  induction 1 as [|v l Hv _ IH]; [done|]. pose proof (AppendBytes_ne v Hv).
  unfold entries in *. simpl. rewrite !length_app. lia.
Qed.

Lemma CountBytes_loop_complete l rest : forall fuel,
  (length l <= fuel)%nat -> Forall good_bytes l -> bytes_HasPrefix rest tag = false ->
  CountBytes_loop fuel tag (entries l ++ rest) = Ok (length l).
Proof.
  induction l as [|v l IH]; intros fuel Hf Hl Hr.
  - simpl. destruct fuel; cbn [CountBytes_loop]; by rewrite Hr.
  - inversion_clear Hl as [|? ? Hv Hl']. destruct fuel as [|fuel]; [simpl in Hf; lia|].
    rewrite entries_cons. cbn [CountBytes_loop]. rewrite bytes_HasPrefix_app, drop_app_length.
    rewrite (reader_complete _ _ _ ReadBytes_exact) by done. rewrite IH by (simpl in Hf; done || lia). done.
Qed.

Lemma CountBytes_loop_sound fuel : forall B n,
  wf_bytes B -> CountBytes_loop fuel tag B = Ok n ->
  exists l rest, length l = n /\ B = entries l ++ rest /\ Forall good_bytes l /\
    bytes_HasPrefix rest tag = false /\ wf_bytes rest.
Proof.
  induction fuel as [|fuel IH]; intros B n Hw; cbn [CountBytes_loop];
    destruct (bytes_HasPrefix B tag) eqn:Ep; try done; try (intros [= <-]; by exists [], B).
  pose proof (bytes_HasPrefix_split _ Ep) as EB. destruct (ReadBytes (drop (length tag) B)) as [[v|e] B'] eqn:E; [|done].
  apply (reader_sound _ _ _ ReadBytes_exact) in E as (E & Hv & Hw'); [|auto with vm].
  destruct (CountBytes_loop fuel tag B') as [m|] eqn:Em; cbn [mbind result_bind]; [|done]. intros [= <-].
  destruct (IH _ _ Hw' Em) as (l & rest & <- & -> & Hl & Hr & Hwr).
  exists (v :: l), rest. split_and!; [done| |by constructor|done|done]. by rewrite entries_cons, <- E.
Qed.

Lemma ReadEntries_complete l rest :
  Forall good_bytes l -> ReadEntries (length l) tag (entries l ++ rest) = (Ok l, rest).
Proof.
  induction 1 as [|v l Hv _ IH]; [done|]. cbn [length ReadEntries].
  rewrite entries_cons, drop_app_length. unfold mbind, GoM_bind.
  by rewrite (reader_complete _ _ _ ReadBytes_exact), IH by done.
Qed.

Lemma ReadRepeatedBytes_complete v l rest :
  Forall good_bytes (v :: l) -> bytes_HasPrefix rest tag = false ->
  ReadRepeatedBytes tag (AppendBytes v ++ entries l ++ rest) = (Ok (v :: l), rest).
Proof.
  intros Hl Hr. inversion_clear Hl as [|? ? Hv Hl']. unfold ReadRepeatedBytes, mbind, GoM_bind.
  rewrite (reader_complete _ _ _ ReadBytes_exact) by done. unfold CountBytes.
  rewrite CountBytes_loop_complete, ReadEntries_complete; [done..| |done|done].
  rewrite length_app. pose proof (entries_length l Hl'). lia.
Qed.

Lemma ReadRepeatedBytes_sound B vs rest :
  wf_bytes B -> ReadRepeatedBytes tag B = (Ok vs, rest) ->
  exists v l, vs = v :: l /\ B = AppendBytes v ++ entries l ++ rest /\ Forall good_bytes vs /\
    bytes_HasPrefix rest tag = false /\ wf_bytes rest.
Proof.
  intros Hw. unfold ReadRepeatedBytes, mbind, GoM_bind. destruct (ReadBytes B) as [[v|e] B'] eqn:E; [|done].
  apply (reader_sound _ _ _ ReadBytes_exact) in E as (-> & Hv & Hw'); [|done].
  destruct (CountBytes B' tag) as [n|] eqn:En; [|done].
  apply CountBytes_loop_sound in En as (l & rest' & <- & -> & Hl & Hr & Hwr); [|done].
  rewrite ReadEntries_complete by done. intros [= <- <-].
  exists v, l. split_and!; [done..|by constructor|done|done].
Qed.
End repeated.

(** *** Messages *)

(** A field of a message, behind its tag. *)
Lemma read_fields_step {C} (read_field : Z -> Z -> C -> GoM bytes C) field wireType c fuel m B c' rest :
  good_tag (field, wireType) -> m <= field -> read_field field wireType c B = (Ok c', rest) ->
  read_fields read_field (S fuel) m c (Tag field wireType ++ B) = read_fields read_field fuel (field + 1) c' rest.
Proof.
  intros Hg Hm E. unfold Tag.
  assert (forall b, b <> [] -> read_fields read_field (S fuel) m c b =
    ('(field, wireType) ← ReadTag;
       fail_if (field <? m) ErrInvalidFieldOrder;;
       c ← read_field field wireType c;
       read_fields read_field fuel (field + 1) c) b) as Hne by (by intros []).
  rewrite Hne.
  - unfold mbind, GoM_bind. change (AppendUvarint _) with (Tag (field, wireType).1 (field, wireType).2).
    rewrite (reader_complete _ _ _ ReadTag_exact) by done.
    unfold fail_if. rewrite (proj2 (Z.ltb_ge _ _)) by done. by rewrite E.
  - destruct Hg as [Hf Hw]. cbn [fst snd] in *. apply WireType_cases in Hw.
    destruct (AppendUvarint_wf (Z.lor (Z.shiftl field 3) wireType)) as [_ Ht].
    { rewrite tag_value by lia. change (2 ^ 29) with 536870912 in Hf. unfold is_u64, two64. lia. }
    by destruct (AppendUvarint _).
Qed.

Lemma read_fields_inv {C} (read_field : Z -> Z -> C -> GoM bytes C) fuel m c B c' rest :
  wf_bytes B -> read_fields read_field fuel m c B = (Ok c', rest) ->
  B = [] /\ c' = c /\ rest = [] \/
  exists fuel' field wireType B1 c1 B2, fuel = S fuel' /\ B = Tag field wireType ++ B1 /\ wf_bytes B1 /\ m <= field /\
    read_field field wireType c B1 = (Ok c1, B2) /\
    read_fields read_field fuel' (field + 1) c1 B2 = (Ok c', rest).
Proof.
  intros Hw. destruct B as [|x B], fuel as [|fuel]; cbn [read_fields]; try done.
  1, 2: intros [= <- <-]; by left.
  unfold mbind, GoM_bind. destruct (ReadTag (x :: B)) as [[[field w]|e] B1] eqn:E; [|done].
  apply (reader_sound _ _ _ ReadTag_exact) in E as (-> & _ & Hw1); [|done].
  unfold fail_if. destruct (Z.ltb_spec field m); [done|]. intros E2. right.
  destruct (read_field field w c B1) as [[c1|e] B2] eqn:E1; [|done].
  by exists fuel, field, w, B1, c1, B2.
Qed.

Lemma read_fields_more {C} (read_field : Z -> Z -> C -> GoM bytes C) fuel : forall fuel' m c B c' rest,
  read_fields read_field fuel m c B = (Ok c', rest) -> (fuel <= fuel')%nat ->
  read_fields read_field fuel' m c B = (Ok c', rest).
Proof.
  induction fuel as [|fuel IH]; intros fuel' m c B c' rest E Hf.
  - destruct B; [|done]. by destruct fuel'.
  - destruct fuel' as [|fuel']; [lia|]. destruct B as [|x B]; [done|]. cbn [read_fields] in *.
    unfold mbind, GoM_bind in *. destruct (ReadTag (x :: B)) as [[[field w]|e] B1]; [|done].
    destruct (fail_if _ _ B1) as [[u|e] B2]; [|done].
    destruct (read_field field w c B2) as [[c1|e] B3]; [|done]. apply (IH _ _ _ _ _ _ E). lia.
Qed.

(** [B] is read in at most as many steps as it has bytes, by any fuel from
    there on. *)
Definition reads_all {C} (read_field : Z -> Z -> C -> GoM bytes C) (m : Z) (c : C) (B : bytes) (c' : C) : Prop :=
  exists k, (k <= length B)%nat /\ read_fields read_field k m c B = (Ok c', []).

Lemma reads_all_nil {C} (read_field : Z -> Z -> C -> GoM bytes C) m c : reads_all read_field m c [] c.
Proof. by exists O. Qed.

Lemma reads_all_step {C} (read_field : Z -> Z -> C -> GoM bytes C) tag field wireType m c B c1 rest c' :
  tag = Tag field wireType -> tag <> [] -> good_tag (field, wireType) -> m <= field ->
  read_field field wireType c (B ++ rest) = (Ok c1, rest) -> reads_all read_field (field + 1) c1 rest c' ->
  reads_all read_field m c (tag ++ B ++ rest) c'.
Proof.
  intros -> Hne Hg Hm E (k & Hk & Ek). exists (S k). split.
  - rewrite !length_app. destruct (Tag field wireType); [done|]. simpl. lia.
  - by rewrite (read_fields_step _ _ _ _ _ _ _ _ _ Hg Hm E).
Qed.

Lemma reads_all_fuel {C} (read_field : Z -> Z -> C -> GoM bytes C) m c B c' :
  reads_all read_field m c B c' -> read_fields read_field (length B) m c B = (Ok c', []).
Proof. intros (k & Hk & E). by eapply read_fields_more. Qed.
