(* ===== verification/Cobra.v ===== *)
(** * Command trees (spf13/cobra command.go, args.go; spf13/pflag flag.go)

    How the vendored libraries run a command line: the search for the command
    with prefix matching, the parsing of flags, and the order of the hooks.
    A command is a value over the state [W] its hooks act on.  What the
    libraries print (help, usage) is not kept; the hidden command that shells
    call for completion is left out. *)

From S2P Require Import Prelude GoErrors Lib Strconv.
#[local] Open Scope Z_scope.

(** ** Text *)

(** [strings.HasPrefix(s, p)]. *)
Fixpoint HasPrefix (p s : string) : bool :=
  match p, s with
  | EmptyString, _ => true
  | String a p, String b s => Ascii.eqb a b && HasPrefix p s
  | _, _ => false
  end.

Fixpoint Contains_byte (c : Ascii.ascii) (s : string) : bool :=
  match s with
  | EmptyString => false
  | String x t => bool_decide (x = c) || Contains_byte c t
  end.

(** [strings.SplitN(s, sep, 2)] for a one-byte [sep]. *)
Fixpoint SplitN2 (c : Ascii.ascii) (s : string) : string * option string :=
  match s with
  | EmptyString => (EmptyString, None)
  | String x t =>
      if decide (x = c) then (EmptyString, Some t)
      else let '(a, b) := SplitN2 c t in (String x a, b)
  end.

(** [s[n:]]. *)
Fixpoint string_drop (n : nat) (s : string) : string :=
  match n, s with
  | S n, String _ t => string_drop n t
  | _, _ => s
  end.

Definition space : Ascii.ascii := Ascii.ascii_of_nat 32.
Definition equals : Ascii.ascii := Ascii.ascii_of_nat 61.

Definition ErrHelp : error := ErrVar "pflag.ErrHelp" "pflag: help requested".

Section cobra.
Context {W : Type} `{Quoting}.

(** ** Flags and commands *)

(** [Set] writes the variable behind the flag, also when it fails. *)
Record Flag := mkFlag {
  fl_Name : string;
  fl_NoOptDefVal : string;
  fl_Set : string -> GoM W unit;
}.

(** [nil] hooks are [None]. *)
#[warnings="-register-all"]
Inductive Command := mkCommand {
  Use : string;
  PersistentFlags : list Flag;
  Args : option (list string -> option error);
  PersistentPreRunE : option (list string -> GoM W unit);
  PreRunE : option (list string -> GoM W unit);
  RunE : option (list string -> GoM W unit);
  PersistentPostRunE : option (list string -> GoM W unit);
  commands : list Command;
}.

Definition AddCommand (c : Command) (cmds : list Command) : Command :=
  mkCommand (Use c) (PersistentFlags c) (Args c) (PersistentPreRunE c) (PreRunE c) (RunE c)
    (PersistentPostRunE c) (commands c ++ cmds).

Definition Name (c : Command) : string := fst (SplitN2 space (Use c)).

Definition Runnable (c : Command) : bool := match RunE c with Some _ => true | None => false end.

(** The flags a command knows after [mergePersistentFlags]: its own, then
    those of its parents, nearest first. *)
Definition Flags (parents : list Command) (c : Command) : list Flag :=
  List.flat_map PersistentFlags (c :: parents).

Definition Lookup (flags : list Flag) (name : string) : option Flag :=
  List.find (fun f => bool_decide (fl_Name f = name)) flags.

Definition hasNoOptDefVal (flags : list Flag) (name : string) : bool :=
  match Lookup flags name with
  | Some f => negb (bool_decide (fl_NoOptDefVal f = EmptyString))
  | None => false
  end.

(** ** The search for the command *)

(** The flags whose value is the next argument.  No flag has a shorthand
    before [execute] adds the help flag. *)
Definition takes_next (flags : list Flag) (s : string) : bool :=
  (HasPrefix "--" s && negb (Contains_byte equals s) && negb (hasNoOptDefVal flags (string_drop 2 s)))
  || (HasPrefix "-" s && negb (Contains_byte equals s) && (String.length s =? 2)%nat).

Fixpoint stripFlags (flags : list Flag) (args : list string) : list string :=
  match args with
  | [] => []
  | s :: args =>
      if decide (s = "--") then []
      else if takes_next flags s then
        match args with
        | _ :: ((_ :: _) as rest) => stripFlags flags rest
        | _ => []
        end
      else if negb (bool_decide (s = EmptyString)) && negb (HasPrefix "-" s)
      then s :: stripFlags flags args
      else stripFlags flags args
  end.

Fixpoint argsMinusFirstX (flags : list Flag) (args : list string) (x : string) : list string :=
  match args with
  | [] => []
  | s :: rest =>
      if decide (s = "--") then s :: rest
      else if takes_next flags s then
        match rest with
        | [] => [s]
        | v :: rest => s :: v :: argsMinusFirstX flags rest x
        end
      else if negb (HasPrefix "-" s) && bool_decide (s = x) then rest
      else s :: argsMinusFirstX flags rest x
  end.

(** The exact name wins; otherwise the only command of that prefix
    ([EnablePrefixMatching] is set by root.go and main.go). *)
Definition findNext (c : Command) (next : string) : option Command :=
  match List.find (fun cmd => bool_decide (Name cmd = next)) (commands c) with
  | Some cmd => Some cmd
  | None =>
      match List.filter (fun cmd => HasPrefix next (Name cmd)) (commands c) with
      | [cmd] => Some cmd
      | _ => None
      end
  end.

(** Each step takes a word out of the arguments: as much fuel as there are
    arguments is enough ([innerfind_enough]). *)
Fixpoint innerfind (fuel : nat) (parents : list Command) (c : Command) (innerArgs : list string)
  : list Command * Command * list string :=
  match stripFlags (Flags parents c) innerArgs with
  | [] => (parents, c, innerArgs)
  | nextSubCmd :: _ =>
      match findNext c nextSubCmd, fuel with
      | Some cmd, S fuel =>
          innerfind fuel (c :: parents) cmd (argsMinusFirstX (Flags parents c) innerArgs nextSubCmd)
      | _, _ => (parents, c, innerArgs)
      end
  end.

Definition CommandPath (parents : list Command) (c : Command) : string :=
  foldl (fun path p => Name p +:+ " " +:+ path) (Name c) parents.

(** The suggestions at the end of the message. *)
Variable (findSuggestions : Command -> string -> string).

Definition legacyArgs (parents : list Command) (c : Command) (args : list string) : option error :=
  match commands c, parents, args with
  | _ :: _, [], arg :: _ =>
      Some (ErrFresh ("unknown command " +:+ Quote arg +:+ " for " +:+ Quote (CommandPath parents c)
        +:+ findSuggestions c arg))
  | _, _, _ => None
  end.

Definition Find (root : Command) (args : list string)
  : list Command * Command * list string * option error :=
  let '(parents, c, a) := innerfind (length args) [] root args in
  (parents, c, a,
   match Args c with
   | None => legacyArgs parents c (stripFlags (Flags parents c) a)
   | Some _ => None
   end).

(** ** Parsing the flags

    The state of the parser: the variables, and the help flag of the
    command. *)

Definition help_set (value : string) : GoM (W * bool) unit := fun '(w, _) =>
  let '(v, err) := ParseBool value in
  match err with
  | None => (Ok tt, (w, v))
  | Some err =>
      (Err (ErrFresh ("invalid argument " +:+ Quote value +:+ " for " +:+ Quote "-h, --help"
        +:+ " flag: " +:+ Error err)), (w, v))
  end.

Definition flag_set (f : Flag) (value : string) : GoM (W * bool) unit := fun '(w, help) =>
  match fl_Set f value w with
  | (Ok _, w) => (Ok tt, (w, help))
  | (Err err, w) =>
      (Err (ErrFresh ("invalid argument " +:+ Quote value +:+ " for " +:+ Quote ("--" +:+ fl_Name f)
        +:+ " flag: " +:+ Error err)), (w, help))
  end.

(** The flag of a name: how to set it, and the value it takes when none is
    given. *)
Definition formal (flags : list Flag) (name : string)
  : option ((string -> GoM (W * bool) unit) * string) :=
  match Lookup flags name with
  | Some f => Some (flag_set f, fl_NoOptDefVal f)
  | None => if decide (name = "help") then Some (help_set, "true") else None
  end.

(** What one long argument does: set a flag, with or without taking the next
    argument, or fail. *)
Inductive long_arg :=
| LongSet (set : GoM (W * bool) unit)
| LongNext (set : string -> GoM (W * bool) unit)
| LongError (err : error).

Definition parseLongArg (flags : list Flag) (s : string) : long_arg :=
  let name := string_drop 2 s in
  if HasPrefix "-" name || HasPrefix "=" name
  then LongError (ErrFresh ("bad flag syntax: " +:+ s))
  else
    let '(name, value) := SplitN2 equals name in
    match formal flags name with
    | None => LongError (ErrFresh ("unknown flag: --" +:+ name))
    | Some (set, NoOptDefVal) =>
        match value with
        | Some v => LongSet (set v)
        | None =>
            if negb (bool_decide (NoOptDefVal = EmptyString)) then LongSet (set NoOptDefVal)
            else LongNext set
        end
    end.

(** A series of shorthands; the help flag has the only one, and it takes no
    argument.  Arguments of the Go test binary are skipped. *)
Fixpoint parseShortArg (shorthands : string) : GoM (W * bool) unit :=
  match shorthands with
  | EmptyString => mret tt
  | String c rest =>
      if HasPrefix "test." shorthands then mret tt
      else if decide (c = Ascii.ascii_of_nat 104) then
        match rest with
        | String e ((String _ _) as v) =>
            if decide (e = equals) then help_set v
            else help_set "true";; parseShortArg rest
        | _ => help_set "true";; parseShortArg rest
        end
      else fail (ErrFresh ("unknown shorthand flag: " +:+ QuoteByte c +:+ " in -" +:+ shorthands))
  end.

(** The arguments that are no flags, in order. *)
Fixpoint parseArgs (flags : list Flag) (args : list string) : GoM (W * bool) (list string) :=
  match args with
  | [] => mret []
  | s :: rest =>
      if negb (HasPrefix "-" s) || bool_decide (s = "-") then
        others ← parseArgs flags rest; mret (s :: others)
      else if decide (s = "--") then mret rest
      else if HasPrefix "--" s then
        match parseLongArg flags s with
        | LongError err => fail err
        | LongSet set => set;; parseArgs flags rest
        | LongNext set =>
            match rest with
            | [] => fail (ErrFresh ("flag needs an argument: " +:+ s))
            | v :: rest => set v;; parseArgs flags rest
            end
        end
      else parseShortArg (string_drop 1 s);; parseArgs flags rest
  end.

(** ** Running the command *)

Definition run_hook (hook : option (list string -> GoM W unit)) (args : list string) : GoM W unit :=
  match hook with Some f => f args | None => mret tt end.

(** Only the first persistent hook found is run, from the command up. *)
Fixpoint first_hook (hook : Command -> option (list string -> GoM W unit)) (path : list Command)
  : option (list string -> GoM W unit) :=
  match path with
  | [] => None
  | p :: path => match hook p with Some f => Some f | None => first_hook hook path end
  end.

Definition ValidateArgs (c : Command) (args : list string) : option error :=
  match Args c with Some f => f args | None => None end.

Definition return_error (err : option error) : GoM W unit :=
  match err with Some err => fail err | None => mret tt end.

Definition run_hooks (parents : list Command) (c : Command) (args : list string) : GoM W unit :=
  return_error (ValidateArgs c args);;
  run_hook (first_hook PersistentPreRunE (c :: parents)) args;;
  run_hook (PreRunE c) args;;
  run_hook (RunE c) args;;
  run_hook (first_hook PersistentPostRunE (c :: parents)) args.

Definition execute (parents : list Command) (c : Command) (a : list string) : GoM W unit := fun w =>
  match parseArgs (Flags parents c) a (w, false) with
  | (Err err, (w, _)) => (Err err, w)
  | (Ok args, (w, help)) =>
      if help || negb (Runnable c) then (Err ErrHelp, w)
      else run_hooks parents c args w
  end.

(** The commands the library adds to the root ([help], [completion]). *)
Variable (default_commands : list Command).

(** A request for help is no error. *)
Definition hide_help (m : GoM W unit) : GoM W unit := fun w =>
  match m w with
  | (Err err, w) => if errors_Is err ErrHelp then (Ok tt, w) else (Err err, w)
  | (Ok _, w) => (Ok tt, w)
  end.

Definition ExecuteC (c : Command) (args : list string) : GoM W unit :=
  let root := AddCommand c default_commands in
  match Find root args with
  | (_, _, _, Some err) => fail err
  | (parents, cmd, flags, None) => hide_help (execute parents cmd flags)
  end.
End cobra.
Arguments Flag W : clear implicits.
Arguments Command W : clear implicits.

(** ** Plain words

    Arguments that are no flags. *)

#[global] Arguments HasPrefix : simpl never.
#[local] Arguments takes_next : simpl never.

Definition plain (s : string) : Prop := s <> EmptyString /\ HasPrefix "-" s = false.

#[export] Instance plain_dec s : Decision (plain s).
Proof. unfold plain. apply _. Defined.

Lemma plain_not_long s : HasPrefix "-" s = false -> HasPrefix "--" s = false.
Proof.
  destruct s as [|c s]; [done|]. unfold HasPrefix; fold HasPrefix.
  change (HasPrefix EmptyString s) with true. rewrite andb_true_r. by intros ->.
Qed.

Lemma plain_not_dashes s n : plain s -> s <> String (Ascii.ascii_of_nat 45) n.
Proof. by intros [_ Hs] ->. Qed.

Section plain_words.
Context {W : Type} `{Quoting}.
Implicit Types (flags : list (Flag W)) (c : Command W).

Lemma takes_next_plain flags s : plain s -> takes_next flags s = false.
Proof. intros [_ Hs]. unfold takes_next. by rewrite plain_not_long, Hs. Qed.

Lemma stripFlags_plain_cons flags s args : plain s ->
  stripFlags flags (s :: args) = s :: stripFlags flags args.
Proof.
  intros Hs. simpl. rewrite decide_False by (by apply plain_not_dashes).
  rewrite takes_next_plain by done. destruct Hs as [Hne ->]. by rewrite bool_decide_false.
Qed.

Lemma argsMinusFirstX_plain flags s args : plain s -> argsMinusFirstX flags (s :: args) s = args.
Proof.
  intros Hs. simpl. rewrite decide_False by (by apply plain_not_dashes).
  rewrite takes_next_plain by done. destruct Hs as [_ ->]. by rewrite bool_decide_true.
Qed.

Lemma findNext_In c next cmd : findNext c next = Some cmd -> In cmd (commands c).
Proof.
  unfold findNext. destruct (List.find _ _) as [x|] eqn:E.
  - intros [= ->]. by apply List.find_some in E as [? _].
  - destruct (List.filter _ _) as [|x [|]] eqn:F; [done| |done]. intros [= ->].
    eapply List.filter_In. rewrite F. by left.
Qed.

Lemma HasPrefix_refl s : HasPrefix s s = true.
Proof. induction s as [|c s IH]; [done|]. unfold HasPrefix; fold HasPrefix. by rewrite Ascii.eqb_refl. Qed.

(** A word that starts no name below a command leads nowhere. *)
Lemma findNext_none c next :
  Forall (fun cmd => HasPrefix next (Name cmd) = false) (commands c) -> findNext c next = None.
Proof.
  intros Hf. unfold findNext. destruct (List.find _ _) as [x|] eqn:E.
  - apply List.find_some in E as [Hx Hn]. apply bool_decide_eq_true in Hn.
    rewrite List.Forall_forall in Hf. apply Hf in Hx. by rewrite Hn, HasPrefix_refl in Hx.
  - assert (List.filter (fun cmd => HasPrefix next (Name cmd)) (commands c) = []) as ->; [|done].
    clear E. induction Hf as [|x l Hx _ IH]; [done|]. simpl. by rewrite Hx.
Qed.

(** The search on plain words: down the tree as far as the words lead. *)
Fixpoint walk (parents : list (Command W)) c (args : list string) : list (Command W) * Command W * list string :=
  match args with
  | [] => (parents, c, [])
  | a :: rest =>
      match findNext c a with
      | Some cmd => walk (c :: parents) cmd rest
      | None => (parents, c, args)
      end
  end.

Lemma walk_cons parents c a args cmd :
  findNext c a = Some cmd -> walk parents c (a :: args) = walk (c :: parents) cmd args.
Proof. intros E. simpl. by rewrite E. Qed.

Lemma walk_stop parents c a args :
  findNext c a = None -> walk parents c (a :: args) = (parents, c, a :: args).
Proof. intros E. simpl. by rewrite E. Qed.

Lemma innerfind_plain args : forall n parents c,
  Forall plain args -> (length args <= n)%nat -> innerfind n parents c args = walk parents c args.
Proof.
  induction args as [|a args IH]; intros n parents c Hp Hn; [by destruct n|].
  apply Forall_cons_iff in Hp as [Ha Hp]. destruct n as [|n]; [simpl in Hn; lia|].
  cbn [innerfind walk]. rewrite stripFlags_plain_cons by done.
  destruct (findNext c a) as [cmd|]; [|done].
  rewrite argsMinusFirstX_plain by done. apply IH; [done|]. simpl in Hn. lia.
Qed.

Lemma innerfind_words words tl : forall n parents c ps cmd,
  Forall plain words -> (length words <= n)%nat -> walk parents c words = (ps, cmd, []) ->
  commands cmd = [] -> innerfind n parents c (words ++ tl) = (ps, cmd, tl).
Proof.
  induction words as [|a words IH]; intros n parents c ps cmd Hp Hn Hw Hc.
  - injection Hw as -> ->. destruct n; cbn [innerfind app]; destruct (stripFlags _ tl) as [|a rest]; try done.
    all: unfold findNext; by rewrite Hc.
  - apply Forall_cons_iff in Hp as [Ha Hp]. destruct n as [|n]; [simpl in Hn; lia|].
    cbn [innerfind walk app] in *. rewrite stripFlags_plain_cons by done.
    destruct (findNext c a) as [sub|]; [|done].
    rewrite argsMinusFirstX_plain by done. apply IH; [done| |done..]. simpl in Hn. lia.
Qed.

Lemma stripFlags_plain flags args : Forall plain args -> stripFlags flags args = args.
Proof.
  induction 1 as [|s args Hs _ IH]; [done|]. by rewrite stripFlags_plain_cons, IH.
Qed.

Lemma parseArgs_plain flags args (w : W * bool) : Forall plain args -> parseArgs flags args w = (Ok args, w).
Proof.
  induction 1 as [|s args [_ Hs] _ IH]; [done|]. simpl. rewrite Hs. simpl.
  unfold mbind, GoM_bind. by rewrite IH.
Qed.

Lemma walk_plain args : forall parents c, Forall plain args -> Forall plain (walk parents c args).2.
Proof.
  induction args as [|a args IH]; intros parents c; [done|].
  intros Hp. simpl. destruct (findNext c a); [|done]. apply IH. by inversion Hp.
Qed.

Lemma walk_rest args parents c ps cmd rest :
  Forall plain args -> walk parents c args = (ps, cmd, rest) -> Forall plain rest.
Proof. intros Hp Hw. pose proof (walk_plain args parents c Hp) as Hx. by rewrite Hw in Hx. Qed.
End plain_words.

(** ** Whole runs *)
Section runs.
Context {W : Type} `{Quoting}.
Variable (findSuggestions : Command W -> string -> string).
Variable (default_commands : list (Command W)).
Implicit Types (c : Command W).

Lemma ExecuteC_plain c args ps cmd rest w :
  Forall plain args -> walk [] (AddCommand c default_commands) args = (ps, cmd, rest) ->
  legacyArgs findSuggestions ps cmd rest = None -> Runnable cmd = true ->
  ExecuteC findSuggestions default_commands c args w = hide_help (run_hooks ps cmd rest) w.
Proof.
  intros Hp Hw Hl Hr. unfold ExecuteC, Find.
  rewrite innerfind_plain, Hw by done.
  pose proof (walk_rest _ _ _ _ _ _ Hp Hw) as Hrest.
  rewrite stripFlags_plain, Hl by done. destruct (Args cmd).
  all: unfold hide_help, execute; by rewrite parseArgs_plain, Hr by done.
Qed.

(** Words that lead nowhere below the root. *)
Lemma ExecuteC_unknown c args ps cmd rest err w :
  Forall plain args -> walk [] (AddCommand c default_commands) args = (ps, cmd, rest) ->
  Args cmd = None -> legacyArgs findSuggestions ps cmd rest = Some err ->
  ExecuteC findSuggestions default_commands c args w = (Err err, w).
Proof.
  intros Hp Hw Ha Hl. unfold ExecuteC, Find. rewrite innerfind_plain, Hw by done.
  pose proof (walk_rest _ _ _ _ _ _ Hp Hw) as Hrest.
  by rewrite Ha, stripFlags_plain, Hl by done.
Qed.

(** A command that is not runnable shows its help. *)
Lemma ExecuteC_help c args ps cmd rest w :
  Forall plain args -> walk [] (AddCommand c default_commands) args = (ps, cmd, rest) ->
  legacyArgs findSuggestions ps cmd rest = None -> Runnable cmd = false ->
  ExecuteC findSuggestions default_commands c args w = (Ok tt, w).
Proof.
  intros Hp Hw Hl Hr. unfold ExecuteC, Find. rewrite innerfind_plain, Hw by done.
  pose proof (walk_rest _ _ _ _ _ _ Hp Hw) as Hrest.
  rewrite stripFlags_plain, Hl by done. destruct (Args cmd).
  all: unfold hide_help, execute; by rewrite parseArgs_plain, Hr by done.
Qed.

(** Words that lead to a command without subcommands, then anything: flags
    and operands are parsed, then the hooks run. *)
Lemma ExecuteC_words c words tl ps cmd w :
  Forall plain words -> walk [] (AddCommand c default_commands) words = (ps, cmd, []) ->
  commands cmd = [] -> ps <> [] -> Runnable cmd = true ->
  ExecuteC findSuggestions default_commands c (words ++ tl) w =
    hide_help (fun w =>
      match parseArgs (Flags ps cmd) tl (w, false) with
      | (Err err, (w, _)) => (Err err, w)
      | (Ok _, (w, true)) => (Err ErrHelp, w)
      | (Ok args, (w, false)) => run_hooks ps cmd args w
      end) w.
Proof.
  intros Hp Hw Hc Hps Hr. unfold ExecuteC, Find.
  rewrite (innerfind_words words tl _ _ _ ps cmd) by (done || (rewrite length_app; lia)).
  unfold legacyArgs. rewrite Hc. destruct (Args cmd).
  all: unfold hide_help, execute; rewrite Hr.
  all: by destruct (parseArgs _ tl (w, false)) as [[args|e] [w' []]].
Qed.

End runs.

(** ** What every command line does

    A relation between the states before and after that every flag and every
    hook of a tree keeps is kept by every run, whatever the arguments. *)
Section preserved.
Context {W : Type} `{Quoting}.
Variable (R : W -> W -> Prop).
Context `{!PreOrder R}.

Definition keeps {A} (m : GoM W A) : Prop := forall w, R w (snd (m w)).

Definition keeps_hook (hook : option (list string -> GoM W unit)) : Prop :=
  match hook with Some f => forall args, keeps (f args) | None => True end.

Definition keeps_command (c : Command W) : Prop :=
  Forall (fun f => forall s, keeps (fl_Set f s)) (PersistentFlags c) /\
  keeps_hook (PersistentPreRunE c) /\ keeps_hook (PreRunE c) /\ keeps_hook (RunE c) /\
  keeps_hook (PersistentPostRunE c).

#[warnings="-register-all"]
Inductive keeps_tree : Command W -> Prop :=
| keeps_tree_intro c : keeps_command c -> Forall keeps_tree (commands c) -> keeps_tree c.

Lemma keeps_ret {A} (a : A) : keeps (mret a).
Proof. intros w. simpl. reflexivity. Qed.

Lemma keeps_fail {A} e : keeps (fail e : GoM W A).
Proof. intros w. simpl. reflexivity. Qed.

Lemma keeps_bind {A B} (m : GoM W A) (f : A -> GoM W B) :
  keeps m -> (forall a, keeps (f a)) -> keeps (m ≫= f).
Proof.
  intros Hm Hf w. specialize (Hm w). unfold mbind, GoM_bind.
  destruct (m w) as [[a|e] w']; [|done]. etransitivity; [done|]. apply Hf.
Qed.

Lemma keeps_hook_run hook args : keeps_hook hook -> keeps (run_hook hook args).
Proof. destruct hook; simpl; auto using keeps_ret. Qed.

Lemma first_hook_keeps hook path :
  Forall (fun c => keeps_hook (hook c)) path -> keeps_hook (first_hook hook path).
Proof. induction 1 as [|c path Hc _ IH]; [done|]. simpl. by destruct (hook c). Qed.

(** Parsing: on the state under the help flag. *)
Definition keeps_parse {A} (m : GoM (W * bool) A) : Prop := forall s, R (fst s) (fst (snd (m s))).

Lemma keeps_parse_bind {A B} (m : GoM (W * bool) A) (f : A -> GoM (W * bool) B) :
  keeps_parse m -> (forall a, keeps_parse (f a)) -> keeps_parse (m ≫= f).
Proof.
  intros Hm Hf w. specialize (Hm w). unfold mbind, GoM_bind.
  destruct (m w) as [[a|e] w']; [|done]. etransitivity; [done|]. apply Hf.
Qed.

Lemma help_set_keeps v : keeps_parse (help_set (W := W) v).
Proof. intros [w h]. unfold help_set. destruct (ParseBool v) as [b [e|]]; simpl; reflexivity. Qed.

Lemma parseShortArg_keeps n : forall sh, (String.length sh <= n)%nat -> keeps_parse (parseShortArg (W := W) sh).
Proof.
  induction n as [|n IH]; intros sh Hn; destruct sh as [|c rest]; simpl in Hn; [|lia| |].
  1,2: intros s; simpl; reflexivity.
  cbn [parseShortArg]. destruct (HasPrefix _ _); [intros s; simpl; reflexivity|].
  destruct (decide (c = _)); [|intros s; simpl; reflexivity].
  assert (keeps_parse (help_set "true";; parseShortArg rest)) as Hrest.
  { apply keeps_parse_bind; [apply help_set_keeps|]. intros _. apply IH. lia. }
  destruct rest as [|x [|y v]]; [done..|]. destruct (decide (x = equals)); [apply help_set_keeps|done].
Qed.

Definition keeps_flags (flags : list (Flag W)) : Prop := Forall (fun f => forall s, keeps (fl_Set f s)) flags.

Lemma flag_set_keeps (f : Flag W) v : (forall s, keeps (fl_Set f s)) -> keeps_parse (flag_set f v).
Proof.
  intros Hf [w h]. specialize (Hf v w). unfold flag_set. by destruct (fl_Set f v w) as [[u|e] w'].
Qed.

Lemma formal_keeps flags name set nodef v :
  keeps_flags flags -> formal flags name = Some (set, nodef) -> keeps_parse (set v).
Proof.
  intros Hf. unfold formal. destruct (Lookup flags name) as [f|] eqn:E.
  - intros [= <- _]. apply flag_set_keeps. apply List.find_some in E as [E _].
    by apply (proj1 (List.Forall_forall _ _) Hf).
  - case_decide; [|done]. intros [= <- _]. apply help_set_keeps.
Qed.

Lemma parseLongArg_keeps flags s :
  keeps_flags flags ->
  match parseLongArg flags s with
  | LongSet set => keeps_parse set
  | LongNext set => forall v, keeps_parse (set v)
  | LongError _ => True
  end.
Proof.
  intros Hf. unfold parseLongArg. destruct (_ || _); [done|].
  destruct (SplitN2 _ _) as [name value].
  destruct (formal flags name) as [[set nodef]|] eqn:E; [|done].
  destruct value; [by eapply formal_keeps|]. destruct (negb _); [by eapply formal_keeps|].
  intros v. by eapply formal_keeps.
Qed.

Lemma parseArgs_keeps flags : keeps_flags flags ->
  forall n args, (length args <= n)%nat -> keeps_parse (parseArgs flags args).
Proof.
  intros Hf. induction n as [|n IH]; intros args Hn; destruct args as [|a rest]; simpl in Hn; [|lia| |].
  1,2: intros s; simpl; reflexivity.
  assert (Hret : forall {A} (x : A), keeps_parse (mret x)) by (intros A x s; simpl; reflexivity).
  assert (Hrest : keeps_parse (parseArgs flags rest)) by (apply IH; lia).
  cbn [parseArgs]. destruct (_ || _); [apply keeps_parse_bind; [done|intros; apply Hret]|].
  destruct (decide (a = "--")); [apply Hret|]. destruct (HasPrefix _ _).
  - pose proof (parseLongArg_keeps flags a Hf) as Hl.
    destruct (parseLongArg flags a) as [set|set|err].
    + by apply keeps_parse_bind.
    + destruct rest as [|v rest]; [intros s; simpl; reflexivity|].
      apply keeps_parse_bind; [done|]. intros _. apply IH. simpl in *. lia.
    + intros s; simpl; reflexivity.
  - apply keeps_parse_bind; [|done]. by eapply parseShortArg_keeps.
Qed.

Lemma innerfind_tree fuel : forall parents c args ps cmd rest,
  Forall keeps_tree (c :: parents) -> innerfind fuel parents c args = (ps, cmd, rest) ->
  Forall keeps_tree (cmd :: ps).
Proof.
  induction fuel as [|fuel IH]; intros parents c args ps cmd rest Ht; cbn [innerfind].
  - destruct (stripFlags _ _); [by intros [= <- <- _]|]. destruct (findNext _ _); by intros [= <- <- _].
  - destruct (stripFlags _ _) as [|next strs]; [by intros [= <- <- _]|].
    destruct (findNext c next) as [sub|] eqn:E; [|by intros [= <- <- _]].
    apply IH. constructor; [|done]. apply findNext_In in E.
    apply Forall_cons_iff in Ht as [Hc _]. inversion_clear Hc as [? _ Hs].
    by apply (proj1 (List.Forall_forall _ _) Hs).
Qed.

Lemma tree_command c : keeps_tree c -> keeps_command c.
Proof. by inversion 1. Qed.

Lemma Flags_keeps ps cmd : Forall keeps_tree (cmd :: ps) -> keeps_flags (Flags ps cmd).
Proof.
  unfold Flags. induction 1 as [|c path Hc _ IH]; [constructor|].
  cbn [List.flat_map]. apply Forall_app. split; [|done]. by apply tree_command.
Qed.

Lemma run_hooks_keeps ps cmd args : Forall keeps_tree (cmd :: ps) -> keeps (run_hooks ps cmd args).
Proof.
  intros Ht. assert (Hp : forall hook : Command W -> option (list string -> GoM W unit),
    (forall c, keeps_command c -> keeps_hook (hook c)) -> keeps_hook (first_hook hook (cmd :: ps))).
  { intros hook Hh. apply first_hook_keeps. eapply Forall_impl; [|exact Ht]. intros c Hc. by apply Hh, tree_command. }
  assert (keeps_command cmd) as (_ & _ & Hpre & Hrun & _) by (apply Forall_cons_iff in Ht as [? _]; by apply tree_command).
  unfold run_hooks. apply keeps_bind; [destruct (ValidateArgs cmd args); intros w; simpl; reflexivity|intros _].
  apply keeps_bind; [apply keeps_hook_run, Hp; by intros c (_ & ? & _)|intros _].
  apply keeps_bind; [by apply keeps_hook_run|intros _].
  apply keeps_bind; [by apply keeps_hook_run|intros _].
  apply keeps_hook_run, Hp. by intros c (_ & _ & _ & _ & ?).
Qed.

Lemma ExecuteC_keeps findSuggestions default_commands c args :
  keeps_tree (AddCommand c default_commands) ->
  keeps (ExecuteC findSuggestions default_commands c args).
Proof.
  intros Ht w. unfold ExecuteC, Find.
  destruct (innerfind _ _ _ _) as [[ps cmd] rest] eqn:E.
  apply innerfind_tree in E; [|by constructor].
  destruct (match Args cmd with None => _ | _ => _ end); [simpl; reflexivity|].
  unfold hide_help. assert (R w (snd (execute ps cmd rest w))) as Hx.
  { unfold execute. pose proof (parseArgs_keeps _ (Flags_keeps _ _ E) _ rest (le_n _) (w, false)) as Hp.
    destruct (parseArgs _ rest (w, false)) as [[a|e] [w' h]]; [|done].
    destruct (_ || _); [done|]. etransitivity; [exact Hp|]. by apply run_hooks_keeps. }
  destruct (execute ps cmd rest w) as [[u|e] w']; [done|]. by destruct (errors_Is e ErrHelp).
Qed.
End preserved.
