(* ===== verification/Vm.v ===== *)
(** * The VM package (vm/)

    The parsers set up by [init] (over hypersdk/codec/type_parser.go), the
    balance method of the JSON-RPC server, and its client with the cached
    genesis.  What the chain library provides (auth decoders, the requests
    themselves) is an argument.  Node.v has the rest of the server and what
    the VM is made of. *)

From S2P Require Import Prelude GoErrors Lib Consts Packer LinearCodec Store StorageKeys Balances BuyYes BuyNo CreateMarket.
#[local] Open Scope Z_scope.

(** ** codec.TypeParser *)

Definition ErrTooManyItems : error := ErrVar "codec.ErrTooManyItems" "too many items".
Definition ErrDuplicateItem : error := ErrVar "codec.ErrDuplicateItem" "duplicate item".
Definition MaxUint8 : Z := 255.

Record TypeParser (T : Type) := mkTypeParser {
  indexToDecoder : gmap Z (bytes -> result T);
  registeredTypes : list Z;
}.
Arguments mkTypeParser {T}.
Arguments indexToDecoder {T}.
Arguments registeredTypes {T}.

Section type_parser.
Context {T : Type}.

Definition NewTypeParser : TypeParser T := mkTypeParser ∅ [].

(** The instance counts by its type ID. *)
Definition Register (typeID : Z) (f : bytes -> result T) (p : TypeParser T)
  : option error * TypeParser T :=
  if Z.of_nat (size (indexToDecoder p)) =? MaxUint8 + 1 then (Some ErrTooManyItems, p)
  else match indexToDecoder p !! typeID with
  | Some _ => (Some ErrDuplicateItem, p)
  | None => (None, mkTypeParser (<[typeID := f]> (indexToDecoder p)) (registeredTypes p ++ [typeID]))
  end.

Definition Unmarshal (p : TypeParser T) (b : bytes) : result T :=
  match b with
  | [] => Err (ErrFresh "typeID not found in slice with length 0")
  | typeID :: _ =>
      match indexToDecoder p !! typeID with
      | None => Err (ErrFresh ("typeID " +:+ fmt_d typeID +:+ " not found"))
      | Some decoder => decoder b
      end
  end.
End type_parser.

(** ** init *)

(** [chain.Action] values. *)
Inductive action :=
| ABuyYes (b : BuyYes)
| ABuyNo (b : BuyNo)
| ACreateMarket (cm : CreateMarket).

Definition action_GetTypeID (a : action) : Z :=
  match a with
  | ABuyYes _ => BuyYes_GetTypeID
  | ABuyNo _ => BuyNo_GetTypeID
  | ACreateMarket _ => CreateMarket_GetTypeID
  end.

Definition action_Bytes (a : action) : outcome bytes :=
  match a with
  | ABuyYes b => Returns (BuyYes_Bytes b)
  | ABuyNo b => Returns (BuyNo_Bytes b)
  | ACreateMarket cm => CreateMarket_Bytes cm
  end.

Definition decode_BuyYes (b : bytes) : result action :=
  action ← UnmarshalBuyYes b;
  Ok (ABuyYes action).

(** hypersdk/auth/consts.go. *)
Definition ED25519ID : Z := 0.
Definition SECP256R1ID : Z := 1.
Definition BLSID : Z := 2.

Record parsers (Auth : Type) := mkParsers {
  ActionParser : TypeParser action;
  AuthParser : TypeParser Auth;
}.
Arguments mkParsers {Auth}.
Arguments ActionParser {Auth}.
Arguments AuthParser {Auth}.

Section init.
Context {Auth : Type}.
(** The decoders and the registration of key factories come from
    hypersdk/auth. *)
Variables (UnmarshalED25519 UnmarshalSECP256R1 UnmarshalBLS : bytes -> result Auth).
Variable (WithDefaultPrivateKeyFactories : option error).

Definition init : outcome (parsers Auth) :=
  match WithDefaultPrivateKeyFactories with
  | Some err => Panics err
  | None =>
      let '(e1, actionParser) := Register BuyYes_GetTypeID decode_BuyYes NewTypeParser in
      let '(e2, authParser) := Register ED25519ID UnmarshalED25519 NewTypeParser in
      let '(e3, authParser) := Register SECP256R1ID UnmarshalSECP256R1 authParser in
      let '(e4, authParser) := Register BLSID UnmarshalBLS authParser in
      match errors_Join [e1; e2; e3; e4] with
      | Some err => Panics err
      | None => Returns (mkParsers actionParser authParser)
      end
  end.
End init.

(** ** server.go *)

Definition JSONRPCEndpoint : string := "/predictionapi".

Record BalanceReply := mkBalanceReply { Amount : Z }.

(** The error, and the reply object afterwards. *)
Definition JSONRPCServer_Balance (readState : ReadState) (address : bytes) (reply : BalanceReply)
  : outcome (option error * BalanceReply) :=
  match GetBalanceFromState readState address with
  | Panics e => Panics e
  | Returns (balance, Some err) => Returns (Some err, reply)
  | Returns (balance, None) => Returns (None, mkBalanceReply balance)
  end.

(** ** client.go *)

(** [strings.TrimSuffix(uri, "/")]. *)
Fixpoint TrimSuffix_slash (s : string) : string :=
  match s with
  | EmptyString => EmptyString
  | String c t => if decide (s = "/") then EmptyString else String c (TrimSuffix_slash t)
  end.

(** The client: where requests go, and the two caches ([None] is nil). *)
Record JSONRPCClient (G R : Type) := mkClient {
  cli_uri : string;
  cli_g : option G;
  cli_ruleFactory : option R;
}.
Arguments mkClient {G R}.
Arguments cli_uri {G R}.
Arguments cli_g {G R}.
Arguments cli_ruleFactory {G R}.

Section client.
(** Genesis values, rule factories, and the outside world requests act on. *)
Context {G R W : Type}.
Variable (ImmutableRuleFactory : G -> R).
(** A request for the genesis: the pointer in the reply, which a server may
    leave nil. *)
Variable (SendGenesisRequest : string -> W -> result (option G) * W).
Variable (SendBalanceRequest : string -> bytes -> W -> result Z * W).

Definition NewJSONRPCClient (uri : string) : JSONRPCClient G R :=
  mkClient (TrimSuffix_slash uri +:+ JSONRPCEndpoint) None None.

Definition Genesis : GoM (JSONRPCClient G R * W) (option G) := fun '(cli, w) =>
  match cli_g cli with
  | Some g => (Ok (Some g), (cli, w))
  | None =>
      match SendGenesisRequest (cli_uri cli) w with
      | (Err err, w) => (Err err, (cli, w))
      | (Ok g, w) => (Ok g, (mkClient (cli_uri cli) g (cli_ruleFactory cli), w))
      end
  end.

Definition nil_dereference : error :=
  ErrFresh "runtime error: invalid memory address or nil pointer dereference".

Definition GetRuleFactory (s : JSONRPCClient G R * W) : outcome (result R * (JSONRPCClient G R * W)) :=
  match cli_ruleFactory (fst s) with
  | Some rf => Returns (Ok rf, s)
  | None =>
      match Genesis s with
      | (Err err, s) => Returns (Err err, s)
      | (Ok None, s) => Panics nil_dereference
      | (Ok (Some g), (cli, w)) =>
          let rf := ImmutableRuleFactory g in
          Returns (Ok rf, (mkClient (cli_uri cli) (cli_g cli) (Some rf), w))
      end
  end.

Definition Client_Balance (addr : bytes) : GoM (JSONRPCClient G R * W) Z := fun '(cli, w) =>
  let '(r, w) := SendBalanceRequest (cli_uri cli) addr w in (r, (cli, w)).

(** [jsonrpc.Wait]: [ctx_Err i] is the state of the context before the
    [i]-th check.  The loop has no bound of its own. *)
Fixpoint Wait (fuel : nat) (i : nat) (ctx_Err : nat -> option error)
    (check : GoM (JSONRPCClient G R * W) bool) (s : JSONRPCClient G R * W)
  : option (option error * (JSONRPCClient G R * W)) :=
  match fuel with
  | O => None
  | S fuel =>
      match ctx_Err i with
      | Some err => Some (Some err, s)
      | None =>
          match check s with
          | (Err err, s) => Some (Some err, s)
          | (Ok true, s) => Some (None, s)
          | (Ok false, s) => Wait fuel (S i) ctx_Err check s
          end
      end
  end.

Definition check_balance (addr : bytes) (min : Z) : GoM (JSONRPCClient G R * W) bool :=
  balance ← Client_Balance addr;
  mret (min <=? balance).

Definition WaitForBalance (fuel : nat) (ctx_Err : nat -> option error) (addr : bytes) (min : Z) :=
  Wait fuel 0 ctx_Err (check_balance addr min).
End client.
