(* ===== verification/KeyStore.v ===== *)
(** * Keys and their database (hypersdk/auth/provider.go, hypersdk/cli/storage.go)

    The key types the client knows, and the pebble database its handler keeps
    keys, the default key and chains in.  Curves and hashes are the class
    [Crypto]; the errors the database may give are the class [DbFaults]. *)

From stdpp Require Import sorting.
From S2P Require Import Prelude GoErrors Lib Consts Vm.
#[local] Open Scope Z_scope.

(** ** The cryptography that is not the program's *)

Class Crypto := {
  ToID : bytes -> bytes;
  secp256r1_PublicKey : bytes -> bytes;
  bls_PrivateKeyFromBytes : bytes -> result bytes;
  bls_PublicKeyToBytes : bytes -> bytes;
}.

(** A SHA-256 digest has 32 bytes. *)
Class LawfulCrypto (c : Crypto) : Prop := ToID_length b : length (ToID b) = 32%nat.

Definition ed25519_PrivateKeyLen : nat := 64.
Definition ed25519_PrivateKeySeedLen : nat := 32.
Definition secp256r1_PrivateKeyLen : nat := 32.
Definition bls_PrivateKeyLen : nat := 32.

(** The public half of an ed25519 private key. *)
Definition ed25519_PublicKey (p : bytes) : bytes := drop ed25519_PrivateKeySeedLen p.

(** [codec.CreateAddress]. *)
Definition CreateAddress (typeID : Z) (id : bytes) : bytes :=
  copy_at 1 id (set_byte 0 typeID (make_bytes AddressLen)).

(** ** auth.AuthProvider *)

Definition ErrAlreadyRegisteredKeyType : error :=
  ErrVar "auth.ErrAlreadyRegisteredKeyType" "already registered key type".
Definition ErrInvalidPrivateKeySize : error :=
  ErrVar "auth.ErrInvalidPrivateKeySize" "invalid private key size".
Definition auth_ErrInvalidKeyType : error := ErrVar "auth.ErrInvalidKeyType" "invalid key type".

Definition ED25519Key : string := "ed25519".
Definition Secp256r1Key : string := "secp256r1".
Definition BLSKey : string := "bls".

Record PrivateKey := mkPrivateKey { pk_Address : bytes; pk_Bytes : bytes }.

(** The implementations of [PrivateKeyFactory]. *)
Inductive PrivateKeyFactory :=
| ED25519PrivateKeyFactory
| SECP256R1PrivateKeyFactory
| BLSPrivateKeyFactory.

Abbreviation AuthProvider := (gmap string PrivateKeyFactory).

Definition NewAuthProvider : AuthProvider := ∅.

Definition provider_Register (key : string) (f : PrivateKeyFactory) (p : AuthProvider)
  : option error * AuthProvider :=
  match p !! key with
  | Some _ => (Some (Errorf_w "" ErrAlreadyRegisteredKeyType (": " +:+ key)), p)
  | None => (None, <[key := f]> p)
  end.

Definition WithDefaultPrivateKeyFactories (p : AuthProvider) : option error * AuthProvider :=
  let '(e1, p) := provider_Register ED25519Key ED25519PrivateKeyFactory p in
  let '(e2, p) := provider_Register Secp256r1Key SECP256R1PrivateKeyFactory p in
  let '(e3, p) := provider_Register BLSKey BLSPrivateKeyFactory p in
  (errors_Join [e1; e2; e3], p).

(** [vm.AuthProvider] after [init]. *)
Definition vm_AuthProvider : AuthProvider := snd (WithDefaultPrivateKeyFactories NewAuthProvider).

Definition CheckType (p : AuthProvider) (key : string) : option error :=
  match p !! key with
  | Some _ => None
  | None => Some (Errorf_w "" auth_ErrInvalidKeyType (": " +:+ key))
  end.

Section factories.
Context `{Crypto}.

Definition NewED25519Address (pk : bytes) : bytes := CreateAddress ED25519ID (ToID pk).
Definition NewSECP256R1Address (pk : bytes) : bytes := CreateAddress SECP256R1ID (ToID pk).
Definition NewBLSAddress (pk : bytes) : bytes := CreateAddress BLSID (ToID pk).

(** [random]: the bytes of the private key the curve's library generates, or
    its error. *)
Definition factory_GeneratePrivateKey (f : PrivateKeyFactory) (random : result bytes) : result PrivateKey :=
  p ← random;
  Ok (mkPrivateKey
        match f with
        | ED25519PrivateKeyFactory => NewED25519Address (ed25519_PublicKey p)
        | SECP256R1PrivateKeyFactory => NewSECP256R1Address (secp256r1_PublicKey p)
        | BLSPrivateKeyFactory => NewBLSAddress (bls_PublicKeyToBytes p)
        end p).

Definition factory_LoadPrivateKey (f : PrivateKeyFactory) (p : bytes) : result PrivateKey :=
  match f with
  | ED25519PrivateKeyFactory =>
      if decide (length p <> ed25519_PrivateKeyLen) then Err ErrInvalidPrivateKeySize
      else Ok (mkPrivateKey (NewED25519Address (ed25519_PublicKey p)) p)
  | SECP256R1PrivateKeyFactory =>
      if decide (length p <> secp256r1_PrivateKeyLen) then Err ErrInvalidPrivateKeySize
      else Ok (mkPrivateKey (NewSECP256R1Address (secp256r1_PublicKey p)) p)
  | BLSPrivateKeyFactory =>
      if decide (length p <> bls_PrivateKeyLen) then Err ErrInvalidPrivateKeySize
      else
        privKey ← bls_PrivateKeyFromBytes p;
        Ok (mkPrivateKey (NewBLSAddress (bls_PublicKeyToBytes privKey)) p)
  end.

Definition GeneratePrivateKey (p : AuthProvider) (key : string) (random : result bytes) : result PrivateKey :=
  match p !! key with
  | Some f => factory_GeneratePrivateKey f random
  | None => Err (Errorf_w "" auth_ErrInvalidKeyType (": " +:+ key))
  end.

(** [ReadFile]: [os.ReadFile]. *)
Definition LoadPrivateKey (p : AuthProvider) (ReadFile : string -> result bytes) (key path : string)
  : result PrivateKey :=
  match p !! key with
  | None => Err (Errorf_w "" auth_ErrInvalidKeyType (": " +:+ key))
  | Some f =>
      privateKey ← ReadFile path;
      factory_LoadPrivateKey f privateKey
  end.
End factories.

(** ** The database *)

Abbreviation Db := (gmap bytes bytes).

(** What pebble may answer besides a success: nothing, when it works. *)
Class DbFaults := {
  open_fault : string -> option error;
  has_fault : bytes -> option error;
  get_fault : bytes -> option error;
  put_fault : bytes -> bytes -> option error;
  delete_fault : bytes -> option error;
  iter_fault : bytes -> option error;
  close_fault : string -> option error;
}.

Definition no_faults : DbFaults := {|
  open_fault _ := None; has_fault _ := None; get_fault _ := None; put_fault _ _ := None;
  delete_fault _ := None; iter_fault _ := None; close_fault _ := None;
|}.

Definition ErrDuplicate : error := ErrVar "cli.ErrDuplicate" "duplicate".
Definition ErrNoChains : error := ErrVar "cli.ErrNoChains" "no available chains".
Definition ErrNoKeys : error := ErrVar "cli.ErrNoKeys" "no available keys".

Definition defaultPrefix : Z := 0.
Definition keyPrefix : Z := 1.
Definition chainPrefix : Z := 2.
Definition defaultKeyKey : string := "key".
Definition defaultChainKey : string := "chain".

(** [k := make([]byte, 1+n); k[0] = prefix; copy(k[1:], rest)]. *)
Definition prefixed (prefix : Z) (n : nat) (rest : bytes) : bytes :=
  copy_at 1 rest (set_byte 0 prefix (make_bytes (1 + n))).

Definition default_key (key : string) : bytes :=
  prefixed defaultPrefix (String.length key) (bytes_of_string key).
Definition key_key (addr : bytes) : bytes := prefixed keyPrefix AddressLen addr.

(** A slice converted to an array panics when it is shorter. *)
Definition short_slice (len n : nat) : error :=
  ErrFresh ("runtime error: cannot convert slice with length " +:+ fmt_d (Z.of_nat len)
    +:+ " to array or pointer to array with length " +:+ fmt_d (Z.of_nat n)).

(** A panic ends a run like an error that nothing handles, and is kept as one;
    [is_panic] tells it from the errors a function returns. *)
Definition panicked (e : error) : error := ErrVar "runtime panic" (Error e).

Definition is_panic (e : error) : bool :=
  match e with ErrVar name _ => bool_decide (name = "runtime panic") | _ => false end.

Definition returned {S A} (x : outcome (result A)) : GoM S A :=
  match x with
  | Returns r => lift r
  | Panics e => fail (panicked e)
  end.

Section database.
Context `{DbFaults}.

Definition db_Has (k : bytes) : GoM Db bool := fun db =>
  match has_fault k with
  | Some err => (Err err, db)
  | None => (Ok (bool_decide (is_Some (db !! k))), db)
  end.

Definition db_Get (db : Db) (k : bytes) : result bytes :=
  match get_fault k with
  | Some err => Err err
  | None => match db !! k with Some v => Ok v | None => Err ErrNotFound end
  end.

Definition db_Put (k v : bytes) : GoM Db unit := fun db =>
  match put_fault k v with
  | Some err => (Err err, db)
  | None => (Ok tt, <[k := v]> db)
  end.

Definition db_Delete (k : bytes) : GoM Db unit := fun db =>
  match delete_fault k with
  | Some err => (Err err, db)
  | None => (Ok tt, delete k db)
  end.

Definition StoreDefault (key : string) (value : bytes) : GoM Db unit := db_Put (default_key key) value.

(** A missing default is nil. *)
Definition GetDefault (db : Db) (key : string) : result bytes :=
  match db_Get db (default_key key) with
  | Err err => if errors_Is err ErrNotFound then Ok [] else Err err
  | Ok v => Ok v
  end.

Definition StoreKey (priv : PrivateKey) : GoM Db unit :=
  let k := key_key (pk_Address priv) in
  has ← db_Has k;
  fail_if has ErrDuplicate;;
  db_Put k (pk_Bytes priv).

Definition GetKey (db : Db) (addr : bytes) : result bytes :=
  match db_Get db (key_key addr) with
  | Err err => if errors_Is err ErrNotFound then Ok [] else Err err
  | Ok v => Ok v
  end.

Definition StoreDefaultKey (addr : bytes) : GoM Db unit := StoreDefault defaultKeyKey addr.

Definition GetDefaultKey (db : Db) : outcome (result (bytes * bytes)) :=
  match GetDefault db defaultKeyKey with
  | Err err => Returns (Err err)
  | Ok raddr =>
      if decide (raddr = []) then Returns (Err ErrNoKeys)
      else if decide (length raddr < AddressLen)%nat then Panics (short_slice (length raddr) AddressLen)
      else
        let addr := take AddressLen raddr in
        Returns (priv ← GetKey db addr; Ok (addr, priv))
  end.

(** The iterator over a prefix, in the order of the keys. *)
Fixpoint bytes_le (a b : bytes) : bool :=
  match a, b with
  | [], _ => true
  | _ :: _, [] => false
  | x :: a, y :: b => (x <? y) || ((x =? y) && bytes_le a b)
  end.

Definition key_le (p q : bytes * bytes) : Prop := bytes_le p.1 q.1 = true.

#[export] Instance key_le_dec : RelDecision key_le.
Proof. intros p q. unfold key_le. apply _. Defined.

Definition NewIteratorWithPrefix (db : Db) (prefix : bytes) : list (bytes * bytes) :=
  merge_sort key_le
    (List.filter (fun p => bool_decide (take (length prefix) p.1 = prefix)) (map_to_list db)).

Definition GetChain (db : Db) (chainID : bytes) : result (list string) :=
  let k := prefixed chainPrefix IDLen chainID in
  match iter_fault k with
  | Some err => Err err
  | None => Ok (map (fun p => string_of_bytes p.2) (NewIteratorWithPrefix db k))
  end.

Definition GetDefaultChain (db : Db) : outcome (result (bytes * list string)) :=
  match GetDefault db defaultChainKey with
  | Err err => Returns (Err err)
  | Ok v =>
      if decide (v = []) then Returns (Err ErrNoChains)
      else if decide (length v < IDLen)%nat then Panics (short_slice (length v) IDLen)
      else
        let chainID := take IDLen v in
        Returns (uris ← GetChain db chainID; Ok (chainID, uris))
  end.

Definition StoreDefaultChain (chainID : bytes) : GoM Db unit := StoreDefault defaultChainKey chainID.

Definition chain_key `{Crypto} (chainID : bytes) (rpc : string) : bytes :=
  copy_at (1 + IDLen) (ToID (bytes_of_string rpc)) (prefixed chainPrefix (IDLen * 2) chainID).

Definition StoreChain `{Crypto} (chainID : bytes) (rpc : string) : GoM Db unit :=
  let k := chain_key chainID rpc in
  has ← db_Has k;
  fail_if has ErrDuplicate;;
  db_Put k (bytes_of_string rpc).

(** The keys of a listing; a database key that is too short for an address
    panics. *)
Fixpoint private_keys (l : list (bytes * bytes)) : outcome (list PrivateKey) :=
  match l with
  | [] => Returns []
  | (k, v) :: l =>
      if decide (length (tail k) < AddressLen)%nat then Panics (short_slice (length (tail k)) AddressLen)
      else
        match private_keys l with
        | Panics e => Panics e
        | Returns keys => Returns (mkPrivateKey (take AddressLen (tail k)) v :: keys)
        end
  end.

Definition GetKeys (db : Db) : outcome (result (list PrivateKey)) :=
  match iter_fault [keyPrefix] with
  | Some err => Returns (Err err)
  | None =>
      match private_keys (NewIteratorWithPrefix db [keyPrefix]) with
      | Panics e => Panics e
      | Returns keys => Returns (Ok keys)
      end
  end.

(** The chains of a listing, each with its URIs in the order of the keys. *)
Fixpoint chains_from (l : list (bytes * bytes)) (chains : gmap bytes (list string))
  : outcome (gmap bytes (list string)) :=
  match l with
  | [] => Returns chains
  | (k, v) :: l =>
      if decide (length k < 1 + IDLen)%nat then Panics (slice_bounds (1 + IDLen) (length k))
      else
        let chainID := take IDLen (tail k) in
        chains_from l (<[chainID := default [] (chains !! chainID) ++ [string_of_bytes v]]> chains)
  end.

Definition GetChains (db : Db) : outcome (result (gmap bytes (list string))) :=
  match iter_fault [chainPrefix] with
  | Some err => Returns (Err err)
  | None =>
      match chains_from (NewIteratorWithPrefix db [chainPrefix]) ∅ with
      | Panics e => Panics e
      | Returns chains => Returns (Ok chains)
      end
  end.

(** The inner loop of [DeleteChains]. *)
Fixpoint delete_rpcs `{Crypto} (chainID : bytes) (rpcs : list string) : GoM Db unit :=
  match rpcs with
  | [] => mret tt
  | rpc :: rpcs => db_Delete (chain_key chainID rpc);; delete_rpcs chainID rpcs
  end.

Fixpoint delete_chains `{Crypto} (chains : list (bytes * list string)) : GoM Db (list bytes) :=
  match chains with
  | [] => mret []
  | (chainID, rpcs) :: chains =>
      delete_rpcs chainID rpcs;;
      chainIDs ← delete_chains chains;
      mret (chainID :: chainIDs)
  end.

(** [map_order]: the order in which the map is ranged over. *)
Definition DeleteChains `{Crypto} (map_order : forall A, list A -> list A) : GoM Db (list bytes) := fun db =>
  (chains ← returned (GetChains db); delete_chains (map_order _ (map_to_list chains))) db.
End database.

(** ** Lemmas *)

Lemma vm_AuthProvider_ok : fst (WithDefaultPrivateKeyFactories NewAuthProvider) = None.
Proof. vm_compute. reflexivity. Qed.

Lemma prefixed_eq prefix n rest : length rest = n -> prefixed prefix n rest = prefix :: rest.
Proof.
  intros Hl. unfold prefixed, make_bytes, set_byte. cbn [replicate Nat.add].
  change (<[0%nat := prefix]> (0 :: replicate n 0)) with ([prefix] ++ replicate n 0).
  rewrite <- (app_nil_r (replicate n 0)), copy_at_app; [by rewrite app_nil_r|done|].
  by rewrite length_replicate.
Qed.

Lemma key_key_eq addr : length addr = AddressLen -> key_key addr = keyPrefix :: addr.
Proof. apply prefixed_eq. Qed.

Lemma default_key_eq key : default_key key = defaultPrefix :: bytes_of_string key.
Proof. apply prefixed_eq, length_bytes_of_string. Qed.

Lemma CreateAddress_eq typeID id : length id = 32%nat -> CreateAddress typeID id = typeID :: id.
Proof. apply (prefixed_eq typeID 32). Qed.
