(* ===== verification/Node.v ===== *)
(** * The node: what the VM is made of and what it serves

    vm/server.go and vm/option.go, [NewFactory] and [New] of vm/vm.go, and
    cmd/predictionvm, with the parts of hypersdk they are plugged into:
    vm/option.go, vm/factory.go, the options of vm/defaultvm, and what
    [VM.Initialize] does with options and APIs.  The network between client
    and node is at the end. *)

From S2P Require Import Prelude GoErrors Lib Consts Store Balances Controller Genesis Strconv Cobra Vm KeyStore.
#[local] Open Scope Z_scope.

#[local] Existing Instance state_Immutable.

(** ** hypersdk/api *)

(** [genesis.Genesis], by dynamic type. *)
Inductive GenesisValue :=
| IsDefaultGenesis (g : DefaultGenesis)
| IsOtherGenesis.

(** [api.VM], as the APIs here use it: [V] is a reference to a VM, [W] the
    world in which its state changes. *)
Class ApiVM (V W : Type) := {
  GetDataDir : V -> string;
  GetGenesisBytes : V -> bytes;
  VM_Genesis : V -> W -> GenesisValue;
  VM_ReadState : V -> W -> ReadState;
}.

(** ** server.go *)

Record JSONRPCServer (V : Type) := mkServer { server_vm : V }.
Arguments mkServer {V}.
Arguments server_vm {V}.

Definition NewJSONRPCServer {V} (vm : V) : JSONRPCServer V := mkServer vm.

Record GenesisReply := mkGenesisReply { gr_Genesis : option DefaultGenesis }.
Record BalanceArgs := mkBalanceArgs { ba_Address : bytes }.

Definition bad_assertion : error :=
  ErrFresh "interface conversion: genesis.Genesis is not *genesis.DefaultGenesis".

Section server.
Context {V W : Type} `{ApiVM V W}.

Definition JSONRPCServer_Genesis (j : JSONRPCServer V) (w : W) (reply : GenesisReply)
  : outcome (option error * GenesisReply) :=
  match VM_Genesis (server_vm j) w with
  | IsDefaultGenesis g => Returns (None, mkGenesisReply (Some g))
  | IsOtherGenesis => Panics bad_assertion
  end.

Definition JSONRPCServer_Balance (j : JSONRPCServer V) (w : W) (args : BalanceArgs) (reply : BalanceReply)
  : outcome (option error * BalanceReply) :=
  Vm.JSONRPCServer_Balance (VM_ReadState (server_vm j) w) (ba_Address args) reply.
End server.

(** The services registered by the program and by hypersdk's APIs. *)
Inductive Service (V : Type) :=
| PredictionService (j : JSONRPCServer V)
| CoreService (vm : V)
| CoreStateService (vm : V)
| IndexerService (path : string).
Arguments PredictionService {V}.
Arguments CoreService {V}.
Arguments CoreStateService {V}.
Arguments IndexerService {V}.

(** [http.Handler]: the server of one named service, or the web socket. *)
Inductive HttpHandler (V : Type) :=
| JSONRPCHandler (name : string) (service : Service V)
| WebSocketHandler (maxPendingMessages : Z).
Arguments JSONRPCHandler {V}.
Arguments WebSocketHandler {V}.

Record Handler (V : Type) := mkHandler { h_Path : string; h_Handler : HttpHandler V }.
Arguments mkHandler {V}.
Arguments h_Path {V}.
Arguments h_Handler {V}.

(** ** hypersdk/vm/option.go *)

(** [event.SubscriptionFactory] values. *)
Inductive Subscription := IndexerSubscription | WebSocketSubscription | ExternalSubscription.

(** [api.HandlerFactory]: the handler comes with the error. *)
Definition HandlerFactory (V : Type) : Type := V -> Handler V * option error.

Record Options (V : Type) := mkOptions {
  opt_builder : bool;
  opt_gossiper : bool;
  blockSubscriptionFactories : list Subscription;
  vmAPIHandlerFactories : list (HandlerFactory V);
}.
Arguments mkOptions {V}.
Arguments opt_builder {V}.
Arguments opt_gossiper {V}.
Arguments blockSubscriptionFactories {V}.
Arguments vmAPIHandlerFactories {V}.

(** [Opt], by its method [apply]. *)
Definition Opt (V : Type) : Type := Options V -> Options V.

Record VMOption (V : Type) := mkOption {
  opt_Namespace : string;
  optionFunc : V -> bytes -> result (Opt V);
}.
Arguments mkOption {V}.
Arguments opt_Namespace {V}.
Arguments optionFunc {V}.

(** encoding/json into a value of [C] that holds the defaults. *)
Class JSONConfig (C : Type) := UnmarshalConfig : bytes -> C -> result C.

Section options.
Context {V : Type}.

(** The configuration is decoded into a copy of the default made when the
    option is, so this is the option of a VM that is initialized once. *)
Definition NewOption {C} `{JSONConfig C} `{Quoting} (namespace : string) (defaultConfig : C)
    (f : V -> C -> result (Opt V)) : VMOption V :=
  mkOption namespace (fun vm configBytes =>
    config ←
      (if (0 <? length configBytes)%nat then
         match UnmarshalConfig configBytes defaultConfig with
         | Err err => Err (Errorf_w ("failed to unmarshal " +:+ Quote namespace +:+ " config "
                       +:+ Quote (string_of_bytes configBytes) +:+ ": ") err "")
         | Ok config => Ok config
         end
       else Ok defaultConfig);
    f vm config).

Definition WithBuilder : Opt V := fun o =>
  mkOptions true (opt_gossiper o) (blockSubscriptionFactories o) (vmAPIHandlerFactories o).

Definition WithGossiper : Opt V := fun o =>
  mkOptions (opt_builder o) true (blockSubscriptionFactories o) (vmAPIHandlerFactories o).

Definition WithBlockSubscriptions (subscriptions : list Subscription) : Opt V := fun o =>
  mkOptions (opt_builder o) (opt_gossiper o) (blockSubscriptionFactories o ++ subscriptions)
    (vmAPIHandlerFactories o).

Definition WithVMAPIs (apiHandlerFactories : list (HandlerFactory V)) : Opt V := fun o =>
  mkOptions (opt_builder o) (opt_gossiper o) (blockSubscriptionFactories o)
    (vmAPIHandlerFactories o ++ apiHandlerFactories).

Definition NewOpt (opts : list (Opt V)) : Opt V := fun o => foldl (fun o opt => opt o) o opts.
End options.

(** ** option.go, and the default options of hypersdk *)

Definition Namespace : string := "controller".

(** The same struct in vm/option.go, api/jsonrpc and api/state. *)
Record Config := mkConfig { Enabled : bool }.
Definition NewDefaultConfig : Config := mkConfig true.

Record IndexerConfig := mkIndexerConfig { ix_Enabled : bool; ix_BlockWindow : Z }.
Record WsConfig := mkWsConfig { ws_Enabled : bool; ws_MaxPendingMessages : Z }.
Record SubscriberConfig := mkSubscriberConfig { sub_Enabled : bool; sub_ServerAddress : string }.

(** What lies behind the VM: the registration of a service with the RPC
    library, the indexer's database, the connection to a subscriber, and
    the ABI made by reflection from the registered types. *)
Class Services (V : Type) := {
  RegisterService : string -> Service V -> option error;
  NewIndexer : string -> Z -> option error;
  NewExternalSubscriberClient : string -> bytes -> option error;
  NewABI : list Z -> list Z -> option error;
}.

(** filepath.Join of two parts, the second a name. *)
Definition path_join (dir name : string) : string :=
  if decide (dir = EmptyString) then name else dir +:+ "/" +:+ name.

Section node.
Context {V W : Type} `{ApiVM V W} `{Services V} `{Quoting}.
Context `{JSONConfig Config} `{JSONConfig IndexerConfig} `{JSONConfig WsConfig}
  `{JSONConfig SubscriberConfig}.

(** api/utils.go *)
Definition NewJSONRPCHandler (name : string) (service : Service V) : HttpHandler V * option error :=
  (JSONRPCHandler name service, RegisterService name service).

Definition jsonRPCServerFactory_New : HandlerFactory V := fun vm =>
  let '(handler, err) := NewJSONRPCHandler Consts.Name (PredictionService (NewJSONRPCServer vm)) in
  (mkHandler JSONRPCEndpoint handler, err).

Definition With : VMOption V :=
  NewOption Namespace NewDefaultConfig (fun _ config =>
    Ok (if negb (Enabled config) then NewOpt [] else WithVMAPIs [jsonRPCServerFactory_New])).

(** The factories of hypersdk return an empty handler with an error. *)
Definition library_API (name : string) (path : string) (service : V -> Service V) : HandlerFactory V := fun vm =>
  let '(handler, err) := NewJSONRPCHandler name (service vm) in
  match err with
  | Some err => (mkHandler EmptyString handler, Some err)
  | None => (mkHandler path handler, None)
  end.

Definition indexer_With : VMOption V :=
  NewOption "indexer" (mkIndexerConfig true 1024) (fun vm config =>
    if negb (ix_Enabled config) then Ok (NewOpt [])
    else
      let path := path_join (GetDataDir vm) "indexer" in
      match NewIndexer path (ix_BlockWindow config) with
      | Some err => Err err
      | None => Ok (NewOpt [WithBlockSubscriptions [IndexerSubscription];
                            WithVMAPIs [library_API "indexer" "/indexer" (fun _ => IndexerService path)]])
      end).

Definition ws_With : VMOption V :=
  NewOption "websocket" (mkWsConfig true 10000000) (fun _ config =>
    if negb (ws_Enabled config) then Ok (NewOpt [])
    else Ok (NewOpt [WithBlockSubscriptions [WebSocketSubscription];
           WithVMAPIs [fun _ => (mkHandler "/corews" (WebSocketHandler (ws_MaxPendingMessages config)), None)]])).

Definition jsonrpc_With : VMOption V :=
  NewOption "core" NewDefaultConfig (fun _ config =>
    Ok (if negb (Enabled config) then NewOpt [] else WithVMAPIs [library_API "hypersdk" "/coreapi" CoreService])).

Definition externalsubscriber_With : VMOption V :=
  NewOption "externalSubscriber" (mkSubscriberConfig false EmptyString) (fun vm config =>
    if negb (sub_Enabled config) then Ok (NewOpt [])
    else match NewExternalSubscriberClient (sub_ServerAddress config) (GetGenesisBytes vm) with
         | Some err => Err (Errorf_w "failed to create external subscriber client: " err "")
         | None => Ok (WithBlockSubscriptions [ExternalSubscription])
         end).

Definition staterpc_With : VMOption V :=
  NewOption "corestate" NewDefaultConfig (fun _ config =>
    Ok (if negb (Enabled config) then NewOpt []
        else WithVMAPIs [library_API "hypersdk" "/corestate" CoreStateService])).

(** defaultvm.NewDefaultOptions *)
Definition NewDefaultOptions : list (VMOption V) :=
  [indexer_With; ws_With; jsonrpc_With; externalsubscriber_With; staterpc_With].

(** ** vm.go: NewFactory and New *)

Context {Auth : Type}.

(** The components a VM is built from; the genesis factory is always
    [DefaultGenesisFactory], and the output parser has no types. *)
Record Factory := mkFactory {
  balanceHandler : Controller;
  codecs : parsers Auth;
  outputTypes : list Z;
  f_options : list (VMOption V);
}.

(** The parsers are the package variables [init] fills. *)
Definition NewFactory (p : parsers Auth) : Factory :=
  mkFactory Controller.New p (registeredTypes (NewTypeParser (T := unit))) NewDefaultOptions.

(** [hypersdk/vm.VM], before it is initialized. *)
Record VM := mkVM {
  vm_balanceHandler : Controller;
  vm_codecs : parsers Auth;
  vm_options : list (VMOption V);
}.

Fixpoint allocate_namespaces (allocated : gset string) (options : list (VMOption V)) : option error :=
  match options with
  | [] => None
  | option :: options =>
      if decide (opt_Namespace option ∈ allocated)
      then Some (ErrFresh ("namespace " +:+ opt_Namespace option +:+ " already allocated"))
      else allocate_namespaces ({[opt_Namespace option]} ∪ allocated) options
  end.

Definition Factory_New (f : Factory) (options : list (VMOption V)) : result VM :=
  let options := f_options f ++ options in
  match allocate_namespaces ∅ options with
  | Some err => Err err
  | None =>
      match NewABI (registeredTypes (ActionParser (codecs f))) (outputTypes f) with
      | Some err => Err (Errorf_w "failed to construct ABI: " err "")
      | None => Ok (mkVM (balanceHandler f) (codecs f) options)
      end
  end.

Definition New (p : parsers Auth) (options : list (VMOption V)) : result VM :=
  Factory_New (NewFactory p) options.

(** ** VM.Initialize: options and APIs *)

(** [rawConfig] is [GetRawConfig]: no bytes for a namespace without one. *)
Fixpoint apply_options (vm : V) (rawConfig : string -> bytes) (options : list (VMOption V)) (o : Options V)
  : result (Options V) :=
  match options with
  | [] => Ok o
  | option :: options =>
      opt ← optionFunc option vm (rawConfig (opt_Namespace option));
      apply_options vm rawConfig options (opt o)
  end.

(** [AddHandler] puts the handler under its path, over another one. *)
Fixpoint add_handlers (vm : V) (factories : list (HandlerFactory V)) (handlers : gmap string (HttpHandler V))
  : result (gmap string (HttpHandler V)) :=
  match factories with
  | [] => Ok handlers
  | apiFactory :: factories =>
      match apiFactory vm with
      | (_, Some err) => Err (Errorf_w "failed to initialize api: " err "")
      | (api, None) => add_handlers vm factories (<[h_Path api := h_Handler api]> handlers)
      end
  end.

(** What the node serves once the VM has been initialized.  The other steps
    of [Initialize] neither read nor add handlers. *)
Definition CreateHandlers (vm : V) (rawConfig : string -> bytes) (v : VM)
  : result (gmap string (HttpHandler V)) :=
  o ← apply_options vm rawConfig (vm_options v) (mkOptions false false [] []);
  add_handlers vm (vmAPIHandlerFactories o) ∅.
End node.

(** A running VM: what it was initialized with, and the chain's state,
    which moves (hypersdk/vm/resolutions.go). *)
Record VMRef := mkVMRef { DataDir : string; GenesisBytes : bytes; vm_genesis : GenesisValue }.

#[export] Instance running_VM : ApiVM VMRef (bytes -> result bytes) := {|
  GetDataDir := DataDir;
  GetGenesisBytes := GenesisBytes;
  VM_Genesis vm _ := vm_genesis vm;
  VM_ReadState _ state := node_ReadState state;
|}.

(** ** Requests *)

Section requests.
Context {V W : Type} `{ApiVM V W}.
(** The node serves [handlers] under the URI [base]. *)
Variables (base : string) (handlers : gmap string (HttpHandler V)).
(** The world after a request: the chain goes on meanwhile. *)
Variable (next : W -> W).
(** How HTTP and the RPC library report a URI that is not served, an error
    of the method, and a panic of the method. *)
Variables (not_served : string -> error) (rpc_error rpc_panic : error -> error).

(** The service the request [name.method] reaches. *)
Definition route (uri name : string) : option (Service V) :=
  if HasPrefix base uri then
    match handlers !! string_drop (String.length base) uri with
    | Some (JSONRPCHandler n service) => if decide (n = name) then Some service else None
    | _ => None
    end
  else None.

Definition SendBalanceRequest (uri : string) (addr : bytes) (w : W) : result Z * W :=
  (match route uri Consts.Name with
   | Some (PredictionService j) =>
       match JSONRPCServer_Balance j w (mkBalanceArgs addr) (mkBalanceReply 0) with
       | Returns (None, reply) => Ok (Amount reply)
       | Returns (Some err, _) => Err (rpc_error err)
       | Panics err => Err (rpc_panic err)
       end
   | _ => Err (not_served uri)
   end, next w).

Definition SendGenesisRequest (uri : string) (w : W) : result (option DefaultGenesis) * W :=
  (match route uri Consts.Name with
   | Some (PredictionService j) =>
       match JSONRPCServer_Genesis j w (mkGenesisReply None) with
       | Returns (None, reply) => Ok (gr_Genesis reply)
       | Returns (Some err, _) => Err (rpc_error err)
       | Panics err => Err (rpc_panic err)
       end
   | _ => Err (not_served uri)
   end, next w).
End requests.

(** ** cmd/predictionvm *)

Section binary.
(** The process; what it does outside the program. *)
Context {P V Auth : Type} `{Quoting}.
Variable (ulimit_Set : GoM P unit).
Variable (pvm_New : result (@VM V Auth)).
Variable (Serve : string -> @VM V Auth -> GoM P unit).
Variable (Fprintf_stderr Printf : string -> P -> P).
Variable (ID_String : bytes -> string).

Definition runFunc : GoM P unit :=
  on_error (fun err => Errorf_w "" err ": failed to set fd limit correctly") ulimit_Set;;
  v ← lift pvm_New;
  Serve "v0.0.1" v.

(** No subcommand is added: the version command is commented out. *)
Definition predictionvm_rootCmd : Command P :=
  AddCommand (mkCommand "predictionvm" [] None None None (Some (fun _ => runFunc)) None []) [].

(** The exit code. *)
Definition predictionvm_main (findSuggestions : Command P -> string -> string) (args : list string) (p : P)
  : Z * P :=
  match ExecuteC findSuggestions [] predictionvm_rootCmd args p with
  | (Err err, p) => (1, Fprintf_stderr ("predictionvm failed " +:+ Error err +:+ newline) p)
  | (Ok _, p) => (0, p)
  end.

(** version/version.go prints the constants of hypersdk's morpheusvm. *)
Definition morpheusvm_Name : string := "morpheusvm".
Definition morpheusvm_Version : Semantic := {| Major := 0; Minor := 0; Patch := 1 |}.
Definition morpheusvm_ID : bytes := copy_at 0 (bytes_of_string morpheusvm_Name) (make_bytes IDLen).

Definition Semantic_String (v : Semantic) : string :=
  "v" +:+ fmt_d (Major v) +:+ "." +:+ fmt_d (Minor v) +:+ "." +:+ fmt_d (Patch v).

Definition versionFunc : GoM P unit := fun p =>
  (Ok tt, Printf (morpheusvm_Name +:+ "@" +:+ Semantic_String morpheusvm_Version
                  +:+ " (" +:+ ID_String morpheusvm_ID +:+ ")" +:+ newline) p).

Definition NewCommand : Command P :=
  mkCommand "version" [] None None None (Some (fun _ => versionFunc)) None [].
End binary.
