(* ===== verification/ActionBytes.v ===== *)
(** * The serialized actions

    The buy actions serialize to their three numbers, without the type byte
    the action parser dispatches on; CreateMarket puts its type byte first.
    Closed forms, exact decoding, and what the action parser makes of them. *)

From S2P Require Import Prelude GoErrors Lib Consts Packer LinearCodec BuyYes BuyNo CreateMarket Vm.
#[local] Open Scope Z_scope.

(** The 24 bytes of an order. *)
Definition order_bytes (market amount price : Z) : bytes :=
  be_put 8 market ++ be_put 8 amount ++ be_put 8 price.

Lemma length_order_bytes i a p : length (order_bytes i a p) = 24%nat.
Proof. unfold order_bytes. by rewrite !length_app, !length_be_put. Qed.

Lemma encode_order i a p : encode [VUint64 i; VUint64 a; VUint64 p] = order_bytes i a p.
Proof. unfold order_bytes. by rewrite !encode_cons, app_nil_r. Qed.

Lemma BuyYes_Bytes_eq b : BuyYes_Bytes b = order_bytes (by_MarketID b) (by_Amount b) (by_MaxPrice b).
Proof.
  unfold BuyYes_Bytes, BuyYes_values. rewrite MarshalInto_fits, encode_order; [done|by repeat constructor|].
  by rewrite length_encode.
Qed.

Lemma BuyNo_Bytes_eq b : BuyNo_Bytes b = order_bytes (bn_MarketID b) (bn_Amount b) (bn_MaxPrice b).
Proof.
  unfold BuyNo_Bytes, BuyNo_values. rewrite MarshalInto_fits, encode_order; [done|by repeat constructor|].
  by rewrite length_encode.
Qed.

Lemma order_kinds i a p :
  is_u64 i -> is_u64 a -> is_u64 p ->
  Forall2 has_kind [VUint64 i; VUint64 a; VUint64 p] [KUint64; KUint64; KUint64].
Proof. intros. repeat (apply List.Forall2_cons; [done|]). apply List.Forall2_nil. Qed.

(** Three numbers are read off any reader that starts with their bytes ... *)
Lemma UnmarshalFrom_order i a p rest :
  is_u64 i -> is_u64 a -> is_u64 p ->
  fst (UnmarshalFrom [KUint64; KUint64; KUint64] (NewReader (order_bytes i a p ++ rest) MaxActionSize))
  = ([Some (VUint64 i); Some (VUint64 a); Some (VUint64 p)], None).
Proof.
  intros Hi Ha Hp. rewrite NewReader_reader.
  rewrite <- encode_order.
  by rewrite (UnmarshalFrom_encode _ _ _ (order_kinds i a p Hi Ha Hp)).
Qed.

(** ... and off nothing else. *)
Lemma UnmarshalFrom_order_inv d vs packer :
  wf_bytes d ->
  UnmarshalFrom [KUint64; KUint64; KUint64] (NewReader d MaxActionSize) = (vs, None, packer) ->
  exists i a p rest, is_u64 i /\ is_u64 a /\ is_u64 p /\ d = order_bytes i a p ++ rest /\
    vs = [Some (VUint64 i); Some (VUint64 a); Some (VUint64 p)].
Proof.
  intros Hd E. rewrite NewReader_reader in E.
  apply UnmarshalFrom_sound in E as (ws & rest & -> & Hk & -> & _); [|done].
  repeat match goal with
  | H : Forall2 has_kind _ (_ :: _) |- _ => apply Forall2_cons_inv_r in H as (? & ? & ? & H & ->)
  | H : Forall2 has_kind _ [] |- _ => apply Forall2_nil_inv_r in H as ->
  | H : has_kind ?v _ |- _ => is_var v; destruct v; try done
  end.
  eexists _, _, _, rest. split_and!; [| | |by rewrite encode_order|done]; done.
Qed.

Lemma BuyYes_Unmarshal_exact d b b0 :
  wf_bytes d ->
  BuyYes_Unmarshal d b0 = (None, b) <-> wf_BuyYes b /\ exists rest, d = BuyYes_Bytes b ++ rest.
Proof.
  intros Hd. rewrite BuyYes_Bytes_eq. unfold BuyYes_Unmarshal, BuyYes_kinds. split.
  - destruct (UnmarshalFrom _ _) as [[vs err] packer] eqn:E. intros [= -> <-].
    apply UnmarshalFrom_order_inv in E as (i & a & p & rest & Hi & Ha & Hp & -> & ->); [|done].
    simpl. split; [done|]. by exists rest.
  - intros ((Hi & Ha & Hp) & rest & ->).
    pose proof (UnmarshalFrom_order _ _ _ rest Hi Ha Hp) as E.
    destruct (UnmarshalFrom _ _) as [[vs err] packer]. simplify_eq/=. by destruct b.
Qed.

Lemma BuyNo_Unmarshal_exact d b b0 :
  wf_bytes d ->
  BuyNo_Unmarshal d b0 = (None, b) <-> wf_BuyNo b /\ exists rest, d = BuyNo_Bytes b ++ rest.
Proof.
  intros Hd. rewrite BuyNo_Bytes_eq. unfold BuyNo_Unmarshal, BuyNo_kinds. split.
  - destruct (UnmarshalFrom _ _) as [[vs err] packer] eqn:E. intros [= -> <-].
    apply UnmarshalFrom_order_inv in E as (i & a & p & rest & Hi & Ha & Hp & -> & ->); [|done].
    simpl. split; [done|]. by exists rest.
  - intros ((Hi & Ha & Hp) & rest & ->).
    pose proof (UnmarshalFrom_order _ _ _ rest Hi Ha Hp) as E.
    destruct (UnmarshalFrom _ _) as [[vs err] packer]. simplify_eq/=. by destruct b.
Qed.

(** ** What the action parser sees *)

(** The first byte of an order is the top byte of its market ID. *)
Lemma order_bytes_head i a p :
  is_u64 i -> exists tl, order_bytes i a p = i / 2 ^ 56 :: tl.
Proof.
  intros Hi. unfold order_bytes.
  assert (exists tl, be_put 8 i = Z.land (Z.shiftr i 56) 255 :: tl) as [tl ->] by (by eexists).
  eexists. simpl. f_equal. rewrite Z.shiftr_div_pow2 by done.
  change 255 with (Z.ones 8). rewrite Z.land_ones by done. apply Z.mod_small.
  split; [apply Z.div_pos; int_lia|]. apply Z.div_lt_upper_bound; int_lia.
Qed.

(** What [init] registers. *)
Definition action_parser : TypeParser action := snd (Register BuyYes_GetTypeID decode_BuyYes NewTypeParser).

Lemma action_parser_cases typeID tl :
  Unmarshal action_parser (typeID :: tl) =
    if typeID =? BuyYesID then decode_BuyYes (typeID :: tl)
    else Err (ErrFresh ("typeID " +:+ fmt_d typeID +:+ " not found")).
Proof.
  unfold Unmarshal. change (indexToDecoder action_parser) with
    (<[BuyYesID := decode_BuyYes]> (∅ : gmap Z (bytes -> result action))).
  destruct (Z.eqb_spec typeID BuyYesID) as [->|Hne]; [by rewrite lookup_insert_eq|].
  by rewrite lookup_insert_ne by done.
Qed.

Lemma decode_order i a p :
  is_u64 i -> is_u64 a -> is_u64 p ->
  decode_BuyYes (order_bytes i a p) = Ok (ABuyYes (mkBuyYes i a p)).
Proof.
  intros Hi Ha Hp. unfold decode_BuyYes, UnmarshalBuyYes, BuyYes_Unmarshal.
  pose proof (UnmarshalFrom_order i a p [] Hi Ha Hp) as E. rewrite app_nil_r in E.
  unfold BuyYes_kinds. destruct (UnmarshalFrom _ _) as [[vs err] packer]. by simplify_eq/=.
Qed.

(** The parser takes the bytes of an order for a BuyYes when the market ID
    happens to start with the type byte, and for nothing otherwise. *)
Lemma parse_order i a p :
  is_u64 i -> is_u64 a -> is_u64 p ->
  Unmarshal action_parser (order_bytes i a p) =
    if i / 2 ^ 56 =? BuyYesID then Ok (ABuyYes (mkBuyYes i a p))
    else Err (ErrFresh ("typeID " +:+ fmt_d (i / 2 ^ 56) +:+ " not found")).
Proof.
  intros Hi Ha Hp. pose proof (decode_order i a p Hi Ha Hp) as Hd.
  destruct (order_bytes_head i a p Hi) as [tl E]. rewrite E, action_parser_cases, <- E, Hd. done.
Qed.

Lemma init_result {Auth} (d1 d2 d3 : bytes -> result Auth) :
  init d1 d2 d3 None = Returns (mkParsers action_parser
    (mkTypeParser (<[BLSID := d3]> (<[SECP256R1ID := d2]> {[ED25519ID := d1]}))
       [ED25519ID; SECP256R1ID; BLSID])).
Proof. reflexivity. Qed.
