(* ===== verification/VmCorrect.v ===== *)
(** * Theorems on action bytes, parsers and the RPC client *)

From S2P Require Import Prelude GoErrors Lib Consts Packer LinearCodec Store StorageKeys Balances BuyYes BuyNo CreateMarket Vm ActionBytes.
#[local] Open Scope Z_scope.

(** ** Action bytes *)

(** Decoding the buy actions is exact.  [Unmarshal] of BuyYes and of
    BuyNo, into any receiver, succeeds with [b] exactly on the inputs that
    start with [Bytes] of [b], whose fields are 64-bit; so it inverts
    [Bytes], refuses every input under 24 bytes, and ignores what follows. *)
Lemma buy_bytes_exact d (y y0 : BuyYes) (n n0 : BuyNo) :
  wf_bytes d ->
  (BuyYes_Unmarshal d y0 = (None, y) <-> wf_BuyYes y /\ exists rest, d = BuyYes_Bytes y ++ rest) /\
  (BuyNo_Unmarshal d n0 = (None, n) <-> wf_BuyNo n /\ exists rest, d = BuyNo_Bytes n ++ rest) /\
  length (BuyYes_Bytes y) = 24%nat /\ length (BuyNo_Bytes n) = 24%nat.
Proof.
  intros Hd. rewrite BuyYes_Bytes_eq, BuyNo_Bytes_eq, !length_order_bytes.
  rewrite <- BuyYes_Bytes_eq, <- BuyNo_Bytes_eq.
  split_and!; [by apply BuyYes_Unmarshal_exact|by apply BuyNo_Unmarshal_exact|done|done].
Qed.

Lemma buy_bytes_exact_witness :
  let y := mkBuyYes 7 10 15 in let n := mkBuyNo 7 10 15 in
  let d := BuyYes_Bytes y in
  (BuyYes_Unmarshal d (mkBuyYes 0 0 0) = (None, y) <-> wf_BuyYes y /\ exists rest, d = BuyYes_Bytes y ++ rest) /\
  (BuyNo_Unmarshal d (mkBuyNo 1 1 1) = (None, n) <-> wf_BuyNo n /\ exists rest, d = BuyNo_Bytes n ++ rest) /\
  length (BuyYes_Bytes y) = 24%nat /\ length (BuyNo_Bytes n) = 24%nat.
Proof. apply buy_bytes_exact. by apply (bool_decide_unpack _). Defined.

(** CreateMarket bytes.  Of a well-formed action, [Bytes] panics exactly
    when the encoding would pass 1024 bytes, and otherwise
    [UnmarshalCreateMarket] gives the action back, whatever follows it. *)
Lemma create_bytes_roundtrip cm rest :
  wf_CreateMarket cm ->
  match CreateMarket_Bytes cm with
  | Panics _ => MaxCreateMarketSize < create_size cm
  | Returns b => create_size cm <= MaxCreateMarketSize /\ Z.of_nat (length b) = create_size cm /\
      UnmarshalCreateMarket (b ++ rest) = Ok cm
  end.
Proof.
  intros Hw. rewrite (CreateMarket_Bytes_cases cm Hw).
  destruct (Z.leb_spec (create_size cm) MaxCreateMarketSize); [|done].
  split_and!; [done|apply length_create_bytes|]. by apply UnmarshalCreateMarket_encode.
Qed.

Lemma create_bytes_roundtrip_witness :
  let cm := mkCreateMarket "Rain?" 10 20 0 "w" [1] in
  match CreateMarket_Bytes cm with
  | Panics _ => MaxCreateMarketSize < create_size cm
  | Returns b => create_size cm <= MaxCreateMarketSize /\ Z.of_nat (length b) = create_size cm /\
      UnmarshalCreateMarket (b ++ [255]) = Ok cm
  end.
Proof. apply create_bytes_roundtrip. by apply (bool_decide_unpack _). Defined.

(** ** Parsers *)

(** The action parser misreads the program's own actions.  The bytes of
    an order carry no type byte, so the parser takes the top byte of the
    market ID for one: unless that byte is 5, a BuyYes and a BuyNo are
    refused as of unknown type; when it is 5 a BuyYes comes back whole, and a
    BuyNo comes back as a BuyYes of the same numbers.  A CreateMarket, which
    does carry its type byte, is always refused. *)
Lemma parser_misreads_actions {Auth} (d1 d2 d3 : bytes -> result Auth) p y n cm b :
  init d1 d2 d3 None = Returns p -> wf_BuyYes y -> wf_BuyNo n ->
  CreateMarket_Bytes cm = Returns b -> wf_CreateMarket cm ->
  Unmarshal (ActionParser p) (BuyYes_Bytes y) =
    (if by_MarketID y / 2 ^ 56 =? 5 then Ok (ABuyYes y)
     else Err (ErrFresh ("typeID " +:+ fmt_d (by_MarketID y / 2 ^ 56) +:+ " not found"))) /\
  Unmarshal (ActionParser p) (BuyNo_Bytes n) =
    (if bn_MarketID n / 2 ^ 56 =? 5
     then Ok (ABuyYes (mkBuyYes (bn_MarketID n) (bn_Amount n) (bn_MaxPrice n)))
     else Err (ErrFresh ("typeID " +:+ fmt_d (bn_MarketID n / 2 ^ 56) +:+ " not found"))) /\
  Unmarshal (ActionParser p) b = Err (ErrFresh "typeID 4 not found").
Proof.
  intros Hi (Hy1 & Hy2 & Hy3) (Hn1 & Hn2 & Hn3) Hb Hw.
  rewrite init_result in Hi. injection Hi as <-. cbn [ActionParser].
  rewrite BuyYes_Bytes_eq, BuyNo_Bytes_eq, !parse_order by done.
  split_and!; [by destruct y|done|].
  rewrite (CreateMarket_Bytes_cases cm Hw) in Hb. case_match; [|done]. simplify_eq.
  by rewrite action_parser_cases.
Qed.

Lemma parser_misreads_actions_witness :
  let auth (b : bytes) : result unit := Err (ErrFresh "no auth") in
  let p := mkParsers (mkTypeParser {[BuyYesID := decode_BuyYes]} [BuyYesID])
        (mkTypeParser (<[BLSID := auth]> (<[SECP256R1ID := auth]> {[ED25519ID := auth]}))
           [ED25519ID; SECP256R1ID; BLSID]) in
  let cm := mkCreateMarket "Rain?" 10 20 0 "w" [1] in
  Unmarshal (ActionParser p) (BuyYes_Bytes (mkBuyYes 7 10 15)) = Err (ErrFresh "typeID 0 not found") /\
  Unmarshal (ActionParser p) (BuyNo_Bytes (mkBuyNo (5 * 2 ^ 56 + 7) 10 15)) =
    Ok (ABuyYes (mkBuyYes (5 * 2 ^ 56 + 7) 10 15)) /\
  Unmarshal (ActionParser p) (CreateMarketID :: encode (CreateMarket_values cm)) =
    Err (ErrFresh "typeID 4 not found").
Proof.
  intros auth p cm.
  apply (parser_misreads_actions auth auth auth p (mkBuyYes 7 10 15) (mkBuyNo (5 * 2 ^ 56 + 7) 10 15) cm);
    try reflexivity; by apply (bool_decide_unpack _).
Defined.

(** Type parsers in general.  A parser that has not reached 256 types
    accepts a new type ID and then dispatches inputs starting with it to its
    decoder, type byte included, without disturbing the other types; a type
    ID that is taken is refused and changes nothing. *)
Lemma type_parser_dispatch {T} typeID f (p : TypeParser T) :
  Z.of_nat (size (indexToDecoder p)) < 256 ->
  match indexToDecoder p !! typeID with
  | Some _ => Register typeID f p = (Some ErrDuplicateItem, p)
  | None => exists p', Register typeID f p = (None, p') /\
      (forall tl, Unmarshal p' (typeID :: tl) = f (typeID :: tl)) /\
      (forall id tl, id <> typeID -> Unmarshal p' (id :: tl) = Unmarshal p (id :: tl)) /\
      size (indexToDecoder p') = S (size (indexToDecoder p))
  end.
Proof.
  intros Hs. unfold Register. unfold MaxUint8. rewrite (proj2 (Z.eqb_neq _ _)) by lia.
  destruct (indexToDecoder p !! typeID) eqn:E; [done|]. eexists. split; [done|]. split_and!.
  - intros tl. unfold Unmarshal. simpl. by rewrite lookup_insert_eq.
  - intros id tl Hid. unfold Unmarshal. simpl. by rewrite lookup_insert_ne by done.
  - simpl. by apply map_size_insert_None.
Qed.

Lemma type_parser_dispatch_witness :
  exists p', Register BuyNoID decode_BuyYes action_parser = (None, p') /\
    (forall tl, Unmarshal p' (BuyNoID :: tl) = decode_BuyYes (BuyNoID :: tl)) /\
    (forall id tl, id <> BuyNoID -> Unmarshal p' (id :: tl) = Unmarshal action_parser (id :: tl)) /\
    size (indexToDecoder p') = 2%nat.
Proof. apply (type_parser_dispatch BuyNoID decode_BuyYes action_parser). reflexivity. Defined.

(** ** The RPC client *)

(** The genesis is fetched at most once.  After a call of [Genesis] that
    returned a genesis, every later call returns the same one, sends no
    request and leaves the client as it is; and [GetRuleFactory] then builds
    its factory from that genesis without a request. *)
Lemma genesis_cached {G R W} (mk : G -> R) send (cli : JSONRPCClient G R) (w w1 w2 : W) g cli1 :
  Genesis send (cli, w) = (Ok (Some g), (cli1, w1)) ->
  Genesis send (cli1, w2) = (Ok (Some g), (cli1, w2)) /\
  exists cli2, GetRuleFactory mk send (cli1, w2) =
    Returns (Ok (default (mk g) (cli_ruleFactory cli)), (cli2, w2)).
Proof.
  intros E. assert (cli_g cli1 = Some g /\ cli_ruleFactory cli1 = cli_ruleFactory cli) as [Hg Hrf].
  { unfold Genesis in E. destruct (cli_g cli) eqn:Ec; [by simplify_eq|].
    destruct (send (cli_uri cli) w) as [[g'|e] w']; by simplify_eq/=. }
  assert (Genesis send (cli1, w2) = (Ok (Some g), (cli1, w2))) as E2 by (unfold Genesis; by rewrite Hg).
  split; [done|]. unfold GetRuleFactory. cbn [fst]. rewrite Hrf.
  destruct (cli_ruleFactory cli); [by eexists|]. rewrite E2. by eexists.
Qed.

Lemma genesis_cached_witness :
  let send (uri : string) (w : nat) : result (option nat) * nat := (Ok (Some 42%nat), S w) in
  let cli1 := mkClient "http://node/predictionapi" (Some 42%nat) None in
  Genesis (R := nat) send (cli1, 9%nat) = (Ok (Some 42%nat), (cli1, 9%nat)) /\
  exists cli2, GetRuleFactory (fun g => g) send (cli1, 9%nat) = Returns (Ok 42%nat, (cli2, 9%nat)).
Proof.
  intros send cli1.
  apply (genesis_cached (fun g => g) send (NewJSONRPCClient "http://node/") 0%nat 1%nat 9%nat 42%nat cli1).
  reflexivity.
Defined.

(** ** Polling *)

Section polling.
Context {G R W : Type} (send : string -> bytes -> W -> result Z * W).
Context (ctx_Err : nat -> option error) (addr : bytes) (min : Z).
Implicit Types s : JSONRPCClient G R * W.

(** The client and the world after [n] balance requests. *)
Definition polled (n : nat) s : JSONRPCClient G R * W :=
  Nat.iter n (fun s => snd (Client_Balance send addr s)) s.

(** The [n]-th round of the loop neither ends nor fails: the context is alive
    and the balance reported is too small. *)
Definition pending (n : nat) s : bool :=
  match ctx_Err n, fst (Client_Balance send addr (polled n s)) with
  | None, Ok bal => bal <? min
  | _, _ => false
  end.

(** What the [n]-th round returns, when it ends the loop. *)
Definition last_round (n : nat) s : option error * (JSONRPCClient G R * W) :=
  match ctx_Err n with
  | Some err => (Some err, polled n s)
  | None => (match fst (Client_Balance send addr (polled n s)) with Err err => Some err | Ok _ => None end,
             polled (S n) s)
  end.

Lemma check_balance_run s :
  check_balance send addr min s =
    (match fst (Client_Balance send addr s) with Ok bal => Ok (min <=? bal) | Err err => Err err end,
     snd (Client_Balance send addr s)).
Proof.
  unfold check_balance, mbind, GoM_bind. by destruct (Client_Balance send addr s) as [[bal|err] s'].
Qed.

Lemma Wait_rounds s n : forall k i fuel,
  (i + k = n)%nat -> (k < fuel)%nat ->
  (forall j, (i <= j < n)%nat -> pending j s = true) -> pending n s = false ->
  Wait fuel i ctx_Err (check_balance send addr min) (polled i s) = Some (last_round n s).
Proof.
  induction k as [|k IH]; intros i fuel Hk Hf Hp Hn; destruct fuel as [|fuel]; try lia; simpl;
    rewrite check_balance_run.
  - assert (i = n) as -> by lia. unfold pending, last_round in *. destruct (ctx_Err n); [done|].
    change (polled (S n) s) with (snd (Client_Balance send addr (polled n s))).
    destruct (fst (Client_Balance send addr (polled n s))) as [bal|err]; [|done].
    by apply Z.ltb_ge, Z.leb_le in Hn as ->.
  - pose proof (Hp i ltac:(lia)) as Hi. unfold pending in Hi. destruct (ctx_Err i); [done|].
    destruct (fst (Client_Balance send addr (polled i s))) as [bal|err]; [|done].
    apply Z.ltb_lt, Z.leb_gt in Hi as ->.
    change (snd (Client_Balance send addr (polled i s))) with (polled (S i) s).
    apply IH; [lia..| |done]. intros j Hj. apply Hp. lia.
Qed.

Lemma Wait_pending s : forall fuel i,
  (forall j, pending j s = true) -> Wait fuel i ctx_Err (check_balance send addr min) (polled i s) = None.
Proof.
  induction fuel as [|fuel IH]; intros i Hp; simpl; [done|]. rewrite check_balance_run.
  pose proof (Hp i) as Hi. unfold pending in Hi. destruct (ctx_Err i); [done|].
  destruct (fst (Client_Balance send addr (polled i s))) as [bal|err]; [|done].
  apply Z.ltb_lt, Z.leb_gt in Hi as ->. by apply (IH (S i)).
Qed.
End polling.

(** Waiting for a balance.  Whatever the server answers, when the rounds
    before the [n]-th find the context alive and a balance below the minimum
    and the [n]-th does not, [WaitForBalance] ends with that round, for every
    fuel above [n]: with the context's error, with the error of the request,
    or without an error when the balance suffices, after exactly the requests
    made so far.  A context that ends at some round is enough for such an [n]
    to exist. *)
Lemma wait_for_balance {G R W} (send : string -> bytes -> W -> result Z * W)
    (s : JSONRPCClient G R * W) ctx_Err addr min end_of_context :
  is_Some (ctx_Err end_of_context) ->
  exists n, (n <= end_of_context)%nat /\ pending send ctx_Err addr min n s = false /\
    (forall i, (i < n)%nat -> pending send ctx_Err addr min i s = true) /\
    forall fuel, (n < fuel)%nat ->
      WaitForBalance send fuel ctx_Err addr min s = Some (last_round send ctx_Err addr n s).
Proof.
  intros [err Hend].
  destruct (first_false (fun i => pending send ctx_Err addr min i s) end_of_context)
    as (n & Hle & Hn & Hp); [unfold pending; by rewrite Hend|].
  exists n. split_and!; [done..|]. intros fuel Hf.
  apply (Wait_rounds send ctx_Err addr min s n n 0); [lia|done| |done].
  intros j Hj. apply Hp. lia.
Qed.

(** A balance that grows by 2 with every request, against a minimum of 5. *)
Lemma wait_for_balance_witness :
  let send (uri : string) (a : bytes) (w : Z) : result Z * Z := (Ok w, w + 2) in
  let ctx (i : nat) : option error := if (i <? 9)%nat then None else Some (ErrFresh "deadline") in
  let s := (NewJSONRPCClient (G := unit) (R := unit) "u", 0) in
  WaitForBalance send 4 ctx [] 5 s = Some (None, (fst s, 8)) /\
  exists n, (n <= 9)%nat /\ pending send ctx [] 5 n s = false /\
    (forall i, (i < n)%nat -> pending send ctx [] 5 i s = true) /\
    forall fuel, (n < fuel)%nat ->
      WaitForBalance send fuel ctx [] 5 s = Some (last_round send ctx [] n s).
Proof.
  intros send ctx s. split; [vm_compute; reflexivity|].
  apply (wait_for_balance send s ctx [] 5 9). by eexists.
Defined.
