(* ===== verification/Cli.v ===== *)
(** * The command line client (cmd/prediction-cli/cmd)

    The logic behind the commands: sending a transaction and waiting for its
    result, the report on a transaction, the default actor over the key
    database, the balance prompt, the controller, and the genesis flags.  What
    requests and sockets return is an argument.  A call that prints returns
    the lines it gives [utils.Outf], colour marks included, beside its
    result.  Commands.v has the commands themselves. *)

From S2P Require Import Prelude GoErrors Lib Consts Rules Strconv Vm KeyStore.
#[local] Open Scope Z_scope.

(** errors.go *)
Definition ErrInvalidArgs : error := ErrVar "cmd.ErrInvalidArgs" "invalid args".
Definition ErrMissingSubcommand : error := ErrVar "cmd.ErrMissingSubcommand" "must specify a subcommand".
Definition ErrInvalidAddress : error := ErrVar "cmd.ErrInvalidAddress" "invalid address".
Definition ErrInvalidKeyType : error := ErrVar "cmd.ErrInvalidKeyType" "invalid key type".

(** ** resolutions.go: sendAndWait *)

(** The loop: [messages] is what [ws.ListenTx] returns, call after call (a
    transaction ID with the success flag of its result, or an error);
    [result] is never assigned while the loop goes on.  [None]: every message
    was consumed and the call still waits. *)
Fixpoint wait_result (ID_String : bytes -> string) (txID : bytes) (result_is_nil : bool)
    (messages : list (result (bytes * bool))) : option (result bool) :=
  match messages with
  | [] => None
  | Err err :: _ => Some (Err err)
  | Ok (id, success) :: rest =>
      if decide (id = txID) then Some (Ok success)
      else if result_is_nil
      then Some (Err (ErrFresh ("tx " +:+ ID_String id +:+ " expired")))
      else wait_result ID_String txID result_is_nil rest
  end.

(** The UTF-8 bytes of the two marks. *)
Definition cross_mark : string := string_of_bytes [226; 157; 140].
Definition check_mark : string := string_of_bytes [226; 156; 133].

(** [id]: how the transaction ID prints. *)
Definition status_line (success : bool) (id : string) : string :=
  (if success then check_mark else cross_mark) +:+ " {{yellow}}txID:{{/}} " +:+ id +:+ newline.

(** The preparation returns early on its errors; then the loop, with
    [var result *chain.Result] nil.  The result, and the lines printed. *)
Definition sendAndWait (ID_String : bytes -> string) (ruleFactory unitPrices : result unit)
    (generated : result bytes) (registered : option error)
    (messages : list (result (bytes * bool))) (printStatus : bool)
  : option (result (bool * bytes) * list string) :=
  match ruleFactory with
  | Err err => Some (Err err, [])
  | Ok _ =>
      match unitPrices with
      | Err err => Some (Err err, [])
      | Ok _ =>
          match generated with
          | Err err => Some (Err err, [])
          | Ok txID =>
              match registered with
              | Some err => Some (Err err, [])
              | None =>
                  match wait_result ID_String txID true messages with
                  | None => None
                  | Some (Err err) => Some (Err err, [])
                  | Some (Ok success) =>
                      Some (Ok (success, txID),
                            if printStatus then [status_line success (ID_String txID)] else [])
                  end
              end
          end
      end
  end.

(** ** resolutions.go: handleTx *)

(** How the libraries print amounts of money and shares of a fee: both go
    through floating point. *)
Class Formatting := {
  FormatBalance : Z -> string;
  FormatPercent : Z -> Z -> string;
}.

(** What is printed of a transaction and of its result; the actions by the
    names of their types. *)
Record TxView := mkTxView {
  tv_ID : string;
  tv_Actor : string;
  tv_MaxFee : Z;
  tv_Actions : list string;
}.

Record TxResult := mkTxResult {
  tr_Success : bool;
  tr_Error : string;
  tr_Fee : Z;
  tr_Units : string;
}.

Section printing.
Context `{Formatting}.

Definition handleTx (tx : TxView) (result : TxResult) : list string :=
  let fee := "{{yellow}}fee (max " +:+ FormatPercent (tr_Fee result) (tv_MaxFee tx) +:+ "%):{{/}} "
    +:+ FormatBalance (tr_Fee result) +:+ " " +:+ Symbol +:+ " {{yellow}}consumed:{{/}} ["
    +:+ tr_Units result +:+ "]" +:+ newline in
  if negb (tr_Success result) then
    [cross_mark +:+ " {{yellow}}" +:+ tv_ID tx +:+ "{{/}} {{yellow}}actor:{{/}} " +:+ tv_Actor tx
      +:+ " {{yellow}}error:{{/}} [" +:+ tr_Error result +:+ "] " +:+ fee]
  else
    map (fun action => check_mark +:+ " {{yellow}}" +:+ tv_ID tx +:+ "{{/}} {{yellow}}actor:{{/}} "
      +:+ tv_Actor tx +:+ " {{yellow}}action_type (" +:+ action +:+ "):{{/}} [] " +:+ fee) (tv_Actions tx).
End printing.

(** ** handler.go *)

(** The factory [DefaultActor] builds from the type byte of the address. *)
Inductive AuthFactory :=
| ED25519Factory (priv : bytes)
| SECP256R1Factory (priv : bytes)
| BLSFactory (priv : bytes).

(** [ed25519.PrivateKey(priv)]: an array from a slice. *)
Definition to_array (n : nat) (priv : bytes) : outcome bytes :=
  if decide (length priv < n)%nat then Panics (short_slice (length priv) n)
  else Returns (take n priv).

Section actor.
Context `{Crypto} `{DbFaults}.

(** [addr[0]] of a 33-byte array. *)
Definition actor_factory (addr priv : bytes) : outcome (result AuthFactory) :=
  let t := nth 0 addr 0 in
  if t =? ED25519ID then
    match to_array ed25519_PrivateKeyLen priv with
    | Returns p => Returns (Ok (ED25519Factory p))
    | Panics e => Panics e
    end
  else if t =? SECP256R1ID then
    match to_array secp256r1_PrivateKeyLen priv with
    | Returns p => Returns (Ok (SECP256R1Factory p))
    | Panics e => Panics e
    end
  else if t =? BLSID then
    match bls_PrivateKeyFromBytes priv with
    | Err err => Returns (Err err)
    | Ok p => Returns (Ok (BLSFactory p))
    end
  else Returns (Err ErrInvalidAddress).

Definition index_uris : error := ErrFresh "runtime error: index out of range [0] with length 0".

(** The chain, the actor with its factory, and the URI the clients are built
    on; an empty list of URIs panics. *)
Definition DefaultActor (db : Db) (NewWebSocketClient : string -> option error)
  : outcome (result (bytes * PrivateKey * AuthFactory * string)) :=
  match GetDefaultKey db with
  | Panics e => Panics e
  | Returns (Err err) => Returns (Err err)
  | Returns (Ok (addr, priv)) =>
      match actor_factory addr priv with
      | Panics e => Panics e
      | Returns (Err err) => Returns (Err err)
      | Returns (Ok factory) =>
          match GetDefaultChain db with
          | Panics e => Panics e
          | Returns (Err err) => Returns (Err err)
          | Returns (Ok (chainID, [])) => Panics index_uris
          | Returns (Ok (chainID, uri :: _)) =>
              match NewWebSocketClient uri with
              | Some err => Returns (Err err)
              | None => Returns (Ok (chainID, mkPrivateKey addr priv, factory, uri))
              end
          end
      end
  end.
End actor.

(** Both branches that return without an error return the balance read. *)
Definition Handler_GetBalance `{Formatting} (balance : result Z) (addr : string) : result Z * list string :=
  match balance with
  | Err err => (Err err, [])
  | Ok balance =>
      if balance =? 0 then
        (Ok 0, ["{{red}}balance:{{/}} 0 " +:+ Symbol +:+ newline;
                "{{red}}please send funds to " +:+ addr +:+ "{{/}}" +:+ newline;
                "{{red}}exiting...{{/}}" +:+ newline])
      else
        (Ok balance, ["{{yellow}}balance:{{/}} " +:+ FormatBalance balance +:+ " " +:+ Symbol +:+ newline])
  end.

(** The controller the library's handler is given: the path of its database,
    and methods that do not use it. *)
Record cli_Controller := mkController { databasePath : string }.

Definition NewController (databasePath : string) : cli_Controller := mkController databasePath.
Definition DatabasePath (c : cli_Controller) : string := databasePath c.
Definition Controller_Symbol (c : cli_Controller) : string := Symbol.
Definition HandleTx `{Formatting} (c : cli_Controller) (tx : TxView) (result : TxResult) : list string :=
  handleTx tx result.

(** [cli.Balance] of a client of that URI; its result as it is, the balance
    beside the error. *)
Definition LookupBalance {S} (cli_Balance : string -> bytes -> GoM S Z) (address : bytes) (uri : string)
  : GoM S Z := cli_Balance uri address.

(** ** genesis.go, root.go: the flags over the default rules *)

Record genesis_flags := mkFlags {
  minUnitPrice : list string;
  maxBlockUnits : list string;
  windowTargetUnits : list string;
  minBlockGap : Z;
  validityWindow : Z;
}.

(** The values cobra sets when a flag is not given (root.go). *)
Definition default_flags : genesis_flags := mkFlags [] [] [] (-1) (-1).

Section genesis.
Context `{Quoting}.

Definition override (flag : list string) (current : Dimensions) : result Dimensions :=
  if decide (flag = []) then Ok current else ParseDimensions flag.

Definition apply_flags (f : genesis_flags) (r : Rules) : result Rules :=
  price ← override (minUnitPrice f) (MinUnitPrice r);
  block ← override (maxBlockUnits f) (MaxBlockUnits r);
  window ← override (windowTargetUnits f) (WindowTargetUnits r);
  Ok (mkRules (NetworkID r) (ChainID r)
        (if 0 <=? minBlockGap f then minBlockGap f else MinBlockGap r)
        (MinEmptyBlockGap r) price (UnitPriceChangeDenominator r) window block
        (if 0 <=? validityWindow f then validityWindow f else ValidityWindow r)
        (MaxActionsPerTx r) (MaxOutputsPerAction r) (BaseComputeUnits r)
        (StorageKeyReadUnits r) (StorageValueReadUnits r) (StorageKeyAllocateUnits r)
        (StorageValueAllocateUnits r) (StorageKeyWriteUnits r) (StorageValueWriteUnits r)
        (SponsorStateKeysMaxChunks r)).
End genesis.

Lemma override_spec `{Quoting} flag current :
  match override flag current with
  | Ok d => (flag <> [] -> ParseDimensions flag = Ok d) /\ (flag = [] -> d = current)
  | Err err => flag <> [] /\ ParseDimensions flag = Err err
  end.
Proof.
  unfold override. case_decide; [by split|]. by destruct (ParseDimensions flag).
Qed.
