(* ===== verification/CliState.v ===== *)
(** * The state of a run of the client (cmd/prediction-cli/cmd/root.go, hypersdk/cli)

    The variables behind the flags, the handler, the databases and files on
    disk and what has been printed; opening the handler's database, calls on
    it and closing it. *)

From S2P Require Import Prelude GoErrors Lib Vm KeyStore Cli.
#[local] Open Scope Z_scope.

(** ** State *)

(** The variables of root.go. *)
Record Vars := mkVars {
  v_dbPath : string;
  v_genesisFile : string;
  v_minUnitPrice : list string;
  v_maxBlockUnits : list string;
  v_windowTargetUnits : list string;
  v_minBlockGap : Z;
  v_validityWindow : Z;
  v_hideTxs : bool;
  v_checkAllChains : bool;
  v_prometheusBaseURI : string;
  v_prometheusOpenBrowser : bool;
  v_prometheusFile : string;
  v_prometheusData : string;
  v_startPrometheus : bool;
}.

(** The handler: the controller it was made with, and the path of its open
    database ([None] once it is closed). *)
Record Handler := mkHandler { h_controller : cli_Controller; h_db : option string }.

Definition NewHandler (h : Handler) : Handler := h.
Definition Root (h : Handler) : Handler := h.

Record World := mkWorld {
  vars : Vars;
  handler : option Handler;
  databases : gmap string Db;
  files : gmap string bytes;
  out : list string;
}.

Definition set_dbPath (x : string) (v : Vars) : Vars :=
    mkVars x (v_genesisFile v) (v_minUnitPrice v) (v_maxBlockUnits v) (v_windowTargetUnits v) (v_minBlockGap
    v) (v_validityWindow v) (v_hideTxs v) (v_checkAllChains v) (v_prometheusBaseURI v)
    (v_prometheusOpenBrowser v) (v_prometheusFile v) (v_prometheusData v) (v_startPrometheus v).
Definition set_genesisFile (x : string) (v : Vars) : Vars :=
    mkVars (v_dbPath v) x (v_minUnitPrice v) (v_maxBlockUnits v) (v_windowTargetUnits v) (v_minBlockGap v)
    (v_validityWindow v) (v_hideTxs v) (v_checkAllChains v) (v_prometheusBaseURI v) (v_prometheusOpenBrowser
    v) (v_prometheusFile v) (v_prometheusData v) (v_startPrometheus v).
Definition set_minUnitPrice (x : list string) (v : Vars) : Vars :=
    mkVars (v_dbPath v) (v_genesisFile v) x (v_maxBlockUnits v) (v_windowTargetUnits v) (v_minBlockGap v)
    (v_validityWindow v) (v_hideTxs v) (v_checkAllChains v) (v_prometheusBaseURI v) (v_prometheusOpenBrowser
    v) (v_prometheusFile v) (v_prometheusData v) (v_startPrometheus v).
Definition set_maxBlockUnits (x : list string) (v : Vars) : Vars :=
    mkVars (v_dbPath v) (v_genesisFile v) (v_minUnitPrice v) x (v_windowTargetUnits v) (v_minBlockGap v)
    (v_validityWindow v) (v_hideTxs v) (v_checkAllChains v) (v_prometheusBaseURI v) (v_prometheusOpenBrowser
    v) (v_prometheusFile v) (v_prometheusData v) (v_startPrometheus v).
Definition set_windowTargetUnits (x : list string) (v : Vars) : Vars :=
    mkVars (v_dbPath v) (v_genesisFile v) (v_minUnitPrice v) (v_maxBlockUnits v) x (v_minBlockGap v)
    (v_validityWindow v) (v_hideTxs v) (v_checkAllChains v) (v_prometheusBaseURI v) (v_prometheusOpenBrowser
    v) (v_prometheusFile v) (v_prometheusData v) (v_startPrometheus v).
Definition set_minBlockGap (x : Z) (v : Vars) : Vars :=
    mkVars (v_dbPath v) (v_genesisFile v) (v_minUnitPrice v) (v_maxBlockUnits v) (v_windowTargetUnits v) x
    (v_validityWindow v) (v_hideTxs v) (v_checkAllChains v) (v_prometheusBaseURI v) (v_prometheusOpenBrowser
    v) (v_prometheusFile v) (v_prometheusData v) (v_startPrometheus v).
Definition set_validityWindow (x : Z) (v : Vars) : Vars :=
    mkVars (v_dbPath v) (v_genesisFile v) (v_minUnitPrice v) (v_maxBlockUnits v) (v_windowTargetUnits v)
    (v_minBlockGap v) x (v_hideTxs v) (v_checkAllChains v) (v_prometheusBaseURI v) (v_prometheusOpenBrowser v)
    (v_prometheusFile v) (v_prometheusData v) (v_startPrometheus v).
Definition set_hideTxs (x : bool) (v : Vars) : Vars :=
    mkVars (v_dbPath v) (v_genesisFile v) (v_minUnitPrice v) (v_maxBlockUnits v) (v_windowTargetUnits v)
    (v_minBlockGap v) (v_validityWindow v) x (v_checkAllChains v) (v_prometheusBaseURI v)
    (v_prometheusOpenBrowser v) (v_prometheusFile v) (v_prometheusData v) (v_startPrometheus v).
Definition set_checkAllChains (x : bool) (v : Vars) : Vars :=
    mkVars (v_dbPath v) (v_genesisFile v) (v_minUnitPrice v) (v_maxBlockUnits v) (v_windowTargetUnits v)
    (v_minBlockGap v) (v_validityWindow v) (v_hideTxs v) x (v_prometheusBaseURI v) (v_prometheusOpenBrowser v)
    (v_prometheusFile v) (v_prometheusData v) (v_startPrometheus v).
Definition set_prometheusBaseURI (x : string) (v : Vars) : Vars :=
    mkVars (v_dbPath v) (v_genesisFile v) (v_minUnitPrice v) (v_maxBlockUnits v) (v_windowTargetUnits v)
    (v_minBlockGap v) (v_validityWindow v) (v_hideTxs v) (v_checkAllChains v) x (v_prometheusOpenBrowser v)
    (v_prometheusFile v) (v_prometheusData v) (v_startPrometheus v).
Definition set_prometheusOpenBrowser (x : bool) (v : Vars) : Vars :=
    mkVars (v_dbPath v) (v_genesisFile v) (v_minUnitPrice v) (v_maxBlockUnits v) (v_windowTargetUnits v)
    (v_minBlockGap v) (v_validityWindow v) (v_hideTxs v) (v_checkAllChains v) (v_prometheusBaseURI v) x
    (v_prometheusFile v) (v_prometheusData v) (v_startPrometheus v).
Definition set_prometheusFile (x : string) (v : Vars) : Vars :=
    mkVars (v_dbPath v) (v_genesisFile v) (v_minUnitPrice v) (v_maxBlockUnits v) (v_windowTargetUnits v)
    (v_minBlockGap v) (v_validityWindow v) (v_hideTxs v) (v_checkAllChains v) (v_prometheusBaseURI v)
    (v_prometheusOpenBrowser v) x (v_prometheusData v) (v_startPrometheus v).
Definition set_prometheusData (x : string) (v : Vars) : Vars :=
    mkVars (v_dbPath v) (v_genesisFile v) (v_minUnitPrice v) (v_maxBlockUnits v) (v_windowTargetUnits v)
    (v_minBlockGap v) (v_validityWindow v) (v_hideTxs v) (v_checkAllChains v) (v_prometheusBaseURI v)
    (v_prometheusOpenBrowser v) (v_prometheusFile v) x (v_startPrometheus v).
Definition set_startPrometheus (x : bool) (v : Vars) : Vars :=
    mkVars (v_dbPath v) (v_genesisFile v) (v_minUnitPrice v) (v_maxBlockUnits v) (v_windowTargetUnits v)
    (v_minBlockGap v) (v_validityWindow v) (v_hideTxs v) (v_checkAllChains v) (v_prometheusBaseURI v)
    (v_prometheusOpenBrowser v) (v_prometheusFile v) (v_prometheusData v) x.

Definition set_vars (x : Vars) (w : World) : World := mkWorld x (handler w) (databases w) (files w) (out w).
Definition set_handler (x : option Handler) (w : World) : World :=
  mkWorld (vars w) x (databases w) (files w) (out w).
Definition set_databases (x : gmap string Db) (w : World) : World :=
  mkWorld (vars w) (handler w) x (files w) (out w).
Definition set_files (x : gmap string bytes) (w : World) : World :=
  mkWorld (vars w) (handler w) (databases w) x (out w).
Definition set_out (x : list string) (w : World) : World :=
  mkWorld (vars w) (handler w) (databases w) (files w) x.

Definition get {A} (f : World -> A) : GoM World A := fun w => (Ok (f w), w).
Definition modify (f : World -> World) : GoM World unit := fun w => (Ok tt, f w).
Definition modify_vars (f : Vars -> Vars) : GoM World unit := modify (fun w => set_vars (f (vars w)) w).

Definition Outf (line : string) : GoM World unit := modify (fun w => set_out (out w ++ [line]) w).

(** ** The system under the program *)

(** What reading and writing a file may answer besides a success. *)
Class FileFaults := {
  read_fault : string -> option error;
  write_fault : string -> option error;
}.

Definition no_file_faults : FileFaults := {| read_fault _ := None; write_fault _ := None |}.

Section disk.
Context `{DbFaults} `{FileFaults}.

Definition ReadFile (path : string) (w : World) : result bytes :=
  match read_fault path with
  | Some err => Err err
  | None =>
      match files w !! path with
      | Some b => Ok b
      | None => Err (ErrFresh ("open " +:+ path +:+ ": no such file or directory"))
      end
  end.

Definition WriteFile (path : string) (b : bytes) : GoM World unit := fun w =>
  match write_fault path with
  | Some err => (Err err, w)
  | None => (Ok tt, set_files (<[path := b]> (files w)) w)
  end.

(** [cli.New]: opens the database of the controller, creating it. *)
Definition cli_New (c : cli_Controller) : GoM World Handler := fun w =>
  let path := DatabasePath c in
  match open_fault path with
  | Some err => (Err err, w)
  | None =>
      (Ok (mkHandler c (Some path)),
       set_databases (<[path := default ∅ (databases w !! path)]> (databases w)) w)
  end.

(** A call on the database of the handler; without a handler, or with a closed
    database, it panics. *)
Definition on_db {A} (m : GoM Db A) : GoM World A := fun w =>
  match handler w with
  | Some (mkHandler _ (Some path)) =>
      let '(r, db) := m (default ∅ (databases w !! path)) in
      (r, set_databases (<[path := db]> (databases w)) w)
  | _ => (Err (panicked nil_dereference), w)
  end.

Definition CloseDatabase : GoM World unit := fun w =>
  match handler w with
  | None => (Err (panicked nil_dereference), w)
  | Some (mkHandler _ None) => (Ok tt, w)
  | Some (mkHandler c (Some path)) =>
      match close_fault path with
      | Some err => (Err (Errorf_w "unable to close database: " err ""), w)
      | None => (Ok tt, set_handler (Some (mkHandler c None)) w)
      end
  end.
End disk.
