(* ===== verification/RootHandler.v ===== *)
(** * The library's handler (hypersdk/cli, hypersdk/cli/prompt)

    The methods behind the commands that the program leaves to the library:
    the default key and chain, balances, importing chains, watching blocks
    and the metrics dashboard.  What a run meets outside (what the user
    enters, what nodes answer, the order of Go's maps) is the record
    [Outside]; texts of identifiers and YAML are the class [Texts]. *)

From S2P Require Import Prelude GoErrors Lib Rules Strconv Cobra Vm KeyStore Cli CliState.
#[local] Open Scope Z_scope.

(** ** The dashboard (hypersdk/internal/prometheus) *)

(** *** Panels *)

Definition InboundBandwidth : string :=
  "increase(avalanche_network_get_received_bytes[5s])/5 + " +:+
  "increase(avalanche_network_put_received_bytes[5s])/5 + " +:+
  "increase(avalanche_network_ping_received_bytes[5s])/5  + " +:+
  "increase(avalanche_network_pong_received_bytes[5s])/5 + " +:+
  " increase(avalanche_network_chits_received_bytes[5s])/5 + " +:+
  " increase(avalanche_network_version_received_bytes[5s])/5 + " +:+
  " increase(avalanche_network_accepted_received_bytes[5s])/5 + " +:+
  " increase(avalanche_network_peerlist_received_bytes[5s])/5 + " +:+
  "increase(avalanche_network_ancestors_received_bytes[5s])/5 + " +:+
  " increase(avalanche_network_app_gossip_received_bytes[5s])/5 + " +:+
  "increase(avalanche_network_pull_query_received_bytes[5s])/5 + " +:+
  "increase(avalanche_network_push_query_received_bytes[5s])/5 + " +:+
  "increase(avalanche_network_app_request_received_bytes[5s])/5 + " +:+
  "increase(avalanche_network_app_response_received_bytes[5s])/5 + " +:+
  "increase(avalanche_network_get_accepted_received_bytes[5s])/5 + " +:+
  "increase(avalanche_network_peerlist_ack_received_bytes[5s])/5 +increase(avalanche_network_get_ancest" +:+
  "ors_received_bytes[5s])/5 +increase(avalanche_network_accepted_frontier_received_bytes[5s])/5 +incre" +:+
  "ase(avalanche_network_get_accepted_frontier_received_bytes[5s])/5 +increase(avalanche_network_accept" +:+
  "ed_state_summary_received_bytes[5s])/5 +increase(avalanche_network_state_summary_frontier_received_b" +:+
  "ytes[5s])/5 +increase(avalanche_network_get_accepted_state_summary_received_bytes[5s])/5  +increase(" +:+
  "avalanche_network_get_state_summary_frontier_received_bytes[5s])/5".

Definition InboundCompressionSavings : string :=
  "increase(avalanche_network_get_compression_saved_received_bytes_sum[5s])/5 + " +:+
  "increase(avalanche_network_put_compression_saved_received_bytes_sum[5s])/5 + " +:+
  "increase(avalanche_network_ping_compression_saved_received_bytes_sum[5s])/5  + " +:+
  "increase(avalanche_network_pong_compression_saved_received_bytes_sum[5s])/5 + " +:+
  " increase(avalanche_network_chits_compression_saved_received_bytes_sum[5s])/5 + " +:+
  " increase(avalanche_network_version_compression_saved_received_bytes_sum[5s])/5 + " +:+
  " increase(avalanche_network_accepted_compression_saved_received_bytes_sum[5s])/5 + " +:+
  " increase(avalanche_network_peerlist_compression_saved_received_bytes_sum[5s])/5 + " +:+
  "increase(avalanche_network_ancestors_compression_saved_received_bytes_sum[5s])/5 + " +:+
  " increase(avalanche_network_app_gossip_compression_saved_received_bytes_sum[5s])/5 + " +:+
  "increase(avalanche_network_pull_query_compression_saved_received_bytes_sum[5s])/5 + " +:+
  "increase(avalanche_network_push_query_compression_saved_received_bytes_sum[5s])/5 + " +:+
  "increase(avalanche_network_app_request_compression_saved_received_bytes_sum[5s])/5 + " +:+
  "increase(avalanche_network_app_response_compression_saved_received_bytes_sum[5s])/5 + " +:+
  "increase(avalanche_network_get_accepted_compression_saved_received_bytes_sum[5s])/5 + " +:+
  "increase(avalanche_network_peerlist_ack_compression_saved_received_bytes_sum[5s])/5 +increase(avalan" +:+
  "che_network_get_ancestors_compression_saved_received_bytes_sum[5s])/5 +increase(avalanche_network_ac" +:+
  "cepted_frontier_compression_saved_received_bytes_sum[5s])/5 +increase(avalanche_network_get_accepted" +:+
  "_frontier_compression_saved_received_bytes_sum[5s])/5 +increase(avalanche_network_accepted_state_sum" +:+
  "mary_compression_saved_received_bytes_sum[5s])/5 +increase(avalanche_network_state_summary_frontier_" +:+
  "compression_saved_received_bytes_sum[5s])/5 +increase(avalanche_network_get_accepted_state_summary_c" +:+
  "ompression_saved_received_bytes_sum[5s])/5  +increase(avalanche_network_get_state_summary_frontier_c" +:+
  "ompression_saved_received_bytes_sum[5s])/5".

Definition DecompressionTime : string :=
  "increase(avalanche_network_codec_zstd_get_decompress_time_sum[5s])/1000000/5 + " +:+
  "increase(avalanche_network_codec_zstd_put_decompress_time_sum[5s])/1000000/5 + " +:+
  "increase(avalanche_network_codec_zstd_ping_decompress_time_sum[5s])/1000000/5  + " +:+
  "increase(avalanche_network_codec_zstd_pong_decompress_time_sum[5s])/1000000/5 + " +:+
  " increase(avalanche_network_codec_zstd_chits_decompress_time_sum[5s])/1000000/5 + " +:+
  " increase(avalanche_network_codec_zstd_version_decompress_time_sum[5s])/1000000/5 + " +:+
  " increase(avalanche_network_codec_zstd_accepted_decompress_time_sum[5s])/1000000/5 + " +:+
  " increase(avalanche_network_codec_zstd_peerlist_decompress_time_sum[5s])/1000000/5 + " +:+
  "increase(avalanche_network_codec_zstd_ancestors_decompress_time_sum[5s])/1000000/5 + " +:+
  " increase(avalanche_network_codec_zstd_app_gossip_decompress_time_sum[5s])/1000000/5 + " +:+
  "increase(avalanche_network_codec_zstd_pull_query_decompress_time_sum[5s])/1000000/5 + " +:+
  "increase(avalanche_network_codec_zstd_push_query_decompress_time_sum[5s])/1000000/5 + " +:+
  "increase(avalanche_network_codec_zstd_app_request_decompress_time_sum[5s])/1000000/5 + " +:+
  "increase(avalanche_network_codec_zstd_app_response_decompress_time_sum[5s])/1000000/5 + " +:+
  "increase(avalanche_network_codec_zstd_get_accepted_decompress_time_sum[5s])/1000000/5 + " +:+
  "increase(avalanche_network_codec_zstd_peerlist_ack_decompress_time_sum[5s])/1000000/5 +increase(aval" +:+
  "anche_network_codec_zstd_get_ancestors_decompress_time_sum[5s])/1000000/5 +increase(avalanche_networ" +:+
  "k_codec_zstd_accepted_frontier_decompress_time_sum[5s])/1000000/5 +increase(avalanche_network_codec_" +:+
  "zstd_get_accepted_frontier_decompress_time_sum[5s])/1000000/5 +increase(avalanche_network_codec_zstd" +:+
  "_accepted_state_summary_decompress_time_sum[5s])/1000000/5 +increase(avalanche_network_codec_zstd_st" +:+
  "ate_summary_frontier_decompress_time_sum[5s])/1000000/5 +increase(avalanche_network_codec_zstd_get_a" +:+
  "ccepted_state_summary_decompress_time_sum[5s])/1000000/5  +increase(avalanche_network_codec_zstd_get" +:+
  "_state_summary_frontier_decompress_time_sum[5s])/1000000/5".

Definition OutboundBandwidth : string :=
  "increase(avalanche_network_get_sent_bytes[5s])/5 + " +:+
  "increase(avalanche_network_put_sent_bytes[5s])/5 + " +:+
  "increase(avalanche_network_ping_sent_bytes[5s])/5  + " +:+
  "increase(avalanche_network_pong_sent_bytes[5s])/5 + " +:+
  " increase(avalanche_network_chits_sent_bytes[5s])/5 + " +:+
  " increase(avalanche_network_version_sent_bytes[5s])/5 + " +:+
  " increase(avalanche_network_accepted_sent_bytes[5s])/5 + " +:+
  " increase(avalanche_network_peerlist_sent_bytes[5s])/5 + " +:+
  "increase(avalanche_network_ancestors_sent_bytes[5s])/5 + " +:+
  " increase(avalanche_network_app_gossip_sent_bytes[5s])/5 + " +:+
  "increase(avalanche_network_pull_query_sent_bytes[5s])/5 + " +:+
  "increase(avalanche_network_push_query_sent_bytes[5s])/5 + " +:+
  "increase(avalanche_network_app_request_sent_bytes[5s])/5 + " +:+
  "increase(avalanche_network_app_response_sent_bytes[5s])/5 + " +:+
  "increase(avalanche_network_get_accepted_sent_bytes[5s])/5 + " +:+
  "increase(avalanche_network_peerlist_ack_sent_bytes[5s])/5 +increase(avalanche_network_get_ancestors_" +:+
  "sent_bytes[5s])/5 +increase(avalanche_network_accepted_frontier_sent_bytes[5s])/5 +increase(avalanch" +:+
  "e_network_get_accepted_frontier_sent_bytes[5s])/5 +increase(avalanche_network_accepted_state_summary" +:+
  "_sent_bytes[5s])/5 +increase(avalanche_network_state_summary_frontier_sent_bytes[5s])/5 +increase(av" +:+
  "alanche_network_get_accepted_state_summary_sent_bytes[5s])/5  +increase(avalanche_network_get_state_" +:+
  "summary_frontier_sent_bytes[5s])/5".

Definition OutboundCompressionSavings : string :=
  "increase(avalanche_network_get_compression_saved_sent_bytes_sum[5s])/5 + " +:+
  "increase(avalanche_network_put_compression_saved_sent_bytes_sum[5s])/5 + " +:+
  "increase(avalanche_network_ping_compression_saved_sent_bytes_sum[5s])/5  + " +:+
  "increase(avalanche_network_pong_compression_saved_sent_bytes_sum[5s])/5 + " +:+
  " increase(avalanche_network_chits_compression_saved_sent_bytes_sum[5s])/5 + " +:+
  " increase(avalanche_network_version_compression_saved_sent_bytes_sum[5s])/5 + " +:+
  " increase(avalanche_network_accepted_compression_saved_sent_bytes_sum[5s])/5 + " +:+
  " increase(avalanche_network_peerlist_compression_saved_sent_bytes_sum[5s])/5 + " +:+
  "increase(avalanche_network_ancestors_compression_saved_sent_bytes_sum[5s])/5 + " +:+
  " increase(avalanche_network_app_gossip_compression_saved_sent_bytes_sum[5s])/5 + " +:+
  "increase(avalanche_network_pull_query_compression_saved_sent_bytes_sum[5s])/5 + " +:+
  "increase(avalanche_network_push_query_compression_saved_sent_bytes_sum[5s])/5 + " +:+
  "increase(avalanche_network_app_request_compression_saved_sent_bytes_sum[5s])/5 + " +:+
  "increase(avalanche_network_app_response_compression_saved_sent_bytes_sum[5s])/5 + " +:+
  "increase(avalanche_network_get_accepted_compression_saved_sent_bytes_sum[5s])/5 + " +:+
  "increase(avalanche_network_peerlist_ack_compression_saved_sent_bytes_sum[5s])/5 +increase(avalanche_" +:+
  "network_get_ancestors_compression_saved_sent_bytes_sum[5s])/5 +increase(avalanche_network_accepted_f" +:+
  "rontier_compression_saved_sent_bytes_sum[5s])/5 +increase(avalanche_network_get_accepted_frontier_co" +:+
  "mpression_saved_sent_bytes_sum[5s])/5 +increase(avalanche_network_accepted_state_summary_compression" +:+
  "_saved_sent_bytes_sum[5s])/5 +increase(avalanche_network_state_summary_frontier_compression_saved_se" +:+
  "nt_bytes_sum[5s])/5 +increase(avalanche_network_get_accepted_state_summary_compression_saved_sent_by" +:+
  "tes_sum[5s])/5  +increase(avalanche_network_get_state_summary_frontier_compression_saved_sent_bytes_" +:+
  "sum[5s])/5".

Definition CompressionTime : string :=
  "increase(avalanche_network_codec_zstd_get_compress_time_sum[5s])/1000000/5 + " +:+
  "increase(avalanche_network_codec_zstd_put_compress_time_sum[5s])/1000000/5 + " +:+
  "increase(avalanche_network_codec_zstd_ping_compress_time_sum[5s])/1000000/5  + " +:+
  "increase(avalanche_network_codec_zstd_pong_compress_time_sum[5s])/1000000/5 + " +:+
  " increase(avalanche_network_codec_zstd_chits_compress_time_sum[5s])/1000000/5 + " +:+
  " increase(avalanche_network_codec_zstd_version_compress_time_sum[5s])/1000000/5 + " +:+
  " increase(avalanche_network_codec_zstd_accepted_compress_time_sum[5s])/1000000/5 + " +:+
  " increase(avalanche_network_codec_zstd_peerlist_compress_time_sum[5s])/1000000/5 + " +:+
  "increase(avalanche_network_codec_zstd_ancestors_compress_time_sum[5s])/1000000/5 + " +:+
  " increase(avalanche_network_codec_zstd_app_gossip_compress_time_sum[5s])/1000000/5 + " +:+
  "increase(avalanche_network_codec_zstd_pull_query_compress_time_sum[5s])/1000000/5 + " +:+
  "increase(avalanche_network_codec_zstd_push_query_compress_time_sum[5s])/1000000/5 + " +:+
  "increase(avalanche_network_codec_zstd_app_request_compress_time_sum[5s])/1000000/5 + " +:+
  "increase(avalanche_network_codec_zstd_app_response_compress_time_sum[5s])/1000000/5 + " +:+
  "increase(avalanche_network_codec_zstd_get_accepted_compress_time_sum[5s])/1000000/5 + " +:+
  "increase(avalanche_network_codec_zstd_peerlist_ack_compress_time_sum[5s])/1000000/5 +increase(avalan" +:+
  "che_network_codec_zstd_get_ancestors_compress_time_sum[5s])/1000000/5 +increase(avalanche_network_co" +:+
  "dec_zstd_accepted_frontier_compress_time_sum[5s])/1000000/5 +increase(avalanche_network_codec_zstd_g" +:+
  "et_accepted_frontier_compress_time_sum[5s])/1000000/5 +increase(avalanche_network_codec_zstd_accepte" +:+
  "d_state_summary_compress_time_sum[5s])/1000000/5 +increase(avalanche_network_codec_zstd_state_summar" +:+
  "y_frontier_compress_time_sum[5s])/1000000/5 +increase(avalanche_network_codec_zstd_get_accepted_stat" +:+
  "e_summary_compress_time_sum[5s])/1000000/5  +increase(avalanche_network_codec_zstd_get_state_summary" +:+
  "_frontier_compress_time_sum[5s])/1000000/5".

Definition OutboundFailed : string :=
  "increase(avalanche_network_get_failed[5s])/5 + increase(avalanche_network_put_failed[5s])/5 + " +:+
  "increase(avalanche_network_ping_failed[5s])/5  + increase(avalanche_network_pong_failed[5s])/5 + " +:+
  " increase(avalanche_network_chits_failed[5s])/5 + " +:+
  " increase(avalanche_network_version_failed[5s])/5 + " +:+
  " increase(avalanche_network_accepted_failed[5s])/5 + " +:+
  " increase(avalanche_network_peerlist_failed[5s])/5 + " +:+
  "increase(avalanche_network_ancestors_failed[5s])/5 + " +:+
  " increase(avalanche_network_app_gossip_failed[5s])/5 + " +:+
  "increase(avalanche_network_pull_query_failed[5s])/5 + " +:+
  "increase(avalanche_network_push_query_failed[5s])/5 + " +:+
  "increase(avalanche_network_app_request_failed[5s])/5 + " +:+
  "increase(avalanche_network_app_response_failed[5s])/5 + " +:+
  "increase(avalanche_network_get_accepted_failed[5s])/5 + " +:+
  "increase(avalanche_network_peerlist_ack_failed[5s])/5 +increase(avalanche_network_get_ancestors_fail" +:+
  "ed[5s])/5 +increase(avalanche_network_accepted_frontier_failed[5s])/5 +increase(avalanche_network_ge" +:+
  "t_accepted_frontier_failed[5s])/5 +increase(avalanche_network_accepted_state_summary_failed[5s])/5 +" +:+
  "increase(avalanche_network_state_summary_frontier_failed[5s])/5 +increase(avalanche_network_get_acce" +:+
  "pted_state_summary_failed[5s])/5  +increase(avalanche_network_get_state_summary_frontier_failed[5s])" +:+
  "/5".

Definition InboundCompressionSavingsPercent : string :=
  "(" +:+ InboundCompressionSavings +:+ ")/(" +:+ InboundBandwidth +:+ " + " +:+ InboundCompressionSavings +:+ ") * 100".

Definition OutboundCompressionSavingsPercent : string :=
  "(" +:+ OutboundCompressionSavings +:+ ")/(" +:+ OutboundBandwidth +:+ " + " +:+ OutboundCompressionSavings +:+ ") * 100".

(** A panel and the line printed for it. *)
Definition panel (label expr : string) : string * string :=
  (expr, "{{yellow}}" +:+ label +:+ ":{{/}} " +:+ expr +:+ newline).

(** The label ends in an unescaped per cent sign, which takes the bracket
    after it for its verb and the panel for its argument. *)
Definition misprinted_panel (label expr : string) : string * string :=
  (expr, "{{yellow}}" +:+ label +:+ "(%!)(string=" +:+ expr +:+ "):{{/}} %!s(MISSING)" +:+ newline).

Definition generateChainPanels (chainID : string) : list (string * string) := [
  panel "empty blocks built (5s)" ("increase(avalanche_" +:+ chainID +:+ "_vm_hypersdk_chain_empty_block_built[5s])");
  panel "build time capped (5s)" ("increase(avalanche_" +:+ chainID +:+ "_vm_hypersdk_chain_build_capped[5s])");
  panel "blocks processing" ("avalanche_" +:+ chainID +:+ "_blks_processing");
  panel "blocks accepted per second" ("increase(avalanche_" +:+ chainID +:+ "_blks_accepted_count[5s])/5");
  panel "blocks rejected per second" ("increase(avalanche_" +:+ chainID +:+ "_blks_rejected_count[5s])/5");
  panel "blocks deleted per second" ("increase(avalanche_" +:+ chainID +:+ "_vm_hypersdk_vm_deleted_blocks[5s])/5");
  panel "bandwidth unit price" ("avalanche_" +:+ chainID +:+ "_vm_hypersdk_chain_bandwidth_price");
  panel "compute unit price" ("avalanche_" +:+ chainID +:+ "_vm_hypersdk_chain_compute_price");
  panel "storage read unit price" ("avalanche_" +:+ chainID +:+ "_vm_hypersdk_chain_storage_read_price");
  panel "storage create unit price" ("avalanche_" +:+ chainID +:+ "_vm_hypersdk_chain_storage_create_price");
  panel "storage modify unit price" ("avalanche_" +:+ chainID +:+ "_vm_hypersdk_chain_storage_modify_price");
  panel "transactions submitted per second" ("increase(avalanche_" +:+ chainID +:+
      "_vm_hypersdk_vm_txs_submitted[5s])/5");
  panel "transactions gossiped per second" ("increase(avalanche_" +:+ chainID +:+
      "_vm_hypersdk_vm_txs_gossiped[5s])/5");
  panel "transactions received per second" ("increase(avalanche_" +:+ chainID +:+
      "_vm_hypersdk_vm_txs_received[5s])/5");
  panel "seen transactions received per second" ("increase(avalanche_" +:+ chainID +:+
      "_vm_hypersdk_vm_seen_txs_received[5s])/5");
  panel "transactions verified per second" ("increase(avalanche_" +:+ chainID +:+
      "_vm_hypersdk_vm_txs_verified[5s])/5");
  panel "transactions accepted per second" ("increase(avalanche_" +:+ chainID +:+
      "_vm_hypersdk_vm_txs_accepted[5s])/5");
  panel "state operations per second" ("increase(avalanche_" +:+ chainID +:+
      "_vm_hypersdk_chain_state_operations[5s])/5");
  panel "state changes per second" ("increase(avalanche_" +:+ chainID +:+ "_vm_hypersdk_chain_state_changes[5s])/5");
  panel "root calculation (ms/s)" ("increase(avalanche_" +:+ chainID +:+
      "_vm_hypersdk_chain_root_calculated_sum[5s])/1000000/5");
  panel "wait root calculation (ms/s)" ("increase(avalanche_" +:+ chainID +:+
      "_vm_hypersdk_chain_wait_root_sum[5s])/1000000/5");
  panel "signature verification wait (ms/s)" ("increase(avalanche_" +:+ chainID +:+
      "_vm_hypersdk_chain_wait_signatures_sum[5s])/1000000/5");
  panel "cleared mempool per second" ("increase(avalanche_" +:+ chainID +:+
      "_vm_hypersdk_chain_cleared_mempool[5s])/5");
  panel "mempool size" ("avalanche_" +:+ chainID +:+ "_vm_hypersdk_chain_mempool_size");
  panel "CPU usage" ("avalanche_resource_tracker_cpu_usage");
  panel "memory (avalanchego) usage" ("avalanche_go_memstats_alloc_bytes");
  panel "memory (morpheusvm) usage" ("avalanche_" +:+ chainID +:+ "_vm_go_memstats_alloc_bytes");
  panel "consensus engine processing (ms/s)" ("increase(avalanche_" +:+ chainID +:+
      "_handler_chits_sum[5s])/1000000/5 + increase(avalanche_" +:+ chainID +:+
      "_handler_notify_sum[5s])/1000000/5 + increase(avalanche_" +:+ chainID +:+
      "_handler_get_sum[5s])/1000000/5 + increase(avalanche_" +:+ chainID +:+
      "_handler_push_query_sum[5s])/1000000/5 + increase(avalanche_" +:+ chainID +:+
      "_handler_put_sum[5s])/1000000/5 + increase(avalanche_" +:+ chainID +:+
      "_handler_pull_query_sum[5s])/1000000/5 + increase(avalanche_" +:+ chainID +:+
      "_handler_query_failed_sum[5s])/1000000/5");
  panel "inbound bandwidth (B)" (InboundBandwidth);
  misprinted_panel "inbound compression savings " (InboundCompressionSavingsPercent);
  panel "inbound decompression time (ms/s)" (DecompressionTime);
  panel "outbound bandwidth (B)" (OutboundBandwidth);
  misprinted_panel "outbound compression savings " (OutboundCompressionSavingsPercent);
  panel "outbound compression time (ms/s)" (CompressionTime);
  panel "outbound failed" (OutboundFailed);
  panel "block build (ms/s)" ("increase(avalanche_" +:+ chainID +:+
      "_vm_hypersdk_chain_block_build_sum[5s])/1000000/5");
  panel "block parse (ms/s)" ("increase(avalanche_" +:+ chainID +:+
      "_vm_hypersdk_chain_block_parse_sum[5s])/1000000/5");
  panel "block verify (ms/s)" ("increase(avalanche_" +:+ chainID +:+
      "_vm_hypersdk_chain_block_verify_sum[5s])/1000000/5");
  panel "block accept (ms/s)" ("increase(avalanche_" +:+ chainID +:+
      "_vm_hypersdk_chain_block_accept_sum[5s])/1000000/5");
  panel "block process [async] (ms/s)" ("increase(avalanche_" +:+ chainID +:+
      "_vm_hypersdk_chain_block_process_sum[5s])/1000000/5");
  panel "intermediate node cache hit rate" ("increase(avalanche_" +:+ chainID +:+
      "_vm_state_merkleDB_intermediate_node_cache_hit[5s])/(increase(avalanche_" +:+ chainID +:+
      "_vm_state_merkleDB_intermediate_node_cache_miss[5s]) + increase(avalanche_" +:+ chainID +:+
      "_vm_state_merkleDB_intermediate_node_cache_hit[5s]))");
  panel "value node cache hit rate" ("increase(avalanche_" +:+ chainID +:+
      "_vm_state_merkleDB_value_node_cache_hit[5s])/(increase(avalanche_" +:+ chainID +:+
      "_vm_state_merkleDB_value_node_cache_miss[5s]) + increase(avalanche_" +:+ chainID +:+
      "_vm_state_merkleDB_value_node_cache_hit[5s]))");
  panel "build txs executable (%) per second" ("increase(avalanche_" +:+ chainID +:+
      "_vm_hypersdk_chain_executor_build_executable[5s]) / (increase(avalanche_" +:+ chainID +:+
      "_vm_hypersdk_chain_executor_build_blocked[5s]) + increase(avalanche_" +:+ chainID +:+
      "_vm_hypersdk_chain_executor_build_executable[5s]))");
  panel "verify txs executable (%) per second" ("increase(avalanche_" +:+ chainID +:+
      "_vm_hypersdk_chain_executor_verify_executable[5s]) / (increase(avalanche_" +:+ chainID +:+
      "_vm_hypersdk_chain_executor_verify_blocked[5s]) + increase(avalanche_" +:+ chainID +:+
      "_vm_hypersdk_chain_executor_verify_executable[5s]))")
].

(** *** The link *)

(** [url.QueryEscape]. *)
Definition upper_hex (d : Z) : Z := if d <? 10 then 48 + d else 55 + d.

Definition unreserved (c : Z) : bool :=
  (97 <=? c) && (c <=? 122) || (65 <=? c) && (c <=? 90) || (48 <=? c) && (c <=? 57) ||
  (c =? 45) || (c =? 95) || (c =? 46) || (c =? 126).

Definition QueryEscape (s : string) : string :=
  string_of_bytes (flat_map (fun c =>
    if unreserved c then [c] else if c =? 32 then [43] else [37; upper_hex (c / 16); upper_hex (c mod 16)])
    (bytes_of_string s)).

Definition dashboard_param (i : Z) (expr : string) : string :=
  let n := fmt_d i in
  (if i =? 0 then "?" else "&") +:+ "g" +:+ n +:+ ".expr=" +:+ QueryEscape expr +:+ "&g" +:+ n +:+ ".tab=0&g"
    +:+ n +:+ ".step_input=1&g" +:+ n +:+ ".range_input=5m".

Definition dashboard_link (baseURI : string) (panels : list (string * string)) : string :=
  foldl (fun link p => link +:+ p) (baseURI +:+ "/graph") (imap (fun i p => dashboard_param (Z.of_nat i) p.1) panels).

(** *** The configuration *)

Record PrometheusScrapeConfig := mkScrapeConfig { JobName : string; Targets : list (list string); MetricsPath : string }.

Record PrometheusConfig := mkPrometheusConfig {
  ScrapeInterval : string;
  EvaluationInterval : string;
  ScrapeConfigs : list PrometheusScrapeConfig;
}.

Definition prometheus_config (endpoints : list string) : PrometheusConfig :=
  mkPrometheusConfig "1s" "1s" [mkScrapeConfig "prometheus" [endpoints] "/ext/metrics"].

(** The standard library's URLs by their host, with the port, and the YAML
    library. *)
Class URLs := {
  url_Parse : string -> result string;
  url_Port : string -> string;
  SplitHostPort : string -> result (string * string);
  MarshalPrometheus : PrometheusConfig -> result bytes;
}.

Section endpoints.
Context `{URLs}.

Definition GetHost (uri : string) : result string :=
  purl ← url_Parse uri;
  p ← SplitHostPort purl;
  Ok p.1.

Definition GetPort (uri : string) : result string :=
  purl ← url_Parse uri;
  Ok (url_Port purl).

Fixpoint endpoints (endpointURIs : list string) : result (list string) :=
  match endpointURIs with
  | [] => Ok []
  | uri :: rest =>
      host ← GetHost uri;
      port ← GetPort uri;
      rest ← endpoints rest;
      Ok ((host +:+ ":" +:+ port) :: rest)
  end.
End endpoints.

(** ** What is outside *)

(** cluster_info.go: a node of the file. *)
Record ClusterNode := mkClusterNode { IP : string; Region : string }.

Record ClusterInfo := mkClusterInfo {
  ci_ChainID : string;
  APIs : list ClusterNode;
  Validators : list ClusterNode;
}.

Class Texts := {
  ID_String : bytes -> string;
  ID_FromString : string -> result bytes;
  UnmarshalClusterInfo : bytes -> result ClusterInfo;
}.

(** A block that a node sends: its transactions and their results, with the
    units of each. *)
Record WatchedBlock := mkWatchedBlock { wb_Txs : list TxView; wb_results : list (TxResult * Dimensions) }.

(** [typed]: what the user enters at a prompt, entry by entry, or how the
    prompt ends.  A node sends [ws_blocks], and then the connection ends with
    an error; [block_line] prints a block with the units it consumed, by the
    clock.  [late]: Prometheus still runs after five seconds. *)
Record Outside := mkOutside {
  typed : list (result string);
  map_order : forall A, list A -> list A;
  map_order_perm A (l : list A) : map_order A l ≡ₚ l;
  node_Network : string -> result (Z * bytes * bytes);
  node_Balance : string -> bytes -> result Z;
  NewWebSocketClient : string -> option error;
  RegisterBlocks : option error;
  ws_blocks : list WatchedBlock;
  ws_end : error;
  block_line : nat -> Dimensions -> WatchedBlock -> string;
  OpenURL : string -> option error;
  prometheus_Run : option error;
  late : bool;
}.

(** ** Prompts *)

Definition ErrEOF : error := ErrVar "promptui.ErrEOF" "^D".
Definition prompt_ErrInputEmpty : error := ErrVar "prompt.ErrInputEmpty" "input is empty".
Definition prompt_ErrInputTooLarge : error := ErrVar "prompt.ErrInputTooLarge" "input is too large".
Definition prompt_ErrIndexOutOfRange : error := ErrVar "prompt.ErrIndexOutOfRange" "index out-of-range".

(** A prompt takes the first entry that is valid. *)
Fixpoint prompt_Run (Validate : string -> option error) (entries : list (result string)) : result string :=
  match entries with
  | [] => Err ErrEOF
  | Err err :: _ => Err err
  | Ok input :: entries =>
      match Validate input with
      | None => Ok input
      | Some _ => prompt_Run Validate entries
      end
  end.

(** [strings.TrimSpace], by the UTF-8 encodings of white space. *)
Definition white_space : list bytes :=
  [[9]; [10]; [11]; [12]; [13]; [32]; [194; 133]; [194; 160]; [225; 154; 128]] ++
  map (fun c => [226; 128; c]) [128; 129; 130; 131; 132; 133; 134; 135; 136; 137; 138; 168; 169; 175] ++
  [[226; 129; 159]; [227; 128; 128]].

Fixpoint trim_left (fuel : nat) (spaces : list bytes) (s : bytes) : bytes :=
  match fuel with
  | O => s
  | S fuel =>
      match List.find (fun space => bool_decide (take (length space) s = space)) spaces with
      | None => s
      | Some space => trim_left fuel spaces (drop (length space) s)
      end
  end.

Definition TrimSpace (s : string) : string :=
  let b := bytes_of_string s in
  let b := trim_left (length b) white_space b in
  string_of_bytes (rev (trim_left (length b) (map (@rev Z) white_space) (rev b))).

Section handler.
Context `{Quoting} `{Hashing} `{Crypto} `{DbFaults} `{FileFaults} `{Texts} `{URLs} `{Formatting}.
Variable (env : Outside).

(** [strconv.Atoi]: [ParseInt] under its own name. *)
Definition Atoi (s : string) : Z * option error :=
  match ParseInt s 10 with
  | (i, Some (ErrWrap _ inner)) => (i, Some (NumError "Atoi" (bytes_of_string s) inner))
  | r => r
  end.

Definition prompt_String (label : string) (minLen maxLen : Z) : GoM World string :=
  text ← lift (prompt_Run (fun input =>
    let n := Z.of_nat (String.length input) in
    if n <? minLen then Some prompt_ErrInputEmpty
    else if maxLen <? n then Some prompt_ErrInputTooLarge
    else None) (typed env));
  mret (TrimSpace text).

Definition Choice (label : string) (maxChoice : nat) : GoM World Z :=
  if (maxChoice =? 1)%nat
  then Outf ("{{yellow}}" +:+ label +:+ ":{{/}} 0 [auto-selected]" +:+ newline);; mret 0
  else
    rawIndex ← lift (prompt_Run (fun input =>
      if (String.length input =? 0)%nat then Some prompt_ErrInputEmpty
      else
        match Atoi input with
        | (_, Some err) => Some err
        | (index, None) =>
            if (Z.of_nat maxChoice <=? index) || (index <? 0) then Some prompt_ErrIndexOutOfRange else None
        end) (typed env));
    match Atoi rawIndex with
    | (_, Some err) => fail err
    | (index, None) => mret index
    end.

(** [l[i]]. *)
Definition index_of_slice {A} (i : Z) (l : list A) : GoM World A :=
  match (if i <? 0 then None else l !! Z.to_nat i) with
  | Some a => mret a
  | None => fail (panicked (ErrFresh ("runtime error: index out of range [" +:+ fmt_d i +:+ "] with length "
      +:+ fmt_d (Z.of_nat (length l)))))
  end.

Fixpoint print_chains (i : Z) (chains : list (bytes * list string)) : GoM World unit :=
  match chains with
  | [] => mret tt
  | (chainID, _) :: chains =>
      Outf (fmt_d i +:+ ") {{cyan}}chainID:{{/}} " +:+ ID_String chainID +:+ newline);; print_chains (i + 1) chains
  end.

Definition SelectChain (label : string) (chainToRPCs : gmap bytes (list string)) : GoM World (bytes * list string) :=
  let keys := map_order env _ (map_to_list chainToRPCs) in
  Outf ("{{cyan}}available chains:{{/}} " +:+ fmt_d (Z.of_nat (size chainToRPCs)) +:+ newline);;
  print_chains 0 keys;;
  chainIndex ← Choice label (length keys);
  index_of_slice chainIndex keys.

(** ** storage.go: the readers that print what they read *)

Definition root_GetDefaultKey : GoM World (bytes * bytes) :=
  r ← on_db (fun db => returned (GetDefaultKey db) db);
  Outf ("{{yellow}}address:{{/}} " +:+ Address_String r.1 +:+ newline);;
  mret r.

Definition root_GetDefaultChain : GoM World (bytes * list string) :=
  r ← on_db (fun db => returned (GetDefaultChain db) db);
  Outf ("{{yellow}}chainID:{{/}} " +:+ ID_String r.1 +:+ newline);;
  mret r.

Definition root_GetChains : GoM World (gmap bytes (list string)) := on_db (fun db => returned (GetChains db) db).

(** ** key.go *)

(** The controller's [LookupBalance], on a client of the node. *)
Definition lookup (address : bytes) (uri : string) : GoM World Z :=
  LookupBalance (fun uri addr => lift (node_Balance env uri addr)) address uri.

Fixpoint print_keys (uri : string) (i : Z) (keys : list PrivateKey) : GoM World unit :=
  match keys with
  | [] => mret tt
  | key :: keys =>
      balance ← lookup (pk_Address key) uri;
      Outf (fmt_d i +:+ ") {{cyan}}address:{{/}} " +:+ Address_String (pk_Address key) +:+ " {{cyan}}balance:{{/}} "
        +:+ FormatBalance balance +:+ " " +:+ Consts.Symbol +:+ newline);;
      print_keys uri (i + 1) keys
  end.

Definition SetKey : GoM World unit :=
  keys ← on_db (fun db => returned (GetKeys db) db);
  if (length keys =? 0)%nat then Outf ("{{red}}no stored keys{{/}}" +:+ newline)
  else
    chain ← root_GetDefaultChain;
    match chain.2 with
    | [] => Outf ("{{red}}no available chains{{/}}" +:+ newline)
    | uri :: _ =>
        Outf ("{{cyan}}stored keys:{{/}} " +:+ fmt_d (Z.of_nat (length keys)) +:+ newline);;
        print_keys uri 0 keys;;
        keyIndex ← Choice "set default key" (length keys);
        key ← index_of_slice keyIndex keys;
        on_db (StoreDefaultKey (pk_Address key))
    end.

(** A line and a balance for each URI; the balance is always that of the
    first. *)
Fixpoint print_balances (addr : bytes) (first : string) (uris : list string) : GoM World unit :=
  match uris with
  | [] => mret tt
  | uri :: uris =>
      Outf ("{{yellow}}uri:{{/}} " +:+ uri +:+ newline);;
      balance ← lookup addr first;
      Outf ("{{cyan}}address:{{/}} " +:+ Address_String addr +:+ " {{cyan}}balance:{{/}} " +:+ FormatBalance balance
        +:+ " " +:+ Consts.Symbol +:+ newline);;
      print_balances addr first uris
  end.

(** [uris[:1]] of no URIs panics. *)
Definition Balance (checkAllChains : bool) : GoM World unit :=
  key ← root_GetDefaultKey;
  chain ← root_GetDefaultChain;
  match chain.2 with
  | [] => if checkAllChains then mret tt else fail (panicked (slice_bounds 1 0))
  | first :: _ => print_balances key.1 first (if checkAllChains then chain.2 else [first])
  end.

(** ** chain.go *)

Definition maxInt : Z := two63 - 1.

Definition ImportChain : GoM World unit :=
  uri ← prompt_String "uri" 0 maxInt;
  network ← lift (node_Network env uri);
  on_db (StoreChain network.2 uri);;
  on_db (StoreDefaultChain network.2).

Definition SetDefaultChain : GoM World unit :=
  chains ← root_GetChains;
  chain ← SelectChain "set default chain" chains;
  on_db (StoreDefaultChain chain.1).

Definition PrintChainInfo : GoM World unit :=
  chains ← root_GetChains;
  chain ← SelectChain "select chainID" chains;
  uri ← index_of_slice 0 chain.2;
  network ← lift (node_Network env uri);
  Outf ("{{cyan}}networkID:{{/}} " +:+ fmt_d network.1.1 +:+ " {{cyan}}subnetID:{{/}} " +:+ ID_String network.1.2
    +:+ " {{cyan}}chainID:{{/}} " +:+ ID_String network.2).

(** fees.Add, over the results of a block. *)
Fixpoint add_dimensions (a b : Dimensions) : result Dimensions :=
  match a, b with
  | x :: a, y :: b =>
      v ← safemath_Add x y;
      d ← add_dimensions a b;
      Ok (v :: d)
  | _, _ => Ok []
  end.

Fixpoint consumed_units (consumed : Dimensions) (results : list (TxResult * Dimensions)) : result Dimensions :=
  match results with
  | [] => Ok consumed
  | r :: results =>
      consumed ← add_dimensions consumed r.2;
      consumed_units consumed results
  end.

Fixpoint Outs (lines : list string) : GoM World unit :=
  match lines with
  | [] => mret tt
  | line :: lines => Outf line;; Outs lines
  end.

(** The transactions of a block, each with the result at its index. *)
Fixpoint handle_txs (c : cli_Controller) (i : Z) (txs : list TxView) (results : list (TxResult * Dimensions))
  : GoM World unit :=
  match txs with
  | [] => mret tt
  | tx :: txs =>
      result ← index_of_slice i results;
      Outs (HandleTx c tx result.1);;
      handle_txs c (i + 1) txs results
  end.

(** The loop, until the connection ends. *)
Fixpoint watch_blocks (c : cli_Controller) (hideTxs : bool) (i : nat) (blocks : list WatchedBlock) : GoM World unit :=
  match blocks with
  | [] => fail (ws_end env)
  | blk :: blocks =>
      consumed ← lift (consumed_units zero_dimensions (wb_results blk));
      Outf (block_line env i consumed blk);;
      (if hideTxs then mret tt else handle_txs c 0 (wb_Txs blk) (wb_results blk));;
      watch_blocks c hideTxs (S i) blocks
  end.

Definition WatchChain (hideTxs : bool) : GoM World unit :=
  chains ← root_GetChains;
  chain ← SelectChain "select chainID" chains;
  c ← get (fun w => match handler w with Some h => h_controller h | None => NewController EmptyString end);
  CloseDatabase;;
  uri ← index_of_slice 0 chain.2;
  Outf ("{{yellow}}uri:{{/}} " +:+ uri +:+ newline);;
  return_error (NewWebSocketClient env uri);;
  return_error (RegisterBlocks env);;
  Outf ("{{green}}watching for new blocks on " +:+ ID_String chain.1 +:+ " " +:+ string_of_bytes [240; 159; 145; 128]
    +:+ "{{/}}" +:+ newline);;
  watch_blocks c hideTxs 0 (ws_blocks env).

(** ** cluster_info.go *)

Definition node_uris (kind : string) (chainID : bytes) (nodes : list ClusterNode) (m : gmap string string)
  : gmap string string :=
  foldl (fun m p => <[kind +:+ "-" +:+ fmt_d (Z.of_nat p.1) +:+ " (" +:+ Region p.2 +:+ ")" :=
      "http://" +:+ IP p.2 +:+ ":9650/ext/bc/" +:+ ID_String chainID]> m) m (imap (fun i n => (i, n)) nodes).

Definition ReadClusterInfoFile (cliPath : string) (w : World) : result (bytes * gmap string string) :=
  yamlFile ← ReadFile cliPath w;
  match UnmarshalClusterInfo yamlFile with
  | Err err => Err (Errorf_w "" err ": unable to unmarshal YAML")
  | Ok yamlContents =>
      chainID ← ID_FromString (ci_ChainID yamlContents);
      Ok (chainID, node_uris "Validator" chainID (Validators yamlContents)
                     (node_uris "API" chainID (APIs yamlContents) ∅))
  end.

(** What is stored for a node is its name. *)
Fixpoint store_nodes (chainID : bytes) (nodes : list (string * string)) : GoM World unit :=
  match nodes with
  | [] => mret tt
  | (name, uri) :: nodes =>
      on_db (StoreChain chainID name);;
      Outf ("{{yellow}}[" +:+ name +:+ "] stored chainID:{{/}} " +:+ ID_String chainID +:+ " {{yellow}}uri:{{/}} "
        +:+ uri +:+ newline);;
      store_nodes chainID nodes
  end.

Definition ImportClusterInfo (cliPath : string) : GoM World unit :=
  oldChains ← on_db (DeleteChains (map_order env));
  (if (0 <? length oldChains)%nat
   then Outf ("{{yellow}}deleted old chains:{{/}} [" +:+ String.concat " " (map ID_String oldChains) +:+ "]" +:+ newline)
   else mret tt);;
  r ← reading (ReadClusterInfoFile cliPath);
  store_nodes r.1 (map_order env _ (map_to_list r.2));;
  on_db (StoreDefaultChain r.1).

(** ** prometheus.go, internal/prometheus *)

Definition install_text : string :=
  let line s := s +:+ newline in
  line "install prometheus using the following commands:" +:+ newline +:+
  line "rm -f /tmp/prometheus" +:+
  line "wget https://github.com/prometheus/prometheus/releases/download/v2.43.0/prometheus-2.43.0.darwin-amd64.tar.gz" +:+
  line "tar -xvf prometheus-2.43.0.darwin-amd64.tar.gz" +:+
  line "rm prometheus-2.43.0.darwin-amd64.tar.gz" +:+
  line "mv prometheus-2.43.0.darwin-amd64/prometheus /tmp/prometheus" +:+
  line "rm -rf prometheus-2.43.0.darwin-amd64" +:+ newline.

(** Sending on a channel that nobody receives from any more. *)
Definition deadlock : error := ErrFresh "fatal error: all goroutines are asleep - deadlock!".

(** Prometheus in the foreground; after five seconds the other goroutine
    shows the dashboard, and receives no error any more. *)
Definition start_prometheus (openBrowser : bool) (dashboard : string) : GoM World unit :=
  Outf ("{{cyan}}starting prometheus (/tmp/prometheus) in background{{/}}" +:+ newline);;
  (if late env
   then
     if openBrowser
     then
       Outf ("{{cyan}}opening dashboard{{/}}" +:+ newline);;
       match OpenURL env dashboard with
       | Some err => Outf ("{{red}}unable to open dashboard:{{/}} " +:+ Error err +:+ newline)
       | None => mret tt
       end
     else Outf ("{{orange}}pre-built dashboard:{{/}} " +:+ dashboard +:+ newline)
   else mret tt);;
  match prometheus_Run env with
  | None => Outf ("{{cyan}}prometheus exited{{/}}" +:+ newline)
  | Some err =>
      if late env then fail (panicked deadlock)
      else
        Outf ("{{orange}}prometheus exited with error:{{/}} " +:+ Error err +:+ newline);;
        Outf install_text;;
        fail err
  end.

Definition prometheus_GeneratePrometheus (endpointURIs : list string) (baseURI : string) (chainID : bytes)
    (openBrowser startPrometheus : bool) (prometheusFile prometheusData : string) : GoM World unit :=
  targets ← lift (endpoints endpointURIs);
  yamlData ← lift (MarshalPrometheus (prometheus_config targets));
  WriteFile prometheusFile yamlData;;
  let panels := generateChainPanels (ID_String chainID) in
  Outs (map snd panels);;
  let dashboard := dashboard_link baseURI panels in
  if startPrometheus then start_prometheus openBrowser dashboard
  else if openBrowser then return_error (OpenURL env dashboard)
  else
    Outf ("{{orange}}pre-built dashboard:{{/}} " +:+ dashboard +:+ newline);;
    Outf ("{{green}}prometheus cmd:{{/}} /tmp/prometheus --config.file=" +:+ prometheusFile
      +:+ " --storage.tsdb.path=" +:+ prometheusData +:+ newline).

Definition GeneratePrometheus (baseURI : string) (openBrowser startPrometheus : bool)
    (prometheusFile prometheusData : string) : GoM World unit :=
  chains ← root_GetChains;
  chain ← SelectChain "select chainID" chains;
  prometheus_GeneratePrometheus chain.2 baseURI chain.1 openBrowser startPrometheus prometheusFile prometheusData.
End handler.

(** One panel is misprinted as Go's formatting does it. *)
Example misprint : snd (misprinted_panel "savings " "x") = "{{yellow}}savings (%!)(string=x):{{/}} %!s(MISSING)" +:+ newline.
Proof. reflexivity. Qed.

Example link : dashboard_link "http://h" [panel "a" "b[5s]"; panel "c" "d e"] =
  "http://h/graph?g0.expr=b%5B5s%5D&g0.tab=0&g0.step_input=1&g0.range_input=5m&g1.expr=d+e&g1.tab=0&g1.step_input=1&g1.range_input=5m".
Proof. vm_compute. reflexivity. Qed.
