(* ===== verification/Commands.v ===== *)
(** * The commands (cmd/prediction-cli/cmd, cmd/prediction-cli/main.go)

    The command tree that root.go builds, with the hooks of every command, and
    [main], over the state of CliState.v.  The methods of the library's
    handler are in RootHandler.v; what a run meets outside is [env]. *)

From S2P Require Import Prelude GoErrors Lib Rules Genesis Strconv Cobra Vm KeyStore Cli CliState RootHandler.
#[local] Open Scope Z_scope.

Section commands.
Context `{Quoting} `{Hashing} `{Crypto} `{DbFaults} `{FileFaults} `{GenesisJSON} `{Texts} `{URLs} `{Formatting}.
Variable (env : Outside).
(** The private key the curve's library makes in this run. *)
Variable (random : result bytes).
(** [time.Now().Unix()] when the program starts, and [pflag]'s reading of a
    list: comma separated values. *)
Variable (now : Z).
Variable (readAsCSV : string -> result (list string)).

(** ** root.go: the hooks of every command *)

Definition root_PersistentPreRunE (args : list string) : GoM World unit :=
  path ← get (fun w => v_dbPath (vars w));
  Outf ("{{yellow}}database:{{/}} " +:+ path +:+ newline);;
  root ← cli_New (NewController path);
  modify (set_handler (Some (NewHandler root))).

Definition root_PersistentPostRunE (args : list string) : GoM World unit := CloseDatabase.

(** ** key.go *)

Definition missing_subcommand (args : list string) : GoM World unit := fail ErrMissingSubcommand.

Definition genKey_PreRunE (args : list string) : GoM World unit :=
  fail_if (negb (length args =? 1)%nat) ErrInvalidArgs;;
  return_error (CheckType vm_AuthProvider (nth 0 args "")).

(** Both ways of getting a key store it the same way. *)
Definition genKey_RunE (args : list string) : GoM World unit :=
  priv ← lift (GeneratePrivateKey vm_AuthProvider (nth 0 args "") random);
  on_db (StoreKey priv);;
  on_db (StoreDefaultKey (pk_Address priv));;
  Outf ("{{green}}created address:{{/}} " +:+ Address_String (pk_Address priv)).

Definition importKey_PreRunE (args : list string) : GoM World unit :=
  fail_if (negb (length args =? 2)%nat) ErrInvalidArgs;;
  return_error (CheckType vm_AuthProvider (nth 0 args "")).

Definition importKey_RunE (args : list string) : GoM World unit :=
  priv ← reading (fun w =>
    LoadPrivateKey vm_AuthProvider (fun path => ReadFile path w) (nth 0 args "") (nth 1 args ""));
  on_db (StoreKey priv);;
  on_db (StoreDefaultKey (pk_Address priv));;
  Outf ("{{green}}imported address:{{/}} " +:+ Address_String (pk_Address priv)).

Definition setKey_RunE (args : list string) : GoM World unit := SetKey env.

Definition balanceKey_RunE (args : list string) : GoM World unit :=
  checkAllChains ← get (fun w => v_checkAllChains (vars w));
  Balance env checkAllChains.

(** ** chain.go *)

Definition importChain_RunE (args : list string) : GoM World unit := ImportChain env.
Definition setChain_RunE (args : list string) : GoM World unit := SetDefaultChain env.

Definition importAvalancheCliChain_PreRunE (args : list string) : GoM World unit :=
  fail_if (negb (length args =? 1)%nat) ErrInvalidArgs.
Definition importAvalancheCliChain_RunE (args : list string) : GoM World unit :=
  ImportClusterInfo env (nth 0 args "").

Definition chainInfo_RunE (args : list string) : GoM World unit := PrintChainInfo env.

Definition watchChain_RunE (args : list string) : GoM World unit :=
  hideTxs ← get (fun w => v_hideTxs (vars w));
  WatchChain env hideTxs.

(** ** prometheus.go *)

Definition generatePrometheus_RunE (args : list string) : GoM World unit :=
  v ← get vars;
  GeneratePrometheus env (v_prometheusBaseURI v) (v_prometheusOpenBrowser v) (v_startPrometheus v)
    (v_prometheusFile v) (v_prometheusData v).

(** ** genesis.go *)

Definition genGenesis_PreRunE (args : list string) : GoM World unit :=
  fail_if (negb (length args =? 1)%nat) ErrInvalidArgs.

Definition genesis_flags_of (v : Vars) : genesis_flags :=
  mkFlags (v_minUnitPrice v) (v_maxBlockUnits v) (v_windowTargetUnits v) (v_minBlockGap v)
    (v_validityWindow v).

(** [NewDefaultGenesis] with the flags over its rules. *)
Definition flagged_genesis (f : genesis_flags) (allocs : list CustomAllocation) : result DefaultGenesis :=
  let genesis := NewDefaultGenesis allocs in
  match dg_Rules genesis with
  | None => Ok genesis
  | Some r =>
      r ← apply_flags f r;
      Ok (mkDefaultGenesis (StateBranchFactor genesis) (CustomAllocations genesis) (Some r))
  end.

Definition genGenesis_RunE (args : list string) : GoM World unit :=
  a ← reading (ReadFile (nth 0 args ""));
  allocs ← lift (UnmarshalAllocations a);
  v ← get vars;
  genesis ← lift (flagged_genesis (genesis_flags_of v) allocs);
  b ← lift (MarshalGenesis genesis);
  WriteFile (v_genesisFile v) b;;
  Outf ("created genesis and saved to " +:+ v_genesisFile v +:+ newline).

(** ** root.go: flags *)

Definition StringVar (name : string) (set : string -> Vars -> Vars) : Flag World :=
  mkFlag name EmptyString (fun s => modify_vars (set s)).

(** The first value replaces the default and the next ones are appended; the
    defaults here are empty. *)
Definition StringSliceVar (name : string) (field : Vars -> list string)
    (set : list string -> Vars -> Vars) : Flag World :=
  mkFlag name EmptyString (fun s =>
    l ← lift (readAsCSV s);
    modify_vars (fun v => set (field v ++ l) v)).

Definition Int64Var (name : string) (set : Z -> Vars -> Vars) : Flag World :=
  mkFlag name EmptyString (fun s =>
    let '(i, err) := ParseInt s 0 in
    modify_vars (set i);;
    return_error err).

Definition BoolVar (name : string) (set : bool -> Vars -> Vars) : Flag World :=
  mkFlag name "true" (fun s =>
    let '(b, err) := ParseBool s in
    modify_vars (set b);;
    return_error err).

Definition defaultDatabase : string := ".prediction-cli".
Definition defaultGenesis : string := "genesis.json".

(** The variables before the flags are parsed. *)
Definition default_vars : Vars := {|
  v_dbPath := defaultDatabase;
  v_genesisFile := defaultGenesis;
  v_minUnitPrice := [];
  v_maxBlockUnits := [];
  v_windowTargetUnits := [];
  v_minBlockGap := -1;
  v_validityWindow := -1;
  v_hideTxs := false;
  v_checkAllChains := false;
  v_prometheusBaseURI := "http://localhost:9090";
  v_prometheusOpenBrowser := true;
  v_prometheusFile := "/tmp/prometheus.yaml";
  v_prometheusData := "/tmp/prometheus-" +:+ fmt_d now;
  v_startPrometheus := true;
|}.

Definition root_flags : list (Flag World) := [StringVar "database" set_dbPath].

Definition genGenesis_flags : list (Flag World) := [
  StringVar "genesis-file" set_genesisFile;
  StringSliceVar "min-unit-price" v_minUnitPrice set_minUnitPrice;
  StringSliceVar "max-block-units" v_maxBlockUnits set_maxBlockUnits;
  StringSliceVar "window-target-units" v_windowTargetUnits set_windowTargetUnits;
  Int64Var "min-block-gap" set_minBlockGap;
  Int64Var "validity-window" set_validityWindow
].

Definition balanceKey_flags : list (Flag World) := [BoolVar "check-all-chains" set_checkAllChains].

Definition watchChain_flags : list (Flag World) := [BoolVar "hide-txs" set_hideTxs].

Definition generatePrometheus_flags : list (Flag World) := [
  StringVar "prometheus-base-uri" set_prometheusBaseURI;
  BoolVar "prometheus-open-browser" set_prometheusOpenBrowser;
  StringVar "prometheus-file" set_prometheusFile;
  StringVar "prometheus-data" set_prometheusData;
  BoolVar "prometheus-start" set_startPrometheus
].

(** ** The command tree *)

(** A command with a [RunE], and maybe a [PreRunE]. *)
Definition leaf (use : string) (flags : list (Flag World)) (pre : option (list string -> GoM World unit))
    (run : list string -> GoM World unit) : Command World :=
  mkCommand use flags None None pre (Some run) None [].

(** A command that only groups others. *)
Definition group (use : string) (cmds : list (Command World)) : Command World :=
  mkCommand use [] None None None (Some missing_subcommand) None cmds.

Definition genKeyCmd := leaf "generate [ed25519/secp256r1/bls]" [] (Some genKey_PreRunE) genKey_RunE.
Definition importKeyCmd := leaf "import [type] [path]" [] (Some importKey_PreRunE) importKey_RunE.
Definition setKeyCmd := leaf "set" [] None setKey_RunE.
Definition balanceKeyCmd := leaf "balance" balanceKey_flags None balanceKey_RunE.
Definition keyCmd := group "key" [genKeyCmd; importKeyCmd; setKeyCmd; balanceKeyCmd].

Definition importChainCmd := leaf "import" [] None importChain_RunE.
Definition setChainCmd := leaf "set" [] None setChain_RunE.
Definition chainInfoCmd := leaf "info" [] None chainInfo_RunE.
Definition importAvalancheCliChainCmd :=
  leaf "import-cli [path]" [] (Some importAvalancheCliChain_PreRunE) importAvalancheCliChain_RunE.
Definition watchChainCmd := leaf "watch" watchChain_flags None watchChain_RunE.
Definition chainCmd := group "chain"
  [importChainCmd; setChainCmd; chainInfoCmd; importAvalancheCliChainCmd; watchChainCmd].

Definition actionCmd := group "action" [].

Definition generatePrometheusCmd := leaf "generate" generatePrometheus_flags None generatePrometheus_RunE.
Definition prometheusCmd := group "prometheus" [generatePrometheusCmd].

Definition genGenesisCmd := leaf "generate [custom allocates file] [options]" genGenesis_flags
  (Some genGenesis_PreRunE) genGenesis_RunE.
Definition genesisCmd := group "genesis" [genGenesisCmd].

Definition rootCmd : Command World :=
  AddCommand (mkCommand "prediction-cli" root_flags None (Some root_PersistentPreRunE) None None
                (Some root_PersistentPostRunE) [])
    [genesisCmd; keyCmd; chainCmd; actionCmd; prometheusCmd].

(** ** The commands that cobra adds

    [help] prints a text about a command, [completion] and a shell's name the
    script for it; neither has hooks of its own. *)

Definition helpCmd (help_text : list string -> string) : Command World :=
  leaf "help [command]" [] None (fun args => Outf (help_text args)).

Definition NoArgs (path : string) (args : list string) : option error :=
  match args with
  | [] => None
  | a :: _ => Some (ErrFresh ("unknown command " +:+ Quote a +:+ " for " +:+ Quote path))
  end.

Definition completion_shell (completion_text : string -> string) (name : string) : Command World :=
  mkCommand name [mkFlag "no-descriptions" "true" (fun s => return_error (snd (ParseBool s)))]
    (Some (NoArgs ("prediction-cli completion " +:+ name))) None None
    (Some (fun _ => Outf (completion_text name))) None [].

Definition completionCmd (completion_text : string -> string) : Command World :=
  mkCommand "completion" [] (Some (NoArgs "prediction-cli completion")) None None None None
    (map (completion_shell completion_text) ["bash"; "zsh"; "fish"; "powershell"]).

Definition cobra_commands (help_text : list string -> string) (completion_text : string -> string)
  : list (Command World) := [helpCmd help_text; completionCmd completion_text].

(** ** main.go *)

Variable (findSuggestions : Command World -> string -> string).
Variable (default_commands : list (Command World)).

Definition Execute (args : list string) : GoM World unit :=
  ExecuteC findSuggestions default_commands rootCmd args.

(** The exit code; a panic ends the program before [main] prints. *)
Definition main (args : list string) (w : World) : Z * World :=
  match Execute args w with
  | (Err err, w) =>
      if is_panic err then (2, w) else
      (1, snd (Outf ("{{red}}prediction-cli exited with error:{{/}} " +:+ Error err +:+ newline) w))
  | (Ok _, w) => (0, w)
  end.

(** A process starts with the default variables and no handler; the disk is
    what earlier runs left. *)
Definition start (disk : World) : World :=
  mkWorld default_vars None (databases disk) (files disk) [].

Definition run_cli (args : list string) (disk : World) : Z * World := main args (start disk).
End commands.
