(* ===== verification/CommandsCorrect.v ===== *)
(** * Theorems about the command line client

    Which command a command line runs, what keys the client keeps, and the
    genesis file it writes. *)

From S2P Require Import Prelude GoErrors Lib Rules Genesis Strconv Cobra Vm KeyStore Cli CliState RootHandler Commands.
#[local] Open Scope Z_scope.

Definition db_of (w : World) (path : string) : Db := default ∅ (databases w !! path).

(** ** The command tree *)
Section dispatch.
Context `{Quoting} `{Hashing} `{Crypto} `{DbFaults} `{FileFaults} `{GenesisJSON} `{Texts} `{URLs} `{Formatting}.
Variable (env : Outside) (random : result bytes) (now : Z).
Variable (readAsCSV : string -> result (list string)).
Variable (findSuggestions : Command World -> string -> string).
Variable (default_commands : list (Command World)).

Abbreviation hook := (list string -> GoM World unit).

(** Every command that does something: its words, its own flags, its argument
    check and its body. *)
Definition command_table : list (list string * list (Flag World) * option hook * hook) := [
  (["genesis"; "generate"], genGenesis_flags readAsCSV, Some genGenesis_PreRunE, genGenesis_RunE);
  (["key"; "generate"], [], Some genKey_PreRunE, genKey_RunE random);
  (["key"; "import"], [], Some importKey_PreRunE, importKey_RunE);
  (["key"; "set"], [], None, setKey_RunE env);
  (["key"; "balance"], balanceKey_flags, None, balanceKey_RunE env);
  (["chain"; "import"], [], None, importChain_RunE env);
  (["chain"; "set"], [], None, setChain_RunE env);
  (["chain"; "info"], [], None, chainInfo_RunE env);
  (["chain"; "import-cli"], [], Some importAvalancheCliChain_PreRunE, importAvalancheCliChain_RunE env);
  (["chain"; "watch"], watchChain_flags, None, watchChain_RunE env);
  (["prometheus"; "generate"], generatePrometheus_flags, None, generatePrometheus_RunE env)
].

Definition group_names : list string := ["genesis"; "key"; "chain"; "action"; "prometheus"].

(** What running a command amounts to: flags, the database, the check, the
    body, and the database again. *)
Definition run_command (flags : list (Flag World)) (pre : option hook) (run : hook) (tl : list string)
  : GoM World unit := hide_help (fun w =>
  match parseArgs (flags ++ root_flags) tl (w, false) with
  | (Err err, (w, _)) => (Err err, w)
  | (Ok _, (w, true)) => (Err ErrHelp, w)
  | (Ok args, (w, false)) =>
      (root_PersistentPreRunE args;;
       run_hook pre args;;
       run args;;
       root_PersistentPostRunE args) w
  end).

Abbreviation Execute := (Execute env random readAsCSV findSuggestions default_commands).

Lemma run_command_eq words flags pre run tl w ps cmd :
  Forall plain words ->
  walk [] (AddCommand (rootCmd env random readAsCSV) default_commands) words = (ps, cmd, []) ->
  commands cmd = [] -> ps <> [] -> Runnable cmd = true -> Flags ps cmd = flags ++ root_flags ->
  (forall args w, run_hooks ps cmd args w =
    (root_PersistentPreRunE args;; run_hook pre args;; run args;; root_PersistentPostRunE args) w) ->
  Execute (words ++ tl) w = run_command flags pre run tl w.
Proof.
  intros Hp Hw Hc Hps Hr Hf Hh. unfold Commands.Execute, run_command.
  rewrite (ExecuteC_words _ _ _ _ _ ps cmd) by done. rewrite Hf. unfold hide_help.
  destruct (parseArgs _ tl (w, false)) as [[args|e] [w' []]]; [done|by rewrite Hh|done..].
Qed.

Lemma command_line_eq words flags pre run tl w :
  In (words, flags, pre, run) command_table ->
  Execute (words ++ tl) w = run_command flags pre run tl w.
Proof.
  intros Hin. repeat (destruct Hin as [Hin|Hin]; [injection Hin as <- <- <- <-;
    eapply run_command_eq; [by apply (bool_decide_unpack _)|reflexivity|done..|reflexivity|reflexivity]|]).
  done.
Qed.

(** C32: what a command line runs.  [prediction-cli] followed by the words of
    one of its commands and by anything else parses the rest for the flags of
    the command and of the root, and then, unless help was asked for, opens
    the database, checks the arguments, runs the command and closes the
    database, stopping at the first error. *)
Theorem command_line_runs words flags pre run tl w :
  In (words, flags, pre, run) command_table ->
  Execute (words ++ tl) w = run_command flags pre run tl w.
Proof. apply command_line_eq. Qed.

(** The second words of the commands of a group. *)
Definition subcommand_names (g : string) : list string :=
  omap (fun '(words, _, _, _) =>
    match words with [g'; name] => if decide (g' = g) then Some name else None | _ => None end) command_table.

(** No name of a list starts with the word. *)
Definition leads_nowhere (names : list string) (word : string) : Prop :=
  Forall (fun name => HasPrefix word name = false) names.

(** C33: command lines that name no command.  A group without a subcommand, or
    with a word no subcommand of it starts with, opens the database and fails
    with ErrMissingSubcommand (the action group has no subcommand at all); a
    first word no command starts with is an unknown command, and nothing has
    happened; without a word the help is shown. *)
Theorem command_line_rejected w :
  (forall g tl, In g group_names -> Forall plain tl ->
    match tl with [] => True | a :: _ => leads_nowhere (subcommand_names g) a end ->
    Execute (g :: tl) w = hide_help (root_PersistentPreRunE tl;; fail ErrMissingSubcommand) w) /\
  (forall a tl, Forall plain (a :: tl) -> leads_nowhere (group_names ++ map Name default_commands) a ->
    Execute (a :: tl) w =
      (Err (ErrFresh ("unknown command " +:+ Quote a +:+ " for " +:+ Quote "prediction-cli"
         +:+ findSuggestions (AddCommand (rootCmd env random readAsCSV) default_commands) a)), w)) /\
  Execute [] w = (Ok tt, w).
Proof.
  split_and!.
  - intros g tl Hg Hp Hn.
    assert (forall cmd, findNext (AddCommand (rootCmd env random readAsCSV) default_commands) g = Some cmd ->
      Forall (fun sub => Name sub ∈ subcommand_names g) (commands cmd) -> plain g ->
      run_hooks [AddCommand (rootCmd env random readAsCSV) default_commands] cmd tl w =
        (root_PersistentPreRunE tl;; fail ErrMissingSubcommand) w -> Runnable cmd = true ->
      Execute (g :: tl) w = hide_help (root_PersistentPreRunE tl;; fail ErrMissingSubcommand) w) as Hrun.
    { intros cmd Hw Hsub Hpg Hh Hr. unfold Commands.Execute.
      rewrite (ExecuteC_plain _ _ _ _ [AddCommand (rootCmd env random readAsCSV) default_commands] cmd tl);
        [by unfold hide_help; rewrite Hh|by constructor| |by unfold legacyArgs; destruct (commands cmd)|done].
      rewrite (walk_cons _ _ _ _ cmd) by done. destruct tl as [|a tl]; [done|].
      apply walk_stop, findNext_none. eapply Forall_impl; [|exact Hsub]. intros sub Hin.
      by apply (proj1 (list.Forall_forall _ _) Hn). }
    repeat (destruct Hg as [<-|Hg]; [eapply Hrun; [reflexivity|
      repeat (apply List.Forall_cons; [by apply (bool_decide_unpack _)|]); apply List.Forall_nil|
      by apply (bool_decide_unpack _)|reflexivity..]|]).
    done.
  - intros a tl Hp Hn. unfold Commands.Execute.
    eapply (ExecuteC_unknown _ _ _ _ []
      (AddCommand (rootCmd env random readAsCSV) default_commands) (a :: tl)); [done| |reflexivity|reflexivity].
    apply walk_stop, findNext_none. unfold leads_nowhere in Hn.
    change (group_names ++ map Name default_commands) with
      (map Name (commands (AddCommand (rootCmd env random readAsCSV) default_commands))) in Hn.
    by apply List.Forall_map in Hn.
  - unfold Commands.Execute. by eapply (ExecuteC_help _ _ _ _ []
      (AddCommand (rootCmd env random readAsCSV) default_commands) []).
Qed.
End dispatch.

(** ** Keys *)

(** The type byte and the length of a private key, and the factory made from
    its bytes. *)
Definition factory_typeID (f : PrivateKeyFactory) : Z :=
  match f with
  | ED25519PrivateKeyFactory => ED25519ID
  | SECP256R1PrivateKeyFactory => SECP256R1ID
  | BLSPrivateKeyFactory => BLSID
  end.

Definition factory_key_length (f : PrivateKeyFactory) : nat :=
  match f with
  | ED25519PrivateKeyFactory => ed25519_PrivateKeyLen
  | SECP256R1PrivateKeyFactory => secp256r1_PrivateKeyLen
  | BLSPrivateKeyFactory => bls_PrivateKeyLen
  end.

Section keys.
Context `{Quoting} `{Hashing} `{HC : Crypto} `{LC : !LawfulCrypto HC} `{DbFaults} `{FileFaults} `{GenesisJSON} `{Texts} `{URLs} `{Formatting}.

Definition auth_factory (f : PrivateKeyFactory) (p : bytes) : result AuthFactory :=
  match f with
  | ED25519PrivateKeyFactory => Ok (ED25519Factory p)
  | SECP256R1PrivateKeyFactory => Ok (SECP256R1Factory p)
  | BLSPrivateKeyFactory => q ← bls_PrivateKeyFromBytes p; Ok (BLSFactory q)
  end.

Lemma AuthProvider_cases type f : vm_AuthProvider !! type = Some f ->
  type = "ed25519" /\ f = ED25519PrivateKeyFactory \/
  type = "secp256r1" /\ f = SECP256R1PrivateKeyFactory \/
  type = "bls" /\ f = BLSPrivateKeyFactory.
Proof.
  change vm_AuthProvider with (<["bls" := BLSPrivateKeyFactory]> (<["secp256r1" := SECP256R1PrivateKeyFactory]>
    (<["ed25519" := ED25519PrivateKeyFactory]> (∅ : AuthProvider)))).
  intros Hl. apply lookup_insert_Some in Hl as [[<- <-]|[_ Hl]]; [auto|].
  apply lookup_insert_Some in Hl as [[<- <-]|[_ Hl]]; [auto|].
  apply lookup_insert_Some in Hl as [[<- <-]|[_ Hl]]; [auto|].
  discriminate (eq_trans (eq_sym (lookup_empty type)) Hl).
Qed.

Lemma address_of_factory t pk : exists id, CreateAddress t (ToID pk) = t :: id /\ length id = 32%nat.
Proof. exists (ToID pk). rewrite CreateAddress_eq; auto. Qed.

(** A key of its type: the address starts with the type byte. *)
Definition key_of (f : PrivateKeyFactory) (priv : PrivateKey) : Prop :=
  nth 0 (pk_Address priv) 0 = factory_typeID f /\ length (pk_Address priv) = AddressLen.

Lemma factory_Generate_key f random priv :
  factory_GeneratePrivateKey f random = Ok priv -> key_of f priv /\ random = Ok (pk_Bytes priv).
Proof.
  unfold factory_GeneratePrivateKey, key_of. destruct random as [p|e]; [|done]. cbn [mbind result_bind]. intros [= <-].
  destruct f; cbn [pk_Address pk_Bytes]; unfold NewED25519Address, NewSECP256R1Address, NewBLSAddress.
  all: match goal with |- context [CreateAddress ?t (ToID ?pk)] => destruct (address_of_factory t pk) as (id & -> & Hl) end.
  all: simpl; by rewrite Hl.
Qed.

Lemma factory_Load_key f p priv :
  factory_LoadPrivateKey f p = Ok priv ->
  key_of f priv /\ pk_Bytes priv = p /\ length p = factory_key_length f.
Proof.
  unfold factory_LoadPrivateKey, key_of. destruct f; case_decide as Hl; try done.
  3: destruct (bls_PrivateKeyFromBytes p) as [q|e]; [cbn [mbind result_bind]|done].
  all: intros [= <-]; cbn [pk_Address pk_Bytes]; unfold NewED25519Address, NewSECP256R1Address, NewBLSAddress.
  all: match goal with |- context [CreateAddress ?t (ToID ?pk)] => destruct (address_of_factory t pk) as (id & -> & Hi) end.
  all: simpl; rewrite Hi; by repeat split.
Qed.

Lemma to_array_exact n p : length p = n -> to_array n p = Returns p.
Proof. intros <-. unfold to_array. rewrite decide_False by lia. by rewrite firstn_all. Qed.

Lemma actor_factory_key f priv :
  key_of f priv -> length (pk_Bytes priv) = factory_key_length f ->
  actor_factory (pk_Address priv) (pk_Bytes priv) = Returns (auth_factory f (pk_Bytes priv)).
Proof.
  intros [Ht _] Hl. unfold actor_factory. rewrite Ht. destruct f; cbn in Hl |- *.
  - by rewrite to_array_exact.
  - by rewrite to_array_exact.
  - by destruct (bls_PrivateKeyFromBytes _).
Qed.

(** *** The database *)

Definition opened (w : World) : World :=
  let path := v_dbPath (vars w) in
  mkWorld (vars w) (Some (mkHandler (mkController path) (Some path)))
    (<[path := db_of w path]> (databases w)) (files w)
    (out w ++ ["{{yellow}}database:{{/}} " +:+ path +:+ newline]).

Lemma root_pre_eq args w :
  root_PersistentPreRunE args w =
    match open_fault (v_dbPath (vars w)) with
    | Some err => (Err err, set_out (out w ++ ["{{yellow}}database:{{/}} " +:+ v_dbPath (vars w) +:+ newline]) w)
    | None => (Ok tt, opened w)
    end.
Proof.
  unfold root_PersistentPreRunE, cli_New, mbind, GoM_bind. simpl.
  by destruct (open_fault (v_dbPath (vars w))).
Qed.

Lemma on_db_eq {A} (m : GoM Db A) w c path :
  handler w = Some (mkHandler c (Some path)) ->
  on_db m w = (fst (m (db_of w path)),
               set_databases (<[path := snd (m (db_of w path))]> (databases w)) w).
Proof. intros Hh. unfold on_db. rewrite Hh. unfold db_of. by destruct (m _). Qed.

Lemma db_of_set w path db : db_of (set_databases (<[path := db]> (databases w)) w) path = db.
Proof. unfold db_of. simpl. by rewrite lookup_insert_eq. Qed.

Lemma db_of_out w l path : db_of (set_out l w) path = db_of w path.
Proof. done. Qed.

Lemma StoreKey_eq priv db :
  has_fault (key_key (pk_Address priv)) = None ->
  put_fault (key_key (pk_Address priv)) (pk_Bytes priv) = None ->
  StoreKey priv db =
    match db !! key_key (pk_Address priv) with
    | Some _ => (Err ErrDuplicate, db)
    | None => (Ok tt, <[key_key (pk_Address priv) := pk_Bytes priv]> db)
    end.
Proof.
  intros Hh Hp. unfold StoreKey, db_Has, db_Put, mbind, GoM_bind, fail_if. rewrite Hh.
  destruct (db !! key_key (pk_Address priv)) as [v|] eqn:E.
  - by rewrite bool_decide_true.
  - rewrite bool_decide_false by (by intros [? ?]). by rewrite Hp.
Qed.

Lemma key_key_ne_default addr key : length addr = AddressLen -> key_key addr <> default_key key.
Proof. intros Hl. by rewrite key_key_eq, default_key_eq by done. Qed.

Lemma GetDefaultKey_stored addr p db :
  length addr = AddressLen ->
  get_fault (default_key defaultKeyKey) = None -> get_fault (key_key addr) = None ->
  GetDefaultKey (<[default_key defaultKeyKey := addr]> (<[key_key addr := p]> db)) = Returns (Ok (addr, p)).
Proof.
  intros Hl Hd Hk. unfold GetDefaultKey, GetDefault, db_Get. rewrite Hd, lookup_insert_eq.
  rewrite !decide_False by (try lia; by intros ->).
  rewrite take_ge by (rewrite Hl; done). unfold GetKey, db_Get.
  rewrite Hk, lookup_insert_ne, lookup_insert_eq by (by apply not_eq_sym, key_key_ne_default). done.
Qed.

(** *** Getting a key, by either command *)

(** The database works. *)
Definition fault_free : Prop :=
  (forall path, open_fault path = None) /\ (forall k, has_fault k = None) /\
  (forall k, get_fault k = None) /\ (forall k v, put_fault k v = None) /\
  (forall path, close_fault path = None).

Hypothesis (Hff : fault_free).

(** The common end of both commands. *)
Definition add_key (text : string) (priv : PrivateKey) : GoM World unit :=
  on_db (StoreKey priv);;
  on_db (StoreDefaultKey (pk_Address priv));;
  Outf (text +:+ Address_String (pk_Address priv)).

Definition with_key (priv : PrivateKey) (db : Db) : Db :=
  <[default_key defaultKeyKey := pk_Address priv]> (<[key_key (pk_Address priv) := pk_Bytes priv]> db).

Lemma add_key_eq text priv w c path :
  handler w = Some (mkHandler c (Some path)) ->
  add_key text priv w =
    match db_of w path !! key_key (pk_Address priv) with
    | Some _ => (Err ErrDuplicate, set_databases (<[path := db_of w path]> (databases w)) w)
    | None => (Ok tt, set_out (out w ++ [text +:+ Address_String (pk_Address priv)])
                        (set_databases (<[path := with_key priv (db_of w path)]> (databases w)) w))
    end.
Proof using Hff.
  destruct Hff as (_ & Hhas & _ & Hput & _). intros Hh. unfold add_key, mbind, GoM_bind.
  rewrite (on_db_eq _ _ c path) by done. rewrite StoreKey_eq by done.
  destruct (db_of w path !! _) as [v|]; [done|]. cbn [fst snd].
  rewrite (on_db_eq _ _ c path) by done. rewrite db_of_set.
  unfold StoreDefaultKey, StoreDefault, db_Put. rewrite Hput. cbn [fst snd].
  unfold Outf, modify, with_key, set_databases. cbn. by rewrite insert_insert_eq.
Qed.

Section runs.
Variable (env : Outside) (random : result bytes) (now : Z).
Variable (readAsCSV : string -> result (list string)).
Variable (findSuggestions : Command World -> string -> string).
Variable (default_commands : list (Command World)).

Abbreviation run_cli := (run_cli env random now readAsCSV findSuggestions default_commands).

(** A command line of plain words whose body adds a key. *)
Lemma run_adds_key words flags pre run args disk text priv :
  In (words, flags, pre, run) (command_table env random readAsCSV) -> Forall plain args ->
  (forall w, run_hook pre args w = (Ok tt, w)) ->
  run args (opened (start now disk)) = add_key text priv (opened (start now disk)) ->
  let db := db_of disk defaultDatabase in
  exists w', run_cli (words ++ args) disk =
      (match db !! key_key (pk_Address priv) with Some _ => 1 | None => 0 end, w') /\
    files w' = files disk /\
    db_of w' defaultDatabase =
      (match db !! key_key (pk_Address priv) with Some _ => db | None => with_key priv db end).
Proof using Hff.
  destruct Hff as (Hopen & _ & _ & _ & Hclose).
  intros Hin Hp Hpre Hrun db. unfold Commands.run_cli, main.
  rewrite (command_line_eq _ _ _ _ _ _ _ _ _ _ _ Hin). unfold run_command, hide_help.
  rewrite parseArgs_plain by done. unfold mbind, GoM_bind.
  rewrite root_pre_eq, Hopen, Hpre, Hrun.
  rewrite (add_key_eq _ _ _ (mkController defaultDatabase) defaultDatabase) by done.
  assert (db_of (opened (start now disk)) defaultDatabase = db) as -> by (unfold db_of at 1; simpl; by rewrite lookup_insert_eq).
  destruct (db !! key_key (pk_Address priv)) as [v|].
  - eexists. split; [reflexivity|]. split; [done|].
    unfold Outf, modify. cbn [snd]. by rewrite db_of_out, db_of_set.
  - unfold root_PersistentPostRunE, CloseDatabase. cbn [handler set_out set_databases opened start vars v_dbPath default_vars].
    rewrite Hclose. eexists. split; [reflexivity|]. split; [done|]. unfold db_of. simpl. by rewrite lookup_insert_eq.
Qed.

(** C34: a key that is added is the one that is used.  With a database that
    works, [key generate] and [key import] of a key that is not there yet exit
    with 0, keep every other key of the database, and leave the default key
    such that its address and private bytes are read back and the factory
    built from them is the one of the key's type with those bytes.  A key that
    is already there exits with 1 and leaves the database, the default key
    included, as it was. *)
Theorem added_key_is_default args type f priv disk :
  vm_AuthProvider !! type = Some f ->
  (args = ["key"; "generate"; type] /\ factory_GeneratePrivateKey f random = Ok priv /\
     length (pk_Bytes priv) = factory_key_length f \/
   exists path, args = ["key"; "import"; type; path] /\ plain path /\
     (p ← ReadFile path disk; factory_LoadPrivateKey f p) = Ok priv) ->
  let db := db_of disk defaultDatabase in
  match db !! key_key (pk_Address priv) with
  | None => exists w', run_cli args disk = (0, w') /\
      let db' := db_of w' defaultDatabase in
      GetDefaultKey db' = Returns (Ok (pk_Address priv, pk_Bytes priv)) /\
      actor_factory (pk_Address priv) (pk_Bytes priv) = Returns (auth_factory f (pk_Bytes priv)) /\
      forall k, k <> key_key (pk_Address priv) -> k <> default_key defaultKeyKey -> db' !! k = db !! k
  | Some _ => exists w', run_cli args disk = (1, w') /\ db_of w' defaultDatabase = db
  end.
Proof using Hff LC.
  intros Hf Hargs db.
  assert (key_of f priv /\ length (pk_Bytes priv) = factory_key_length f) as [Hkey Hlen].
  { destruct Hargs as [(_ & Hg & Hl)|(path & _ & _ & Hl)]; [by apply factory_Generate_key in Hg as [? _]|].
    destruct (ReadFile path disk) as [p|e]; [|done]. by apply factory_Load_key in Hl as (? & -> & ?). }
  assert (exists w', run_cli args disk =
      (match db !! key_key (pk_Address priv) with Some _ => 1 | None => 0 end, w') /\
    files w' = files disk /\
    db_of w' defaultDatabase =
      (match db !! key_key (pk_Address priv) with Some _ => db | None => with_key priv db end)) as (w' & Hrun & _ & Hdb).
  { assert (plain type) as Hplain by (by apply AuthProvider_cases in Hf as [[-> _]|[[-> _]|[-> _]]]; apply (bool_decide_unpack _)).
    assert (forall w : World, return_error (CheckType vm_AuthProvider type) w = (Ok tt, w)) as Hcheck
      by (intros w; unfold CheckType; by rewrite Hf).
    destruct Hargs as [(-> & Hg & _)|(path & -> & Hpath & Hl)].
    - apply (run_adds_key ["key"; "generate"] [] (Some genKey_PreRunE) (genKey_RunE random) [type] disk
        "{{green}}created address:{{/}} "); [by right; left|repeat (apply List.Forall_cons; [done|]); apply List.Forall_nil|exact Hcheck|].
      unfold genKey_RunE, mbind, GoM_bind, lift. cbn [nth]. unfold GeneratePrivateKey. by rewrite Hf, Hg.
    - apply (run_adds_key ["key"; "import"] [] (Some importKey_PreRunE) importKey_RunE [type; path] disk
        "{{green}}imported address:{{/}} "); [by right; right; left|repeat (apply List.Forall_cons; [done|]); apply List.Forall_nil|exact Hcheck|].
      unfold importKey_RunE, mbind, GoM_bind, reading. cbn [nth]. unfold LoadPrivateKey. rewrite Hf.
      change (ReadFile path (opened (start now disk))) with (ReadFile path disk). by rewrite Hl. }
  destruct (db !! key_key (pk_Address priv)); exists w'; (split; [done|]); [done|]. cbv zeta. rewrite Hdb.
  destruct Hff as (_ & _ & Hget & _). split_and!.
  - apply GetDefaultKey_stored; [apply Hkey|apply Hget..].
  - by apply actor_factory_key.
  - intros k Hk Hd. unfold with_key. by rewrite !lookup_insert_ne.
Qed.
End runs.
End keys.

(** ** The genesis file *)

(** The arguments for a flag that may be given. *)
Definition flag_args {A} (name : string) (text : A -> string) (o : option A) : list string :=
  match o with Some a => ["--" +:+ name; text a] | None => [] end.

Definition dimensions_text (d : Dimensions) : string := String.concat "," (map pretty d).

Definition genesis_args (outfile : option string) (price block window : option Dimensions)
    (gap validity : option Z) : list string :=
  flag_args "genesis-file" id outfile ++ flag_args "min-unit-price" dimensions_text price ++
  flag_args "max-block-units" dimensions_text block ++ flag_args "window-target-units" dimensions_text window ++
  flag_args "min-block-gap" pretty gap ++ flag_args "validity-window" pretty validity.

(** The default rules with the values of the flags in place. *)
Definition flagged_rules (price block window : option Dimensions) (gap validity : option Z) (r : Rules) : Rules :=
  mkRules (NetworkID r) (ChainID r) (default (MinBlockGap r) gap) (MinEmptyBlockGap r)
    (default (MinUnitPrice r) price) (UnitPriceChangeDenominator r) (default (WindowTargetUnits r) window)
    (default (MaxBlockUnits r) block) (default (ValidityWindow r) validity) (MaxActionsPerTx r)
    (MaxOutputsPerAction r) (BaseComputeUnits r) (StorageKeyReadUnits r) (StorageValueReadUnits r)
    (StorageKeyAllocateUnits r) (StorageValueAllocateUnits r) (StorageKeyWriteUnits r)
    (StorageValueWriteUnits r) (SponsorStateKeysMaxChunks r).

Section genesis_file.
Context `{Quoting} `{Hashing} `{Crypto} `{DbFaults} `{FileFaults} `{GenesisJSON} `{Texts} `{URLs} `{Formatting}.
Variable (env : Outside) (random : result bytes) (now : Z).
Variable (readAsCSV : string -> result (list string)).
Variable (findSuggestions : Command World -> string -> string).
Variable (default_commands : list (Command World)).

Abbreviation run_cli := (run_cli env random now readAsCSV findSuggestions default_commands).

Lemma parse_flag_args {A} flags name (text : A -> string) o rest (f : Flag World) (set : A -> Vars -> Vars) w :
  parseLongArg flags ("--" +:+ name) = LongNext (flag_set f) -> name <> EmptyString ->
  (forall a, o = Some a -> fl_Set f (text a) w = (Ok tt, set_vars (set a (vars w)) w)) ->
  parseArgs flags (flag_args name text o ++ rest) (w, false) =
    parseArgs flags rest (set_vars (match o with Some a => set a (vars w) | None => vars w end) w, false).
Proof.
  intros Hl Hn Ho. destruct o as [a|]; [|by destruct w].
  cbn [flag_args app parseArgs]. change (HasPrefix "-" ("--" +:+ name)) with true.
  change (HasPrefix "--" ("--" +:+ name)) with (HasPrefix EmptyString name).
  assert (HasPrefix EmptyString name = true) as -> by (by destruct name).
  rewrite bool_decide_false by (by destruct name). cbn [negb orb].
  destruct (decide ("--" +:+ name = "--")) as [E|_]; [by destruct name|].
  rewrite Hl. unfold mbind, GoM_bind, flag_set. by rewrite (Ho a eq_refl).
Qed.

Definition given_dimensions (o : option Dimensions) : Prop := forall d, o = Some d ->
  length d = FeeDimensions /\ Forall is_u64 d /\ readAsCSV (dimensions_text d) = Ok (map pretty d).

Definition given_duration (o : option Z) : Prop := forall z, o = Some z -> 0 <= z < two63.

Lemma override_given o current : given_dimensions o ->
  override (match o with Some d => map pretty d | None => [] end) current = Ok (default current o).
Proof.
  intros Ho. destruct o as [d|]; [|done]. destruct (Ho d eq_refl) as (Hl & Hd & _).
  unfold override. destruct d; [done|]. by rewrite decide_False, ParseDimensions_pretty by done.
Qed.

Definition parsed_vars (outfile : option string) (price block window : option Dimensions)
    (gap validity : option Z) : Vars :=
  let v := default_vars now in
  mkVars (v_dbPath v) (default defaultGenesis outfile)
    (match price with Some d => map pretty d | None => [] end)
    (match block with Some d => map pretty d | None => [] end)
    (match window with Some d => map pretty d | None => [] end)
    (default (-1) gap) (default (-1) validity) (v_hideTxs v) (v_checkAllChains v) (v_prometheusBaseURI v)
    (v_prometheusOpenBrowser v) (v_prometheusFile v) (v_prometheusData v) (v_startPrometheus v).

Lemma parse_genesis_args outfile price block window gap validity disk :
  given_dimensions price -> given_dimensions block -> given_dimensions window ->
  given_duration gap -> given_duration validity ->
  parseArgs (genGenesis_flags readAsCSV ++ root_flags)
    (genesis_args outfile price block window gap validity) (start now disk, false) =
  (Ok [], (set_vars (parsed_vars outfile price block window gap validity) (start now disk), false)).
Proof.
  intros Hp Hb Hw Hg Hv. unfold genesis_args.
  assert (forall o name field set w, given_dimensions o -> field (vars w) = [] -> forall d, o = Some d ->
    fl_Set (StringSliceVar readAsCSV name field set) (dimensions_text d) w =
      (Ok tt, set_vars (set (map pretty d) (vars w)) w)) as Hslice.
  { intros o name field set w Ho Hf d Hd. destruct (Ho d Hd) as (_ & _ & Hr).
    simpl. unfold mbind, GoM_bind, lift. rewrite Hr. unfold modify_vars, modify. by rewrite Hf. }
  assert (forall o name set w, given_duration o -> forall z, o = Some z ->
    fl_Set (Int64Var name set) (pretty z) w = (Ok tt, set_vars (set z (vars w)) w)) as Hint.
  { intros o name set w Ho z Hz. simpl. by rewrite (ParseInt_pretty z (Ho z Hz)). }
  rewrite (parse_flag_args _ _ _ _ _ (StringVar "genesis-file" set_genesisFile) set_genesisFile) by done.
  rewrite (parse_flag_args _ _ _ _ _ (StringSliceVar readAsCSV "min-unit-price" v_minUnitPrice set_minUnitPrice)
    (fun d => set_minUnitPrice (map pretty d))) by (done || (apply Hslice; [done|by destruct outfile])).
  rewrite (parse_flag_args _ _ _ _ _ (StringSliceVar readAsCSV "max-block-units" v_maxBlockUnits set_maxBlockUnits)
    (fun d => set_maxBlockUnits (map pretty d))) by (done || (apply Hslice; [done|by destruct outfile, price])).
  rewrite (parse_flag_args _ _ _ _ _ (StringSliceVar readAsCSV "window-target-units" v_windowTargetUnits set_windowTargetUnits)
    (fun d => set_windowTargetUnits (map pretty d))) by (done || (apply Hslice; [done|by destruct outfile, price, block])).
  rewrite (parse_flag_args _ _ _ _ _ (Int64Var "min-block-gap" set_minBlockGap) set_minBlockGap) by (done || by apply Hint).
  rewrite <- (app_nil_r (flag_args "validity-window" pretty validity)).
  rewrite (parse_flag_args _ _ _ _ _ (Int64Var "validity-window" set_validityWindow) set_validityWindow) by (done || by apply Hint).
  by destruct outfile, price, block, window, gap, validity.
Qed.

Lemma apply_flags_given outfile price block window gap validity :
  given_dimensions price -> given_dimensions block -> given_dimensions window ->
  given_duration gap -> given_duration validity ->
  apply_flags (genesis_flags_of (parsed_vars outfile price block window gap validity)) NewDefaultRules =
    Ok (flagged_rules price block window gap validity NewDefaultRules).
Proof.
  intros Hp Hb Hw Hg Hv. unfold apply_flags, genesis_flags_of, parsed_vars.
  cbn [Cli.minUnitPrice Cli.maxBlockUnits Cli.windowTargetUnits Cli.minBlockGap Cli.validityWindow
       v_minUnitPrice v_maxBlockUnits v_windowTargetUnits v_minBlockGap v_validityWindow].
  rewrite !override_given by done. cbn [mbind result_bind]. unfold flagged_rules. f_equal. f_equal.
  - destruct gap as [z|]; [|done]. cbn. destruct (Hg z eq_refl). by destruct (Z.leb_spec 0 z); [|lia].
  - destruct validity as [z|]; [|done]. cbn. destruct (Hv z eq_refl). by destruct (Z.leb_spec 0 z); [|lia].
Qed.

(** C36: the genesis file carries the flags to the node.  With files and a
    database that work, [genesis generate] of a file of allocations, with any
    of its flags given (five decimal numbers, a duration of at least 0), exits
    with 0 and writes one file, from which the node loads the allocations of
    the input and the default rules with the values of the flags in place,
    under its own network and chain. *)
Theorem generated_genesis_loads file raw allocs outfile price block window gap validity b disk networkID chainID :
  let rules := flagged_rules price block window gap validity NewDefaultRules in
  let genesis := mkDefaultGenesis BranchFactor16 allocs (Some rules) in
  let path := default defaultGenesis outfile in
  open_fault defaultDatabase = None -> close_fault defaultDatabase = None -> write_fault path = None ->
  plain file -> ReadFile file disk = Ok raw -> UnmarshalAllocations raw = Ok allocs ->
  given_dimensions price -> given_dimensions block -> given_dimensions window ->
  given_duration gap -> given_duration validity ->
  MarshalGenesis genesis = Ok b -> UnmarshalGenesis b = Ok genesis ->
  exists w', run_cli (["genesis"; "generate"; file] ++ genesis_args outfile price block window gap validity) disk = (0, w') /\
    files w' = <[path := b]> (files disk) /\
    DefaultGenesisFactory_Load b networkID chainID =
      Returns (Ok (mkDefaultGenesis BranchFactor16 allocs (Some (set_network networkID chainID rules)),
                   set_network networkID chainID rules)).
Proof.
  intros rules genesis path Ho Hc Hwf Hplain Hread Hallocs Hp Hb Hw Hg Hv Hm Hu.
  assert (exists w', Execute env random readAsCSV findSuggestions default_commands
      (["genesis"; "generate"] ++ file :: genesis_args outfile price block window gap validity) (start now disk) = (Ok tt, w') /\
    files w' = <[path := b]> (files disk)) as (w' & Hrun & Hfiles).
  { rewrite (command_line_eq _ _ _ _ _ _ (genGenesis_flags readAsCSV) (Some genGenesis_PreRunE) genGenesis_RunE)
      by (by left).
    unfold run_command, hide_help. cbn [parseArgs]. destruct Hplain as [_ Hplain]. rewrite Hplain. cbn [negb orb].
    unfold mbind, GoM_bind. rewrite parse_genesis_args by done. unfold mret, GoM_ret.
    rewrite root_pre_eq. cbn [vars set_vars v_dbPath parsed_vars default_vars]. rewrite Ho.
    unfold run_hook, genGenesis_PreRunE, genGenesis_RunE, reading, lift, get, fail_if, mbind, GoM_bind. cbn [length nth Nat.eqb negb].
    change (ReadFile file (opened _)) with (ReadFile file disk). rewrite Hread, Hallocs.
    unfold flagged_genesis. cbn [NewDefaultGenesis dg_Rules vars opened set_vars].
    rewrite apply_flags_given by done. cbn [mbind result_bind StateBranchFactor CustomAllocations NewDefaultGenesis].
    change (MarshalGenesis _) with (MarshalGenesis genesis). rewrite Hm. unfold WriteFile. cbn [v_genesisFile parsed_vars]. fold path. rewrite Hwf.
    unfold root_PersistentPostRunE, CloseDatabase. cbn [handler set_out set_files opened modify Outf snd vars set_vars v_dbPath parsed_vars default_vars].
    rewrite Hc. eexists. by split. }
  exists w'. split_and!; [|done|].
  - cbn [app] in Hrun |- *. unfold Commands.run_cli, main. by rewrite Hrun.
  - unfold DefaultGenesisFactory_Load. by rewrite Hu.
Qed.
End genesis_file.

(** ** Instances *)
Section witnesses.
#[local] Existing Instance plain_quote.
#[local] Existing Instance zero_checksum.
#[local] Existing Instance no_faults.
#[local] Existing Instance no_file_faults.

(** A digest that pads its input. *)
#[local] Instance pad_crypto : Crypto := {|
  ToID b := take 32 (b ++ make_bytes 32);
  secp256r1_PublicKey p := p;
  bls_PrivateKeyFromBytes p := Ok p;
  bls_PublicKeyToBytes p := p;
|}.

#[local] Instance pad_crypto_lawful : LawfulCrypto pad_crypto.
Proof.
  intros b. change (length (take 32 (b ++ replicate 32 0)) = 32%nat).
  rewrite length_take, length_app, length_replicate. lia.
Defined.

Definition example_allocs : list CustomAllocation := [mkCustomAllocation (make_bytes AddressLen) 7].

Definition example_genesis : DefaultGenesis :=
  mkDefaultGenesis BranchFactor16 example_allocs
    (Some (flagged_rules (Some [1; 2; 3; 4; 5]) None None (Some 250) None NewDefaultRules)).

(** Enough of a JSON library for one genesis. *)
#[local] Instance example_json : GenesisJSON := {|
  MarshalGenesis _ := Ok [123; 125];
  UnmarshalGenesis _ := Ok example_genesis;
  UnmarshalAllocations _ := Ok example_allocs;
|}.

(** Texts that nobody reads. *)
#[local] Instance example_texts : Texts := {|
  ID_String _ := "id";
  ID_FromString _ := Ok (make_bytes 32);
  UnmarshalClusterInfo _ := Ok (mkClusterInfo "id" [mkClusterNode "10.0.0.1" "eu"] []);
|}.

#[local] Instance example_urls : URLs := {|
  url_Parse s := Ok s;
  url_Port _ := "9650";
  SplitHostPort s := Ok (s, "9650");
  MarshalPrometheus _ := Ok [];
|}.

#[local] Instance example_formatting : Formatting := {|
  FormatBalance := fmt_d;
  FormatPercent _ _ := "100";
|}.

(** A node that answers, and a user who enters its URI. *)
Definition example_env : Outside := {|
  typed := [Ok " http://node "];
  map_order A l := l;
  map_order_perm A l := reflexivity l;
  node_Network _ := Ok (1, make_bytes 32, make_bytes 32);
  node_Balance _ _ := Ok 7;
  NewWebSocketClient _ := None;
  RegisterBlocks := None;
  ws_blocks := [];
  ws_end := ErrFresh "closed";
  block_line _ _ _ := "block";
  OpenURL _ := None;
  prometheus_Run := None;
  late := false;
|}.

Definition example_disk : World :=
  mkWorld (default_vars 0) None ∅ {["key.pk" := make_bytes 64; "allocs.json" := [91; 93]]} [].

Definition one_field (s : string) : result (list string) := Ok [s].
Definition five_fields (s : string) : result (list string) := Ok ["1"; "2"; "3"; "4"; "5"].
Definition no_suggestions (c : Command World) (s : string) : string := EmptyString.

Lemma command_line_runs_witness :
  Execute example_env (Ok []) one_field no_suggestions [] (["key"; "balance"] ++ ["--check-all-chains"]) (start 0 example_disk) =
  run_command balanceKey_flags None (balanceKey_RunE example_env) ["--check-all-chains"] (start 0 example_disk).
Proof. apply command_line_runs. do 4 right. left. reflexivity. Defined.

Lemma command_line_rejected_witness :
  Execute example_env (Ok []) one_field no_suggestions [] ["action"; "transfer"] (start 0 example_disk) =
  hide_help (root_PersistentPreRunE ["transfer"];; fail ErrMissingSubcommand) (start 0 example_disk).
Proof.
  apply (proj1 (command_line_rejected example_env (Ok []) one_field no_suggestions [] (start 0 example_disk))).
  - right. right. right. left. reflexivity.
  - repeat constructor; discriminate.
  - constructor.
Defined.

Lemma added_key_is_default_witness :
  let priv := mkPrivateKey (ED25519ID :: make_bytes 32) (make_bytes 64) in
  exists w', run_cli example_env (Ok []) 0 one_field no_suggestions [] ["key"; "import"; "ed25519"; "key.pk"] example_disk = (0, w') /\
    let db' := db_of w' defaultDatabase in
    GetDefaultKey db' = Returns (Ok (pk_Address priv, pk_Bytes priv)) /\
    actor_factory (pk_Address priv) (pk_Bytes priv) = Returns (Ok (ED25519Factory (make_bytes 64))) /\
    forall k, k <> key_key (pk_Address priv) -> k <> default_key defaultKeyKey ->
      db' !! k = db_of example_disk defaultDatabase !! k.
Proof.
  intros priv. apply (added_key_is_default ltac:(by repeat split) example_env (Ok []) 0 one_field no_suggestions []
    ["key"; "import"; "ed25519"; "key.pk"] "ed25519" ED25519PrivateKeyFactory priv example_disk).
  - reflexivity.
  - right. exists "key.pk". split_and!; [reflexivity|by apply (bool_decide_unpack _)|vm_compute; reflexivity].
Defined.

Lemma generated_genesis_loads_witness :
  exists w', run_cli example_env (Ok []) 0 five_fields no_suggestions []
      (["genesis"; "generate"; "allocs.json"] ++ genesis_args None (Some [1; 2; 3; 4; 5]) None None (Some 250) None)
      example_disk = (0, w') /\
    files w' = <["genesis.json" := [123; 125]]> (files example_disk) /\
    DefaultGenesisFactory_Load [123; 125] 9 (make_bytes 32) =
      Returns (Ok (mkDefaultGenesis BranchFactor16 example_allocs
        (Some (set_network 9 (make_bytes 32) (flagged_rules (Some [1; 2; 3; 4; 5]) None None (Some 250) None NewDefaultRules))),
        set_network 9 (make_bytes 32) (flagged_rules (Some [1; 2; 3; 4; 5]) None None (Some 250) None NewDefaultRules))).
Proof.
  apply (generated_genesis_loads example_env (Ok []) 0 five_fields no_suggestions [] "allocs.json" [91; 93] example_allocs
    None (Some [1; 2; 3; 4; 5]) None None (Some 250) None [123; 125] example_disk 9 (make_bytes 32)); try reflexivity.
  - by apply (bool_decide_unpack _).
  - intros d [= <-]. split_and!; [reflexivity| |reflexivity].
    by apply (bool_decide_unpack (Forall is_u64 [1; 2; 3; 4; 5])).
  - by intros d.
  - by intros d.
  - intros z [= <-]. by vm_compute.
  - by intros z.
Defined.

Definition library_commands : list (Command World) := cobra_commands (fun _ => "help") (fun shell => shell).

(** Exit codes and messages of some command lines, with abbreviations and
    flags in any place. *)
Example command_line_examples :
  map (fun args =>
         let '(code, w) := run_cli example_env (Ok (make_bytes 64)) 0 one_field no_suggestions library_commands args example_disk in
         (code, hd_error (rev (out w))))
    [ ["k"; "g"; "ed25519"]; ["key"; "generate"]; ["key"; "generate"; "rsa"]; ["c"; "info"]; ["ch"; "inf"];
      ["chain"; "import-cli"]; ["action"]; ["--database"; "db"; "key"; "set"]; ["key"; "--database=db"; "set"];
      ["key"; "balance"; "--check-all-chains=maybe"]; ["chain"; "watch"; "--hide"]; []; ["key"; "set"; "-h"];
      ["completion"; "zsh"; "--no-descriptions"] ]
  = [ (0, Some ("{{green}}created address:{{/}} " +:+ Address_String (ED25519ID :: make_bytes 32)));
      (1, Some ("{{red}}prediction-cli exited with error:{{/}} invalid args" +:+ newline));
      (1, Some ("{{red}}prediction-cli exited with error:{{/}} invalid key type: rsa" +:+ newline));
      (1, Some ("{{red}}prediction-cli exited with error:{{/}} unknown command c for prediction-cli" +:+ newline));
      (1, Some ("{{red}}prediction-cli exited with error:{{/}} ^D" +:+ newline));
      (1, Some ("{{red}}prediction-cli exited with error:{{/}} invalid args" +:+ newline));
      (1, Some ("{{red}}prediction-cli exited with error:{{/}} must specify a subcommand" +:+ newline));
      (0, Some ("{{red}}no stored keys{{/}}" +:+ newline));
      (0, Some ("{{red}}no stored keys{{/}}" +:+ newline));
      (1, Some ("{{red}}prediction-cli exited with error:{{/}} invalid argument maybe for --check-all-chains flag: strconv.ParseBool: parsing maybe: invalid syntax" +:+ newline));
      (1, Some ("{{red}}prediction-cli exited with error:{{/}} unknown flag: --hide" +:+ newline));
      (0, None); (0, None); (0, Some "zsh") ].
Proof. vm_compute. reflexivity. Qed.
(** A history on one disk: a chain and a key, a balance; a cluster file that is
    not there takes the chain away, and then the balance of the first URI
    panics. *)
Example lost_chain :
  let run args w := snd (run_cli example_env (Ok (make_bytes 64)) 0 one_field no_suggestions library_commands args w) in
  let w := run ["key"; "generate"; "ed25519"] (run ["chain"; "import"] example_disk) in
  let balance w := run_cli example_env (Ok (make_bytes 64)) 0 one_field no_suggestions library_commands ["key"; "balance"] w in
  (fst (balance w), hd_error (rev (out (snd (balance w))))) =
    (0, Some ("{{cyan}}address:{{/}} " +:+ Address_String (ED25519ID :: make_bytes 32) +:+ " {{cyan}}balance:{{/}} 7 "
      +:+ Consts.Symbol +:+ newline)) /\
  fst (balance (run ["chain"; "import-cli"; "missing.yaml"] w)) = 2.
Proof. split; vm_compute; reflexivity. Qed.
End witnesses.
