(* ===== verification/KeysKept.v ===== *)
(** * The client keeps its keys

    Over every history of command lines no private key is lost or changed and
    the default key stays a stored one: the methods of the library's handler
    write only defaults and chains, the default key being one of the listing,
    and every hook of the command tree keeps what they keep. *)

From stdpp Require Import sorting.
From S2P Require Import Prelude GoErrors Lib Rules Genesis Strconv Cobra Vm KeyStore Cli CliState RootHandler Commands CommandsCorrect.
#[local] Open Scope Z_scope.

Create HintDb same.

(** ** What is kept *)

(** A database as the client makes it: the keys under the prefix of private
    keys are of addresses, and the default key, if there is one, is stored. *)
Record client_db (db : Db) : Prop := {
  cd_keys k v : db !! k = Some v -> take 1 k = [keyPrefix] -> length k = S AddressLen;
  cd_default addr : db !! default_key defaultKeyKey = Some addr ->
    length addr = AddressLen /\ is_Some (db !! key_key addr);
}.

(** From one database to another no key is lost or changed, and it stays one
    of the client's. *)
Definition keys_kept (db db' : Db) : Prop :=
  (forall addr v, length addr = AddressLen -> db !! key_key addr = Some v -> db' !! key_key addr = Some v) /\
  (client_db db -> client_db db').

#[export] Instance keys_kept_preorder : PreOrder keys_kept.
Proof. split; [by split|]. intros d1 d2 d3 [H1 C1] [H2 C2]. split; auto. Qed.

Definition world_kept (w w' : World) : Prop := forall path, keys_kept (db_of w path) (db_of w' path).

#[export] Instance world_kept_preorder : PreOrder world_kept.
Proof.
  split; [by intros w path|]. intros w1 w2 w3 H12 H23 path. by transitivity (db_of w2 path).
Qed.

(** From one state to another the handler and the databases are the same. *)
Definition same_dbs (w w' : World) : Prop := handler w' = handler w /\ forall path, db_of w' path = db_of w path.

#[export] Instance same_dbs_preorder : PreOrder same_dbs.
Proof. split; [by split|]. intros w1 w2 w3 [H1 D1] [H2 D2]. split; [congruence|]. intros path. by rewrite D2. Qed.

Lemma same_dbs_kept w w' : same_dbs w w' -> world_kept w w'.
Proof. intros [_ Hd] path. by rewrite Hd. Qed.

Lemma keeps_same_dbs {A} (m : GoM World A) : keeps same_dbs m -> keeps world_kept m.
Proof. intros Hm w. by apply same_dbs_kept. Qed.

(** ** The database *)

Lemma prefixed_head prefix n rest : take 1 (prefixed prefix n rest) = [prefix].
Proof. reflexivity. Qed.

Lemma chain_key_head `{Crypto} chainID rpc : take 1 (chain_key chainID rpc) = [chainPrefix].
Proof. reflexivity. Qed.

(** Keys that are neither of private keys nor the default key. *)
Definition other_key (k : bytes) : Prop := take 1 k <> [keyPrefix] /\ k <> default_key defaultKeyKey.

Lemma other_key_ne k addr : other_key k -> k <> key_key addr.
Proof. intros [Hk _] ->. by apply Hk. Qed.

Lemma keys_kept_other (f : Db -> Db) k db : other_key k -> (forall k', k' <> k -> f db !! k' = db !! k') ->
  keys_kept db (f db).
Proof.
  intros Hk Hf. split.
  - intros addr v _ Ha. by rewrite Hf by (by apply not_eq_sym, other_key_ne).
  - intros [Hkeys Hdef]. split.
    + intros k' v Hv Hp. apply (Hkeys k' v); [|done]. rewrite <- Hf; [done|]. intros ->. by destruct Hk.
    + intros addr Ha. rewrite Hf in Ha by (by apply not_eq_sym, Hk). destruct (Hdef addr Ha) as [Hl Hs].
      split; [done|]. by rewrite Hf by (by apply not_eq_sym, other_key_ne).
Qed.

Lemma other_chain_key `{Crypto} chainID rpc : other_key (chain_key chainID rpc).
Proof.
  split; [by rewrite chain_key_head|]. intros E. apply (f_equal (take 1)) in E. rewrite chain_key_head in E.
  by unfold default_key in E; rewrite prefixed_head in E.
Qed.

Lemma other_default_chain : other_key (default_key defaultChainKey).
Proof. split; [by unfold default_key; rewrite prefixed_head|]. by vm_compute. Qed.

Lemma keys_kept_stored addr p db :
  length addr = AddressLen -> db !! key_key addr = None ->
  keys_kept db (<[key_key addr := p]> db).
Proof.
  intros Hl Hn. assert (forall a v, db !! key_key a = Some v -> <[key_key addr := p]> db !! key_key a = Some v) as Hk.
  { intros a v Ha. rewrite lookup_insert_ne; [done|]. intros E. by rewrite E, Ha in Hn. }
  split; [by auto|]. intros [Hkeys Hd]. split.
  - intros k v [[<- _]|[_ Hv]]%lookup_insert_Some Hp; [by rewrite key_key_eq, length_cons, Hl|by apply (Hkeys k v)].
  - intros a. rewrite lookup_insert_ne by (by apply key_key_ne_default).
    intros Ha. destruct (Hd a Ha) as [? [v Hv]]. split; [done|]. exists v. by apply Hk.
Qed.

(** Any stored key may become the default. *)
Lemma keys_kept_default addr db :
  length addr = AddressLen -> (client_db db -> is_Some (db !! key_key addr)) ->
  keys_kept db (<[default_key defaultKeyKey := addr]> db).
Proof.
  intros Hl Hs. split.
  - intros a v Ha Hv. rewrite lookup_insert_ne; [done|]. by apply not_eq_sym, key_key_ne_default.
  - intros Hc. pose proof Hc as [Hkeys _]. split.
    + intros k v [[<- _]|[_ Hv]]%lookup_insert_Some Hp; [|by apply (Hkeys k v)].
      by unfold default_key in Hp; rewrite prefixed_head in Hp.
    + intros a. rewrite lookup_insert_eq. intros [= <-]. split; [done|].
      rewrite lookup_insert_ne by (by apply not_eq_sym, key_key_ne_default). by apply Hs.
Qed.

Section kept.
Context `{Quoting} `{Hashing} `{HC : Crypto} `{LC : !LawfulCrypto HC} `{DbFaults} `{FileFaults} `{GenesisJSON}.
Context `{Texts} `{URLs} `{Formatting}.

Abbreviation db_keeps := (keeps keys_kept).

Lemma db_keeps_returned {A} (x : outcome (result A)) : db_keeps (returned x).
Proof. intros db. by destruct x. Qed.

Lemma db_keeps_Put k v : other_key k -> db_keeps (db_Put k v).
Proof.
  intros Hk db. unfold db_Put. destruct (put_fault k v); [done|]. cbn [snd].
  apply (keys_kept_other (fun db => <[k := v]> db) k); [done|]. intros k' Hne. by apply lookup_insert_ne.
Qed.

Lemma db_keeps_Delete k : other_key k -> db_keeps (db_Delete k).
Proof.
  intros Hk db. unfold db_Delete. destruct (delete_fault k); [done|]. cbn [snd].
  apply (keys_kept_other (delete k) k); [done|]. intros k' Hne. by apply lookup_delete_ne.
Qed.

Lemma db_keeps_StoreDefaultChain chainID : db_keeps (StoreDefaultChain chainID).
Proof. apply db_keeps_Put, other_default_chain. Qed.

Lemma db_keeps_StoreChain chainID rpc : db_keeps (StoreChain chainID rpc).
Proof.
  unfold StoreChain. apply keeps_bind; [apply _|by intros db; unfold db_Has; destruct (has_fault _)|].
  intros has. apply keeps_bind; [apply _|by intros db; destruct has|]. intros _. apply db_keeps_Put, other_chain_key.
Qed.

Lemma db_keeps_DeleteChains (map_order : forall A, list A -> list A) : db_keeps (DeleteChains map_order).
Proof.
  assert (Hrpcs : forall chainID rpcs, db_keeps (delete_rpcs chainID rpcs)).
  { intros chainID rpcs. induction rpcs as [|rpc rpcs IH]; [by apply keeps_ret, _|]. cbn [delete_rpcs].
    apply keeps_bind; [apply _|apply db_keeps_Delete, other_chain_key|by intros _]. }
  assert (Hall : forall chains, db_keeps (delete_chains chains)).
  { induction chains as [|[chainID rpcs] chains IH]; [by apply keeps_ret, _|]. cbn [delete_chains].
    apply keeps_bind; [apply _|apply Hrpcs|]. intros _. apply keeps_bind; [apply _|done|]. intros ids. by apply keeps_ret, _. }
  intros db. unfold DeleteChains. apply keeps_bind; [apply _|apply db_keeps_returned|]. intros chains. apply Hall.
Qed.

(** A key of the listing can become the default. *)
Definition can_default (db : Db) (addr : bytes) : Prop :=
  length addr = AddressLen /\ (client_db db -> is_Some (db !! key_key addr)).

Lemma private_keys_in l : forall keys key, private_keys l = Returns keys -> key ∈ keys ->
  exists k v, (k, v) ∈ l /\ pk_Address key = take AddressLen (tail k) /\ (AddressLen <= length (tail k))%nat.
Proof.
  induction l as [|[k v] l IH]; intros keys key E Hin; cbn [private_keys] in E.
  { injection E as <-. by apply not_elem_of_nil in Hin. }
  case_decide as Hl; [done|]. destruct (private_keys l) as [keys'|]; [|done]. injection E as <-.
  apply elem_of_cons in Hin as [->|Hin].
  - exists k, v. split; [by left|]. split; [done|lia].
  - destruct (IH _ _ eq_refl Hin) as (k' & v' & Hin' & ?). exists k', v'. split; [by right|done].
Qed.

Lemma iterated db prefix k v : (k, v) ∈ NewIteratorWithPrefix db prefix ->
  db !! k = Some v /\ take (length prefix) k = prefix.
Proof.
  unfold NewIteratorWithPrefix. rewrite (sorting.merge_sort_Permutation key_le). rewrite list_elem_of_In, List.filter_In, <- list_elem_of_In.
  intros [Hin Hp]. apply elem_of_map_to_list in Hin. by apply bool_decide_eq_true in Hp.
Qed.

Lemma GetKeys_can_default db keys key : GetKeys db = Returns (Ok keys) -> key ∈ keys -> can_default db (pk_Address key).
Proof.
  unfold GetKeys. destruct (iter_fault _); [done|]. destruct (private_keys _) as [keys'|] eqn:E; [|done].
  intros [= ->] Hin. destruct (private_keys_in _ _ _ E Hin) as (k & v & Hkv & -> & Hl).
  destruct (iterated _ _ _ _ Hkv) as [Hk Hp]. cbn [length] in Hp. split; [by rewrite length_take, Nat.min_l|].
  intros [Hkeys _]. pose proof (Hkeys k v Hk Hp) as Hlen. destruct k as [|p k]; [done|].
  injection Hp as ->. injection Hlen as Hlen. cbn [tail]. rewrite take_ge by (by rewrite Hlen).
  exists v. by rewrite key_key_eq.
Qed.

Lemma db_keeps_StoreDefaultKey addr db : can_default db addr -> keys_kept db (snd (StoreDefaultKey addr db)).
Proof.
  intros [Hl Hs]. unfold StoreDefaultKey, StoreDefault, db_Put. destruct (put_fault _ _); [done|].
  by apply keys_kept_default.
Qed.

Lemma db_keeps_StoreKey priv : length (pk_Address priv) = AddressLen -> db_keeps (StoreKey priv).
Proof.
  intros Hl db. unfold StoreKey, db_Has, db_Put, mbind, GoM_bind, fail_if. destruct (has_fault _); [done|].
  destruct (db !! key_key (pk_Address priv)) as [v|] eqn:E; [by rewrite bool_decide_true|].
  rewrite bool_decide_false by (by intros [? ?]). destruct (put_fault _ _); [done|]. by apply keys_kept_stored.
Qed.

(** ** Calls on the database of the handler *)

Abbreviation keeps := (keeps world_kept).
Abbreviation same := (Cobra.keeps same_dbs).

Lemma on_db_cases {A} (m : GoM Db A) w :
  (exists c path, handler w = Some (mkHandler c (Some path)) /\
    on_db m w = (fst (m (db_of w path)), set_databases (<[path := snd (m (db_of w path))]> (databases w)) w)) \/
  on_db m w = (Err (panicked nil_dereference), w).
Proof.
  destruct (handler w) as [[c [path|]]|] eqn:Hh; [|right; unfold on_db; by rewrite Hh..].
  left. exists c, path. split; [done|]. by apply (on_db_eq _ _ c).
Qed.

Lemma world_kept_db w path db :
  keys_kept (db_of w path) db -> world_kept w (set_databases (<[path := db]> (databases w)) w).
Proof.
  intros Hk p. unfold db_of. simpl. destruct (decide (p = path)) as [->|Hp].
  - by rewrite lookup_insert_eq.
  - by rewrite lookup_insert_ne.
Qed.

Lemma keeps_on_db {A} (m : GoM Db A) : db_keeps m -> keeps (on_db m).
Proof. intros Hm w. destruct (on_db_cases m w) as [(c & path & _ & ->)| ->]; [apply world_kept_db, Hm|done]. Qed.

Lemma same_on_db {A} (m : GoM Db A) : (forall db, snd (m db) = db) -> same (on_db m).
Proof.
  intros Hm w. destruct (on_db_cases m w) as [(c & path & _ & ->)| ->]; [|done]. cbn [snd]. rewrite Hm. split; [done|].
  intros p. unfold db_of. cbn [databases set_databases]. destruct (decide (p = path)) as [->|Hp].
  - by rewrite lookup_insert_eq.
  - by rewrite lookup_insert_ne.
Qed.

(** Steps that leave the whole state alone, and the printing and writing of
    files. *)
Lemma same_state {A} (m : GoM World A) : (forall w, snd (m w) = w) -> same m.
Proof. intros Hm w. by rewrite Hm. Qed.

Lemma same_bind {A B} (m : GoM World A) (f : A -> GoM World B) : same m -> (forall a, same (f a)) -> same (m ≫= f).
Proof. apply keeps_bind, _. Qed.

Lemma same_ret {A} (a : A) : same (mret a).
Proof. by apply same_state. Qed.

Lemma same_fail {A} e : same (fail e : GoM World A).
Proof. by apply same_state. Qed.

Lemma same_lift {A} (r : result A) : same (lift r).
Proof. by apply same_state. Qed.

Lemma same_reading {A} (f : World -> result A) : same (reading f).
Proof. by apply same_state. Qed.

Lemma same_get {A} (f : World -> A) : same (get f).
Proof. by apply same_state. Qed.

Lemma same_fail_if (b : bool) e : same (fail_if b e).
Proof. apply same_state. by destruct b. Qed.

Lemma same_return_error e : same (return_error e).
Proof. apply same_state. by destruct e. Qed.

Lemma same_index_of_slice {A} i (l : list A) : same (index_of_slice i l).
Proof. unfold index_of_slice. destruct (if i <? 0 then _ else _); [apply same_ret|apply same_fail]. Qed.

Lemma same_Outf line : same (Outf line).
Proof. by intros w. Qed.

Lemma same_WriteFile path b : same (WriteFile path b).
Proof. intros w. unfold WriteFile. by destruct (write_fault path). Qed.

Lemma same_modify_vars f : same (modify_vars f).
Proof. by intros w. Qed.

Lemma same_reader {A} (f : Db -> outcome (result A)) : same (on_db (fun db => returned (f db) db)).
Proof. apply same_on_db. intros db. by destruct (f db). Qed.

#[local] Hint Resolve same_ret same_fail same_lift same_reading same_get same_fail_if same_return_error
  same_index_of_slice same_Outf same_WriteFile same_modify_vars same_reader : same.

(** Through binds and case distinctions, to the steps. *)
#[local] Ltac same_steps :=
  repeat first
    [ solve [eauto with same nocore]
    | apply same_bind; [|intros ?]
    | progress cbn beta iota
    | match goal with |- Cobra.keeps _ (match ?x with _ => _ end) => destruct x end ].

(** ** The methods of the handler *)
Section methods.
Variable (env : Outside).

Lemma same_prompt_String label a b : same (prompt_String env label a b).
Proof. unfold prompt_String. same_steps. Qed.

Lemma same_Choice label n : same (Choice env label n).
Proof. unfold Choice. same_steps. Qed.

Lemma same_print_chains chains : forall i, same (print_chains i chains).
Proof. induction chains as [|[chainID uris] chains IH]; intros i; cbn [print_chains]; same_steps. Qed.

#[local] Hint Resolve same_prompt_String same_Choice same_print_chains : same.

Lemma same_SelectChain label chains : same (SelectChain env label chains).
Proof. unfold SelectChain. same_steps. Qed.

Lemma same_root_GetDefaultKey : same root_GetDefaultKey.
Proof. unfold root_GetDefaultKey. same_steps. Qed.

Lemma same_root_GetDefaultChain : same root_GetDefaultChain.
Proof. unfold root_GetDefaultChain. same_steps. Qed.

Lemma same_root_GetChains : same root_GetChains.
Proof. apply same_reader. Qed.

Lemma same_lookup addr uri : same (lookup env addr uri).
Proof. unfold lookup, LookupBalance. same_steps. Qed.

#[local] Hint Resolve same_SelectChain same_root_GetDefaultKey same_root_GetDefaultChain same_root_GetChains
  same_lookup : same.

Lemma same_print_keys uri keys : forall i, same (print_keys env uri i keys).
Proof. induction keys as [|key keys IH]; intros i; cbn [print_keys]; same_steps. Qed.

Lemma same_print_balances addr first uris : same (print_balances env addr first uris).
Proof. induction uris as [|uri uris IH]; cbn [print_balances]; same_steps. Qed.

Lemma same_Outs lines : same (Outs lines).
Proof. induction lines as [|line lines IH]; cbn [Outs]; same_steps. Qed.

#[local] Hint Resolve same_print_keys same_print_balances same_Outs : same.

Lemma same_handle_txs c txs results : forall i, same (handle_txs c i txs results).
Proof. induction txs as [|tx txs IH]; intros i; cbn [handle_txs]; same_steps. Qed.

#[local] Hint Resolve same_handle_txs : same.

Lemma same_watch_blocks c hideTxs blocks : forall i, same (watch_blocks env c hideTxs i blocks).
Proof. induction blocks as [|blk blocks IH]; intros i; cbn [watch_blocks]; same_steps. Qed.

Lemma same_start_prometheus openBrowser dashboard : same (start_prometheus env openBrowser dashboard).
Proof. unfold start_prometheus. same_steps. Qed.

#[local] Hint Resolve same_watch_blocks same_start_prometheus : same.

(** Four methods change no database. *)
Lemma same_Balance b : same (Balance env b).
Proof. unfold Balance. same_steps. Qed.

Lemma same_PrintChainInfo : same (PrintChainInfo env).
Proof. unfold PrintChainInfo. same_steps. Qed.

Lemma same_GeneratePrometheus a b c d e : same (GeneratePrometheus env a b c d e).
Proof. unfold GeneratePrometheus, prometheus_GeneratePrometheus. same_steps. Qed.

Lemma keeps_CloseDatabase : keeps CloseDatabase.
Proof.
  intros w. unfold CloseDatabase. by destruct (handler w) as [[c [path|]]|]; [destruct (close_fault path)|..].
Qed.

Lemma keeps_WatchChain b : keeps (WatchChain env b).
Proof.
  unfold WatchChain. do 3 (apply keeps_bind; [apply _|apply keeps_same_dbs; solve [eauto with same]|intros ?]).
  apply keeps_bind; [apply _|apply keeps_CloseDatabase|]. intros _. apply keeps_same_dbs. same_steps.
Qed.

(** The others store chains and defaults. *)
Lemma keeps_ImportChain : keeps (ImportChain env).
Proof.
  unfold ImportChain. do 2 (apply keeps_bind; [apply _|apply keeps_same_dbs; solve [eauto with same]|intros ?]).
  apply keeps_bind; [apply _|apply keeps_on_db, db_keeps_StoreChain|]. intros _.
  apply keeps_on_db, db_keeps_StoreDefaultChain.
Qed.

Lemma keeps_SetDefaultChain : keeps (SetDefaultChain env).
Proof.
  unfold SetDefaultChain. do 2 (apply keeps_bind; [apply _|apply keeps_same_dbs; solve [eauto with same]|intros ?]).
  apply keeps_on_db, db_keeps_StoreDefaultChain.
Qed.

Lemma keeps_store_nodes chainID nodes : keeps (store_nodes chainID nodes).
Proof.
  induction nodes as [|[name uri] nodes IH]; cbn [store_nodes]; [apply keeps_same_dbs, same_ret|].
  apply keeps_bind; [apply _|apply keeps_on_db, db_keeps_StoreChain|]. intros _.
  apply keeps_bind; [apply _|apply keeps_same_dbs, same_Outf|done].
Qed.

Lemma keeps_ImportClusterInfo path : keeps (ImportClusterInfo env path).
Proof.
  unfold ImportClusterInfo. apply keeps_bind; [apply _|apply keeps_on_db, db_keeps_DeleteChains|]. intros old.
  do 2 (apply keeps_bind; [apply _|apply keeps_same_dbs; same_steps|intros ?]).
  apply keeps_bind; [apply _|apply keeps_store_nodes|]. intros _. apply keeps_on_db, db_keeps_StoreDefaultChain.
Qed.

(** From a state with the databases of [w0]: [SetKey] stores as default a key
    that it listed before its prompts. *)
Definition keeps_from {A} (w0 : World) (m : GoM World A) : Prop :=
  forall w, same_dbs w0 w -> world_kept w (snd (m w)).

Lemma keeps_from_bind {A B} w0 (m : GoM World A) (f : A -> GoM World B) :
  same m -> (forall a w w', m w = (Ok a, w') -> keeps_from w0 (f a)) -> keeps_from w0 (m ≫= f).
Proof.
  intros Hm Hf w Hw. specialize (Hm w). unfold mbind, GoM_bind.
  destruct (m w) as [[a|e] w'] eqn:E; [|by apply same_dbs_kept].
  transitivity w'; [by apply same_dbs_kept|]. apply (Hf a w w' E). by etransitivity.
Qed.

Lemma index_of_slice_in {A} i (l : list A) a w w' : index_of_slice i l w = (Ok a, w') -> a ∈ l.
Proof.
  unfold index_of_slice. destruct (i <? 0); [done|]. destruct (l !! Z.to_nat i) as [x|] eqn:E; [|done].
  intros [= <- _]. by apply list_elem_of_lookup_2 in E.
Qed.

Lemma keeps_from_default w0 c path addr :
  handler w0 = Some (mkHandler c (Some path)) -> can_default (db_of w0 path) addr ->
  keeps_from w0 (on_db (StoreDefaultKey addr)).
Proof.
  intros Hh Hc w [Hw Hd]. destruct (on_db_cases (StoreDefaultKey addr) w) as [(c' & path' & Hh' & ->)| ->]; [|done].
  assert (path' = path) as -> by congruence. apply world_kept_db, db_keeps_StoreDefaultKey. by rewrite Hd.
Qed.

Lemma keeps_reader {A C : Type} (f : Db -> outcome (result A)) (k : A -> GoM World C) :
  (forall w c path a, handler w = Some (mkHandler c (Some path)) -> f (db_of w path) = Returns (Ok a) ->
    keeps_from w (k a)) ->
  keeps (on_db (fun db => returned (f db) db) ≫= k).
Proof.
  intros Hk w. pose proof (same_reader f w) as Hs. unfold mbind, GoM_bind.
  destruct (on_db_cases (fun db => returned (f db) db) w) as [(c & path & Hh & E)|E]; [|by rewrite E].
  destruct (f (db_of w path)) as [[a|e]|e] eqn:Ef; cbn [returned lift fail] in E; rewrite E in *; cbn [fst snd] in *;
    [|by apply same_dbs_kept..].
  transitivity (set_databases (<[path := db_of w path]> (databases w)) w); [by apply same_dbs_kept|].
  by apply (Hk w c path a).
Qed.

(** [SetKey] after the listing. *)
#[local] Definition choose_key (keys : list PrivateKey) : GoM World unit :=
  if (length keys =? 0)%nat then Outf ("{{red}}no stored keys{{/}}" +:+ newline)
  else
    chain ← root_GetDefaultChain;
    match chain.2 with
    | [] => Outf ("{{red}}no available chains{{/}}" +:+ newline)
    | uri :: _ =>
        Outf ("{{cyan}}stored keys:{{/}} " +:+ fmt_d (Z.of_nat (length keys)) +:+ newline);;
        print_keys env uri 0 keys;;
        keyIndex ← Choice env "set default key" (length keys);
        key ← index_of_slice keyIndex keys;
        on_db (StoreDefaultKey (pk_Address key))
    end.

Lemma keeps_SetKey : keeps (SetKey env).
Proof.
  change (SetKey env) with (on_db (fun db => returned (GetKeys db) db) ≫= choose_key).
  apply keeps_reader. intros w c path keys Hh Ek. unfold choose_key.
  destruct (length keys =? 0)%nat; [intros w' _; apply same_dbs_kept, same_Outf|].
  apply keeps_from_bind; [apply same_root_GetDefaultChain|]. intros [chainID [|uri uris]] _ _ _; cbn [snd].
  { intros w' _. apply same_dbs_kept, same_Outf. }
  do 3 (apply keeps_from_bind; [solve [eauto with same]|intros ? _ _ _]).
  apply keeps_from_bind; [apply same_index_of_slice|]. intros key w2 w3 Hi%index_of_slice_in.
  apply (keeps_from_default w c path); [done|]. by apply (GetKeys_can_default _ keys).
Qed.
End methods.

(** ** The program's own commands *)

Lemma StoreKey_stored priv db db' :
  StoreKey priv db = (Ok tt, db') -> db' !! key_key (pk_Address priv) = Some (pk_Bytes priv).
Proof.
  unfold StoreKey, db_Has, db_Put, mbind, GoM_bind, fail_if. destruct (has_fault _); [done|].
  destruct (bool_decide _); [done|]. destruct (put_fault _ _); [done|]. intros [= <-]. by rewrite lookup_insert_eq.
Qed.

Lemma keeps_add_key text priv : length (pk_Address priv) = AddressLen -> keeps (add_key text priv).
Proof.
  intros Hl w. unfold add_key. unfold mbind at 1, GoM_bind at 1.
  pose proof (keeps_on_db _ (db_keeps_StoreKey priv Hl) w) as Hk.
  destruct (on_db_cases (StoreKey priv) w) as [(c & path & Hh & E)|E]; rewrite E in *; cbn [fst snd] in *; [|done].
  destruct (StoreKey priv (db_of w path)) as [[[]|e] db] eqn:Es; cbn [fst snd] in *; [|done].
  etransitivity; [exact Hk|]. set (w1 := set_databases _ w).
  assert (keeps_from w1 (on_db (StoreDefaultKey (pk_Address priv)))) as Hd.
  { apply (keeps_from_default w1 c path); [done|]. split; [done|]. intros _. unfold w1. rewrite db_of_set.
    exists (pk_Bytes priv). by apply StoreKey_stored in Es. }
  specialize (Hd w1 ltac:(reflexivity)). unfold mbind, GoM_bind. destruct (on_db _ w1) as [[[]|e] w2]; [|done].
  etransitivity; [exact Hd|]. apply same_dbs_kept, same_Outf.
Qed.

Lemma keeps_genKey random args : keeps (genKey_RunE random args).
Proof.
  intros w. unfold genKey_RunE, mbind at 1, GoM_bind at 1, lift.
  destruct (GeneratePrivateKey _ _ random) as [priv|e] eqn:E; [|reflexivity].
  apply keeps_add_key. unfold GeneratePrivateKey in E. destruct (vm_AuthProvider !! _) as [f|]; [|done].
  by apply factory_Generate_key in E as [[_ ?] _].
Qed.

Lemma keeps_importKey args : keeps (importKey_RunE args).
Proof.
  intros w. unfold importKey_RunE, mbind at 1, GoM_bind at 1, reading.
  destruct (LoadPrivateKey _ _ _ _) as [priv|e] eqn:E; [|reflexivity].
  apply keeps_add_key. unfold LoadPrivateKey in E. destruct (vm_AuthProvider !! _) as [f|]; [|done].
  destruct (ReadFile _ w); [|done]. by apply factory_Load_key in E as [[_ ?] _].
Qed.

Lemma same_genGenesis args : same (genGenesis_RunE args).
Proof. unfold genGenesis_RunE. same_steps. Qed.

(** Opening a database creates it empty. *)
Lemma keeps_pre args : keeps (root_PersistentPreRunE args).
Proof.
  intros w. rewrite root_pre_eq. destruct (open_fault _); [by intros path|]. by apply (world_kept_db w).
Qed.

Lemma keeps_post args : keeps (root_PersistentPostRunE args).
Proof. apply keeps_CloseDatabase. Qed.

Section tree.
Variable (env : Outside) (random : result bytes) (now : Z).
Variable (readAsCSV : string -> result (list string)).
Variable (findSuggestions : Command World -> string -> string).
Variable (help_text : list string -> string) (completion_text : string -> string).

Abbreviation kept_tree := (keeps_tree world_kept).

Lemma kept_flags :
  (forall name set s, keeps (fl_Set (StringVar name set) s)) /\
  (forall name field set s, keeps (fl_Set (StringSliceVar readAsCSV name field set) s)) /\
  (forall name set s, keeps (fl_Set (Int64Var name set) s)) /\
  (forall name set s, keeps (fl_Set (BoolVar name set) s)).
Proof. split_and!; intros; apply keeps_same_dbs; cbn [fl_Set StringVar StringSliceVar Int64Var BoolVar]; same_steps. Qed.

Lemma kept_leaf use flags pre run :
  Forall (fun f => forall s, keeps (fl_Set f s)) flags -> keeps_hook world_kept pre ->
  (forall args, keeps (run args)) -> kept_tree (leaf use flags pre run).
Proof. intros Hf Hp Hr. constructor; [|constructor]. unfold keeps_command, leaf. simpl. auto. Qed.

Lemma kept_group use cmds : Forall kept_tree cmds -> kept_tree (group use cmds).
Proof.
  intros Hc. constructor; [|done]. unfold keeps_command, group. simpl.
  by split_and!.
Qed.

Lemma kept_completion_shell name : kept_tree (completion_shell completion_text name).
Proof.
  constructor; [|constructor]. unfold keeps_command, completion_shell. simpl. split_and!; try done.
  apply List.Forall_cons; [|constructor]. intros s. apply keeps_same_dbs, same_return_error.
Qed.

Lemma kept_cobra_commands : Forall kept_tree (cobra_commands help_text completion_text).
Proof.
  apply List.Forall_cons; [|apply List.Forall_cons; [|constructor]].
  - apply kept_leaf; [constructor|done|]. intros args. apply keeps_same_dbs, same_Outf.
  - constructor; [by split_and!|]. repeat (apply List.Forall_cons; [apply kept_completion_shell|]). constructor.
Qed.

Lemma kept_args_check (k : list string -> bool) :
  keeps_hook world_kept (Some (fun args => fail_if (k args) ErrInvalidArgs)).
Proof. intros args. apply keeps_same_dbs. same_steps. Qed.

Lemma kept_type_check (k : list string -> bool) check :
  keeps_hook world_kept (Some (fun args => fail_if (k args) ErrInvalidArgs;; return_error (check args))).
Proof. intros args. apply keeps_same_dbs. same_steps. Qed.

Lemma rootCmd_keeps :
  kept_tree (AddCommand (rootCmd env random readAsCSV) (cobra_commands help_text completion_text)).
Proof.
  destruct kept_flags as (? & ? & ? & ?). constructor.
  - unfold keeps_command, rootCmd, root_flags. simpl.
    auto 10 using keeps_pre, keeps_post, List.Forall_cons, List.Forall_nil.
  - apply Forall_app. split; [|apply kept_cobra_commands].
    repeat (apply List.Forall_cons || apply List.Forall_nil || apply kept_group || apply kept_leaf);
      try done; try first [apply kept_args_check|apply kept_type_check].
    + intros args. apply keeps_same_dbs, same_genGenesis.
    + apply keeps_genKey.
    + apply keeps_importKey.
    + intros args. apply keeps_SetKey.
    + intros args. apply keeps_bind; [apply _|apply keeps_same_dbs, same_get|]. intros b.
      apply keeps_same_dbs, same_Balance.
    + intros args. apply keeps_ImportChain.
    + intros args. apply keeps_SetDefaultChain.
    + intros args. apply keeps_same_dbs, same_PrintChainInfo.
    + intros args. apply keeps_ImportClusterInfo.
    + intros args. apply keeps_bind; [apply _|apply keeps_same_dbs, same_get|]. intros b. apply keeps_WatchChain.
    + intros args. apply keeps_bind; [apply _|apply keeps_same_dbs, same_get|]. intros v.
      apply keeps_same_dbs, same_GeneratePrometheus.
Qed.

(** The process starts with what is on disk, and [main] only prints. *)
Lemma run_cli_keeps args disk :
  world_kept disk (snd (run_cli env random now readAsCSV findSuggestions
    (cobra_commands help_text completion_text) args disk)).
Proof.
  transitivity (start now disk); [by intros path|]. unfold run_cli, main.
  pose proof (ExecuteC_keeps world_kept findSuggestions (cobra_commands help_text completion_text)
    (rootCmd env random readAsCSV) args rootCmd_keeps (start now disk)) as Hx.
  unfold Execute. destruct (ExecuteC _ _ _ args _) as [[u|e] w']; [done|]. by destruct (is_panic e).
Qed.
End tree.
End kept.

(** ** Histories *)
Section history.
Context `{Quoting} `{Hashing} `{HC : Crypto} `{LC : !LawfulCrypto HC} `{GenesisJSON} `{Texts} `{URLs} `{Formatting}.
Variable (readAsCSV : string -> result (list string)).
Variable (findSuggestions : Command World -> string -> string).
Variable (help_text : list string -> string) (completion_text : string -> string).

(** A run: its command line, the key its random source gives, its clock, what
    it meets outside, what the database and the files answer, and what others
    made of the files before it. *)
Record CliRun := mkCliRun {
  r_args : list string;
  r_random : result bytes;
  r_now : Z;
  r_env : Outside;
  r_db_faults : DbFaults;
  r_file_faults : FileFaults;
  r_edits : gmap string bytes -> gmap string bytes;
}.

Definition after_run (disk : World) (r : CliRun) : World :=
  let _ := r_db_faults r in
  let _ := r_file_faults r in
  snd (run_cli (r_env r) (r_random r) (r_now r) readAsCSV findSuggestions (cobra_commands help_text completion_text)
    (r_args r) (set_files (r_edits r (files disk)) disk)).

Definition run_history (runs : list CliRun) (disk : World) : World := fold_left after_run runs disk.

(** C35: the client keeps its keys.  Over any history of runs of the client,
    each with any command line but the hidden requests of shells for
    completion, whatever the user enters at the prompts, the
    nodes, the database and the files answer, and whoever edits the files in
    between: no private key in a database is lost or changed.  A database as
    the client makes it, whose listing has keys of addresses only and whose
    default key is a stored one, remains one; so the default key is always a
    stored one when the disk had no databases at first. *)
Theorem keys_are_kept runs disk path :
  let db := db_of disk path in
  let db' := db_of (run_history runs disk) path in
  (forall addr v, length addr = AddressLen -> db !! key_key addr = Some v -> db' !! key_key addr = Some v) /\
  (client_db db -> client_db db') /\
  (databases disk = ∅ -> client_db db').
Proof using LC.
  assert (world_kept disk (run_history runs disk)) as Hk.
  { revert disk. induction runs as [|r runs IH]; intros disk; [reflexivity|].
    transitivity (after_run disk r); [|apply IH]. etransitivity; [|apply run_cli_keeps; apply _]. by intros p. }
  intros db db'. destruct (Hk path) as [Hkept Hc]. split_and!; [done|done|].
  intros He. apply Hc. unfold db_of. rewrite He, lookup_empty.
  split; [intros k v|intros addr]; unfold default; by rewrite lookup_empty.
Qed.
End history.

(** ** An instance: two keys, a chain, and the other key chosen *)
Section witness.
#[local] Existing Instance plain_quote.
#[local] Existing Instance zero_checksum.
#[local] Existing Instance pad_crypto.
#[local] Existing Instance pad_crypto_lawful.
#[local] Existing Instance example_json.
#[local] Existing Instance example_texts.
#[local] Existing Instance example_urls.
#[local] Existing Instance example_formatting.

Definition quiet_run (args : list string) (random : result bytes) (env : Outside) : CliRun :=
  mkCliRun args random 0 env no_faults no_file_faults (fun files => files).

(** The user enters [text]. *)
Definition entering (text : string) : Outside := mkOutside [Ok text] (map_order example_env) (map_order_perm example_env)
  (node_Network example_env) (node_Balance example_env) (NewWebSocketClient example_env) (RegisterBlocks example_env)
  (ws_blocks example_env) (ws_end example_env) (block_line example_env) (OpenURL example_env)
  (prometheus_Run example_env) (late example_env).

Definition example_runs : list CliRun := [
  quiet_run ["chain"; "import"] (Ok []) (entering "http://node");
  quiet_run ["key"; "generate"; "ed25519"] (Ok (replicate 64 1)) example_env;
  quiet_run ["key"; "generate"; "bls"] (Ok (replicate 32 2)) example_env;
  quiet_run ["key"; "set"] (Ok []) (entering "0")
].

(** The last key is the default, until the user chooses the first. *)
Example key_set_example :
  let run runs := db_of (run_history one_field no_suggestions (fun _ => "help") (fun shell => shell) runs example_disk)
    defaultDatabase in
  let default_type runs := match GetDefaultKey (H := no_faults) (run runs) with Returns (Ok (addr, _)) => hd_error addr | _ => None end in
  default_type (take 3 example_runs) = Some BLSID /\ default_type example_runs = Some ED25519ID.
Proof. split; vm_compute; reflexivity. Qed.

Lemma keys_are_kept_witness :
  client_db (db_of (run_history one_field no_suggestions (fun _ => "help") (fun shell => shell) example_runs example_disk)
    defaultDatabase).
Proof.
  refine (proj2 (proj2 (keys_are_kept one_field no_suggestions (fun _ => "help") (fun shell => shell) example_runs
    example_disk defaultDatabase)) _). reflexivity.
Defined.
End witness.
