(* ===== verification/ToolsCorrect.v ===== *)
(** * Theorems on genesis, addresses as text, and the command line client *)

From S2P Require Import Prelude GoErrors Lib Consts Packer LinearCodec Store Permissions TState StorageKeys Balances Markets Ledger Controller BuyYes BuyNo BuySpec BuyFacts Trade CreateMarket Creation Accounting Examples ConvertBits Bech32 Genesis Rules Strconv Vm KeyStore Cli.
#[local] Open Scope Z_scope.

(** ** Genesis *)

(** The genesis the VM uses.  With distinct addresses,
    [DefaultGenesis.InitializeState] over any balance handler that keeps its
    contract and any store holding an empty ledger gives each address exactly
    its balance, the money in circulation being the sum; unless the sum
    reaches 2^64, where it fails with [ErrOverflow]. *)
Lemma default_genesis_funds {S BH} `{LawfulBalanceHandler BH S} `{Hashing} (bh : BH) g (s : S) :
  represents s empty_ledger -> Forall wf_allocation (CustomAllocations g) ->
  NoDup (map ca_Address (CustomAllocations g)) ->
  if total_allocated (CustomAllocations g) <? two64
  then exists s' L', DefaultGenesis_InitializeState g bh s = (Ok tt, s') /\
    represents s' L' /\ wf_ledger L' /\ money L' = total_allocated (CustomAllocations g) /\
    forall alloc, alloc ∈ CustomAllocations g ->
      balances L' !! ca_Address alloc = Some (ca_Balance alloc)
  else exists s', DefaultGenesis_InitializeState g bh s = (Err ErrOverflow, s').
Proof.
  intros Hrep Hw Hnd.
  assert (forall a, a ∈ map ca_Address (CustomAllocations g) -> balances empty_ledger !! a = None) as Hnone
    by (intros; apply lookup_empty).
  pose proof (default_allocate_refines bh _ 0 s _ Hrep wf_empty_ledger Hw ltac:(int_lia) Hnd Hnone) as Hi.
  rewrite Z.add_0_l in Hi. destruct (total_allocated _ <? two64); [|done].
  destruct Hi as (s' & E & Hrep' & Hwf'). exists s', (funded (CustomAllocations g) empty_ledger).
  split_and!; [done..| |by intros alloc; apply funded_lookup].
  unfold money. rewrite funded_money by done. simpl. by rewrite sum_map_empty.
Qed.

Lemma default_genesis_funds_witness :
  exists s' L', DefaultGenesis_InitializeState (newGenesis [alice; bob] 0) New NewInMemoryStore = (Ok tt, s') /\
    represents s' L' /\ wf_ledger L' /\ money L' = 6000000000000000000 /\
    forall alloc, alloc ∈ CustomAllocations (newGenesis [alice; bob] 0) ->
      balances L' !! ca_Address alloc = Some (ca_Balance alloc).
Proof.
  apply (default_genesis_funds New (newGenesis [alice; bob] 0) NewInMemoryStore);
    [apply represents_empty| |by apply (bool_decide_unpack _)].
  repeat constructor; by apply (bool_decide_unpack _).
Defined.

(** The program's own genesis.  Over any balance handler that keeps its
    contract, [Genesis.InitializeState] credits the allocations in order to
    the addresses their bech32 texts decode to, stopping at the first that
    does not decode, is too long or cannot be credited; what was credited
    before stays, and the custom markets have no effect. *)
Lemma genesis_credits_in_order {S BH} `{LawfulBalanceHandler BH S} `{Hashing} g (bh : BH) (s : S) L :
  represents s L -> wf_ledger L ->
  let '(r, L') := ledger_allocate allocation_address (Allocations g) L in
  exists s', InitializeState g bh s = (r, s') /\ represents s' L' /\ wf_ledger L'.
Proof. apply allocate_refines. Qed.

(** The text of alice's address under the prefix pvm. *)
Definition alice_text : string := "pvm1qyqqqqqqqqqqqqqqqqqqqqqqqqqqqqqqqqqqqqqqqqqqqqqqqqqqqvwrrq4".

Lemma genesis_credits_in_order_witness :
  let g := mkGenesis 12345 0 [] [mkAllocation alice_text 5; mkAllocation alice_text 6; mkAllocation "bob" 7] in
  exists s', InitializeState g New NewInMemoryStore =
      (Err (Errorf_w "failed to decode bech32 address bob: " (ErrInvalidLength 3) ""), s') /\
    represents s' (set_balance alice 11 (set_balance alice 5 empty_ledger)) /\
    wf_ledger (set_balance alice 11 (set_balance alice 5 empty_ledger)).
Proof.
  intros g.
  pose proof (genesis_credits_in_order g New NewInMemoryStore empty_ledger represents_empty wf_empty_ledger) as Hg.
  assert (ledger_allocate allocation_address (Allocations g) empty_ledger =
    (Err (Errorf_w "failed to decode bech32 address bob: " (ErrInvalidLength 3) ""),
     set_balance alice 11 (set_balance alice 5 empty_ledger))) as E by (vm_compute; reflexivity).
  rewrite E in Hg. exact Hg.
Defined.

(** Bech32 decoding is exact.  [Decode] accepts exactly the strings of up
    to 90 printable characters in one case whose lower-case form is what
    [Encode] or [EncodeM] writes for a non-empty lower-case prefix and the
    payload: every checksum is verified, none is accepted that the encoders
    would not write, and prefix and payload come back whole. *)
Lemma bech32_decode_exact s hrp data :
  Decode s = Ok (hrp, data) <->
  (length s <= 90)%nat /\ printable s /\ mixed_case s = false /\ hrp <> [] /\ ToLower hrp = hrp /\
  wf_bytes data /\ (Encode hrp data = Ok (ToLower s) \/ EncodeM hrp data = Ok (ToLower s)).
Proof. apply Decode_encoded. Qed.

(** C28: genesis texts.  Every address of 33 bytes has a bech32 text for every
    printable prefix of up to 29 characters, and the genesis reads that text
    as the address; a genesis whose allocations are texts of distinct
    addresses, over a store holding an empty ledger, gives each address
    exactly its balance, in that ledger and nothing else. *)
Theorem genesis_texts_funded {S BH} `{LawfulBalanceHandler BH S} `{Hashing} (bh : BH) g cs (s : S) :
  (forall hrp a, printable hrp -> hrp <> [] -> (length hrp <= 29)%nat -> wf_addr a ->
     exists t, EncodeFromBase256 hrp a = Ok t /\ allocation_address (string_of_bytes t) = Ok a) /\
  (represents s empty_ledger -> Forall2 names (Allocations g) cs -> Forall wf_allocation cs ->
   NoDup (map ca_Address cs) ->
   exists s', InitializeState g bh s = (Ok tt, s') /\ represents s' (funded cs empty_ledger) /\
     forall c, c ∈ cs -> balances (funded cs empty_ledger) !! ca_Address c = Some (ca_Balance c)).
Proof.
  split; [apply allocation_address_text|]. intros Hrep Hn Hw Hnd.
  pose proof (allocate_refines bh (Allocations g) s empty_ledger Hrep wf_empty_ledger) as Hr.
  rewrite (ledger_allocate_funded _ cs) in Hr; [|done..|by intros; apply lookup_empty].
  destruct Hr as (s' & E & Hrep' & _). exists s'. split_and!; [done|done|]. intros c. by apply funded_lookup.
Qed.

Lemma genesis_texts_funded_witness :
  (forall hrp a, printable hrp -> hrp <> [] -> (length hrp <= 29)%nat -> wf_addr a ->
     exists t, EncodeFromBase256 hrp a = Ok t /\ allocation_address (string_of_bytes t) = Ok a) /\
  exists s', InitializeState (mkGenesis 12345 0 [] [mkAllocation alice_text 5]) New NewInMemoryStore = (Ok tt, s') /\
    represents s' (funded [mkCustomAllocation alice 5] empty_ledger) /\
    forall c, c ∈ [mkCustomAllocation alice 5] ->
      balances (funded [mkCustomAllocation alice 5] empty_ledger) !! ca_Address c = Some (ca_Balance c).
Proof.
  destruct (genesis_texts_funded New (mkGenesis 12345 0 [] [mkAllocation alice_text 5])
    [mkCustomAllocation alice 5] NewInMemoryStore) as [H1 H2]. split; [exact H1|]. apply H2.
  - apply represents_empty.
  - apply List.Forall2_cons; [split; vm_compute; reflexivity|apply List.Forall2_nil].
  - apply List.Forall_cons; [by apply (bool_decide_unpack _)|apply List.Forall_nil].
  - by apply (bool_decide_unpack _).
Defined.

(** ** The command line client *)

(** The first message decides.  [sendAndWait], once its transaction is
    registered, returns on the first message of the socket: with that
    transaction's result when it is its own, with the socket's error, and
    otherwise with an "expired" error for the other transaction's ID; it
    never goes on to a second message. *)
Lemma first_message_decides ID_String txID message rest printStatus :
  sendAndWait ID_String (Ok tt) (Ok tt) (Ok txID) None (message :: rest) printStatus =
    Some (match message with
          | Err err => (Err err, [])
          | Ok (id, success) =>
              if decide (id = txID)
              then (Ok (success, txID), if printStatus then [status_line success (ID_String id)] else [])
              else (Err (ErrFresh ("tx " +:+ ID_String id +:+ " expired")), [])
          end).
Proof. unfold sendAndWait. simpl. destruct message as [[id success]|err]; [|done]. by case_decide; subst. Qed.

(** The genesis flags.  Flags that are not given leave the rules as they
    are; the dimension flags that are given replace theirs with the parsed
    value, a gap or window of at least 0 replaces its rule, and the first
    dimension that does not parse gives the error. *)
Lemma genesis_flags_override `{Quoting} f r :
  apply_flags default_flags r = Ok r /\
  match apply_flags f r with
  | Ok r' =>
      (minUnitPrice f <> [] -> ParseDimensions (minUnitPrice f) = Ok (MinUnitPrice r')) /\
      (minUnitPrice f = [] -> MinUnitPrice r' = MinUnitPrice r) /\
      (maxBlockUnits f <> [] -> ParseDimensions (maxBlockUnits f) = Ok (MaxBlockUnits r')) /\
      (maxBlockUnits f = [] -> MaxBlockUnits r' = MaxBlockUnits r) /\
      (windowTargetUnits f <> [] -> ParseDimensions (windowTargetUnits f) = Ok (WindowTargetUnits r')) /\
      (windowTargetUnits f = [] -> WindowTargetUnits r' = WindowTargetUnits r) /\
      MinBlockGap r' = (if 0 <=? minBlockGap f then minBlockGap f else MinBlockGap r) /\
      ValidityWindow r' = (if 0 <=? validityWindow f then validityWindow f else ValidityWindow r)
  | Err err =>
      exists flag, flag ∈ [minUnitPrice f; maxBlockUnits f; windowTargetUnits f] /\ flag <> [] /\
        ParseDimensions flag = Err err
  end.
Proof.
  split; [by destruct r|]. unfold apply_flags, mbind, result_bind.
  pose proof (override_spec (minUnitPrice f) (MinUnitPrice r)) as H1.
  pose proof (override_spec (maxBlockUnits f) (MaxBlockUnits r)) as H2.
  pose proof (override_spec (windowTargetUnits f) (WindowTargetUnits r)) as H3.
  destruct (override (minUnitPrice f) _); [|exists (minUnitPrice f); rewrite !elem_of_cons; intuition].
  destruct (override (maxBlockUnits f) _); [|exists (maxBlockUnits f); rewrite !elem_of_cons; intuition].
  destruct (override (windowTargetUnits f) _); [|exists (windowTargetUnits f); rewrite !elem_of_cons; intuition].
  simpl. tauto.
Qed.
