(* ===== verification/StorageCorrect.v ===== *)
(** * Theorems on keys, serialized data and RPC reads *)

From S2P Require Import Prelude GoErrors Lib Consts Packer LinearCodec Store Permissions TState StorageKeys Balances Markets Ledger Controller BuyYes BuyNo BuySpec BuyFacts Trade CreateMarket Creation Accounting Examples Footprint.
#[local] Open Scope Z_scope.

(** ** Keys *)

(** The things the program stores. *)
Inductive slot :=
| BalanceSlot (a : bytes)
| MarketSlot (id : Z)
| ShareSlot (id : Z) (a : bytes) (t : Z).

Definition slot_key (k : slot) : bytes :=
  match k with
  | BalanceSlot a => BalanceKey a
  | MarketSlot id => MarketKey id
  | ShareSlot id a t => ShareBalanceKey id a t
  end.

Definition wf_slot (k : slot) : Prop :=
  match k with
  | BalanceSlot a => wf_addr a
  | MarketSlot id => is_u64 id
  | ShareSlot id a t => is_u64 id /\ wf_addr a /\ is_u8 t
  end.

(** No two stored things share a key, and none of their keys is one that
    [StateKeysBalance] builds (which the RPC balance and the sponsor's
    declaration use). *)
Lemma state_keys_injective k1 k2 a :
  wf_slot k1 -> wf_slot k2 -> wf_addr a ->
  (slot_key k1 = slot_key k2 -> k1 = k2) /\ slot_key k1 <> StateKeysBalance a.
Proof.
  intros H1 H2 [Ha _].
  destruct k1 as [a1|i1|i1 a1 t1], k2 as [a2|i2|i2 a2 t2]; simpl in *; unfold wf_addr in *;
    destruct_and?; (split; [intros E|apply not_eq_sym; by auto with vm]);
    try (exfalso; revert E; solve [by auto with vm|apply not_eq_sym; by auto with vm]).
  - f_equal. by apply BalanceKey_inj.
  - f_equal. by apply MarketKey_inj.
  - by apply ShareBalanceKey_inj in E as (-> & -> & ->).
Qed.

Lemma state_keys_injective_witness :
  (slot_key (ShareSlot 7 alice 0) = slot_key (ShareSlot 7 alice 1) -> ShareSlot 7 alice 0 = ShareSlot 7 alice 1)
  /\ slot_key (ShareSlot 7 alice 0) <> StateKeysBalance alice.
Proof.
  apply (state_keys_injective (ShareSlot 7 alice 0) (ShareSlot 7 alice 1) alice);
    [split_and!; (apply wf_alice || done)..|apply wf_alice].
Defined.

(** ** The codec *)

(** The linear codec round-trips.  Values of the kinds of a struct's
    fields marshal into a writer of a given limit exactly when their encoding
    fits, with [ErrInsufficientLength] otherwise; and what was written
    unmarshals, in a buffer where anything follows, to the same values, the
    reader left at the end of them. *)
Lemma codec_roundtrip vs ks limit rest :
  Forall2 has_kind vs ks -> 0 <= limit ->
  match MarshalInto vs (NewWriter 0 limit) with
  | (None, w) => encoded_size vs <= limit /\ Z.of_nat (length (Bytes w)) = encoded_size vs /\
      exists r, UnmarshalFrom ks (NewReader (Bytes w ++ rest) limit) = (Some <$> vs, None, r) /\
        Offset r = encoded_size vs /\ p_Err r = None
  | (Some err, _) => limit < encoded_size vs /\ err = ErrInsufficientLength
  end.
Proof.
  intros Hk Hl. assert (Forall packable vs) as Hp
    by (clear Hl; induction Hk; constructor; eauto using has_kind_packable).
  pose proof (length_encode vs) as Hlen. destruct (decide (encoded_size vs <= limit)) as [Hs|Hs].
  - rewrite MarshalInto_fits by (done || lia). split; [done|]. split; [done|].
    cbn [Bytes writer]. rewrite NewReader_reader, (UnmarshalFrom_encode _ _ _ Hk). eexists. split; [done|].
    split; [|done]. simpl. by rewrite Hlen.
  - pose proof (MarshalInto_overflow vs 0 limit Hp ltac:(lia)) as Ho.
    destruct (MarshalInto vs _) as [[err|] w]; simplify_eq/=. split; [lia|done].
Qed.

Lemma codec_roundtrip_witness :
  let vs := [VUint8 1; VString "ab"; VInt64 (-5); VByteSlice [9]] in
  match MarshalInto vs (NewWriter 0 1024) with
  | (None, w) => encoded_size vs <= 1024 /\ Z.of_nat (length (Bytes w)) = encoded_size vs /\
      exists r, UnmarshalFrom [KUint8; KString; KInt64; KByteSlice] (NewReader (Bytes w ++ [255]) 1024)
        = (Some <$> vs, None, r) /\ Offset r = encoded_size vs /\ p_Err r = None
  | (Some err, _) => 1024 < encoded_size vs /\ err = ErrInsufficientLength
  end.
Proof.
  apply codec_roundtrip; [|done].
  repeat (apply List.Forall2_cons; [cbn [has_kind]; repeat split; by apply (bool_decide_unpack _)|]).
  apply List.Forall2_nil.
Defined.

(** ** Markets *)

(** A market that is set reads back unchanged, on any lawful store, and
    no other key changes. *)
Lemma market_roundtrip {S} `{MutableLaws S} `{Hashing} m (s s' : S) :
  wf_market m -> SetMarket m s = (Ok tt, s') ->
  GetMarket s' (ID m) = Ok m /\ forall k, k <> MarketKey (ID m) -> GetValue s' k = GetValue s k.
Proof.
  intros Hw E. apply SetMarket_inv in E as [_ E]; [|done]. split.
  - apply (GetMarket_stored s' (ID m) m []); [done|]. by rewrite (insert_get _ _ _ _ E), app_nil_r.
  - intros k Hk. rewrite (insert_get_ne _ _ _ _ _ E); [done|congruence].
Qed.

Lemma market_roundtrip_witness :
  let s' := snd (SetMarket rain NewInMemoryStore) in
  GetMarket s' (ID rain) = Ok rain /\
  forall k, k <> MarketKey (ID rain) -> GetValue s' k = GetValue NewInMemoryStore k.
Proof.
  apply (market_roundtrip rain NewInMemoryStore); [apply wf_rain|vm_compute; reflexivity].
Defined.

(** [SetMarket] refuses exactly the markets whose encoding takes more
    than 1024 bytes (84 and the three texts), with [ErrInsufficientLength]
    and the store untouched. *)
Lemma set_market_limit {S} `{MutableLaws S} `{!TotalStore S} `{Hashing} m (s : S) :
  wf_market m ->
  if market_size m <=? MaxMarketDataSize
  then exists s', SetMarket m s = (Ok tt, s')
  else exists err, SetMarket m s = (Err err, s) /\ errors_Is err ErrInsufficientLength = true.
Proof.
  intros Hw. destruct (Z.leb_spec (market_size m) MaxMarketDataSize) as [Hs|Hs].
  - rewrite SetMarket_fits by done. apply insert_total_run.
  - destruct (SetMarket_overflow m s Hw Hs) as (w & -> & ->). by eexists.
Qed.

Lemma set_market_limit_witness :
  exists s', SetMarket rain NewInMemoryStore = (Ok tt, s').
Proof. exact (set_market_limit rain NewInMemoryStore (proj1 wf_rain)). Defined.

(** What [GetMarket] accepts.  It returns [m] exactly when the stored
    value starts with the encoding of [m] and [m] is a well-formed market:
    decoding invents nothing, and ignores bytes after the market. *)
Lemma get_market_exact {S} `{MutableLaws S} `{Hashing} (s : S) id m :
  wf_values s ->
  GetMarket s id = Ok m <->
  wf_market m /\ exists rest, GetValue s (MarketKey id) = Ok (market_bytes m ++ rest).
Proof.
  intros Hv. split; [intros E; by apply GetMarket_sound in E; [|apply Hv]|].
  intros (Hw & rest & E). by eapply GetMarket_stored.
Qed.

Lemma get_market_exact_witness :
  GetMarket demo_store 7 = Ok rain <->
  wf_market rain /\ exists rest, GetValue demo_store (MarketKey 7) = Ok (market_bytes rain ++ rest).
Proof. apply (get_market_exact demo_store 7 rain), demo_values. Defined.

(** ** Shares *)

(** Share balances as a counter.  On a store that holds [L], with a
    readable share balance, [AddShares] of a positive amount adds it when the
    sum stays below 2^64; taking the same amount off again with
    [DeductShares] stores the balance there was before; and taking more than
    there is fails and changes nothing. *)
Lemma shares_add_deduct {S} `{MutableLaws S} `{!TotalStore S} `{Hashing} id a t n v (s : S) L :
  represents s L -> wf_ledger L -> is_u64 id -> wf_addr a -> is_u8 t ->
  counter (shares L !! (id, a, t)) = Some v -> 0 < n -> v + n < two64 ->
  exists s1 s2, AddShares id a t n s = (Ok tt, s1) /\
    represents s1 (set_shares id a t (v + n) L) /\
    DeductShares id a t n s1 = (Ok tt, s2) /\
    represents s2 (set_shares id a t v (set_shares id a t (v + n) L)) /\
    forall big, v + n < big ->
      DeductShares id a t big s1 = (Err (insufficient_shares id a t (v + n) big), s1).
Proof.
  intros Hrep Hwf Hid Ha Ht Hc Hn Hlt. pose proof (shares_counter_range L Hwf _ _ Hc) as Hv.
  pose proof (rep_GetShareBalance s L Hrep Hwf id a t Hid Ha) as Hg. rewrite Hc in Hg.
  destruct (insert_total_run s (ShareBalanceKey id a t) (be_put 8 (v + n))) as [s1 E1].
  destruct (insert_total_run s1 (ShareBalanceKey id a t) (be_put 8 v)) as [s2 E2].
  assert (is_u64 (v + n)) as Hs by int_lia.
  pose proof (represents_set_shares _ _ _ _ _ _ _ Hrep Hid Ha E1) as Hrep1.
  assert (GetShareBalance s1 id a t = Ok (v + n)) as Hg1.
  { rewrite (GetShareBalance_stored s1 id a t (v + n) Hs (insert_get _ _ _ _ E1)).
    by rewrite (proj2 (Z.eqb_neq _ 0)) by int_lia. }
  exists s1, s2. split_and!.
  - by rewrite (AddShares_ok _ _ _ _ _ _ Hg), (u64_small _ Hs).
  - done.
  - rewrite (DeductShares_ok _ _ _ _ _ _ Hg1) by int_lia.
    by replace (v + n - n) with v by lia; rewrite (u64_small _ Hv).
  - by eapply represents_set_shares.
  - intros big Hbig. by apply DeductShares_insufficient.
Qed.

Lemma shares_add_deduct_witness :
  exists s1 s2, AddShares 7 alice 0 5 demo_store = (Ok tt, s1) /\
    represents s1 (set_shares 7 alice 0 5 demo_ledger) /\
    DeductShares 7 alice 0 5 s1 = (Ok tt, s2) /\
    represents s2 (set_shares 7 alice 0 0 (set_shares 7 alice 0 5 demo_ledger)) /\
    forall big, 5 < big ->
      DeductShares 7 alice 0 big s1 = (Err (insufficient_shares 7 alice 0 5 big), s1).
Proof.
  apply (shares_add_deduct 7 alice 0 5 0 demo_store demo_ledger);
    (apply demo_represents || apply demo_wf || apply wf_alice || vm_compute; done).
Defined.

(** ** RPC *)

(** The RPC balance is always 0.  [GetBalanceFromState] reads the key of
    [StateKeysBalance], where nothing ever writes: from a state without that
    key, whatever history of credits, charges, buys and creations ran, the
    balance the RPC server answers is 0, without an error. *)
Lemma rpc_balance_is_zero {S} `{MutableLaws S} `{Hashing} es a (s : S) :
  wf_addr a -> Forall wf_event es -> GetValue s (StateKeysBalance a) = Err ErrNotFound ->
  GetBalanceFromState (node_ReadState (foldl (fun s e => run_event e s) s es)) a = Returns (0, None).
Proof.
  intros Ha Hes Hs. assert (forall s : S, GetValue s (StateKeysBalance a) = Err ErrNotFound ->
    GetBalanceFromState (node_ReadState s) a = Returns (0, None)) as Hread.
  { intros s1 E. unfold GetBalanceFromState, node_ReadState. simpl. by rewrite E. }
  apply Hread. rewrite (history_off_key es a s Ha Hes). done.
Qed.

Lemma rpc_balance_is_zero_witness :
  GetBalanceFromState (node_ReadState (foldl (fun s e => run_event e s) NewInMemoryStore demo_credit)) alice
  = Returns (0, None) /\
  GetBalance (foldl (fun s e => run_event e s) NewInMemoryStore demo_credit) alice = Ok 1000.
Proof.
  split; [|vm_compute; reflexivity].
  apply (rpc_balance_is_zero demo_credit alice NewInMemoryStore);
    [apply wf_alice|constructor; [split; [apply wf_alice|done]|constructor]|vm_compute; reflexivity].
Defined.
