(* ===== verification/Transaction.v ===== *)
(** * Transactions (hypersdk/chain/transaction.go, processor.go)

    What the chain does with the program's actions: the keys of a
    transaction, the checks before it runs, the fee, the actions with
    rollback, and the commit.  [chain.Action] is a record of operations; the
    three actions are values of it.  The fee itself (units times prices) is an
    argument: it is computed by the chain from its own configuration. *)

From S2P Require Import Prelude GoErrors Lib Consts Packer LinearCodec Store Permissions TState StorageKeys Balances Markets Ledger Controller BuyYes BuyNo BuySpec BuyFacts Trade CreateMarket Footprint.
#[local] Open Scope Z_scope.

(** chain/errors.go. *)
Definition chain_ErrInvalidKeyValue : error :=
  ErrVar "chain.ErrInvalidKeyValue" "invalid key or value".
Definition ErrActionNotActivated : error :=
  ErrVar "chain.ErrActionNotActivated" "action not activated".

(** ** The interface *)

Record Action := mkAction {
  GetTypeID : Z;
  ComputeUnits : Z;
  ValidRange : Z * Z;
  StateKeys : bytes -> gmap bytes Z;
  Action_Bytes : outcome bytes;
  Execute : Z -> bytes -> GoM TStateView bytes;
}.

Section actions.
Context `{Hashing}.

Definition BuyYes_Action (b : BuyYes) : Action := {|
  GetTypeID := BuyYes_GetTypeID;
  ComputeUnits := BuyYes_ComputeUnits;
  ValidRange := BuyYes_ValidRange;
  StateKeys := BuyYes_StateKeys b;
  Action_Bytes := Returns (BuyYes_Bytes b);
  Execute ts actor := BuyYes_Execute b ts actor;
|}.

Definition BuyNo_Action (b : BuyNo) : Action := {|
  GetTypeID := BuyNo_GetTypeID;
  ComputeUnits := BuyNo_ComputeUnits;
  ValidRange := BuyNo_ValidRange;
  StateKeys := BuyNo_StateKeys b;
  Action_Bytes := Returns (BuyNo_Bytes b);
  Execute ts actor := BuyNo_Execute b ts actor;
|}.

(** With what [crypto/rand] delivers when it executes. *)
Definition CreateMarket_Action (cm : CreateMarket) (rand_Read : result bytes) : Action := {|
  GetTypeID := CreateMarket_GetTypeID;
  ComputeUnits := CreateMarket_ComputeUnits;
  ValidRange := CreateMarket_ValidRange;
  StateKeys := CreateMarket_StateKeys;
  Action_Bytes := CreateMarket_Bytes cm;
  Execute ts actor := CreateMarket_Execute cm rand_Read ts actor;
|}.

(** The program's own actions. *)
Inductive program_action : Action -> Prop :=
| program_BuyYes b : program_action (BuyYes_Action b)
| program_BuyNo b : program_action (BuyNo_Action b)
| program_CreateMarket cm rand_Read : program_action (CreateMarket_Action cm rand_Read).
End actions.

(** ** Transactions *)

Record Transaction := mkTransaction {
  tx_Actions : list Action;
  tx_Actor : bytes;
  tx_Sponsor : bytes;
}.

(** [Result]: success, the error text and the outputs. *)
Record Result := mkResult {
  Success : bool;
  Result_Error : bytes;
  Outputs : list bytes;
}.

Section chain.
Context {BH : Type} `{BalanceHandler BH}.
Variable (bh : BH).

(** [Transaction.StateKeys]. *)
Definition tx_StateKeys (t : Transaction) : result (gmap bytes Z) :=
  match Keys_AddAll
    ((tx_Actions t ≫= fun action => map_to_list (StateKeys action (tx_Actor t)))
     ++ map_to_list (SponsorStateKeys bh (tx_Sponsor t))) ∅ with
  | Some stateKeys => Ok stateKeys
  | None => Err chain_ErrInvalidKeyValue
  end.

(** The activation check of [PreExecute]. *)
Definition action_activated (timestamp : Z) (action : Action) : bool :=
  let '(start, stop) := ValidRange action in
  negb ((0 <=? start) && (timestamp <? start)) && negb ((0 <=? stop) && (stop <? timestamp)).

Definition tx_PreExecute (t : Transaction) (fee timestamp : Z) (im : TStateView) : result unit :=
  if forallb (action_activated timestamp) (tx_Actions t)
  then CanDeduct bh (tx_Sponsor t) fee im
  else Err ErrActionNotActivated.

(** The loop over the actions: the outputs so far, and the error that
    stopped it. *)
Fixpoint run_actions (actions : list Action) (timestamp : Z) (actor : bytes) (outputs : list bytes)
    (ts : TStateView) : list bytes * option error * TStateView :=
  match actions with
  | [] => (outputs, None, ts)
  | action :: rest =>
      match Execute action timestamp actor ts with
      | (Err err, ts) => (outputs, Some err, ts)
      | (Ok output, ts) => run_actions rest timestamp actor (outputs ++ [output]) ts
      end
  end.

Definition tx_Execute (t : Transaction) (fee timestamp : Z) : GoM TStateView Result := fun ts =>
  match Deduct bh (tx_Sponsor t) fee ts with
  | (Err err, ts) => (Err (Errorf_w "failed to deduct tx fee: " err ""), ts)
  | (Ok _, ts) =>
      let actionStart := OpIndex ts in
      match run_actions (tx_Actions t) timestamp (tx_Actor t) [] ts with
      | (outputs, Some err, ts) =>
          (Ok (mkResult false (bytes_of_string (Error err)) outputs), Rollback actionStart ts)
      | (outputs, None, ts) => (Ok (mkResult true [] outputs), ts)
      end
  end.

(** One transaction of a block ([executeTxs]): the view is over the block's
    changes and the committed state, and only commits without an error. *)
Definition run_tx (t : Transaction) (fee timestamp : Z) (storage : bytes -> result bytes)
    (ts : TState) : result Result * TState :=
  match tx_StateKeys t with
  | Err err => (Err err, ts)
  | Ok stateKeys =>
      let tsv := TState_NewView ts stateKeys storage in
      match tx_PreExecute t fee timestamp tsv with
      | Err err => (Err err, ts)
      | Ok _ =>
          match tx_Execute t fee timestamp tsv with
          | (Err err, _) => (Err err, ts)
          | (Ok result, tsv) => (Ok result, Commit tsv)
          end
      end
  end.

(** The value of a key in the block's state. *)
Definition block_value (ts : TState) (storage : bytes -> result bytes) (key : bytes) : result bytes :=
  parent_value (TState_NewView ts ∅ storage) key.

(** A block: each transaction with its fee; an error rejects the block. *)
Fixpoint run_txs (txs : list (Transaction * Z)) (timestamp : Z) (storage : bytes -> result bytes)
    (ts : TState) : result (list Result) * TState :=
  match txs with
  | [] => (Ok [], ts)
  | (t, fee) :: rest =>
      match run_tx t fee timestamp storage ts with
      | (Err err, ts) => (Err err, ts)
      | (Ok r, ts) =>
          match run_txs rest timestamp storage ts with
          | (Err err, ts) => (Err err, ts)
          | (Ok rs, ts) => (Ok (r :: rs), ts)
          end
      end
  end.
End chain.

(** ** The chain

    A block runs over the committed state, [tstate.New] holding its changes;
    what it leaves becomes the committed state when it is accepted. *)

Definition fresh_block : TState := mkTState 0 ∅.

Inductive block_step `{Hashing} (admitted : Transaction -> Prop) (state : bytes -> result bytes)
  : (bytes -> result bytes) -> Prop :=
| block_accepted txs timestamp rs block :
    Forall (fun tf => admitted tf.1) txs ->
    run_txs New txs timestamp state fresh_block = (Ok rs, block) ->
    block_step admitted state (block_value block state).

(** Transactions of the program's actions. *)
Definition program_tx `{Hashing} (t : Transaction) : Prop := Forall program_action (tx_Actions t).

(** ** Actions only insert *)

Definition any_key (k : bytes) : Prop := True.

Section steps.
Context `{Hashing}.

Lemma program_action_inserts a ts actor :
  program_action a -> inserts any_key (Execute a ts actor).
Proof.
  intros [b|b|cm r]; simpl.
  - destruct b. by apply (buy_inserts_any any_key Yes (mkOrder _ _ _) ts actor).
  - destruct b. by apply (buy_inserts_any any_key No (mkOrder _ _ _) ts actor).
  - by apply CreateMarket_inserts.
Qed.

Lemma insert_steps_view v v' : rtc (insert_step any_key) v v' -> rtc view_step v v'.
Proof. induction 1 as [|v v1 v' [k b _ E] _ IH]; [done|]. eapply rtc_l; [by eapply step_insert|done]. Qed.

Lemma run_actions_steps actions ts actor : forall outputs v outputs' err v',
  Forall program_action actions ->
  run_actions actions ts actor outputs v = (outputs', err, v') ->
  rtc (insert_step any_key) v v'.
Proof.
  induction actions as [|a rest IH]; intros outputs v outputs' err v' Hp; simpl; [by intros [= _ _ <-]|].
  inversion_clear Hp as [|? ? Ha Hrest]. destruct (Execute a ts actor v) as [[out|e] v1] eqn:E; intros Hr.
  - etrans; [by eapply program_action_inserts|by eapply IH].
  - simplify_eq. by eapply program_action_inserts.
Qed.

Lemma rtc_consistent v v' : consistent v -> rtc view_step v v' -> consistent v'.
Proof. intros Hc Hs. by apply (rtc_undo v v'). Qed.

(** A transaction whose actions fail leaves the fee payment and nothing
    else. *)
Lemma tx_Execute_failed t fee ts v r v' :
  Forall program_action (tx_Actions t) -> consistent v ->
  tx_Execute New t fee ts v = (Ok r, v') -> Success r = false ->
  exists v1, DeductBalance (tx_Sponsor t) fee v = (Ok tt, v1) /\ same_changes v1 v'.
Proof.
  intros Hp Hc. unfold tx_Execute. cbn [Deduct Controller_BalanceHandler]. unfold Controller_Deduct.
  destruct (DeductBalance (tx_Sponsor t) fee v) as [[[]|e] v1] eqn:E1; [|done].
  destruct (run_actions _ _ _ _ v1) as [[outs [e|]] v2] eqn:E2; intros [= <- <-]; [|done].
  intros _. exists v1. split; [done|].
  apply Rollback_changes.
  - eapply rtc_consistent; [exact Hc|]. apply insert_steps_view.
    by eapply (DeductBalance_inserts any_key).
  - by eapply insert_steps_view, run_actions_steps.
Qed.

Lemma same_changes_Commit v v' :
  same_changes v v' -> changedKeys (Commit v') = changedKeys (Commit v).
Proof. intros ((E1 & _) & Ep & _). simpl. by rewrite E1, Ep. Qed.

(** ** No transaction creates a key *)

Definition no_allocate (keys : gmap bytes Z) : Prop :=
  map_Forall (fun _ p => Z.testbit p 1 = false) keys.

Lemma program_action_no_allocate a actor :
  program_action a -> no_allocate (StateKeys a actor).
Proof.
  intros [b|b|cm r]; simpl; unfold no_allocate, BuyYes_StateKeys, BuyNo_StateKeys, CreateMarket_StateKeys;
    repeat apply map_Forall_insert_2; done || apply map_Forall_empty.
Qed.

Lemma tx_StateKeys_no_allocate t keys k :
  Forall program_action (tx_Actions t) -> tx_StateKeys New t = Ok keys ->
  Keys_Has keys k Allocate = false.
Proof.
  intros Hp. unfold tx_StateKeys. destruct (Keys_AddAll _ _) as [ks|] eqn:E; [|done]. intros [= ->].
  apply Keys_AddAll_lookup with (key := k) in E.
  assert (Z.testbit (Keys_perm keys k) 1 = false) as Hb.
  { rewrite E. apply fold_left_no_bit; [|done].
    intros kp Hin. apply elem_of_app in Hin as [Hin|Hin].
    - apply list_elem_of_bind in Hin as (a & Hin & Ha). rewrite Forall_forall in Hp.
      destruct kp as [k' p]. apply elem_of_map_to_list in Hin.
      by apply (program_action_no_allocate a (tx_Actor t) (Hp a (proj1 (list_elem_of_In _ _) Ha))) in Hin.
    - destruct kp as [k' p]. apply elem_of_map_to_list in Hin. simpl in Hin.
      unfold Controller_SponsorStateKeys in Hin.
      apply lookup_insert_Some in Hin as [[_ <-]|[_ Hin]]; [done|]. by rewrite lookup_empty in Hin. }
  apply not_true_iff_false. unfold Keys_Has. rewrite Permissions_Has_spec.
  intros Hall. by rewrite (Hall 1) in Hb.
Qed.

(** A key absent from a view that may not allocate it stays absent. *)
Lemma insert_steps_absent v v' k :
  rtc (insert_step any_key) v v' -> Keys_Has (v_scope v) k Allocate = false ->
  view_value v k = Err ErrNotFound -> view_value v' k = Err ErrNotFound.
Proof.
  induction 1 as [|v v1 v' [k' b _ E] _ IH]; [done|]. intros Hs Hv.
  pose proof (Insert_inv _ _ _ _ E) as (_ & _ & (_ & Hsc & _) & Hcase).
  apply IH; [by rewrite Hsc|]. rewrite (Insert_value _ _ _ _ k E). case_decide as Hk; [subst k'|done].
  destruct Hcase as [[_ Hv']|(o & un & _ & _ & _ & _ & _ & _ & [[_ Hv']|(_ & _ & Ha)])];
    [congruence..|]. unfold checkScope in Ha. congruence.
Qed.

Lemma insert_steps_base v v' : rtc (insert_step any_key) v v' -> same_base v v'.
Proof.
  induction 1 as [v|v v1 v' [k b _ E] _ (E1 & E2 & E3)]; [done|].
  apply Insert_inv in E as (_ & _ & (F1 & F2 & F3) & _). repeat split; congruence.
Qed.

(** Whatever the result, what is committed was reached by inserts. *)
Lemma tx_Execute_steps t fee ts v r v' :
  Forall program_action (tx_Actions t) -> consistent v ->
  tx_Execute New t fee ts v = (Ok r, v') ->
  exists v1, rtc (insert_step any_key) v v1 /\ same_changes v1 v'.
Proof.
  intros Hp Hc E. destruct (Success r) eqn:Er.
  - exists v'. split; [|done]. revert E. unfold tx_Execute. cbn [Deduct Controller_BalanceHandler].
    unfold Controller_Deduct.
    destruct (DeductBalance (tx_Sponsor t) fee v) as [[[]|e] v1] eqn:E1; [|done].
    destruct (run_actions _ _ _ _ v1) as [[outs [e|]] v2] eqn:E2; intros [= <- <-]; [done|].
    etrans; [by eapply (DeductBalance_inserts any_key)|by eapply run_actions_steps].
  - destruct (tx_Execute_failed _ _ _ _ _ _ Hp Hc E Er) as (v1 & E1 & Hs).
    exists v1. split; [by eapply (DeductBalance_inserts any_key)|done].
Qed.

Lemma Commit_value v k : block_value (Commit v) (v_storage v) k = view_value v k.
Proof.
  unfold block_value, parent_value, view_value, parent_value. simpl.
  destruct (v_pending v !! k) as [o|] eqn:E.
  - by rewrite (lookup_union_Some_l _ _ _ _ E).
  - by rewrite (lookup_union_r _ _ _ E).
Qed.

Lemma run_tx_absent t fee timestamp storage ts r ts' k :
  Forall program_action (tx_Actions t) -> run_tx New t fee timestamp storage ts = (r, ts') ->
  block_value ts storage k = Err ErrNotFound -> block_value ts' storage k = Err ErrNotFound.
Proof.
  intros Hp E Hk. unfold run_tx in E.
  destruct (tx_StateKeys New t) as [keys|e] eqn:Ek; [|by simplify_eq].
  set (v := TState_NewView ts keys storage) in *.
  destruct (tx_PreExecute New t fee timestamp v) as [[]|e]; [|by simplify_eq].
  destruct (tx_Execute New t fee timestamp v) as [[res|e] v'] eqn:Ex; simplify_eq; [|done].
  apply tx_Execute_steps in Ex as (v1 & Hs & Hv1); [|done|apply NewView_consistent].
  assert (v_storage v' = storage) as <-.
  { destruct (insert_steps_base _ _ Hs) as (_ & _ & E1), Hv1 as ((_ & _ & E2) & _). by rewrite E2, E1. }
  rewrite Commit_value, (same_changes_value _ _ _ Hv1). eapply insert_steps_absent; [exact Hs|..].
  - by eapply tx_StateKeys_no_allocate.
  - done.
Qed.

Lemma run_txs_absent txs timestamp storage : forall ts r ts' k,
  Forall (fun tf => Forall program_action (tx_Actions tf.1)) txs ->
  run_txs New txs timestamp storage ts = (r, ts') ->
  block_value ts storage k = Err ErrNotFound -> block_value ts' storage k = Err ErrNotFound.
Proof.
  induction txs as [|[t fee] rest IH]; intros ts r ts' k Hp; simpl; [by intros [= _ <-]|].
  inversion_clear Hp as [|? ? Ht Hrest]. simpl in Ht.
  destruct (run_tx New t fee timestamp storage ts) as [[res|e] ts1] eqn:E1; intros E2 Hk.
  - destruct (run_txs New rest timestamp storage ts1) as [[rs|e] ts2] eqn:E3; simplify_eq;
      (eapply (IH ts1); [done|exact E3|by eapply run_tx_absent]).
  - simplify_eq. by eapply run_tx_absent.
Qed.

(** Over a whole chain. *)
Lemma chain_absent admitted state state' k :
  (forall t, admitted t -> program_tx t) ->
  rtc (block_step admitted) state state' -> state k = Err ErrNotFound -> state' k = Err ErrNotFound.
Proof.
  intros Ha. induction 1 as [|state state1 state' Hstep _ IH]; [done|]. intros Hk. apply IH.
  destruct Hstep as [txs ts rs block Htx E].
  eapply run_txs_absent; [|exact E|done]. eapply Forall_impl; [|exact Htx]. intros tf. apply Ha.
Qed.

(** A transaction with a CreateMarket action has no valid key set. *)
Lemma CreateMarket_keys_invalid t cm rand_Read :
  length (tx_Actor t) = AddressLen ->
  CreateMarket_Action cm rand_Read ∈ tx_Actions t ->
  tx_StateKeys New t = Err chain_ErrInvalidKeyValue.
Proof.
  intros Ha Hin. unfold tx_StateKeys. destruct (Keys_AddAll _ _) as [ks|] eqn:E; [|done]. exfalso.
  apply Keys_AddAll_valid in E. rewrite list.Forall_forall in E.
  specialize (E ([MarketPrefix], Write)). simpl in E. cut (false = true); [done|]. apply E.
  apply elem_of_app. left. apply list_elem_of_bind. eexists. split; [|exact Hin].
  apply elem_of_map_to_list. simpl. unfold CreateMarket_StateKeys.
  rewrite lookup_insert_ne; [by rewrite lookup_insert_eq|].
  intros Hl%(f_equal length). by rewrite length_StateKeysBalance in Hl.
Qed.

(** ** A purchase that succeeds *)

Definition buy_Action (sd : side) (o : order) : Action :=
  match sd with
  | Yes => BuyYes_Action (mkBuyYes (o_market o) (o_amount o) (o_price o))
  | No => BuyNo_Action (mkBuyNo (o_market o) (o_amount o) (o_price o))
  end.

Lemma buy_Action_program sd o : program_action (buy_Action sd o).
Proof. destruct sd; constructor. Qed.

Lemma buy_Action_Execute sd o ts actor : Execute (buy_Action sd o) ts actor = buy sd o ts actor.
Proof. by destruct sd. Qed.

Lemma tx_Execute_buy_ok sd o actor sponsor fee ts v r v' :
  tx_Execute New (mkTransaction [buy_Action sd o] actor sponsor) fee ts v = (Ok r, v') ->
  Success r = true ->
  exists v1 out, DeductBalance sponsor fee v = (Ok tt, v1) /\ buy sd o ts actor v1 = (Ok out, v').
Proof.
  unfold tx_Execute. cbn [tx_Actions tx_Actor tx_Sponsor Deduct Controller_BalanceHandler run_actions].
  rewrite buy_Action_Execute. unfold Controller_Deduct.
  destruct (DeductBalance sponsor fee v) as [[[]|e] v1]; [|done].
  destruct (buy sd o ts actor v1) as [[out|e] v2] eqn:E; [|by intros [= <- _]].
  intros [= <- <-] _. eauto.
Qed.

Lemma insert_steps_unscoped v v' k :
  rtc (insert_step any_key) v v' -> checkScope v k Read = false -> view_value v' k = view_value v k.
Proof.
  induction 1 as [|v v1 v' [k' b _ E] _ IH]; [done|]. intros Hs.
  pose proof (Insert_inv _ _ _ _ E) as (Hw & _ & (_ & Hsc & _) & _).
  rewrite IH by (unfold checkScope in *; by rewrite Hsc). rewrite (Insert_value _ _ _ _ k E).
  case_decide; [subst k'|done]. unfold checkScope, Keys_Has in *.
  by rewrite (Write_Read _ Hw) in Hs.
Qed.

(** Two views in the same scope that [GetValue] cannot tell apart, one
    reached from the other. *)
Lemma view_value_of_GetValue v v' k x :
  rtc (insert_step any_key) v v' ->
  GetValue v' k = (if x is Some b then Ok b else GetValue v k) ->
  view_value v' k = (if x is Some b then Ok b else view_value v k).
Proof.
  intros Hs. destruct (insert_steps_base _ _ Hs) as (_ & Hsc & _).
  unfold GetValue. simpl. unfold TStateView_GetValue. unfold checkScope at 1. rewrite Hsc.
  fold (checkScope v k Read). destruct (checkScope v k Read) eqn:Er; simpl; [done|].
  destruct x; [done|]. intros _. by apply insert_steps_unscoped.
Qed.

(** A read that a fresh view grants finds what the block holds. *)
Lemma fresh_view_value keys storage block k :
  GetValue (TState_NewView block keys storage) k = block_value block storage k \/
  GetValue (TState_NewView block keys storage) k = Err ErrInvalidKeyOrPermission.
Proof.
  unfold GetValue. simpl. unfold TStateView_GetValue. destruct (checkScope _ k Read); simpl; [by left|by right].
Qed.

#[local] Existing Instance state_Immutable.

Lemma fresh_view_GetMarket keys storage block id m :
  GetMarket (TState_NewView block keys storage) id = Ok m -> GetMarket (block_value block storage) id = Ok m.
Proof.
  unfold GetMarket. destruct (fresh_view_value keys storage block (MarketKey id)) as [E|E]; rewrite E; [|done].
  by unfold GetValue, state_Immutable.
Qed.

Lemma fresh_view_GetBalance keys storage block a v :
  GetBalance (TState_NewView block keys storage) a = Ok v -> GetBalance (block_value block storage) a = Ok v.
Proof.
  unfold GetBalance. destruct (fresh_view_value keys storage block (BalanceKey a)) as [E|E]; rewrite E; [|done].
  by unfold GetValue, state_Immutable.
Qed.

Lemma fresh_view_GetShareBalance keys storage block id a t v :
  GetShareBalance (TState_NewView block keys storage) id a t = Ok v ->
  GetShareBalance (block_value block storage) id a t = Ok v.
Proof.
  unfold GetShareBalance. destruct (fresh_view_value keys storage block (ShareBalanceKey id a t)) as [E|E]; rewrite E; [|done].
  by unfold GetValue, state_Immutable.
Qed.

(** The store a purchase leaves, read through the block. *)
Lemma run_tx_buy_success sd o actor fee ts storage block r block' :
  wf_addr actor -> is_u64 fee -> (forall k b, block_value block storage k = Ok b -> wf_bytes b) ->
  run_tx New (mkTransaction [buy_Action sd o] actor actor) fee ts storage block = (Ok r, block') ->
  Success r = true ->
  exists m bal sh, GetMarket (block_value block storage) (o_market o) = Ok m /\
    GetBalance (block_value block storage) actor = Ok bal /\
    GetShareBalance (block_value block storage) (o_market o) actor (side_type sd) = Ok sh /\ fee + order_cost o <= bal /\ is_u64 bal /\ is_u64 sh /\ wf_market m /\
    tradable m ts = true /\ o_amount o <> 0 /\ o_price o <> 0 /\
    forall k, block_value block' storage k =
      if decide (MarketKey (ID m) = k) then Ok (market_bytes (record_purchase sd (o_amount o) m))
      else if decide (ShareBalanceKey (o_market o) actor (side_type sd) = k)
      then Ok (be_put 8 (u64 (sh + o_amount o)))
      else if decide (BalanceKey actor = k) then Ok (be_put 8 (bal - fee - order_cost o))
      else block_value block storage k.
Proof.
  intros Ha Hfee Hwf E Hok. unfold run_tx in E.
  destruct (tx_StateKeys New _) as [keys|e]; [|done].
  set (v := TState_NewView block keys storage) in *.
  destruct (tx_PreExecute _ _ _ _ _) as [[]|e]; [|done].
  destruct (tx_Execute _ _ _ _ _) as [[res|e] v'] eqn:Ex; [|done]. simplify_eq.
  apply tx_Execute_buy_ok in Ex as (v1 & out & Ed & Eb); [|done].
  assert (rtc (insert_step any_key) v v1) as Hs1 by by eapply (DeductBalance_inserts any_key).
  assert (rtc (insert_step any_key) v v') as Hs2.
  { etrans; [exact Hs1|]. by eapply (buy_inserts_any any_key). }
  assert (wf_values v) as Hv.
  { intros k b. unfold GetValue. simpl. unfold TStateView_GetValue.
    destruct (checkScope v k Read); [apply Hwf|done]. }
  apply DeductBalance_inv in Ed as (bal & Hbal & Hle & Ei).
  pose proof (GetBalance_bound v actor bal (Hv _) Hbal) as Hbu.
  rewrite u64_small in Ei by int_lia.
  assert (wf_values v1) as Hv1 by (apply (wf_values_insert _ _ _ _ Ei); auto with vm).
  rewrite buy_is_reference in Eb.
  apply reference_inv in Eb as (-> & m & bal1 & sh & Hr & Hb & Hwm & _ & _ & Hsh); [|done..].
  destruct Hr as [Hn Hp Hmk Ht (w & Hw & Hpw) Hf Hshr].
  rewrite (insert_get _ _ _ _ Ei) in Hw. injection Hw as <-.
  assert (is_u64 (bal - fee)) as Hbf by int_lia.
  assert (bal1 = bal - fee) as ->.
  { pose proof (ParseUInt64_PackUInt64 _ Hbf) as Hp'. unfold PackUInt64, Uint64Size in Hp'. congruence. }
  rewrite (GetMarket_same_value v) in Hmk by (rewrite (insert_get_ne _ _ _ _ _ Ei); [done|]; destruct Ha; auto with vm).
  rewrite (GetShareBalance_same_value v) in Hshr by (rewrite (insert_get_ne _ _ _ _ _ Ei); [done|]; destruct Ha; auto with vm).
  exists m, bal, sh. split; [by eapply fresh_view_GetMarket|]. split; [by eapply fresh_view_GetBalance|].
  split; [by eapply fresh_view_GetShareBalance|]. split_and!; try done; [lia|].
  intros k. assert (v_storage v' = storage) as <- by apply (insert_steps_base _ _ Hs2).
  rewrite Commit_value. specialize (Hb k). rewrite (insert_lookup _ _ _ _ k Ei) in Hb.
  case_decide; [by apply (view_value_of_GetValue v v' k (Some _))|].
  case_decide; [by apply (view_value_of_GetValue v v' k (Some _))|].
  case_decide; [by apply (view_value_of_GetValue v v' k (Some _))|].
  by apply (view_value_of_GetValue v v' k None).
Qed.

(** ** The keys of a transaction of buys *)

Lemma buy_Action_keys sd o actor sponsor k p :
  wf_addr actor -> wf_addr sponsor -> StateKeys (buy_Action sd o) actor !! k = Some p ->
  (2 <= length k)%nat /\ (actor <> sponsor -> k <> BalanceKey sponsor).
Proof.
  intros [Ha _] [Hs _] E.
  assert (k = BalanceKey actor \/ k = MarketKey (o_market o)
          \/ k = ShareBalanceKey (o_market o) actor (side_type sd)) as Hk.
  { destruct sd; simpl in E; unfold BuyYes_StateKeys, BuyNo_StateKeys in E; simpl in E;
      rewrite !lookup_insert_Some, lookup_empty in E;
      destruct E as [[<- _]|(_ & [[<- _]|(_ & [[<- _]|(_ & [=])])])]; auto. }
  destruct Hk as [->|[->| ->]].
  - rewrite length_BalanceKey by done. split; [lia|]. intros Hne E'. apply Hne.
    by apply BalanceKey_inj in E'.
  - rewrite length_MarketKey. split; [lia|]. intros _. apply not_eq_sym. auto with vm.
  - rewrite length_ShareBalanceKey by done. split; [lia|]. intros _. apply not_eq_sym. auto with vm.
Qed.

Lemma buys_StateKeys orders actor sponsor :
  wf_addr actor -> wf_addr sponsor ->
  exists keys, tx_StateKeys New
      (mkTransaction (map (fun p => buy_Action p.1 p.2) orders) actor sponsor) = Ok keys /\
    (actor <> sponsor \/ orders = [] -> Keys_Has keys (BalanceKey sponsor) Read = false).
Proof.
  intros Ha Hs. unfold tx_StateKeys. cbn [tx_Actions tx_Actor tx_Sponsor].
  set (l := (_ ≫= _) ++ _).
  assert (forall kp, kp ∈ l -> (2 <= length kp.1)%nat /\
    (actor <> sponsor \/ orders = [] -> kp.1 <> BalanceKey sponsor)) as Hl.
  { intros [k p] [Hin|Hin]%elem_of_app.
    - apply list_elem_of_bind in Hin as (a & Hin & Ha'). apply elem_of_map_to_list in Hin.
      apply list_elem_of_fmap in Ha' as ([sd o] & -> & Ho).
      destruct (buy_Action_keys sd o actor sponsor k p Ha Hs Hin) as [Hlen Hne]. split; [done|].
      intros [Hn| ->]; [auto|by apply not_elem_of_nil in Ho].
    - apply elem_of_map_to_list in Hin. simpl in Hin. unfold Controller_SponsorStateKeys in Hin.
      apply lookup_insert_Some in Hin as [[<- _]|[_ Hin]]; [|by rewrite lookup_empty in Hin].
      destruct Hs as [Hs _]. simpl. rewrite length_StateKeysBalance by done.
      split; [lia|]. intros _. auto with vm. }
  destruct (Keys_AddAll_ok l ∅) as [keys E].
  { apply list.Forall_forall. intros kp Hin. apply Nat.leb_le. by apply Hl. }
  rewrite E. exists keys. split; [done|]. intros Hne.
  unfold Keys_Has. rewrite (Keys_AddAll_lookup _ _ _ _ E), fold_left_other; [done|].
  intros kp Hin. by apply Hl.
Qed.

Lemma buys_activated orders ts :
  forallb (action_activated ts) (map (fun p => buy_Action p.1 p.2) orders) = true.
Proof. by induction orders as [|[[] o] l IH]. Qed.

(** A sponsor whose balance key is not declared cannot be charged. *)
Lemma foreign_sponsor orders actor sponsor fee ts storage block :
  wf_addr actor -> wf_addr sponsor -> (actor <> sponsor \/ orders = []) ->
  run_tx New (mkTransaction (map (fun p => buy_Action p.1 p.2) orders) actor sponsor) fee ts storage block
  = (Err ErrInvalidKeyOrPermission, block).
Proof.
  intros Ha Hs Hne. destruct (buys_StateKeys orders actor sponsor Ha Hs) as (keys & Hk & Hout).
  unfold run_tx. rewrite Hk. cbv zeta. unfold tx_PreExecute.
  cbn [tx_Actions]. rewrite (buys_activated orders ts). cbn [CanDeduct Controller_BalanceHandler tx_Sponsor].
  unfold Controller_CanDeduct, GetBalance, GetValue. simpl. unfold TStateView_GetValue, checkScope. simpl.
  by rewrite (Hout Hne).
Qed.
End steps.
