(* ===== verification/Wire.v ===== *)
(** * Transactions as bytes (hypersdk/chain/transaction.go, transaction_codec.go, base.go)

    Making, signing and parsing transactions: the messages [Base] and
    [SerializeTx] with the code generated for them, [NewTxData], [Sign],
    [NewTransaction] and [UnmarshalTx], and the parser the VM is set up with
    (transaction_marshaller.go, vm/vm.go, vm/client.go).  The serialization
    is shown exact in both directions. *)

From S2P Require Import Prelude GoErrors Lib Canoto Vm KeyStore Transaction.
#[local] Open Scope Z_scope.

(** ** base.go, base.canoto.go *)

Record Base := mkBase { Timestamp : Z; ChainID : bytes; MaxFee : Z }.

Definition zero_ID : bytes := make_bytes IDLen.
Definition zero_Base : Base := mkBase 0 zero_ID 0.

Definition IsZero_ID (id : bytes) : bool := bool_decide (id = zero_ID).

Definition Base_Timestamp_tag : bytes := [8].
Definition Base_ChainID_tag : bytes := [18].
Definition Base_MaxFee_tag : bytes := [25].

(** The switch of [UnmarshalCanotoFrom]. *)
Definition Base_field (field wireType : Z) (c : Base) : GoM bytes Base :=
  if field =? 1 then
    fail_if (negb (wireType =? Varint)) ErrUnexpectedWireType;;
    timestamp ← ReadInt;
    fail_if (timestamp =? 0) ErrZeroValue;;
    mret (mkBase timestamp (ChainID c) (MaxFee c))
  else if field =? 2 then
    fail_if (negb (wireType =? Len)) ErrUnexpectedWireType;;
    length' ← ReadUint two64;
    fail_if (negb (length' =? Z.of_nat IDLen)) ErrInvalidLength;;
    chainID ← TakeBytes (Z.of_nat IDLen);
    fail_if (IsZero_ID chainID) ErrZeroValue;;
    mret (mkBase (Timestamp c) chainID (MaxFee c))
  else if field =? 3 then
    fail_if (negb (wireType =? I64)) ErrUnexpectedWireType;;
    maxFee ← ReadFint64;
    fail_if (maxFee =? 0) ErrZeroValue;;
    mret (mkBase (Timestamp c) (ChainID c) maxFee)
  else fail ErrUnknownField.

Definition Base_UnmarshalCanotoFrom : GoM bytes Base := fun B =>
  read_fields Base_field (length B) 0 zero_Base B.

(** [CalculateCanotoCache] and [CachedCanotoSize]. *)
Definition Base_Size (c : Base) : Z :=
  (if Timestamp c =? 0 then 0 else Z.of_nat (length Base_Timestamp_tag) + SizeInt (Timestamp c))
  + (if IsZero_ID (ChainID c) then 0 else Z.of_nat (length Base_ChainID_tag) + SizeBytes (ChainID c))
  + (if MaxFee c =? 0 then 0 else Z.of_nat (length Base_MaxFee_tag) + SizeFint64).

Definition Base_MarshalCanotoInto (c : Base) : bytes :=
  (if Timestamp c =? 0 then [] else Base_Timestamp_tag ++ AppendInt (Timestamp c))
  ++ (if IsZero_ID (ChainID c) then [] else Base_ChainID_tag ++ AppendBytes (ChainID c))
  ++ (if MaxFee c =? 0 then [] else Base_MaxFee_tag ++ le_PutUint64 (MaxFee c)).

(** ** transaction_codec.go, transaction_codec.canoto.go *)

Record SerializeTx := mkSerializeTx {
  stx_Base : Base;
  stx_Actions : list bytes;
  stx_Auth : bytes;
}.

Definition SerializeTx_Base_tag : bytes := [10].
Definition SerializeTx_Actions_tag : bytes := [18].
Definition SerializeTx_Auth_tag : bytes := [26].

Definition SerializeTx_field (field wireType : Z) (c : SerializeTx) : GoM bytes SerializeTx :=
  if field =? 1 then
    fail_if (negb (wireType =? Len)) ErrUnexpectedWireType;;
    msgBytes ← ReadBytes;
    fail_if (length msgBytes =? 0)%nat ErrZeroValue;;
    base ← lift (fst (Base_UnmarshalCanotoFrom msgBytes));
    mret (mkSerializeTx base (stx_Actions c) (stx_Auth c))
  else if field =? 2 then
    fail_if (negb (wireType =? Len)) ErrUnexpectedWireType;;
    actions ← ReadRepeatedBytes SerializeTx_Actions_tag;
    mret (mkSerializeTx (stx_Base c) actions (stx_Auth c))
  else if field =? 3 then
    fail_if (negb (wireType =? Len)) ErrUnexpectedWireType;;
    auth ← ReadBytes;
    fail_if (length auth =? 0)%nat ErrZeroValue;;
    mret (mkSerializeTx (stx_Base c) (stx_Actions c) auth)
  else fail ErrUnknownField.

Definition SerializeTx_UnmarshalCanotoFrom : GoM bytes SerializeTx := fun B =>
  read_fields SerializeTx_field (length B) 0 (mkSerializeTx zero_Base [] []) B.

(** The size of the base is computed beforehand and written before it. *)
Definition SerializeTx_MarshalCanoto (c : SerializeTx) : bytes :=
  (let fieldSize := Base_Size (stx_Base c) in
   if fieldSize =? 0 then []
   else SerializeTx_Base_tag ++ AppendUvarint fieldSize ++ Base_MarshalCanotoInto (stx_Base c))
  ++ entries SerializeTx_Actions_tag (stx_Actions c)
  ++ (if (length (stx_Auth c) =? 0)%nat then [] else SerializeTx_Auth_tag ++ AppendBytes (stx_Auth c)).

(** ** transaction.go *)

(** [Bytes] of an action. *)
Class Serialized (A : Type) := Bytes_of : A -> outcome bytes.

#[export] Instance Action_Serialized : Serialized Action := Action_Bytes.
#[export] Instance action_Serialized : Serialized action := action_Bytes.

(** [chain.Auth], a signature with who signed and who pays. *)
Record Auth := mkAuth { Auth_Bytes : bytes; Actor : bytes; Sponsor : bytes }.

(** chain/dependencies.go *)
Class AuthFactory (F : Type) := {
  Address : F -> bytes;
  MaxUnits : F -> Z * Z;
  Sign : F -> bytes -> result Auth;
}.

(** Who signs, who pays, and how long a signature is. *)
Class LawfulAuthFactory (F : Type) `{AuthFactory F} : Prop := {
  Sign_actor f msg auth : Sign f msg = Ok auth -> Actor auth = Address f /\ Sponsor auth = Address f;
  Sign_size f msg auth : Sign f msg = Ok auth ->
    wf_bytes (Auth_Bytes auth) /\ Z.of_nat (length (Auth_Bytes auth)) <= fst (MaxUnits f);
}.

Record TransactionData (A : Type) := mkTransactionData {
  td_Base : Base;
  td_Actions : list A;
  td_unsignedBytes : bytes;
}.
Arguments mkTransactionData {A}.
Arguments td_Base {A}.
Arguments td_Actions {A}.
Arguments td_unsignedBytes {A}.

Record SignedTransaction (A Auth : Type) := mkSignedTransaction {
  st_Data : TransactionData A;
  st_Auth : Auth;
  st_bytes : bytes;
  st_size : Z;
  st_id : bytes;
}.
Arguments mkSignedTransaction {A Auth}.
Arguments st_Data {A Auth}.
Arguments st_Auth {A Auth}.
Arguments st_bytes {A Auth}.
Arguments st_size {A Auth}.
Arguments st_id {A Auth}.

(** A signed transaction of the chain, as it is executed. *)
Definition signed_tx (tx : SignedTransaction Action Auth) : Transaction :=
  mkTransaction (td_Actions (st_Data tx)) (Actor (st_Auth tx)) (Sponsor (st_Auth tx)).

Section making.
Context {A : Type} `{Serialized A} `{Crypto}.

Fixpoint actions_Bytes (actions : list A) : outcome (list bytes) :=
  match actions with
  | [] => Returns []
  | action :: actions =>
      match Bytes_of action with
      | Panics err => Panics err
      | Returns b =>
          match actions_Bytes actions with
          | Panics err => Panics err
          | Returns bs => Returns (b :: bs)
          end
      end
  end.

Definition NewTxData (base : Base) (actions : list A) : outcome (TransactionData A) :=
  match actions_Bytes actions with
  | Panics err => Panics err
  | Returns actionBytes =>
      Returns (mkTransactionData base actions
        (SerializeTx_MarshalCanoto (mkSerializeTx base actionBytes [])))
  end.

Definition NewTransaction (base : Base) (actions : list A) (auth : Auth) : outcome (SignedTransaction A Auth) :=
  match NewTxData base actions with
  | Panics err => Panics err
  | Returns txData =>
      match actions_Bytes actions with
      | Panics err => Panics err
      | Returns actionBytes =>
          let signedTxBytes := SerializeTx_MarshalCanoto (mkSerializeTx base actionBytes (Auth_Bytes auth)) in
          Returns (mkSignedTransaction txData auth signedTxBytes (Z.of_nat (length signedTxBytes))
            (ToID signedTxBytes))
      end
  end.

Definition TransactionData_Sign {F} `{AuthFactory F} (t : TransactionData A) (factory : F)
  : outcome (result (SignedTransaction A Auth)) :=
  match Sign factory (td_unsignedBytes t) with
  | Err err => Returns (Err err)
  | Ok auth =>
      match NewTransaction (td_Base t) (td_Actions t) auth with
      | Panics err => Panics err
      | Returns tx => Returns (Ok tx)
      end
  end.
End making.

(** ** Parsing *)

(** transaction_marshaller.go; [chain.Parser]. *)
Record TxTypeParser (A Auth : Type) := mkTxTypeParser {
  ActionRegistry : TypeParser A;
  AuthRegistry : TypeParser Auth;
}.
Arguments mkTxTypeParser {A Auth}.
Arguments ActionRegistry {A Auth}.
Arguments AuthRegistry {A Auth}.

Section parsing.
Context {A Auth : Type} `{Crypto}.

Definition NewTxTypeParser (actionRegistry : TypeParser A) (authRegistry : TypeParser Auth)
  : TxTypeParser A Auth := mkTxTypeParser actionRegistry authRegistry.

Definition ParseAction (t : TxTypeParser A Auth) (b : bytes) : result A := Unmarshal (ActionRegistry t) b.
Definition ParseAuth (t : TxTypeParser A Auth) (b : bytes) : result Auth := Unmarshal (AuthRegistry t) b.

(** The [%x] verb on [codec.Bytes], whose [String] is hexadecimal already. *)
Definition fmt_x (b : bytes) : string := hex_EncodeToString (bytes_of_string (hex_EncodeToString b)).

Fixpoint parse_actions (parser : TxTypeParser A Auth) (i : Z) (l : list bytes) : result (list A) :=
  match l with
  | [] => Ok []
  | actionBytes :: l =>
      match ParseAction parser actionBytes with
      | Err err =>
          Err (Errorf_w ("failed to parse action " +:+ fmt_x actionBytes +:+ " at index " +:+ fmt_d i +:+ ": ") err "")
      | Ok action =>
          actions ← parse_actions parser (i + 1) l;
          Ok (action :: actions)
      end
  end.

(** The bytes that were signed: those before the auth. *)
Definition unsigned_bytes (B auth : bytes) : result bytes :=
  if (length auth =? 0)%nat then Ok B
  else
    let authSuffixSize := Z.of_nat (length SerializeTx_Auth_tag) + SizeBytes auth in
    let unsignedTxBytesLimit := Z.of_nat (length B) - authSuffixSize in
    if (unsignedTxBytesLimit <? 0) || (Z.of_nat (length B) <? unsignedTxBytesLimit) then
      Err (ErrFresh ("failed to extract unsigned tx bytes due to invalid offset: " +:+ fmt_d unsignedTxBytesLimit
        +:+ ", tx size: " +:+ fmt_d (Z.of_nat (length B)) +:+ " auth suffix size: " +:+ fmt_d authSuffixSize))
    else Ok (take (Z.to_nat (Z.of_nat (length B) - authSuffixSize)) B).

Definition UnmarshalTx (B : bytes) (parser : TxTypeParser A Auth) : result (SignedTransaction A Auth) :=
  serializeTx ← fst (SerializeTx_UnmarshalCanotoFrom B);
  actions ← parse_actions parser 0 (stx_Actions serializeTx);
  match ParseAuth parser (stx_Auth serializeTx) with
  | Err err => Err (Errorf_w ("failed to parse auth " +:+ fmt_x (stx_Auth serializeTx) +:+ ": ") err "")
  | Ok auth =>
      unsignedTxBytes ← unsigned_bytes B (stx_Auth serializeTx);
      Ok (mkSignedTransaction
        (mkTransactionData (stx_Base serializeTx) actions unsignedTxBytes) auth B (Z.of_nat (length B)) (ToID B))
  end.
End parsing.

(** vm/vm.go: the package variable [Parser]. *)
Definition vm_Parser {Auth} (p : parsers Auth) : TxTypeParser action Auth :=
  NewTxTypeParser (ActionParser p) (AuthParser p).

(** vm/client.go and cmd/prediction-cli/cmd/handler.go. *)
Definition JSONRPCClient_GetParser {Auth} (p : parsers Auth) : TxTypeParser action Auth :=
  NewTxTypeParser (ActionParser p) (AuthParser p).

Definition Controller_GetParser {Auth} (p : parsers Auth) : TxTypeParser action Auth := vm_Parser p.

(** ** The messages, exactly *)

Definition wf_base (c : Base) : Prop :=
  is_i64 (Timestamp c) /\ wf_bytes (ChainID c) /\ length (ChainID c) = IDLen /\ is_u64 (MaxFee c).

#[export] Instance wf_base_dec c : Decision (wf_base c).
Proof. unfold wf_base. apply _. Defined.

Definition wf_stx (c : SerializeTx) : Prop :=
  wf_base (stx_Base c) /\ Forall good_bytes (stx_Actions c) /\ good_bytes (stx_Auth c).

#[export] Instance wf_stx_dec c : Decision (wf_stx c).
Proof. unfold wf_stx. apply _. Defined.

Lemma wf_zero_ID : wf_bytes zero_ID.
Proof. by apply (bool_decide_unpack _). Qed.

Lemma good_ID id : wf_bytes id -> length id = IDLen -> good_bytes id.
Proof. intros Hw Hl. split; [done|]. by rewrite Hl. Qed.

Lemma Base_MarshalCanotoInto_size c : wf_base c ->
  Z.of_nat (length (Base_MarshalCanotoInto c)) = Base_Size c.
Proof.
  intros (Ht & Hw & Hl & Hf). unfold Base_MarshalCanotoInto, Base_Size.
  rewrite !length_app, !Nat2Z.inj_add, Z.add_assoc. f_equal; [f_equal|].
  - case_match; [done|]. by rewrite length_app, Nat2Z.inj_add, SizeInt_eq.
  - case_match; [done|]. by rewrite length_app, Nat2Z.inj_add, length_AppendBytes by by apply good_ID.
  - case_match; [done|]. rewrite length_app. unfold le_PutUint64. by rewrite length_rev, length_be_put.
Qed.

(** The tags, and how each field is read behind its own. *)
Lemma tag_constants :
  Base_Timestamp_tag = Tag 1 Varint /\ Base_ChainID_tag = Tag 2 Len /\ Base_MaxFee_tag = Tag 3 I64 /\
  SerializeTx_Base_tag = Tag 1 Len /\ SerializeTx_Actions_tag = Tag 2 Len /\ SerializeTx_Auth_tag = Tag 3 Len.
Proof. by split_and!. Qed.

Lemma Base_field_1 c : Base_field 1 Varint c = (
  timestamp ← ReadInt;
  fail_if (timestamp =? 0) ErrZeroValue;;
  mret (mkBase timestamp (ChainID c) (MaxFee c))).
Proof. reflexivity. Qed.

Lemma Base_field_2 c : Base_field 2 Len c = (
  length' ← ReadUint two64;
  fail_if (negb (length' =? Z.of_nat IDLen)) ErrInvalidLength;;
  chainID ← TakeBytes (Z.of_nat IDLen);
  fail_if (IsZero_ID chainID) ErrZeroValue;;
  mret (mkBase (Timestamp c) chainID (MaxFee c))).
Proof. reflexivity. Qed.

Lemma Base_field_3 c : Base_field 3 I64 c = (
  maxFee ← ReadFint64;
  fail_if (maxFee =? 0) ErrZeroValue;;
  mret (mkBase (Timestamp c) (ChainID c) maxFee)).
Proof. reflexivity. Qed.

Lemma Base_field_complete c :
  (forall ts rest, is_i64 ts -> ts <> 0 ->
     Base_field 1 Varint c (AppendInt ts ++ rest) = (Ok (mkBase ts (ChainID c) (MaxFee c)), rest)) /\
  (forall id rest, wf_bytes id -> length id = IDLen -> IsZero_ID id = false ->
     Base_field 2 Len c (AppendBytes id ++ rest) = (Ok (mkBase (Timestamp c) id (MaxFee c)), rest)) /\
  (forall fee rest, is_u64 fee -> fee <> 0 ->
     Base_field 3 I64 c (le_PutUint64 fee ++ rest) = (Ok (mkBase (Timestamp c) (ChainID c) fee), rest)).
Proof.
  split_and!.
  - intros ts rest Ht Hz. rewrite Base_field_1. unfold mbind, GoM_bind, fail_if.
    by rewrite (reader_complete _ _ _ ReadInt_exact), (proj2 (Z.eqb_neq _ _)) by done.
  - intros id rest Hw Hl Hz. rewrite Base_field_2. unfold mbind, GoM_bind, fail_if, AppendBytes.
    rewrite Hl, <- app_assoc.
    rewrite (reader_complete _ _ _ (ReadUint_exact two64 ltac:(unfold two64; lia))) by (unfold two64, IDLen; lia).
    rewrite Z.eqb_refl. cbn [negb]. unfold TakeBytes.
    rewrite length_app, Hl, (proj2 (Z.ltb_ge _ _)), Nat2Z.id by lia.
    rewrite take_app_length' by done. rewrite drop_app_length' by done. by rewrite Hz.
  - intros fee rest Hf Hz. rewrite Base_field_3. unfold mbind, GoM_bind, fail_if.
    by rewrite (reader_complete _ _ _ ReadFint64_exact), (proj2 (Z.eqb_neq _ _)) by done.
Qed.

(** A field that was read was encoded behind its tag. *)
Inductive base_field (c c1 : Base) : Z -> Z -> bytes -> bytes -> Prop :=
| base_field_1 rest : is_i64 (Timestamp c1) -> Timestamp c1 <> 0 ->
    c1 = mkBase (Timestamp c1) (ChainID c) (MaxFee c) ->
    base_field c c1 1 Varint (AppendInt (Timestamp c1) ++ rest) rest
| base_field_2 rest : wf_bytes (ChainID c1) -> length (ChainID c1) = IDLen -> IsZero_ID (ChainID c1) = false ->
    c1 = mkBase (Timestamp c) (ChainID c1) (MaxFee c) ->
    base_field c c1 2 Len (AppendBytes (ChainID c1) ++ rest) rest
| base_field_3 rest : is_u64 (MaxFee c1) -> MaxFee c1 <> 0 ->
    c1 = mkBase (Timestamp c) (ChainID c) (MaxFee c1) ->
    base_field c c1 3 I64 (le_PutUint64 (MaxFee c1) ++ rest) rest.

Lemma Base_field_sound field w c B c1 rest :
  wf_bytes B -> Base_field field w c B = (Ok c1, rest) -> base_field c c1 field w B rest /\ wf_bytes rest.
Proof.
  intros Hw E.
  assert ((field = 1 /\ w = Varint) \/ (field = 2 /\ w = Len) \/ (field = 3 /\ w = I64)) as Hcase.
  { unfold Base_field in E. destruct (Z.eqb_spec field 1), (Z.eqb_spec field 2), (Z.eqb_spec field 3);
      try done; apply run_fail_if_inv_ok in E as [Hg%negb_false_iff%Z.eqb_eq _]; auto. }
  destruct Hcase as [[-> ->]|[[-> ->]|[-> ->]]].
  - rewrite Base_field_1 in E. go_inv.
    apply (reader_sound _ _ _ ReadInt_exact) in Hrun as (-> & Hi & Hr); [|done].
    apply Z.eqb_neq in Hguard. split; [|done]. by apply (base_field_1 c (mkBase _ _ _)).
  - rewrite Base_field_2 in E. go_inv.
    apply (reader_sound _ _ _ (ReadUint_exact two64 ltac:(unfold two64; lia))) in Hrun as (-> & Hi & Hr); [|done].
    apply negb_false_iff, Z.eqb_eq in Hguard. subst.
    unfold TakeBytes in *. destruct (Z.ltb_spec (Z.of_nat (length s)) (Z.of_nat IDLen)); [done|].
    simplify_eq. rewrite Nat2Z.id in *.
    assert (length (take IDLen s) = IDLen) as Hl by (rewrite length_take; lia).
    split; [|auto with vm]. 
    pose proof (base_field_2 c (mkBase (Timestamp c) (take IDLen s) (MaxFee c)) (drop IDLen s)) as Hx.
    cbn [ChainID] in Hx. unfold AppendBytes in Hx. rewrite Hl, <- app_assoc, take_drop in Hx.
    apply Hx; auto with vm.
  - rewrite Base_field_3 in E. go_inv.
    apply (reader_sound _ _ _ ReadFint64_exact) in Hrun as (-> & Hi & Hr); [|done].
    apply Z.eqb_neq in Hguard. split; [|done]. by apply (base_field_3 c (mkBase _ _ _)).
Qed.

(** The fields from a number on. *)
Definition Base_from (m : Z) (c : Base) : bytes :=
  (if (m <=? 1) && negb (Timestamp c =? 0) then Base_Timestamp_tag ++ AppendInt (Timestamp c) else [])
  ++ (if (m <=? 2) && negb (IsZero_ID (ChainID c)) then Base_ChainID_tag ++ AppendBytes (ChainID c) else [])
  ++ (if (m <=? 3) && negb (MaxFee c =? 0) then Base_MaxFee_tag ++ le_PutUint64 (MaxFee c) else []).

Lemma Base_from_0 c : Base_from 0 c = Base_MarshalCanotoInto c.
Proof. unfold Base_from, Base_MarshalCanotoInto. simpl. by repeat case_match. Qed.

Lemma Base_from_reads c m c0 : wf_base c ->
  (if m <=? 1 then Timestamp c0 = 0 else Timestamp c0 = Timestamp c) ->
  (if m <=? 2 then ChainID c0 = zero_ID else ChainID c0 = ChainID c) ->
  (if m <=? 3 then MaxFee c0 = 0 else MaxFee c0 = MaxFee c) ->
  reads_all Base_field m c0 (Base_from m c) c.
Proof.
  intros (Ht & Hw & Hl & Hf).
  assert (forall c0, Timestamp c0 = Timestamp c -> ChainID c0 = ChainID c -> MaxFee c0 = MaxFee c ->
    c0 = c) as Hext by (intros [] ? ? ?; destruct c; simpl in *; by subst).
  assert (forall m c0, Timestamp c0 = Timestamp c -> ChainID c0 = ChainID c ->
    (if m <=? 3 then MaxFee c0 = 0 else MaxFee c0 = MaxFee c) ->
    reads_all Base_field m c0
      (if (m <=? 3) && negb (MaxFee c =? 0) then Base_MaxFee_tag ++ le_PutUint64 (MaxFee c) else []) c) as L3.
  { intros m' c0' E1 E2 E3. destruct (Z.leb_spec m' 3) as [Hm|]; cbn [andb]; [|rewrite (Hext c0') by done; apply reads_all_nil].
    destruct (Z.eqb_spec (MaxFee c) 0); cbn [negb]; [rewrite (Hext c0') by congruence; apply reads_all_nil|].
    rewrite <- (app_nil_r (le_PutUint64 _)). eapply (reads_all_step _ _ 3 I64); try done.
    - by apply Base_field_complete.
    - rewrite (Hext (mkBase _ _ _)) by done. apply reads_all_nil. }
  assert (forall m c0, Timestamp c0 = Timestamp c ->
    (if m <=? 2 then ChainID c0 = zero_ID else ChainID c0 = ChainID c) ->
    (if m <=? 3 then MaxFee c0 = 0 else MaxFee c0 = MaxFee c) ->
    reads_all Base_field m c0
      ((if (m <=? 2) && negb (IsZero_ID (ChainID c)) then Base_ChainID_tag ++ AppendBytes (ChainID c) else []) ++
       (if (m <=? 3) && negb (MaxFee c =? 0) then Base_MaxFee_tag ++ le_PutUint64 (MaxFee c) else [])) c) as L2.
  { intros m' c0' E1 E2 E3. destruct (Z.leb_spec m' 2) as [Hm|]; cbn [andb]; [|by apply L3].
    destruct (IsZero_ID (ChainID c)) eqn:Ez; cbn [negb].
    - apply bool_decide_eq_true in Ez. apply L3; [done|congruence|done].
    - rewrite (proj2 (Z.leb_le m' 3)) in * by lia. rewrite <- app_assoc.
      eapply (reads_all_step _ _ 2 Len); try done; [by apply Base_field_complete|]. by apply (L3 3). }
  intros E1 E2 E3. unfold Base_from. destruct (Z.leb_spec m 1) as [Hm|]; cbn [andb]; [|by apply L2].
  destruct (Z.eqb_spec (Timestamp c) 0); cbn [negb]; [apply L2; [congruence|done..]|].
  rewrite (proj2 (Z.leb_le m 2)), (proj2 (Z.leb_le m 3)) in * by lia. rewrite <- app_assoc.
  eapply (reads_all_step _ _ 1 Varint); try done; [by apply Base_field_complete|]. by apply (L2 2).
Qed.

Lemma Base_from_nil m c :
  (m <= 1 -> Timestamp c = 0) -> (m <= 2 -> ChainID c = zero_ID) -> (m <= 3 -> MaxFee c = 0) -> Base_from m c = [].
Proof.
  intros H1 H2 H3. unfold Base_from, IsZero_ID.
  destruct (Z.leb_spec m 1); [rewrite H1 by done|]; (destruct (Z.leb_spec m 2); [rewrite H2 by done|]);
    (destruct (Z.leb_spec m 3); [rewrite H3 by done|]); try rewrite bool_decide_true by done; done.
Qed.

(** The first field of what is left. *)
Lemma Base_from_1 m c : m <= 1 -> Timestamp c <> 0 ->
  Base_from m c = Tag 1 Varint ++ AppendInt (Timestamp c) ++ Base_from 2 c.
Proof.
  intros Hm Hz. unfold Base_from. rewrite !(proj2 (Z.leb_le m _)), (proj2 (Z.eqb_neq _ _)) by lia.
  cbn. by rewrite <- ?app_assoc.
Qed.

Lemma Base_from_2 m c : m <= 2 -> (m <= 1 -> Timestamp c = 0) -> IsZero_ID (ChainID c) = false ->
  Base_from m c = Tag 2 Len ++ AppendBytes (ChainID c) ++ Base_from 3 c.
Proof.
  intros Hm H1 Hz. unfold Base_from. rewrite (proj2 (Z.leb_le m 2)), (proj2 (Z.leb_le m 3)), Hz by lia.
  destruct (Z.leb_spec m 1); [rewrite H1 by done|]; cbn; by rewrite <- ?app_assoc.
Qed.

Lemma Base_from_3 m c : m <= 3 -> (m <= 1 -> Timestamp c = 0) -> (m <= 2 -> ChainID c = zero_ID) -> MaxFee c <> 0 ->
  Base_from m c = Tag 3 I64 ++ le_PutUint64 (MaxFee c) ++ Base_from 4 c.
Proof.
  intros Hm H1 H2 Hz. unfold Base_from, IsZero_ID.
  rewrite (proj2 (Z.leb_le m 3)), (proj2 (Z.eqb_neq (MaxFee c) 0)) by lia.
  destruct (Z.leb_spec m 1); [rewrite H1 by done|]; (destruct (Z.leb_spec m 2); [rewrite H2 by done|]);
    try rewrite (bool_decide_true (zero_ID = zero_ID)) by done; cbn; by rewrite ?app_nil_r.
Qed.

Lemma Base_from_sound fuel : forall m c B c' rest,
  wf_bytes B -> wf_base c ->
  (m <= 1 -> Timestamp c = 0) -> (m <= 2 -> ChainID c = zero_ID) -> (m <= 3 -> MaxFee c = 0) ->
  read_fields Base_field fuel m c B = (Ok c', rest) ->
  rest = [] /\ B = Base_from m c' /\ wf_base c' /\
  (1 < m -> Timestamp c' = Timestamp c) /\ (2 < m -> ChainID c' = ChainID c) /\ (3 < m -> MaxFee c' = MaxFee c).
Proof.
  induction fuel as [fuel IH] using lt_wf_ind. intros m c B c' rest Hw Hc H1 H2 H3 E.
  apply read_fields_inv in E as [(-> & -> & ->)|(fuel' & field & w & B1 & c1 & B2 & -> & -> & Hw1 & Hm & E1 & E2)];
    [by rewrite Base_from_nil| |done].
  apply Base_field_sound in E1 as [E1 Hw2]; [|done]. destruct Hc as (Ht & Hid & Hl & Hf).
  inversion E1 as [? Hi Hz Ec|? Hi Hl' Hz Ec|? Hi Hz Ec]; subst; rewrite Ec in *; cbn [Timestamp ChainID MaxFee] in *;
    (apply IH in E2 as (-> & -> & Hc' & G1 & G2 & G3);
      [|lia|done|by split_and!|cbn [Timestamp ChainID MaxFee]; intros; first [lia|apply H1; lia|apply H2; lia|apply H3; lia]..]);
    cbn [Timestamp ChainID MaxFee] in *; refine (conj eq_refl (conj _ (conj Hc' (conj _ (conj _ _)))));
    try (intros; lia).
  - rewrite (Base_from_1 m) by (done || rewrite G1 by lia; done). by rewrite G1 by lia.
  - rewrite (Base_from_2 m) by (done || (rewrite G2 by lia; done) || (intros; rewrite G1 by lia; auto)). by rewrite G2 by lia.
  - rewrite (Base_from_3 m) by (done || (rewrite G3 by lia; done) || (intros; rewrite ?G1, ?G2 by lia; auto)). by rewrite G3 by lia.
  - intros. by rewrite G2 by lia.
Qed.

(** The message is read back whole, and nothing else is read. *)
Lemma Base_exact B c : wf_bytes B ->
  (exists rest, Base_UnmarshalCanotoFrom B = (Ok c, rest)) <-> wf_base c /\ B = Base_MarshalCanotoInto c.
Proof.
  intros Hw. rewrite <- Base_from_0. split.
  - intros [rest E]. apply Base_from_sound in E as (_ & -> & Hc & _); try done.
    split_and!; [by apply (bool_decide_unpack _)|apply wf_zero_ID|done|by apply (bool_decide_unpack _)].
  - intros [Hc ->]. exists []. by apply reads_all_fuel, Base_from_reads.
Qed.

(** *** SerializeTx *)

Lemma Base_Size_bound c : wf_base c -> 0 <= Base_Size c <= 54.
Proof.
  intros (Ht & Hw & Hl & Hf). unfold Base_Size.
  assert (1 <= SizeInt (Timestamp c) <= 10) as Hs.
  { rewrite SizeInt_eq, AppendInt_eq, length_AppendUvarint by auto using zigzag_u64.
    by apply SizeUint_bounds, zigzag_u64. }
  assert (SizeBytes (ChainID c) = 33) as -> by (unfold SizeBytes; by rewrite Hl).
  change (Z.of_nat (length Base_Timestamp_tag)) with 1. change (Z.of_nat (length Base_ChainID_tag)) with 1.
  change (Z.of_nat (length Base_MaxFee_tag)) with 1. unfold SizeFint64. repeat case_match; lia.
Qed.

Lemma Base_field_of_bytes c : wf_base c ->
  AppendUvarint (Base_Size c) ++ Base_MarshalCanotoInto c = AppendBytes (Base_MarshalCanotoInto c).
Proof. intros Hc. unfold AppendBytes. by rewrite Base_MarshalCanotoInto_size. Qed.

Lemma AppendBytes_wf b : good_bytes b -> wf_bytes (AppendBytes b).
Proof.
  intros [Hw Hl]. apply wf_bytes_app. split; [|done]. apply AppendUvarint_wf. split; lia.
Qed.

Lemma Base_MarshalCanotoInto_good c : wf_base c -> good_bytes (Base_MarshalCanotoInto c).
Proof.
  intros Hc. split.
  - destruct Hc as (Ht & Hw & Hl & Hf). unfold Base_MarshalCanotoInto.
    rewrite !wf_bytes_app. split_and!; case_match; try apply List.Forall_nil;
      (apply wf_bytes_app; split; [by apply (bool_decide_unpack _)|]).
    + rewrite AppendInt_eq by done. by apply AppendUvarint_wf, zigzag_u64.
    + by apply AppendBytes_wf, good_ID.
    + unfold le_PutUint64. apply Forall_rev. apply be_put_wf.
  - rewrite Base_MarshalCanotoInto_size by done. pose proof (Base_Size_bound c Hc). unfold two64. lia.
Qed.

(** Only the zero base takes no space. *)
Lemma Base_Size_0 c : wf_base c -> Base_Size c = 0 -> c = zero_Base.
Proof.
  intros Hc Hs. pose proof (Base_MarshalCanotoInto_size c Hc) as Hl. rewrite Hs in Hl.
  destruct (Base_MarshalCanotoInto c) eqn:E; [|done].
  destruct (proj2 (Base_exact [] c ltac:(apply List.Forall_nil)) (conj Hc (eq_sym E))) as [rest Ec].
  by injection Ec.
Qed.

Lemma SerializeTx_field_1 c : SerializeTx_field 1 Len c = (
  msgBytes ← ReadBytes;
  fail_if (length msgBytes =? 0)%nat ErrZeroValue;;
  base ← lift (fst (Base_UnmarshalCanotoFrom msgBytes));
  mret (mkSerializeTx base (stx_Actions c) (stx_Auth c))).
Proof. reflexivity. Qed.

Lemma SerializeTx_field_2 c : SerializeTx_field 2 Len c = (
  actions ← ReadRepeatedBytes SerializeTx_Actions_tag;
  mret (mkSerializeTx (stx_Base c) actions (stx_Auth c))).
Proof. reflexivity. Qed.

Lemma SerializeTx_field_3 c : SerializeTx_field 3 Len c = (
  auth ← ReadBytes;
  fail_if (length auth =? 0)%nat ErrZeroValue;;
  mret (mkSerializeTx (stx_Base c) (stx_Actions c) auth)).
Proof. reflexivity. Qed.

Abbreviation no_entry rest := (bytes_HasPrefix rest SerializeTx_Actions_tag = false).

Lemma SerializeTx_field_complete c :
  (forall base rest, wf_base base -> Base_Size base <> 0 ->
     SerializeTx_field 1 Len c (AppendBytes (Base_MarshalCanotoInto base) ++ rest) =
       (Ok (mkSerializeTx base (stx_Actions c) (stx_Auth c)), rest)) /\
  (forall v l rest, Forall good_bytes (v :: l) -> no_entry rest ->
     SerializeTx_field 2 Len c (AppendBytes v ++ entries SerializeTx_Actions_tag l ++ rest) =
       (Ok (mkSerializeTx (stx_Base c) (v :: l) (stx_Auth c)), rest)) /\
  (forall auth rest, good_bytes auth -> auth <> [] ->
     SerializeTx_field 3 Len c (AppendBytes auth ++ rest) =
       (Ok (mkSerializeTx (stx_Base c) (stx_Actions c) auth), rest)).
Proof.
  split_and!.
  - intros base rest Hb Hz. rewrite SerializeTx_field_1. unfold mbind, GoM_bind, fail_if, lift.
    pose proof (Base_MarshalCanotoInto_good base Hb) as Hg.
    rewrite (reader_complete _ _ _ ReadBytes_exact) by done.
    rewrite (proj2 (Nat.eqb_neq _ _)) by (intros Hl; apply Hz; by rewrite <- Base_MarshalCanotoInto_size, Hl).
    by destruct (proj2 (Base_exact _ base (proj1 Hg)) (conj Hb eq_refl)) as [rest' ->].
  - intros v l rest Hl Hr. rewrite SerializeTx_field_2. unfold mbind, GoM_bind.
    by rewrite ReadRepeatedBytes_complete.
  - intros auth rest Ha Hne. rewrite SerializeTx_field_3. unfold mbind, GoM_bind, fail_if.
    rewrite (reader_complete _ _ _ ReadBytes_exact) by done. by destruct auth.
Qed.

Inductive stx_field (c c1 : SerializeTx) : Z -> Z -> bytes -> bytes -> Prop :=
| stx_field_1 rest : wf_base (stx_Base c1) -> Base_Size (stx_Base c1) <> 0 ->
    c1 = mkSerializeTx (stx_Base c1) (stx_Actions c) (stx_Auth c) ->
    stx_field c c1 1 Len (AppendBytes (Base_MarshalCanotoInto (stx_Base c1)) ++ rest) rest
| stx_field_2 v l rest : Forall good_bytes (v :: l) -> no_entry rest ->
    c1 = mkSerializeTx (stx_Base c) (v :: l) (stx_Auth c) ->
    stx_field c c1 2 Len (AppendBytes v ++ entries SerializeTx_Actions_tag l ++ rest) rest
| stx_field_3 rest : good_bytes (stx_Auth c1) -> stx_Auth c1 <> [] ->
    c1 = mkSerializeTx (stx_Base c) (stx_Actions c) (stx_Auth c1) ->
    stx_field c c1 3 Len (AppendBytes (stx_Auth c1) ++ rest) rest.

Lemma SerializeTx_field_sound field w c B c1 rest :
  wf_bytes B -> SerializeTx_field field w c B = (Ok c1, rest) ->
  stx_field c c1 field w B rest /\ wf_bytes rest.
Proof.
  intros Hw E.
  assert ((field = 1 \/ field = 2 \/ field = 3) /\ w = Len) as [Hcase ->].
  { unfold SerializeTx_field in E. destruct (Z.eqb_spec field 1), (Z.eqb_spec field 2), (Z.eqb_spec field 3);
      try done; apply run_fail_if_inv_ok in E as [Hg%negb_false_iff%Z.eqb_eq _]; auto. }
  destruct Hcase as [->|[->| ->]].
  - rewrite SerializeTx_field_1 in E. go_inv.
    apply (reader_sound _ _ _ ReadBytes_exact) in Hrun as (-> & Hg & Hr); [|done].
    apply Nat.eqb_neq in Hguard. destruct (Base_UnmarshalCanotoFrom a) as [r rest'] eqn:Eb. cbn [fst] in *.
    simplify_eq. destruct (proj1 (Base_exact a _ (proj1 Hg)) (ex_intro _ _ Eb)) as [Hb ->].
    split; [|done]. eapply (stx_field_1 c (mkSerializeTx _ _ _)); [done| |done].
    cbn [stx_Base]. intros Hz. apply Hguard. apply Nat2Z.inj. by rewrite Base_MarshalCanotoInto_size.
  - rewrite SerializeTx_field_2 in E. go_inv.
    apply ReadRepeatedBytes_sound in Hrun as (v & l & -> & -> & Hl & Hr & Hwr); [|done].
    split; [|done]. by apply stx_field_2.
  - rewrite SerializeTx_field_3 in E. go_inv.
    apply (reader_sound _ _ _ ReadBytes_exact) in Hrun as (-> & Hg & Hr); [|done].
    apply Nat.eqb_neq in Hguard. split; [|done].
    apply (stx_field_3 c (mkSerializeTx _ _ _)); [done| |done]. cbn [stx_Auth]. by intros ->.
Qed.

(** The fields from a number on. *)
Definition stx_from (m : Z) (c : SerializeTx) : bytes :=
  (if (m <=? 1) && negb (Base_Size (stx_Base c) =? 0)
   then SerializeTx_Base_tag ++ AppendBytes (Base_MarshalCanotoInto (stx_Base c)) else [])
  ++ (if m <=? 2 then entries SerializeTx_Actions_tag (stx_Actions c) else [])
  ++ (if (m <=? 3) && negb (length (stx_Auth c) =? 0)%nat
      then SerializeTx_Auth_tag ++ AppendBytes (stx_Auth c) else []).

Lemma stx_from_0 c : wf_stx c -> stx_from 0 c = SerializeTx_MarshalCanoto c.
Proof.
  intros [Hb _]. unfold stx_from, SerializeTx_MarshalCanoto. rewrite <- Base_field_of_bytes by done.
  cbn [Z.leb Z.compare andb]. by destruct (Base_Size _ =? 0), (length (stx_Auth c) =? 0)%nat.
Qed.

Lemma no_entry_auth auth : no_entry (if (length auth =? 0)%nat then [] else SerializeTx_Auth_tag ++ AppendBytes auth).
Proof. by case_match. Qed.

(** The first field of what is left. *)
Lemma stx_from_1 m c : m <= 1 -> Base_Size (stx_Base c) <> 0 ->
  stx_from m c = Tag 1 Len ++ AppendBytes (Base_MarshalCanotoInto (stx_Base c)) ++ stx_from 2 c.
Proof.
  intros Hm Hz. unfold stx_from. rewrite !(proj2 (Z.leb_le m _)), (proj2 (Z.eqb_neq _ _)) by lia.
  cbn [Z.leb Z.compare Pos.compare Pos.compare_cont andb negb]. by rewrite <- ?app_assoc.
Qed.

Lemma stx_from_2 m c v l : m <= 2 -> (m <= 1 -> stx_Base c = zero_Base) -> stx_Actions c = v :: l ->
  stx_from m c = Tag 2 Len ++ AppendBytes v ++ entries SerializeTx_Actions_tag l ++ stx_from 3 c.
Proof.
  intros Hm H1 Ha. unfold stx_from. rewrite (proj2 (Z.leb_le m 2)), (proj2 (Z.leb_le m 3)), Ha, entries_cons by lia.
  destruct (Z.leb_spec m 1); [rewrite H1 by done|]; done.
Qed.

Lemma stx_from_3 m c : m <= 3 -> (m <= 1 -> stx_Base c = zero_Base) -> (m <= 2 -> stx_Actions c = []) ->
  stx_Auth c <> [] -> stx_from m c = Tag 3 Len ++ AppendBytes (stx_Auth c) ++ stx_from 4 c.
Proof.
  intros Hm H1 H2 Hz. unfold stx_from.
  rewrite (proj2 (Z.leb_le m 3)), (proj2 (Nat.eqb_neq (length (stx_Auth c)) 0)) by (done || by destruct (stx_Auth c)).
  destruct (Z.leb_spec m 1); [rewrite H1 by done|]; (destruct (Z.leb_spec m 2); [rewrite H2 by done|]);
    cbn; by rewrite ?app_nil_r.
Qed.

Lemma stx_from_nil m c :
  (m <= 1 -> stx_Base c = zero_Base) -> (m <= 2 -> stx_Actions c = []) -> (m <= 3 -> stx_Auth c = []) ->
  stx_from m c = [].
Proof.
  intros H1 H2 H3. unfold stx_from.
  destruct (Z.leb_spec m 1); [rewrite H1 by done|]; (destruct (Z.leb_spec m 2); [rewrite H2 by done|]);
    (destruct (Z.leb_spec m 3); [rewrite H3 by done|]); done.
Qed.

Lemma stx_ext c c' :
  stx_Base c = stx_Base c' -> stx_Actions c = stx_Actions c' -> stx_Auth c = stx_Auth c' -> c = c'.
Proof. destruct c, c'. simpl. by intros -> -> ->. Qed.

Lemma stx_from_reads_3 c m : wf_stx c -> m <= 3 ->
  reads_all SerializeTx_field m (mkSerializeTx (stx_Base c) (stx_Actions c) []) (stx_from 3 c) c.
Proof.
  intros (_ & _ & Ha) Hm. destruct (decide (stx_Auth c = [])) as [Hz|Hz].
  - rewrite stx_from_nil by (lia || done). rewrite (stx_ext (mkSerializeTx _ _ []) c) by done. apply reads_all_nil.
  - rewrite stx_from_3 by (lia || done). eapply (reads_all_step _ _ 3 Len); try done.
    + by apply SerializeTx_field_complete.
    + rewrite stx_from_nil by lia. rewrite (stx_ext (mkSerializeTx _ _ _) c) by done. apply reads_all_nil.
Qed.

Lemma stx_from_reads_2 c m : wf_stx c -> m <= 2 ->
  reads_all SerializeTx_field m (mkSerializeTx (stx_Base c) [] []) (stx_from 2 c) c.
Proof.
  intros Hc Hm. destruct (stx_Actions c) as [|v l] eqn:Ea.
  - assert (stx_from 2 c = stx_from 3 c) as -> by (unfold stx_from; by rewrite Ea).
    rewrite <- Ea. apply stx_from_reads_3; [done|lia].
  - rewrite (stx_from_2 2 c v l) by (done || lia).
    replace (AppendBytes v ++ entries SerializeTx_Actions_tag l ++ stx_from 3 c) with
      ((AppendBytes v ++ entries SerializeTx_Actions_tag l) ++ stx_from 3 c) by by rewrite <- app_assoc.
    eapply (reads_all_step _ _ 2 Len); try done; [|by apply (stx_from_reads_3 c 3)].
    rewrite <- app_assoc, (proj1 (proj2 (SerializeTx_field_complete _))); [by rewrite Ea|rewrite <- Ea; apply Hc|].
    unfold stx_from. cbn [Z.leb Z.compare Pos.compare Pos.compare_cont andb app].
    pose proof (no_entry_auth (stx_Auth c)) as Hn. by destruct (length (stx_Auth c) =? 0)%nat.
Qed.

Lemma stx_from_reads c : wf_stx c ->
  reads_all SerializeTx_field 0 (mkSerializeTx zero_Base [] []) (stx_from 0 c) c.
Proof.
  intros Hc. destruct (Z.eq_dec (Base_Size (stx_Base c)) 0) as [Hz|Hz].
  - assert (stx_from 0 c = stx_from 2 c) as -> by (unfold stx_from; by rewrite Hz).
    rewrite <- (Base_Size_0 _ (proj1 Hc) Hz). by apply stx_from_reads_2.
  - rewrite stx_from_1 by (done || lia). eapply (reads_all_step _ _ 1 Len); try done; [|by apply (stx_from_reads_2 c 2)].
    apply SerializeTx_field_complete; [apply Hc|done].
Qed.

Lemma stx_from_sound fuel : forall m c B c' rest,
  wf_bytes B -> wf_stx c ->
  (m <= 1 -> stx_Base c = zero_Base) -> (m <= 2 -> stx_Actions c = []) -> (m <= 3 -> stx_Auth c = []) ->
  read_fields SerializeTx_field fuel m c B = (Ok c', rest) ->
  rest = [] /\ B = stx_from m c' /\ wf_stx c' /\
  (1 < m -> stx_Base c' = stx_Base c) /\ (2 < m -> stx_Actions c' = stx_Actions c) /\
  (3 < m -> stx_Auth c' = stx_Auth c).
Proof.
  induction fuel as [fuel IH] using lt_wf_ind. intros m c B c' rest Hw Hc H1 H2 H3 E.
  apply read_fields_inv in E as [(-> & -> & ->)|(fuel' & field & w & B1 & c1 & B2 & -> & -> & Hw1 & Hm & E1 & E2)];
    [by rewrite stx_from_nil| |done].
  apply SerializeTx_field_sound in E1 as [E1 Hw2]; [|done]. destruct Hc as (Hb & Ha & Hau).
  inversion E1 as [? Hi Hz Ec|v l ? Hi Hr Ec|? Hi Hz Ec]; subst; try rewrite Ec in *; cbn [stx_Base stx_Actions stx_Auth] in *;
    (apply IH in E2 as (-> & -> & Hc' & G1 & G2 & G3);
      [|lia|done|by split_and!|cbn [stx_Base stx_Actions stx_Auth]; intros; first [lia|apply H1; lia|apply H2; lia|apply H3; lia]..]);
    cbn [stx_Base stx_Actions stx_Auth] in *; refine (conj eq_refl (conj _ (conj Hc' (conj _ (conj _ _)))));
    try (intros; lia).
  - rewrite (stx_from_1 m) by (done || rewrite G1 by lia; done). by rewrite G1 by lia.
  - rewrite (stx_from_2 m c' v l), app_assoc by (done || (by apply G2) || (intros; rewrite G1 by lia; auto)). by rewrite <- !app_assoc.
  - intros. by rewrite G1 by lia.
  - rewrite (stx_from_3 m) by (done || (rewrite G3 by lia; done) || (intros; rewrite ?G1, ?G2 by lia; auto)). by rewrite G3 by lia.
  - intros. by rewrite G1 by lia.
  - intros. by rewrite G2 by lia.
Qed.

(** The message of a transaction is read back whole, and nothing else is
    read. *)
Lemma SerializeTx_exact B c : wf_bytes B ->
  fst (SerializeTx_UnmarshalCanotoFrom B) = Ok c <-> wf_stx c /\ B = SerializeTx_MarshalCanoto c.
Proof.
  intros Hw. split.
  - intros E. destruct (SerializeTx_UnmarshalCanotoFrom B) as [r rest] eqn:Eu. cbn in E. subst r.
    apply stx_from_sound in Eu as (_ & -> & Hc & _); try done; [split; [done|by apply stx_from_0]|].
    split_and!; [|by apply List.Forall_nil|by split; [apply List.Forall_nil|]].
    split_and!; [by apply (bool_decide_unpack _)|apply wf_zero_ID|done|by apply (bool_decide_unpack _)].
  - intros [Hc ->]. rewrite <- stx_from_0 by done. unfold SerializeTx_UnmarshalCanotoFrom.
    by rewrite (reads_all_fuel _ _ _ _ _ (stx_from_reads c Hc)).
Qed.

(** ** Transactions *)

Definition without_auth (c : SerializeTx) : SerializeTx := mkSerializeTx (stx_Base c) (stx_Actions c) [].

Lemma SerializeTx_MarshalCanoto_split c :
  SerializeTx_MarshalCanoto c = SerializeTx_MarshalCanoto (without_auth c) ++
    (if (length (stx_Auth c) =? 0)%nat then [] else SerializeTx_Auth_tag ++ AppendBytes (stx_Auth c)).
Proof. unfold SerializeTx_MarshalCanoto. cbn [without_auth stx_Base stx_Actions stx_Auth]. by rewrite app_nil_r, app_assoc. Qed.

(** The bytes before the auth are the serialization without it. *)
Lemma unsigned_bytes_ok c : wf_stx c ->
  unsigned_bytes (SerializeTx_MarshalCanoto c) (stx_Auth c) = Ok (SerializeTx_MarshalCanoto (without_auth c)).
Proof.
  intros (_ & _ & Ha). rewrite SerializeTx_MarshalCanoto_split. unfold unsigned_bytes.
  destruct (length (stx_Auth c) =? 0)%nat eqn:E; [by rewrite app_nil_r|].
  rewrite <- length_AppendBytes by done. set (u := SerializeTx_MarshalCanoto (without_auth c)).
  rewrite !length_app, !Nat2Z.inj_add.
  rewrite (proj2 (Z.ltb_ge _ _)) by lia. rewrite (proj2 (Z.ltb_ge _ _)) by lia. cbn [orb].
  replace (Z.to_nat _) with (length u) by lia. by rewrite take_app_length.
Qed.

Section parsed.
Context {A Auth : Type} `{Crypto}.
Variable (parser : TxTypeParser A Auth).

Lemma parse_actions_Forall2 l actions : forall i,
  parse_actions parser i l = Ok actions <-> Forall2 (fun b a => ParseAction parser b = Ok a) l actions.
Proof.
  revert actions. induction l as [|b l IH]; intros actions i; cbn [parse_actions].
  - split; [intros [= <-]; constructor|intros Hf; by inversion Hf].
  - split.
    + destruct (ParseAction parser b) as [a|e] eqn:E; [|done].
      destruct (parse_actions parser (i + 1) l) as [as'|e] eqn:El; cbn [mbind result_bind]; [|done].
      intros [= <-]. constructor; [done|]. by apply (IH as' (i + 1)).
    + intros Hf. inversion_clear Hf as [|? a ? as' Ha Hl]. rewrite Ha.
      by rewrite (proj2 (IH as' (i + 1)) Hl).
Qed.

(** The first action that is not parsed. *)
Lemma parse_actions_fail pre b post err : forall i,
  Forall (fun b => exists a, ParseAction parser b = Ok a) pre -> ParseAction parser b = Err err ->
  parse_actions parser i (pre ++ b :: post) =
    Err (Errorf_w ("failed to parse action " +:+ fmt_x b +:+ " at index " +:+ fmt_d (i + Z.of_nat (length pre)) +:+ ": ")
      err "").
Proof.
  induction pre as [|b' pre IH]; intros i Hp Hb; cbn [app parse_actions].
  - by rewrite Hb, Z.add_0_r.
  - inversion_clear Hp as [|? ? [a Ha] Hp']. rewrite Ha, IH by done. cbn [mbind result_bind length].
    by replace (i + 1 + Z.of_nat (length pre)) with (i + Z.of_nat (S (length pre))) by lia.
Qed.
End parsed.

(** A transaction that is made: its bytes are those of its message. *)
Lemma NewTransaction_eq {A} `{Serialized A} `{Crypto} base (actions : list A) auth :
  NewTransaction base actions auth =
    match actions_Bytes actions with
    | Panics err => Panics err
    | Returns bs =>
        let signed := SerializeTx_MarshalCanoto (mkSerializeTx base bs (Auth_Bytes auth)) in
        Returns (mkSignedTransaction
          (mkTransactionData base actions (SerializeTx_MarshalCanoto (mkSerializeTx base bs []))) auth
          signed (Z.of_nat (length signed)) (ToID signed))
    end.
Proof. unfold NewTransaction, NewTxData. by destruct (actions_Bytes actions). Qed.

(** Its size. *)
Lemma SerializeTx_size c : wf_stx c ->
  Z.of_nat (length (SerializeTx_MarshalCanoto c)) =
    (if Base_Size (stx_Base c) =? 0 then 0 else 1 + SizeUint (Base_Size (stx_Base c)) + Base_Size (stx_Base c))
    + foldr (fun b n => 1 + SizeBytes b + n) 0 (stx_Actions c)
    + (if (length (stx_Auth c) =? 0)%nat then 0 else 1 + SizeBytes (stx_Auth c)).
Proof.
  intros (Hb & Ha & Hau). unfold SerializeTx_MarshalCanoto. cbv zeta.
  rewrite !length_app, !Nat2Z.inj_add, Z.add_assoc. f_equal; [f_equal|].
  - case_match; [done|]. rewrite !length_app, !Nat2Z.inj_add, Base_MarshalCanotoInto_size by done.
    rewrite length_AppendUvarint; [change (Z.of_nat (length SerializeTx_Base_tag)) with 1; lia|].
    pose proof (Base_Size_bound _ Hb). unfold is_u64, two64. lia.
  - induction Ha as [|b l Hbb _ IH]; [done|]. unfold entries in *. cbn [map concat foldr].
    rewrite !length_app, !Nat2Z.inj_add, length_AppendBytes, IH by done.
    change (Z.of_nat (length SerializeTx_Actions_tag)) with 1. lia.
  - case_match; [done|]. rewrite length_app, Nat2Z.inj_add, length_AppendBytes by done. done.
Qed.
