(* ===== verification/Typing.v ===== *)
(** * The types of stored values

    The storage has one type of value per kind of key: eight bytes under a
    balance or share key, and under a market key the encoding of a market
    with that ID.  A judgement [yields] in the style of a type system says
    that an operation keeps a state typed and what it returns; its rules
    follow the shape of operations, so every operation of storage/, every
    action, the genesis and whole blocks are typed by them. *)

From S2P Require Import Prelude GoErrors Lib Consts Packer LinearCodec Store Permissions TState StorageKeys Balances Markets Ledger Controller BuyYes BuyNo BuySpec BuyFacts Trade CreateMarket Creation Footprint Genesis Transaction.
#[local] Open Scope Z_scope.

#[local] Existing Instance state_Immutable.

(** ** Typed values *)

Definition market_encoding (id : Z) (b : bytes) : Prop :=
  exists m, wf_market m /\ ID m = id /\ market_size m <= MaxMarketDataSize /\ b = market_bytes m.

Record typed_value (k b : bytes) : Prop := {
  typed_bytes : wf_bytes b;
  typed_balance a : wf_addr a -> k = BalanceKey a -> length b = 8%nat;
  typed_share id a t : wf_addr a -> k = ShareBalanceKey id a t -> length b = 8%nat;
  typed_market id : is_u64 id -> k = MarketKey id -> market_encoding id b;
}.

Lemma typed_BalanceKey a n : wf_addr a -> typed_value (BalanceKey a) (be_put 8 n).
Proof.
  intros [Ha _]. split; [apply be_put_wf|intros; apply length_be_put..|].
  intros id _ E. by apply BalanceKey_MarketKey in E.
Qed.

Lemma typed_ShareBalanceKey id a t n : wf_addr a -> typed_value (ShareBalanceKey id a t) (be_put 8 n).
Proof.
  intros [Ha _]. split; [apply be_put_wf|intros; apply length_be_put..|].
  intros id' _ E. symmetry in E. by apply MarketKey_ShareBalanceKey in E.
Qed.

Lemma typed_MarketKey m :
  wf_market m -> market_size m <= MaxMarketDataSize -> typed_value (MarketKey (ID m)) (market_bytes m).
Proof.
  intros Hw Hs. split.
  - by apply market_bytes_wf.
  - intros a [Ha _] E. symmetry in E. by apply BalanceKey_MarketKey in E.
  - intros id a t [Ha _] E. by apply MarketKey_ShareBalanceKey in E.
  - intros id Hid E. assert (is_u64 (ID m)) as Hm by apply Hw.
    apply MarketKey_inj in E; [|done..]. by exists m.
Qed.

(** ** The judgement *)

Section judgement.
Context {S : Type} (I : S -> Prop).

Definition yields {A} (m : GoM S A) (Q : A -> Prop) : Prop :=
  forall s r s', I s -> m s = (r, s') -> I s' /\ match r with Ok a => Q a | Err _ => True end.

Lemma yields_ret {A} (a : A) (Q : A -> Prop) : Q a -> yields (mret a) Q.
Proof. by intros Hq s r s' Hi [= <- <-]. Qed.

Lemma yields_fail {A} e (Q : A -> Prop) : yields (fail e) Q.
Proof. by intros s r s' Hi [= <- <-]. Qed.

Lemma yields_fail_if c e : yields (fail_if c e) (fun _ => c = false).
Proof. intros s r s' Hi. destruct c; by intros [= <- <-]. Qed.

Lemma yields_reading {A} (f : S -> result A) (Q : A -> Prop) :
  (forall s a, I s -> f s = Ok a -> Q a) -> yields (reading f) Q.
Proof. intros Hf s r s' Hi [= <- <-]. split; [done|]. destruct (f s) eqn:E; [by eapply Hf|done]. Qed.

Lemma yields_lift {A} (x : result A) (Q : A -> Prop) : (forall a, x = Ok a -> Q a) -> yields (lift x) Q.
Proof. intros Hx s r s' Hi [= <- <-]. split; [done|]. destruct x; [by apply Hx|done]. Qed.

Lemma yields_on_error {A} f (m : GoM S A) Q : yields m Q -> yields (on_error f m) Q.
Proof.
  intros Hm s r s' Hi. unfold on_error. destruct (m s) as [[a|e] s1] eqn:E; intros [= <- <-];
    by apply (Hm _ _ _ Hi E).
Qed.

Lemma yields_attempt {A} (m : GoM S A) Q :
  yields m Q -> yields (attempt m) (fun r => match r with Ok a => Q a | Err _ => True end).
Proof.
  intros Hm s r s' Hi. unfold attempt. destruct (m s) as [r1 s1] eqn:E. intros [= <- <-].
  by apply (Hm _ _ _ Hi E).
Qed.

Lemma yields_bind {A B} (m : GoM S A) (f : A -> GoM S B) (Q : A -> Prop) (R : B -> Prop) :
  yields m Q -> (forall a, Q a -> yields (f a) R) -> yields (m ≫= f) R.
Proof.
  intros Hm Hf s r s' Hi. unfold mbind, GoM_bind. destruct (m s) as [[a|e] s1] eqn:E; intros E'.
  - destruct (Hm _ _ _ Hi E) as [Hi1 Hq]. by eapply Hf.
  - simplify_eq. by apply (Hm _ _ _ Hi E).
Qed.

Lemma yields_kept {A} (m : GoM S A) Q s : yields m Q -> I s -> I (m s).2.
Proof. intros Hm Hi. destruct (m s) as [r s'] eqn:E. by apply (Hm _ _ _ Hi E). Qed.

Lemma yields_weaken {A} (m : GoM S A) (Q R : A -> Prop) :
  yields m Q -> (forall a, Q a -> R a) -> yields m R.
Proof.
  intros Hm Hr s r s' Hi E. destruct (Hm _ _ _ Hi E) as [Hi' Hq]. split; [done|].
  destruct r; [by apply Hr|done].
Qed.
End judgement.

(** Types an operation by its shape. *)
Ltac typing :=
  repeat match goal with
  | |- yields _ (mret _) _ => apply yields_ret
  | |- yields _ (fail _) _ => apply yields_fail
  | |- yields _ (fail_if _ _) _ => eapply yields_weaken; [apply yields_fail_if|]
  | |- yields _ (match ?x with _ => _ end) _ => destruct x
  | |- yields _ (let _ := _ in _) _ => cbv zeta
  | |- yields _ (on_error _ _) _ => apply yields_on_error
  end.

(** ** The storage *)

(** An invariant of stores that types what is read, and that inserts of
    typed values keep. *)
Class TypedBy (S : Type) `{Mutable S} (I : S -> Prop) := {
  typed_read s k b : I s -> GetValue s k = Ok b -> typed_value k b;
  typed_insert s k b s' : I s -> typed_value k b -> Insert k b s = (Ok tt, s') -> I s';
}.

Section storage.
Context {S : Type} `{MutableLaws S} (I : S -> Prop) `{!TypedBy S I} `{Hashing}.

Lemma yields_Insert k b : typed_value k b -> yields I (Insert k b) (fun _ => True).
Proof.
  intros Ht s [[]|e] s' Hi E; [split; [by eapply (typed_insert s k b)|done]|].
  by rewrite (insert_failed _ _ _ _ _ E).
Qed.

Lemma typed_wf_values s : I s -> wf_values s.
Proof. intros Hi k b E. by eapply typed_bytes, typed_read. Qed.

Lemma SetBalance_yields a v : wf_addr a -> yields I (SetBalance a v) (fun _ => True).
Proof. intros Ha. rewrite SetBalance_eq. by apply yields_Insert, typed_BalanceKey. Qed.

Lemma SetShareBalance_yields id a t v : wf_addr a -> yields I (SetShareBalance id a t v) (fun _ => True).
Proof. intros Ha. rewrite SetShareBalance_eq. by apply yields_Insert, typed_ShareBalanceKey. Qed.

Lemma SetMarket_yields m : wf_market m -> yields I (SetMarket m) (fun _ => True).
Proof.
  intros Hw s r s' Hi E. destruct (decide (market_size m <= MaxMarketDataSize)) as [Hs|Hs].
  - rewrite SetMarket_fits in E by done. exact (yields_Insert _ _ (typed_MarketKey m Hw Hs) _ _ _ Hi E).
  - destruct (SetMarket_overflow m s Hw ltac:(lia)) as (w & E' & _). rewrite E' in E. by simplify_eq.
Qed.

(** A market read back has the ID it was asked for. *)
Lemma GetMarket_typed s id m :
  is_u64 id -> I s -> GetMarket s id = Ok m ->
  wf_market m /\ ID m = id /\ market_size m <= MaxMarketDataSize.
Proof.
  intros Hid Hi E.
  destruct (GetMarket_sound s id m (fun b => typed_wf_values s Hi _ b) E) as (_ & rest & Er).
  destruct (typed_market _ _ (typed_read _ _ _ Hi Er) id Hid eq_refl) as (m' & Hw & Em & Hs & Eb).
  rewrite Eb, <- (app_nil_r (market_bytes m')) in Er.
  rewrite (GetMarket_stored _ _ _ _ Hw Er) in E. by simplify_eq.
Qed.

Lemma DeductBalance_yields a n : wf_addr a -> yields I (DeductBalance a n) (fun _ => True).
Proof.
  intros Ha. unfold DeductBalance. eapply yields_bind; [by apply yields_reading with (Q := fun _ => True)|].
  intros bal _. eapply yields_bind; [apply yields_fail_if|]. intros _ _. by apply SetBalance_yields.
Qed.

Lemma AddBalance_yields a n : wf_addr a -> yields I (AddBalance a n) (fun _ => True).
Proof.
  intros Ha. unfold AddBalance. eapply yields_bind; [by apply yields_reading with (Q := fun _ => True)|].
  intros bal _. by apply SetBalance_yields.
Qed.

(** ** The actions *)

Lemma settle_yields sd msg o actor m bal :
  wf_addr actor -> wf_market m -> yields I (settle sd msg o actor m bal) (fun out => out = []).
Proof.
  intros Ha Hm. unfold settle. eapply yields_bind.
  { apply yields_on_error, yields_Insert. by apply typed_BalanceKey. }
  intros _ _. eapply yields_bind; [by apply yields_attempt, yields_reading with (Q := fun _ => True)|].
  intros got _. eapply yields_bind with (Q := fun _ => True).
  { by typing. }
  intros shares _. eapply yields_bind; [by apply yields_on_error, SetShareBalance_yields|].
  intros _ _. eapply yields_bind; [by apply yields_on_error, SetMarket_yields, record_purchase_wf|].
  intros _ _. by apply yields_ret.
Qed.

Lemma buy_yields sd o ts actor :
  wf_addr actor -> is_u64 (o_market o) -> yields I (buy sd o ts actor) (fun out => out = []).
Proof.
  intros Ha Ho. intros s r s' Hi. rewrite buy_is_reference. revert s r s' Hi.
  fold (yields I (buy_reference sd (side_messages sd o ts actor) o ts actor) (fun out => out = [])).
  unfold buy_reference. do 2 (eapply yields_bind; [apply yields_fail_if|]; intros _ _).
  eapply yields_bind with (Q := wf_market).
  { apply yields_on_error, yields_reading. intros s m Hi E. by apply (GetMarket_typed s (o_market o)). }
  intros m Hm. do 3 (eapply yields_bind; [apply yields_fail_if|]; intros _ _).
  eapply yields_bind; [by apply yields_on_error, yields_reading with (Q := fun _ => True)|]. intros v _.
  eapply yields_bind; [by apply yields_on_error, yields_lift with (Q := fun _ => True)|]. intros bal _.
  eapply yields_bind; [apply yields_fail_if|]. intros _ _. by apply settle_yields.
Qed.

Lemma CreateMarket_yields cm rand_Read ts actor :
  wf_CreateMarket cm -> wf_random rand_Read -> wf_addr actor ->
  yields I (CreateMarket_Execute cm rand_Read ts actor) (fun _ => True).
Proof.
  intros Hcm Hr Ha. unfold CreateMarket_Execute.
  do 6 (eapply yields_bind; [apply yields_fail_if|]; intros _ _).
  eapply yields_bind with (Q := fun b => length b = IDLen /\ wf_bytes b).
  { apply yields_on_error, yields_lift. by intros b ->. }
  intros b [Hl Hw]. eapply yields_bind with (Q := is_u64).
  { apply yields_on_error, yields_lift. intros id. rewrite market_id_of_ok by done. intros [= <-].
    by apply random_id_range. }
  intros id Hid. cbv zeta. eapply yields_bind.
  { apply yields_on_error, SetMarket_yields. by apply new_market_wf. }
  intros _ _. by apply yields_ret.
Qed.
End storage.

(** ** Stores and views *)

Definition typed_state (state : bytes -> result bytes) : Prop :=
  forall k b, state k = Ok b -> typed_value k b.

#[export] Instance typed_store {S} `{MutableLaws S} : TypedBy S (fun s => typed_state (GetValue s)).
Proof.
  split; [intros s k b Hs; apply Hs|]. intros s k b s' Hs Ht E k' b' E'.
  destruct (decide (k = k')) as [<-|Hk].
  - rewrite (insert_get _ _ _ _ E) in E'. by simplify_eq.
  - rewrite (insert_get_ne _ _ _ _ _ E Hk) in E'. by apply Hs.
Qed.

(** A view is typed by what it would commit, in scope or not. *)
#[export] Instance typed_view : TypedBy TStateView (fun v => typed_state (view_value v)).
Proof.
  split.
  - intros v k b Hv. unfold GetValue. simpl. unfold TStateView_GetValue.
    destruct (checkScope v k Read); [apply Hv|done].
  - intros v k b v' Hv Ht E k' b'. rewrite (Insert_value _ _ _ _ k' E).
    case_decide; [intros [= <-]; by subst|apply Hv].
Qed.

(** ** Transactions *)

(** Actions and transactions whose fields hold values of their Go types. *)
Inductive typed_action `{Hashing} : Action -> Prop :=
| typed_buy sd o : is_u64 (o_market o) -> typed_action (buy_Action sd o)
| typed_create cm rand_Read : wf_CreateMarket cm -> wf_random rand_Read ->
    typed_action (CreateMarket_Action cm rand_Read).

Record typed_tx `{Hashing} (t : Transaction) : Prop := {
  typed_actions : Forall typed_action (tx_Actions t);
  typed_actor : wf_addr (tx_Actor t);
  typed_sponsor : wf_addr (tx_Sponsor t);
}.

Section blocks.
Context `{Hashing}.
Implicit Types v : TStateView.

Lemma typed_action_program a : typed_action a -> program_action a.
Proof. intros [sd o _|cm r _ _]; [apply buy_Action_program|constructor]. Qed.

Lemma typed_tx_program t : typed_tx t -> program_tx t.
Proof. intros [Ha _ _]. eapply Forall_impl; [exact typed_action_program|exact Ha]. Qed.

Lemma typed_action_yields a ts actor :
  typed_action a -> wf_addr actor ->
  yields (fun v => typed_state (view_value v)) (Execute a ts actor) (fun _ => True).
Proof.
  intros [sd o Ho|cm r Hcm Hr] Ha; [|exact (CreateMarket_yields _ cm r ts actor Hcm Hr Ha)].
  intros s r s' Hs. rewrite buy_Action_Execute. intros E.
  destruct (buy_yields _ sd o ts actor Ha Ho s r s' Hs E). split; [done|by destruct r].
Qed.

Lemma run_actions_typed actions ts actor : forall outputs v outputs' err v',
  Forall typed_action actions -> wf_addr actor -> typed_state (view_value v) ->
  run_actions actions ts actor outputs v = (outputs', err, v') -> typed_state (view_value v').
Proof.
  induction actions as [|a rest IH]; intros outputs v outputs' err v' Hp Ha Hv; simpl; [by intros [= _ _ <-]|].
  inversion_clear Hp as [|? ? H1 Hrest]. destruct (Execute a ts actor v) as [[out|e] v1] eqn:E;
    destruct (typed_action_yields a ts actor H1 Ha _ _ _ Hv E) as [Hv1 _]; intros Hr.
  - by eapply IH.
  - by simplify_eq.
Qed.

Lemma tx_Execute_typed t fee ts v r v' :
  typed_tx t -> consistent v -> typed_state (view_value v) ->
  tx_Execute New t fee ts v = (Ok r, v') -> typed_state (view_value v').
Proof.
  intros Ht Hc Hv E. pose proof (typed_tx_program _ Ht) as Hp. destruct Ht as [Ha Hac Hsp].
  assert (forall v1, DeductBalance (tx_Sponsor t) fee v = (Ok tt, v1) -> typed_state (view_value v1)) as Hfee.
  { intros v1 E1. by apply (DeductBalance_yields (fun v => typed_state (view_value v)) (tx_Sponsor t) fee Hsp _ _ _ Hv E1). }
  destruct (Success r) eqn:Er.
  - revert E. unfold tx_Execute. cbn [Deduct Controller_BalanceHandler]. unfold Controller_Deduct.
    destruct (DeductBalance (tx_Sponsor t) fee v) as [[[]|e] v1]; [|done].
    destruct (run_actions _ _ _ _ v1) as [[outs [e|]] v2] eqn:E2; intros [= <- <-]; [done|].
    eapply run_actions_typed; [exact Ha|exact Hac|by apply Hfee|exact E2].
  - destruct (tx_Execute_failed _ _ _ _ _ _ Hp Hc E Er) as (v1 & E1 & Hs). intros k b.
    rewrite (same_changes_value _ _ _ Hs). by apply Hfee.
Qed.

Lemma run_tx_typed t fee ts state block r block' :
  typed_tx t -> typed_state (block_value block state) ->
  run_tx New t fee ts state block = (r, block') -> typed_state (block_value block' state).
Proof.
  intros Ht Hb E. unfold run_tx in E.
  destruct (tx_StateKeys New t) as [keys|e]; [|by simplify_eq].
  set (v := TState_NewView block keys state) in *.
  destruct (tx_PreExecute New t fee ts v) as [[]|e]; [|by simplify_eq].
  destruct (tx_Execute New t fee ts v) as [[res|e] v'] eqn:Ex; simplify_eq; [|done].
  assert (typed_state (view_value v)) as Hv by apply Hb.
  pose proof (tx_Execute_typed t fee ts v res v' Ht (NewView_consistent _ _ _) Hv Ex) as Hv'.
  apply tx_Execute_steps in Ex as (v1 & Hs & Hv1); [|by apply typed_tx_program|apply NewView_consistent].
  assert (v_storage v' = state) as <-.
  { destruct (insert_steps_base _ _ Hs) as (_ & _ & E1), Hv1 as ((_ & _ & E2) & _). by rewrite E2, E1. }
  intros k b. rewrite Commit_value. apply Hv'.
Qed.

Lemma run_txs_typed txs ts state : forall block r block',
  Forall (fun tf => typed_tx tf.1) txs -> typed_state (block_value block state) ->
  run_txs New txs ts state block = (r, block') -> typed_state (block_value block' state).
Proof.
  induction txs as [|[t fee] rest IH]; intros block r block' Ht Hb; simpl; [by intros [= _ <-]|].
  inversion_clear Ht as [|? ? Ht1 Hrest]. simpl in Ht1.
  destruct (run_tx New t fee ts state block) as [[res|e] block1] eqn:E1;
    pose proof (run_tx_typed _ _ _ _ _ _ _ Ht1 Hb E1) as Hb1; intros E2.
  - destruct (run_txs New rest ts state block1) as [[rs|e] block2] eqn:E3; simplify_eq;
      by eapply (IH block1).
  - by simplify_eq.
Qed.

Lemma chain_typed state state' :
  typed_state state -> rtc (block_step typed_tx) state state' -> typed_state state'.
Proof.
  intros Hs Hr. induction Hr as [|state state1 state' Hstep _ IH]; [done|]. apply IH.
  destruct Hstep as [txs ts rs block Htx E]. eapply run_txs_typed; [exact Htx| |exact E].
  intros k b. exact (Hs k b).
Qed.
End blocks.

(** Reads of a typed state go right: what is there is decoded, and only a
    balance of exactly 0 is refused. *)
Lemma typed_market_read `{Hashing} (state : bytes -> result bytes) id b :
  typed_state state -> is_u64 id -> state (MarketKey id) = Ok b ->
  exists m, GetMarket state id = Ok m /\ ID m = id /\ wf_market m /\ market_size m <= MaxMarketDataSize.
Proof.
  intros Hs Hid E. destruct (typed_market _ _ (Hs _ _ E) id Hid eq_refl) as (m & Hw & Em & Hm & ->).
  exists m. split_and!; [|done..]. apply (GetMarket_stored _ _ _ []); [done|].
  rewrite app_nil_r. exact E.
Qed.

Lemma typed_balance_read (state : bytes -> result bytes) a b :
  typed_state state -> wf_addr a -> state (BalanceKey a) = Ok b ->
  exists v, is_u64 v /\ b = be_put 8 v /\
    GetBalance state a = if v =? 0
      then Err (Errorf_w "" ErrFieldNotPopulated ": Uint64 field is not populated") else Ok v.
Proof.
  intros Hs Ha E. destruct (Hs _ _ E) as [Hw Hl _ _]. specialize (Hl a Ha eq_refl).
  exists (be_get b). rewrite be_put8_get by done. split_and!; [by apply be_get_u64|done|].
  apply GetBalance_stored; [by apply be_get_u64|]. rewrite be_put8_get by done. exact E.
Qed.

(** ** The genesis *)

Section genesis.
Context {S : Type} `{MutableLaws S} (I : S -> Prop) `{!TypedBy S I} `{Hashing}.

Lemma default_allocate_yields allocs : forall supply,
  Forall wf_allocation allocs -> yields I (default_allocate New supply allocs) (fun _ => True).
Proof.
  induction allocs as [|alloc rest IH]; intros supply Hw; cbn [default_allocate]; [by apply yields_ret|].
  inversion_clear Hw as [|? ? [Ha _] Hrest].
  eapply yields_bind with (Q := fun _ => True); [by apply yields_lift|]. intros supply' _.
  eapply yields_bind; [by apply yields_on_error, AddBalance_yields|]. intros _ _. by apply IH.
Qed.

Lemma allocate_yields allocs : yields I (allocate New allocs) (fun _ => True).
Proof.
  induction allocs as [|alloc rest IH]; cbn [allocate]; [by apply yields_ret|].
  eapply yields_bind; [apply yields_lift; intros a Ea; exact (allocation_address_wf _ _ Ea)|].
  intros a Ha. eapply yields_bind; [by apply AddBalance_yields|]. intros _ _. apply IH.
Qed.
End genesis.
