(* ===== verification/Fees.v ===== *)
(** * Units and fees (hypersdk/chain/transaction.go, internal/fees, processor.go)

    What a transaction is charged: units in five dimensions, from its size,
    its actions and the chunks of its declared keys, times the unit prices;
    and the limit on the units of a block.  Each transaction of a block is
    admitted, charged and run by [process_tx]. *)

From S2P Require Import Prelude GoErrors Lib Rules Consts Packer LinearCodec Store Permissions TState StorageKeys Balances Markets Ledger Controller BuyYes BuyNo BuySpec BuyFacts Trade CreateMarket Footprint Transaction.
#[local] Open Scope Z_scope.

Definition ErrInvalidUnitsConsumed : error :=
  ErrVar "chain.ErrInvalidUnitsConsumed" "invalid units consumed".

(** The parts of a [fees.Manager] that charging uses: the price and the units
    consumed so far of each dimension.  (The Go type keeps them in one byte
    slice, with the windows that set the next block's prices.) *)
Record Manager := mkManager { unitPrices : Dimensions; lastConsumed : Dimensions }.

(** [Manager.Fee]: the sum over the dimensions. *)
Fixpoint fee_sum (fee : Z) (prices d : Dimensions) : result Z :=
  match prices, d with
  | price :: prices, units :: d =>
      contribution ← safemath_Mul price units;
      newFee ← safemath_Add contribution fee;
      fee_sum newFee prices d
  | _, _ => Ok fee
  end.

Definition Fee (f : Manager) (d : Dimensions) : result Z := fee_sum 0 (unitPrices f) d.

(** The check of [Manager.Consume]: the first dimension over its limit. *)
Fixpoint over_limit (i : Z) (consumed d l : Dimensions) : option Z :=
  match consumed, d, l with
  | c :: consumed, units :: d, limit :: l =>
      match safemath_Add c units with
      | Err _ => Some i
      | Ok total => if limit <? total then Some i else over_limit (i + 1) consumed d l
      end
  | _, _, _ => None
  end.

(** [Manager.Consume]: the offending dimension, or the units added. *)
Definition Consume (f : Manager) (d l : Dimensions) : option Z * Manager :=
  match over_limit 0 (lastConsumed f) d l with
  | Some i => (Some i, f)
  | None => (None, mkManager (unitPrices f) (zip_with Z.add (lastConsumed f) d))
  end.

Section units.
Context {BH R : Type} `{BalanceHandler BH} `{ChainRules R}.
Variable (bh : BH) (r : R).

(** The loop of [Transaction.Units] over the state keys. *)
Fixpoint storage_units (keys : list bytes) (ops : Uint64Operator * Uint64Operator * Uint64Operator)
  : result (Uint64Operator * Uint64Operator * Uint64Operator) :=
  match keys with
  | [] => Ok ops
  | k :: keys =>
      let '(readsOp, allocatesOp, writesOp) := ops in
      let readsOp := op_Add (GetStorageKeyReadUnits r) readsOp in
      let allocatesOp := op_Add (GetStorageKeyAllocateUnits r) allocatesOp in
      let writesOp := op_Add (GetStorageKeyWriteUnits r) writesOp in
      match MaxChunks k with
      | None => Err chain_ErrInvalidKeyValue
      | Some maxChunks =>
          storage_units keys
            (op_MulAdd maxChunks (GetStorageValueReadUnits r) readsOp,
             op_MulAdd maxChunks (GetStorageValueAllocateUnits r) allocatesOp,
             op_MulAdd maxChunks (GetStorageValueWriteUnits r) writesOp)
      end
  end.

(** [Transaction.Units]: the size of the serialized transaction and the
    compute units of its signature belong to the chain library. *)
Definition Units (size authComputeUnits : Z) (t : Transaction) : result Dimensions :=
  let computeOp := NewUint64Operator (GetBaseComputeUnits r) in
  let computeOp := foldl (fun o action => op_Add (ComputeUnits action) o) computeOp (tx_Actions t) in
  let computeOp := op_Add authComputeUnits computeOp in
  maxComputeUnits ← op_Value computeOp;
  stateKeys ← tx_StateKeys bh t;
  '(readsOp, allocatesOp, writesOp) ← storage_units (map fst (map_to_list stateKeys))
    (NewUint64Operator 0, NewUint64Operator 0, NewUint64Operator 0);
  reads ← op_Value readsOp;
  allocates ← op_Value allocatesOp;
  writes ← op_Value writesOp;
  Ok [size; maxComputeUnits; reads; allocates; writes].

(** One transaction of a block, from its keys to its commit: the units are
    consumed before it runs, and an error anywhere rejects the block.  The
    activation check of [PreExecute] comes before its fee. *)
Definition process_tx (size authComputeUnits : Z) (t : Transaction) (timestamp : Z)
    (storage : bytes -> result bytes) (feeManager : Manager) (ts : TState)
  : result Result * Manager * TState :=
  match tx_StateKeys bh t with
  | Err err => (Err err, feeManager, ts)
  | Ok _ =>
      match Units size authComputeUnits t with
      | Err err => (Err err, feeManager, ts)
      | Ok units =>
          match Consume feeManager units (GetMaxBlockUnits r) with
          | (Some d, feeManager) =>
              (Err (Errorf_w "" ErrInvalidUnitsConsumed (": " +:+ fmt_d d +:+ " too large")), feeManager, ts)
          | (None, feeManager) =>
              match Fee feeManager units with
              | Err err =>
                  (Err (if forallb (action_activated timestamp) (tx_Actions t) then err
                        else ErrActionNotActivated), feeManager, ts)
              | Ok fee =>
                  let '(result, ts) := run_tx bh t fee timestamp storage ts in (result, feeManager, ts)
              end
          end
      end
  end.
End units.

(** ** Units, exactly *)

(** The chunks a key declares, in its last two bytes. *)
Definition chunks (k : bytes) : Z := default 0 (MaxChunks k).

(** The units of a list of keys, of [key] each and [value] per chunk. *)
Definition key_units (key value : Z) (keys : list bytes) : Z :=
  foldr (fun k n => key + chunks k * value + n) 0 keys.

#[export] Instance key_units_Permutation key value : Proper (Permutation ==> eq) (key_units key value).
Proof. intros l1 l2 Hp. unfold key_units. induction Hp; simpl; lia. Qed.

Lemma MaxChunks_valid k : (2 <= length k)%nat -> MaxChunks k = Some (chunks k).
Proof. intros Hl. unfold chunks, MaxChunks. by rewrite (proj2 (Nat.ltb_ge _ _)). Qed.

Lemma chunks_nonneg k : wf_bytes k -> 0 <= chunks k.
Proof.
  intros Hw. unfold chunks, MaxChunks. case_match; simpl; [lia|]. apply be_get_bound.
  unfold wf_bytes in *. by apply Forall_drop.
Qed.

(** Rules whose storage units are [uint64]. *)
Record wf_rules {R} `{ChainRules R} (r : R) : Prop := {
  wfr_kr : is_u64 (GetStorageKeyReadUnits r);
  wfr_vr : is_u64 (GetStorageValueReadUnits r);
  wfr_ka : is_u64 (GetStorageKeyAllocateUnits r);
  wfr_va : is_u64 (GetStorageValueAllocateUnits r);
  wfr_kw : is_u64 (GetStorageKeyWriteUnits r);
  wfr_vw : is_u64 (GetStorageValueWriteUnits r);
}.

Section exact.
Context {R : Type} `{ChainRules R} (r : R) (Hr : wf_rules r).

Lemma storage_units_exact keys : forall o1 o2 o3 n1 n2 n3,
  Forall (fun k => (2 <= length k)%nat /\ wf_bytes k) keys ->
  op_holds o1 n1 -> op_holds o2 n2 -> op_holds o3 n3 ->
  exists p1 p2 p3, storage_units r keys (o1, o2, o3) = Ok (p1, p2, p3) /\
    op_holds p1 (n1 + key_units (GetStorageKeyReadUnits r) (GetStorageValueReadUnits r) keys) /\
    op_holds p2 (n2 + key_units (GetStorageKeyAllocateUnits r) (GetStorageValueAllocateUnits r) keys) /\
    op_holds p3 (n3 + key_units (GetStorageKeyWriteUnits r) (GetStorageValueWriteUnits r) keys).
Proof using Hr.
  induction keys as [|k keys IH]; intros o1 o2 o3 n1 n2 n3 Hk H1 H2 H3; cbn [storage_units key_units foldr].
  { rewrite !Z.add_0_r. by exists o1, o2, o3. }
  inversion_clear Hk as [|? ? [Hl Hw] Hks]. rewrite MaxChunks_valid by done.
  pose proof (chunks_nonneg k Hw) as Hc. destruct Hr.
  destruct (IH
    (op_MulAdd (chunks k) (GetStorageValueReadUnits r) (op_Add (GetStorageKeyReadUnits r) o1))
    (op_MulAdd (chunks k) (GetStorageValueAllocateUnits r) (op_Add (GetStorageKeyAllocateUnits r) o2))
    (op_MulAdd (chunks k) (GetStorageValueWriteUnits r) (op_Add (GetStorageKeyWriteUnits r) o3))
    (n1 + GetStorageKeyReadUnits r + chunks k * GetStorageValueReadUnits r)
    (n2 + GetStorageKeyAllocateUnits r + chunks k * GetStorageValueAllocateUnits r)
    (n3 + GetStorageKeyWriteUnits r + chunks k * GetStorageValueWriteUnits r))
    as (p1 & p2 & p3 & E & Hp1 & Hp2 & Hp3); [done|by apply op_holds_MulAdd; [apply op_holds_Add|..]..|].
  exists p1, p2, p3. split; [done|]. unfold key_units in *. rewrite !Z.add_assoc in *. auto.
Qed.
End exact.

(** ** The keys of one buy *)

Definition buy_keys (sd : side) (o : order) (actor : bytes) : list bytes :=
  [BalanceKey actor; MarketKey (o_market o); ShareBalanceKey (o_market o) actor (side_type sd);
   StateKeysBalance actor].

Lemma Keys_AddAll_dom l : forall k k' key,
  Keys_AddAll l k = Some k' -> is_Some (k' !! key) <-> is_Some (k !! key) \/ key ∈ map fst l.
Proof.
  induction l as [|[x p] l IH]; intros k k' key; cbn [Keys_AddAll map fst].
  { intros [= <-]. rewrite elem_of_nil. tauto. }
  unfold Keys_Add. destruct (negb (keys_Valid x)); [done|]. intros E.
  rewrite (IH _ _ key E), lookup_insert_is_Some, elem_of_cons.
  destruct (decide (x = key)) as [->|]; [tauto|]. split; [intros [[|[? ?]]|]; auto|].
  intros [?|[?|?]]; auto; congruence.
Qed.

Lemma buy_keys_distinct sd o actor : wf_addr actor -> NoDup (buy_keys sd o actor).
Proof.
  intros [Ha _]. unfold buy_keys. rewrite !list.NoDup_cons, !not_elem_of_cons.
  split_and!; try apply not_elem_of_nil; try apply NoDup_nil_2;
    solve [auto with vm|apply not_eq_sym; auto with vm].
Qed.

Lemma elem_of_map_keys (m : gmap bytes Z) k : k ∈ map fst (map_to_list m) <-> is_Some (m !! k).
Proof.
  rewrite list_elem_of_fmap. split.
  - intros ([k' p] & -> & Hin). apply elem_of_map_to_list in Hin. by eexists.
  - intros [p Hp]. exists (k, p). split; [done|]. by apply elem_of_map_to_list.
Qed.

Lemma buy_StateKeys_list `{Hashing} sd o actor :
  wf_addr actor ->
  exists keys, tx_StateKeys New (mkTransaction [buy_Action sd o] actor actor) = Ok keys /\
    map fst (map_to_list keys) ≡ₚ buy_keys sd o actor.
Proof.
  intros Ha. destruct (buys_StateKeys [(sd, o)] actor actor Ha Ha) as (keys & E & _).
  exists keys. split; [exact E|]. revert E. unfold tx_StateKeys. cbn [tx_Actions tx_Actor tx_Sponsor].
  destruct (Keys_AddAll _ _) as [ks|] eqn:Ek; [|done]. intros [= ->].
  apply NoDup_Permutation; [apply NoDup_fst_map_to_list|by apply buy_keys_distinct|].
  intros k. rewrite elem_of_map_keys, (Keys_AddAll_dom _ _ _ k Ek), lookup_empty, map_app, elem_of_app.
  cbn [map mbind list_bind fst snd]. rewrite app_nil_r, !elem_of_map_keys.
  cbn [SponsorStateKeys Controller_BalanceHandler].
  unfold Controller_SponsorStateKeys, buy_keys. rewrite !elem_of_cons, elem_of_nil.
  destruct sd; cbn [buy_Action StateKeys BuyYes_Action BuyNo_Action]; unfold BuyYes_StateKeys, BuyNo_StateKeys;
    cbn [by_MarketID bn_MarketID side_type]; rewrite !lookup_insert_is_Some, lookup_empty, !is_Some_alt;
    assert (forall x, k = x <-> x = k) as Hs by (split; congruence); rewrite !Hs;
    destruct (decide (BalanceKey actor = k)), (decide (MarketKey (o_market o) = k)),
      (decide (StateKeysBalance actor = k)); tauto.
Qed.

(** The chunks of each of the four keys. *)
Lemma chunks_last (k : bytes) n : length k = S (S n) -> chunks k = be_get (drop n k).
Proof.
  intros Hl. unfold chunks, MaxChunks. rewrite (proj2 (Nat.ltb_ge _ _)) by lia. simpl.
  f_equal. f_equal. lia.
Qed.

Lemma last_two (l : bytes) n : length l = S (S n) -> drop n l = [nth n l 0; nth (S n) l 0].
Proof.
  revert n. induction l as [|x l IH]; intros n Hl; [done|]. destruct n as [|n].
  - destruct l as [|y [|]]; done.
  - simpl in *. apply IH. lia.
Qed.

Lemma be_get_two x y : is_u8 y -> be_get [x; y] = 256 * x + y.
Proof.
  intros Hy. rewrite (be_get_cons x [y]) by (repeat constructor; apply Hy).
  change (be_get [y]) with (Z.lor (Z.shiftl y 0) 0). rewrite Z.lor_0_r, Z.shiftl_0_r.
  change (2 ^ (8 * Z.of_nat (length [y]))) with 256. lia.
Qed.

Definition address_tail (a : bytes) : Z := 256 * nth 31 a 0 + nth 32 a 0.

Lemma nth_u8 (a : bytes) i : wf_bytes a -> is_u8 (nth i a 0).
Proof.
  intros Hw. revert i. induction Hw as [|x l Hx _ IH]; intros [|i]; simpl; try done; apply IH.
Qed.

Lemma key_chunks id a t :
  wf_addr a -> is_u8 t ->
  chunks (BalanceKey a) = 1 /\ chunks (MarketKey id) = id mod 65536 /\
  chunks (ShareBalanceKey id a t) = 256 * nth 32 a 0 + t /\
  chunks (StateKeysBalance a) = address_tail a.
Proof.
  intros [Hl Hw] Ht. split_and!.
  - rewrite (chunks_last _ 34) by by rewrite length_BalanceKey.
    rewrite BalanceKey_eq by done. by rewrite app_assoc, drop_app_length' by (simpl; by rewrite Hl).
  - rewrite (chunks_last _ 7) by by rewrite length_MarketKey. rewrite MarketKey_eq.
    change (drop 7 ([1] ++ be_put 8 id)) with (be_put 2 id). by rewrite be_get_put.
  - rewrite (chunks_last _ 41) by by rewrite length_ShareBalanceKey.
    rewrite ShareBalanceKey_eq by done.
    assert (exists l z, [2] ++ be_put 8 id ++ a = l ++ [z] /\ length l = 41%nat /\ z = nth 32 a 0) as (l & z & E & E1 & E2).
    { destruct (exists_last (l := a)) as (l & z & ->); [by destruct a|]. exists ([2] ++ be_put 8 id ++ l), z.
      rewrite <- !app_assoc. unfold AddressLen in Hl. rewrite length_app in Hl. simpl in Hl. split_and!; [done| |].
      - rewrite !length_app, length_be_put. simpl. lia.
      - rewrite app_nth2 by lia. replace (32 - length l)%nat with 0%nat by lia. done. }
    replace ([2] ++ be_put 8 id ++ a ++ [t]) with (l ++ [z; t]).
    2: { change [z; t] with ([z] ++ [t]). rewrite app_assoc, <- E. by rewrite <- !app_assoc. }
    rewrite drop_app_length' by done. rewrite <- E2. by apply be_get_two.
  - rewrite (chunks_last _ 32) by by rewrite length_StateKeysBalance.
    rewrite StateKeysBalance_eq by done. change (drop 32 ([0] ++ a)) with (drop 31 a).
    rewrite (last_two a 31) by done. unfold address_tail. apply be_get_two. by apply nth_u8.
Qed.

(** ** Charging one buy *)

(** The chunks a transaction of one buy declares. *)
Definition declared_chunks (sd : side) (o : order) (actor : bytes) : Z :=
  1 + o_market o mod 65536 + (256 * nth 32 actor 0 + side_type sd) + address_tail actor.

(** Its units under the default rules. *)
Definition buy_units (size authComputeUnits c : Z) : Dimensions :=
  [size; 1 + authComputeUnits; 20 + 2 * c; 80 + 5 * c; 40 + 3 * c].

Lemma buy_keys_units key value sd o actor : wf_addr actor ->
  key_units key value (buy_keys sd o actor) = 4 * key + declared_chunks sd o actor * value.
Proof.
  intros Ha. assert (is_u8 (side_type sd)) as Ht by by destruct sd.
  destruct (key_chunks (o_market o) actor (side_type sd) Ha Ht) as (E1 & E2 & E3 & E4).
  unfold buy_keys, key_units. cbn [foldr]. rewrite E1, E2, E3, E4. unfold declared_chunks. lia.
Qed.

Lemma declared_chunks_range sd o actor : wf_addr actor -> 0 <= declared_chunks sd o actor < 2 ^ 20.
Proof.
  intros [_ Hw]. unfold declared_chunks, address_tail.
  pose proof (Z.mod_pos_bound (o_market o) 65536 ltac:(lia)).
  pose proof (nth_u8 actor 31 Hw) as [? ?]. pose proof (nth_u8 actor 32 Hw) as [? ?].
  assert (0 <= side_type sd <= 1) by (by destruct sd). lia.
Qed.

Lemma default_rules_wf : wf_rules NewDefaultRules.
Proof. split; by apply (bool_decide_unpack _). Qed.

Lemma buy_keys_wf sd o actor : wf_addr actor ->
  Forall (fun k => (2 <= length k)%nat /\ wf_bytes k) (buy_keys sd o actor).
Proof.
  intros [Hl Hw]. assert (is_u8 (side_type sd)) as Ht by by destruct sd.
  unfold buy_keys. rewrite BalanceKey_eq, MarketKey_eq, ShareBalanceKey_eq, StateKeysBalance_eq by done.
  repeat apply List.Forall_cons; [..|apply List.Forall_nil];
    (split; [rewrite !length_app, ?length_be_put, ?Hl; unfold AddressLen; simpl; lia|]);
    rewrite !wf_bytes_app; split_and!; first
    [exact Hw|apply be_put_wf|repeat (apply List.Forall_cons; [first [exact Ht|done]|]); apply List.Forall_nil].
Qed.

Lemma Units_buy `{Hashing} sd o actor size authComputeUnits :
  wf_addr actor -> is_u64 authComputeUnits ->
  Units New NewDefaultRules size authComputeUnits (mkTransaction [buy_Action sd o] actor actor) =
    if 1 + authComputeUnits <? two64
    then Ok (buy_units size authComputeUnits (declared_chunks sd o actor))
    else Err ErrOverflow.
Proof.
  intros Ha Hu. unfold Units. cbn [tx_Actions foldl].
  assert (ComputeUnits (buy_Action sd o) = 0) as -> by by destruct sd.
  assert (op_holds (op_Add authComputeUnits (op_Add 0 (NewUint64Operator (GetBaseComputeUnits NewDefaultRules))))
    (1 + 0 + authComputeUnits)) as Hc
    by (repeat apply op_holds_Add; [by apply op_holds_new|done|done]).
  rewrite (op_holds_Value _ _ Hc), Z.add_0_r. destruct (1 + authComputeUnits <? two64); [|done].
  cbn [mbind result_bind].
  destruct (buy_StateKeys_list sd o actor Ha) as (keys & -> & Hkeys). cbn [mbind result_bind].
  destruct (storage_units_exact NewDefaultRules default_rules_wf (map fst (map_to_list keys))
    (NewUint64Operator 0) (NewUint64Operator 0) (NewUint64Operator 0) 0 0 0)
    as (p1 & p2 & p3 & -> & H1 & H2 & H3).
  { rewrite Hkeys. by apply buy_keys_wf. }
  1-3: by apply op_holds_new.
  rewrite Hkeys, buy_keys_units in H1, H2, H3 by done. cbn [mbind result_bind].
  cbn [GetStorageKeyReadUnits GetStorageValueReadUnits GetStorageKeyAllocateUnits GetStorageValueAllocateUnits
    GetStorageKeyWriteUnits GetStorageValueWriteUnits Rules_ChainRules NewDefaultRules StorageKeyReadUnits
    StorageValueReadUnits StorageKeyAllocateUnits StorageValueAllocateUnits StorageKeyWriteUnits
    StorageValueWriteUnits] in H1, H2, H3.
  pose proof (declared_chunks_range sd o actor Ha) as Hr.
  rewrite (op_holds_Value _ _ H1), (op_holds_Value _ _ H2), (op_holds_Value _ _ H3).
  change (2 ^ 20) with 1048576 in Hr. unfold two64.
  rewrite !(proj2 (Z.ltb_lt _ _)) by lia. cbn [mbind result_bind]. unfold buy_units.
  set (c := declared_chunks sd o actor) in *.
  replace (0 + (4 * 5 + c * 2)) with (20 + 2 * c) by lia.
  replace (0 + (4 * 20 + c * 5)) with (80 + 5 * c) by lia.
  by replace (0 + (4 * 10 + c * 3)) with (40 + 3 * c) by lia.
Qed.

(** A dimension within its limit. *)
Lemma over_limit_none i consumed d l j c u m :
  over_limit i consumed d l = None -> Forall is_u64 d ->
  consumed !! j = Some c -> d !! j = Some u -> l !! j = Some m -> c + u <= m.
Proof.
  revert i consumed d l. induction j as [|j IH]; intros i [|c' cs] [|u' d] [|m' l] E Hd; try done;
    cbn [over_limit] in E; inversion_clear Hd as [|? ? Hu Hd']; rewrite safemath_Add_cases in E by done;
    (destruct (c' + u' <? two64); [|done]); destruct (Z.ltb_spec m' (c' + u')); try done.
  - simpl. intros [= <-] [= <-] [= <-]. lia.
  - simpl. by apply (IH (i + 1)).
Qed.
