(* ===== verification/FeeManager.v ===== *)
(** * The fee manager's bytes (hypersdk/internal/fees, internal/window)

    What the chain keeps of the fees between blocks: a time, and for each
    dimension a price, a window of ten seconds of consumption, and what the
    last block consumed.  [view] reads the prices and the consumption of
    [Fees.v] out of the bytes; [ComputeNext] makes the next block's manager. *)

From S2P Require Import Prelude GoErrors Lib Rules Consts Packer LinearCodec Store Permissions TState StorageKeys Balances Markets Ledger Controller BuyYes BuyNo BuySpec BuyFacts Trade CreateMarket Footprint Transaction Fees.
#[local] Open Scope Z_scope.

(** [binary.BigEndian.Uint64(b[start:])] and [PutUint64(b[start:], v)]. *)
Definition Uint64_at (start : nat) (b : bytes) : Z := be_get (take 8 (drop start b)).
Definition PutUint64_at (start : nat) (v : Z) (b : bytes) : bytes := copy_at start (be_put 8 v) b.

Definition MaxUint64 : Z := two64 - 1.

Definition ErrUnderflow : error := ErrVar "math.ErrUnderflow" "underflow".

Definition safemath_Sub (a b : Z) : result Z := if a <? b then Err ErrUnderflow else Ok (a - b).

(** What the Go runtime panics with. *)
Definition ErrDivide : error := ErrVar "runtime.divideError" "runtime error: integer divide by zero".

(** A division of [uint64]s. *)
Definition div_u64 (a b : Z) : outcome Z := if b =? 0 then Panics ErrDivide else Returns (a / b).

(** ** window.go *)

Definition WindowSize : Z := 10.
Definition WindowSliceSize : nat := 80.

Definition Roll (w : bytes) (roll : Z) : bytes :=
  let res := make_bytes WindowSliceSize in
  let bound := u64 (roll * 8) in
  if WindowSize <? roll then res else copy_at 0 (drop (Z.to_nat bound) w) res.

(** The loop of [Sum] over the slots left. *)
Fixpoint sum_slots (slots : list nat) (w : bytes) (sum : Z) : Z :=
  match slots with
  | [] => sum
  | i :: slots =>
      match safemath_Add sum (Uint64_at (8 * i) w) with
      | Err _ => MaxUint64
      | Ok sum => sum_slots slots w sum
      end
  end.

Definition Sum (w : bytes) : Z := sum_slots (seq 0 10) w 0.

Definition Update (w : bytes) (start : nat) (unitsConsumed : Z) : bytes :=
  let prevUnitsConsumed := Uint64_at start w in
  let totalUnitsConsumed :=
    match safemath_Add prevUnitsConsumed unitsConsumed with Err _ => MaxUint64 | Ok total => total end in
  PutUint64_at start totalUnitsConsumed w.

(** ** manager.go *)

Definition dimensionStateLen : nat := 8 + WindowSliceSize + 8.
Definition managerLen : nat := 8 + dimensionStateLen * FeeDimensions.

Definition NewManager (raw : bytes) : bytes :=
  if (length raw =? 0)%nat then make_bytes managerLen else raw.

Definition price_start (d : nat) : nat := 8 + dimensionStateLen * d.
Definition window_start (d : nat) : nat := 8 + dimensionStateLen * d + 8.
Definition consumed_start (d : nat) : nat := 8 + dimensionStateLen * d + 8 + WindowSliceSize.

Definition unitPrice (f : bytes) (d : nat) : Z := Uint64_at (price_start d) f.
Definition Window (f : bytes) (d : nat) : bytes := take WindowSliceSize (drop (window_start d) f).
Definition lastConsumed (f : bytes) (d : nat) : Z := Uint64_at (consumed_start d) f.

Definition setLastConsumed (f : bytes) (d : nat) (consumed : Z) : bytes :=
  PutUint64_at (consumed_start d) consumed f.

Definition UnitPrices (f : bytes) : Dimensions := map (unitPrice f) (seq 0 FeeDimensions).
Definition UnitsConsumed (f : bytes) : Dimensions := map (lastConsumed f) (seq 0 FeeDimensions).

(** The loop of [Fee]. *)
Fixpoint fee_from (f : bytes) (dims : list nat) (d : Dimensions) (fee : Z) : result Z :=
  match dims with
  | [] => Ok fee
  | i :: dims =>
      contribution ← safemath_Mul (unitPrice f i) (nth i d 0);
      newFee ← safemath_Add contribution fee;
      fee_from f dims d newFee
  end.

Definition Manager_Fee (f : bytes) (d : Dimensions) : result Z := fee_from f (seq 0 FeeDimensions) d 0.

(** The two loops of [Consume]: the dimension that is over, or the units
    added. *)
Fixpoint consume_check (f : bytes) (dims : list nat) (d l : Dimensions) : option nat :=
  match dims with
  | [] => None
  | i :: dims =>
      match safemath_Add (lastConsumed f i) (nth i d 0) with
      | Err _ => Some i
      | Ok consumed => if nth i l 0 <? consumed then Some i else consume_check f dims d l
      end
  end.

Fixpoint consume_commit (f : bytes) (dims : list nat) (d : Dimensions) : option nat * bytes :=
  match dims with
  | [] => (None, f)
  | i :: dims =>
      match safemath_Add (lastConsumed f i) (nth i d 0) with
      | Err _ => (Some i, f)
      | Ok consumed => consume_commit (setLastConsumed f i consumed) dims d
      end
  end.

Definition Manager_Consume (f : bytes) (d l : Dimensions) : option nat * bytes :=
  match consume_check f (seq 0 FeeDimensions) d l with
  | Some i => (Some i, f)
  | None => consume_commit f (seq 0 FeeDimensions) d
  end.

(** The step by which a price moves, at least 1. *)
Definition base_delta (previousPrice delta target changeDenom : Z) : outcome Z :=
  let x := u64 (previousPrice * delta) in
  match div_u64 x target with
  | Panics err => Panics err
  | Returns y =>
      match div_u64 y changeDenom with
      | Panics err => Panics err
      | Returns baseDelta => Returns (if baseDelta <? 1 then 1 else baseDelta)
      end
  end.

(** The window after [since] seconds, with the units of the parent block. *)
Definition next_window (previous : bytes) (previousConsumed since : Z) : bytes :=
  let newRollupWindow := Roll previous since in
  if since <? WindowSize
  then let slot := WindowSize - 1 - since in
       let start := Z.to_nat (slot * 8) in
       Update newRollupWindow start previousConsumed
  else newRollupWindow.

(** The price before the minimum is applied. *)
Definition moved_price (total previousPrice target changeDenom since : Z) : outcome Z :=
  if target <? total then
    match base_delta previousPrice (total - target) target changeDenom with
    | Panics err => Panics err
    | Returns baseDelta =>
        Returns (match safemath_Add previousPrice baseDelta with Err _ => MaxUint64 | Ok n => n end)
    end
  else if total <? target then
    match base_delta previousPrice (target - total) target changeDenom with
    | Panics err => Panics err
    | Returns baseDelta =>
        let baseDelta := if WindowSize <? since then u64 (baseDelta * (since / WindowSize)) else baseDelta in
        Returns (match safemath_Sub previousPrice baseDelta with Err _ => 0 | Ok n => n end)
    end
  else Returns previousPrice.

Definition computeNextPriceWindow (previous : bytes)
    (previousConsumed previousPrice target changeDenom minPrice since : Z) : outcome (Z * bytes) :=
  let newRollupWindow := next_window previous previousConsumed since in
  match moved_price (Sum newRollupWindow) previousPrice target changeDenom since with
  | Panics err => Panics err
  | Returns nextPrice => Returns (if nextPrice <? minPrice then minPrice else nextPrice, newRollupWindow)
  end.

(** What follows a slice of [raw] up to [high]. *)
Definition bounded {A} (high : nat) (raw : bytes) (k : outcome A) : outcome A :=
  if (length raw <? high)%nat then Panics (slice_bounds high (length raw)) else k.

Section next.
Context {R : Type} `{ChainRules R}.

(** The loop of [ComputeNext], filling [out]. *)
Fixpoint next_dimensions (f : bytes) (r : R) (since : Z) (dims : list nat) (out : bytes) : outcome bytes :=
  match dims with
  | [] => Returns out
  | i :: dims =>
      bounded (window_start i + WindowSliceSize) f (bounded (consumed_start i + 8) f
        match computeNextPriceWindow (Window f i) (lastConsumed f i) (unitPrice f i)
            (nth i (GetWindowTargetUnits r) 0) (nth i (GetUnitPriceChangeDenominator r) 0)
            (nth i (GetMinUnitPrice r) 0) since with
        | Panics err => Panics err
        | Returns (nextUnitPrice, nextUnitWindow) =>
            next_dimensions f r since dims
              (copy_at (window_start i) nextUnitWindow (PutUint64_at (price_start i) nextUnitPrice out))
        end)
  end.

Definition ComputeNext (f : bytes) (currTime : Z) (r : R) : outcome bytes :=
  bounded 8 f (
    let lastTimeSeconds := i64_of_u64 (Uint64_at 0 f) in
    let currTimeSeconds := Z.quot currTime 1000 in
    let since := u64 (currTimeSeconds - lastTimeSeconds) in
    next_dimensions f r since (seq 0 FeeDimensions)
      (PutUint64_at 0 (u64 currTimeSeconds) (make_bytes managerLen))).
End next.

(** The manager of [Fees.v] that the bytes hold. *)
Definition view (f : bytes) : Manager := mkManager (UnitPrices f) (UnitsConsumed f).

(** Bytes as [NewManager] and [ComputeNext] make them. *)
Record wf_manager (f : bytes) : Prop := {
  wfm_len : length f = managerLen;
  wfm_bytes : wf_bytes f;
}.

(** ** Slices of the bytes *)

Lemma lookup_copy_at off src dst k :
  (off + length src <= length dst)%nat ->
  copy_at off src dst !! k =
    if decide (off <= k < off + length src)%nat then src !! (k - off)%nat else dst !! k.
Proof.
  intros Hl. unfold copy_at. rewrite (take_ge src) by lia. case_decide as Hk.
  - rewrite lookup_app_r by (rewrite length_take; lia). rewrite length_take, Nat.min_l by lia.
    by rewrite lookup_app_l by lia.
  - destruct (decide (k < off)%nat).
    + rewrite lookup_app_l by (rewrite length_take; lia). by rewrite lookup_take_lt by lia.
    + rewrite lookup_app_r by (rewrite length_take; lia). rewrite length_take, Nat.min_l by lia.
      rewrite lookup_app_r by lia. rewrite lookup_drop. f_equal. lia.
Qed.

Lemma slice_copy_same off src dst n :
  (off + length src <= length dst)%nat -> n = length src ->
  take n (drop off (copy_at off src dst)) = src.
Proof.
  intros Hl ->. apply list_eq. intros k. destruct (decide (k < length src)%nat) as [Hk|Hk].
  - rewrite lookup_take_lt, lookup_drop, lookup_copy_at by lia. rewrite decide_True by lia. f_equal. lia.
  - rewrite lookup_take_ge by lia. symmetry. apply lookup_ge_None. lia.
Qed.

Lemma slice_copy_other i n off src dst :
  (off + length src <= length dst)%nat -> (i + n <= off \/ off + length src <= i)%nat ->
  take n (drop i (copy_at off src dst)) = take n (drop i dst).
Proof.
  intros Hl Hd. apply list_eq. intros k. destruct (decide (k < n)%nat) as [Hk|Hk].
  - rewrite !lookup_take_lt, !lookup_drop, lookup_copy_at by lia. by rewrite decide_False by lia.
  - by rewrite !lookup_take_ge by lia.
Qed.

Lemma copy_at_wf off src dst : wf_bytes src -> wf_bytes dst -> wf_bytes (copy_at off src dst).
Proof.
  intros Hs Hd. unfold copy_at. rewrite !wf_bytes_app.
  split_and!; [by apply Forall_take|by apply Forall_take|by apply Forall_drop].
Qed.

Lemma make_bytes_wf n : wf_bytes (make_bytes n).
Proof. by apply Forall_replicate. Qed.

Lemma take_drop_wf n i (b : bytes) : wf_bytes b -> wf_bytes (take n (drop i b)).
Proof. intros. by apply Forall_take, Forall_drop. Qed.

#[export] Hint Resolve copy_at_wf make_bytes_wf take_drop_wf : vm.

Lemma length_PutUint64_at start v b :
  (start + 8 <= length b)%nat -> length (PutUint64_at start v b) = length b.
Proof. intros. apply length_copy_at. by rewrite length_be_put. Qed.

Lemma PutUint64_at_wf start v b : wf_bytes b -> wf_bytes (PutUint64_at start v b).
Proof. intros. unfold PutUint64_at. auto with vm. Qed.

Lemma Uint64_at_range start b : wf_bytes b -> (start + 8 <= length b)%nat -> is_u64 (Uint64_at start b).
Proof.
  intros Hw Hl. apply be_get_u64; [auto with vm|]. rewrite length_take, length_drop. lia.
Qed.

Lemma Uint64_at_put_same start v b :
  (start + 8 <= length b)%nat -> is_u64 v -> Uint64_at start (PutUint64_at start v b) = v.
Proof.
  intros Hl Hv. unfold Uint64_at, PutUint64_at.
  by rewrite slice_copy_same, be_get_put8 by (rewrite ?length_be_put; done).
Qed.

Lemma Uint64_at_put_other i start v b :
  (start + 8 <= length b)%nat -> (i + 8 <= start \/ start + 8 <= i)%nat ->
  Uint64_at i (PutUint64_at start v b) = Uint64_at i b.
Proof.
  intros Hl Hd. unfold Uint64_at, PutUint64_at.
  by rewrite slice_copy_other by (rewrite ?length_be_put; done).
Qed.

#[export] Hint Resolve PutUint64_at_wf Uint64_at_range : vm.

(** ** The layout *)

Ltac offsets :=
  unfold price_start, window_start, consumed_start, dimensionStateLen, WindowSliceSize, managerLen,
    FeeDimensions, dimensionStateLen, WindowSliceSize in *; lia.

Lemma wf_NewManager : wf_manager (NewManager []).
Proof. split; [done|apply make_bytes_wf]. Qed.

Section layout.
Context (f : bytes) (Hf : wf_manager f).

Lemma unitPrice_range d : (d < FeeDimensions)%nat -> is_u64 (unitPrice f d).
Proof using Hf. intros. destruct Hf as [Hl Hw]. apply Uint64_at_range; [done|]. rewrite Hl. offsets. Qed.

Lemma lastConsumed_range d : (d < FeeDimensions)%nat -> is_u64 (lastConsumed f d).
Proof using Hf. intros. destruct Hf as [Hl Hw]. apply Uint64_at_range; [done|]. rewrite Hl. offsets. Qed.

Lemma Window_wf d : wf_bytes (Window f d).
Proof using Hf. destruct Hf. unfold Window. auto with vm. Qed.

Lemma length_Window d : (d < FeeDimensions)%nat -> length (Window f d) = WindowSliceSize.
Proof using Hf.
  intros. destruct Hf as [Hl Hw]. unfold Window. rewrite length_take, length_drop, Hl. offsets.
Qed.

(** Setting the consumption of a dimension changes nothing else. *)
Lemma setLastConsumed_spec d v :
  (d < FeeDimensions)%nat -> is_u64 v ->
  let g := setLastConsumed f d v in
  wf_manager g /\ Uint64_at 0 g = Uint64_at 0 f /\
  (forall i, unitPrice g i = unitPrice f i) /\ (forall i, Window g i = Window f i) /\
  (forall i, lastConsumed g i = if decide (i = d) then v else lastConsumed f i).
Proof using Hf.
  intros Hd Hv. destruct Hf as [Hl Hw]. assert (consumed_start d + 8 <= length f)%nat as Hr.
  { rewrite Hl. offsets. }
  unfold setLastConsumed. split_and!.
  - split; [by rewrite length_PutUint64_at|by apply PutUint64_at_wf].
  - apply Uint64_at_put_other; [done|offsets].
  - intros i. apply Uint64_at_put_other; [done|]. destruct (Nat.lt_trichotomy i d) as [|[->|]]; offsets.
  - intros i. unfold Window, PutUint64_at. apply slice_copy_other; [by rewrite length_be_put|].
    rewrite length_be_put. destruct (Nat.lt_trichotomy i d) as [|[->|]]; offsets.
  - intros i. case_decide as Hi; [subst; by apply Uint64_at_put_same|].
    apply Uint64_at_put_other; [done|offsets].
Qed.
End layout.

(** ** The bytes implement [Fees.v] *)

Lemma Manager_Fee_view f d : length d = FeeDimensions -> Manager_Fee f d = Fee (view f) d.
Proof. intros Hd. destruct d as [|? [|? [|? [|? [|? [|]]]]]]; done. Qed.

Lemma consume_check_view f d l :
  length d = FeeDimensions -> length l = FeeDimensions ->
  over_limit 0 (UnitsConsumed f) d l = Z.of_nat <$> consume_check f (seq 0 FeeDimensions) d l.
Proof.
  intros Hd Hl. destruct d as [|? [|? [|? [|? [|? [|]]]]]], l as [|? [|? [|? [|? [|? [|]]]]]]; try done.
  cbn [seq UnitsConsumed map FeeDimensions consume_check over_limit nth].
  repeat (destruct (safemath_Add _ _); [|done]; case_match; [done|]). done.
Qed.

Lemma safemath_Add_ok a b c : safemath_Add a b = Ok c -> c = a + b /\ a + b < two64.
Proof. unfold safemath_Add. destruct (Z.ltb_spec (two64 - 1 - b) a); [done|]. intros [= <-]. lia. Qed.

Lemma consume_check_none f d l dims :
  consume_check f dims d l = None ->
  Forall (fun i => lastConsumed f i + nth i d 0 < two64 /\ lastConsumed f i + nth i d 0 <= nth i l 0) dims.
Proof.
  induction dims as [|i dims IH]; simpl; [by constructor|].
  destruct (safemath_Add _ _) as [c|] eqn:E; [|done]. apply safemath_Add_ok in E as [-> Hlt].
  destruct (Z.ltb_spec (nth i l 0) (lastConsumed f i + nth i d 0)); [done|]. auto.
Qed.

Lemma dims_in_range : Forall (fun i => (i < FeeDimensions)%nat) (seq 0 FeeDimensions).
Proof. apply Forall_forall. intros i. rewrite in_seq. lia. Qed.

Lemma consume_commit_spec d dims : forall f,
  wf_manager f -> Forall is_u64 d -> List.NoDup dims -> Forall (fun i => (i < FeeDimensions)%nat) dims ->
  Forall (fun i => lastConsumed f i + nth i d 0 < two64) dims ->
  exists g, consume_commit f dims d = (None, g) /\ wf_manager g /\ Uint64_at 0 g = Uint64_at 0 f /\
    (forall i, unitPrice g i = unitPrice f i) /\ (forall i, Window g i = Window f i) /\
    (forall i, lastConsumed g i = if decide (i ∈ dims) then lastConsumed f i + nth i d 0 else lastConsumed f i).
Proof.
  induction dims as [|i dims IH]; intros f Hf Hd Hn Hlt Hsum; simpl.
  { by exists f. }
  inversion_clear Hn as [|? ? Hni Hnd]. inversion_clear Hlt as [|? ? Hi Hlt']. inversion_clear Hsum as [|? ? Hs Hsum'].
  pose proof (lastConsumed_range f Hf i Hi) as [Hc _].
  assert (is_u64 (nth i d 0)) as Hu.
  { destruct (nth_in_or_default i d 0) as [Hin| ->]; [|int_lia]. rewrite Forall_forall in Hd.
    by apply Hd. }
  rewrite safemath_Add_cases by done. rewrite (proj2 (Z.ltb_lt _ _)) by done.
  destruct (setLastConsumed_spec f Hf i (lastConsumed f i + nth i d 0)) as (Hw & Ht & Hp & Hwin & Hl);
    [done|int_lia|].
  destruct (IH (setLastConsumed f i (lastConsumed f i + nth i d 0))) as (g & E & Hg & Ht' & Hp' & Hwin' & Hl');
    [done..| |].
  { apply Forall_forall. intros j Hj. rewrite Hl. rewrite decide_False.
    - by rewrite Forall_forall in Hsum'; apply Hsum'.
    - by intros ->. }
  exists g. split_and!; [done|done|congruence|congruence|congruence|].
  intros j. rewrite Hl', Hl. destruct (decide (j = i)) as [->|Hne].
  - rewrite decide_False by (intros Hin; by apply Hni, list_elem_of_In). by rewrite decide_True by left.
  - destruct (decide (j ∈ dims)) as [Hin|Hin].
    + by rewrite decide_True by by right.
    + by rewrite decide_False by by intros [->|?]%elem_of_cons.
Qed.

(** [Consume] on the bytes is [Consume] of [Fees.v] on what they hold: the
    same refusals, and otherwise the units added and nothing else changed. *)
Lemma Manager_Consume_view f d l :
  wf_manager f -> length d = FeeDimensions -> length l = FeeDimensions -> Forall is_u64 d ->
  let '(over, g) := Manager_Consume f d l in
  Consume (view f) d l = (Z.of_nat <$> over, view g) /\ wf_manager g /\
  Uint64_at 0 g = Uint64_at 0 f /\ (forall i, Window g i = Window f i).
Proof.
  intros Hf Hd Hl Hu. unfold Manager_Consume, Consume. cbn [view Fees.lastConsumed unitPrices].
  rewrite (consume_check_view f d l Hd Hl).
  destruct (consume_check f (seq 0 FeeDimensions) d l) as [i|] eqn:E; [done|].
  apply consume_check_none in E.
  destruct (consume_commit_spec d (seq 0 FeeDimensions) f) as (g & Eg & Hg & Ht & Hp & Hw & Hc).
  { done. }
  { done. }
  { apply seq_NoDup. }
  { apply dims_in_range. }
  { eapply List.Forall_impl; [|exact E]. by intros i []. }
  rewrite Eg. split_and!; [|done..]. f_equal. unfold view, UnitPrices, UnitsConsumed. f_equal.
  - by apply map_ext.
  - destruct d as [|? [|? [|? [|? [|? [|]]]]]]; try done.
    cbn [seq FeeDimensions map zip_with]. by rewrite !Hc.
Qed.

(** ** The window *)

(** Its ten numbers. *)
Definition slot (w : bytes) (i : nat) : Z := Uint64_at (8 * i) w.

Record wf_window (w : bytes) : Prop := {
  wfw_len : length w = WindowSliceSize;
  wfw_bytes : wf_bytes w;
}.

Lemma slot_range w i : wf_window w -> (i < 10)%nat -> is_u64 (slot w i).
Proof. intros [Hl Hw] Hi. apply Uint64_at_range; [done|]. rewrite Hl. unfold WindowSliceSize. lia. Qed.

Lemma be_get_zeros n : be_get (replicate n 0) = 0.
Proof. induction n as [|n IH]; [done|]. cbn [replicate]. rewrite be_get_cons by by apply Forall_replicate. lia. Qed.

Lemma Uint64_at_zeros i n : Uint64_at i (make_bytes n) = 0.
Proof. unfold Uint64_at, make_bytes. by rewrite drop_replicate, take_replicate, be_get_zeros. Qed.

Lemma Roll_wf w roll : wf_window w -> 0 <= roll -> wf_window (Roll w roll).
Proof.
  intros [Hl Hw] Hr. unfold Roll, WindowSize. destruct (Z.ltb_spec 10 roll).
  { split; [done|apply make_bytes_wf]. }
  split; [|auto using Forall_drop with vm].
  rewrite length_copy_at; [done|]. rewrite length_drop, Hl. unfold WindowSliceSize, make_bytes.
  rewrite length_replicate. lia.
Qed.

(** Rolling drops the oldest seconds and adds empty ones. *)
Lemma slot_Roll w roll i : wf_window w -> 0 <= roll -> (i < 10)%nat ->
  slot (Roll w roll) i = if decide (Z.of_nat i + roll < 10) then slot w (i + Z.to_nat roll) else 0.
Proof.
  intros [Hl Hw] Hr Hi. unfold Roll, WindowSize, slot. destruct (Z.ltb_spec 10 roll).
  { rewrite decide_False by lia. apply Uint64_at_zeros. }
  replace (u64 (roll * 8)) with (roll * 8) by (symmetry; apply u64_small; int_lia).
  assert (length (drop (Z.to_nat (roll * 8)) w) = (80 - 8 * Z.to_nat roll)%nat) as Hd.
  { rewrite length_drop, Hl. unfold WindowSliceSize. lia. }
  assert (0 + length (drop (Z.to_nat (roll * 8)) w) <= length (make_bytes WindowSliceSize))%nat as Hb.
  { rewrite Hd. unfold make_bytes, WindowSliceSize. rewrite length_replicate. lia. }
  unfold Uint64_at. case_decide as Hc.
  - f_equal. apply list_eq. intros k. destruct (decide (k < 8)%nat); [|by rewrite !lookup_take_ge by lia].
    rewrite !lookup_take_lt, !lookup_drop, lookup_copy_at by (done || lia).
    rewrite decide_True by (rewrite Hd; lia). rewrite lookup_drop. f_equal. lia.
  - rewrite slice_copy_other by (rewrite ?Hd; lia || done). apply Uint64_at_zeros.
Qed.

(** [Sum] is the sum of the slots, up to the largest number. *)
Lemma sum_slots_exact w dims : forall sum,
  wf_window w -> Forall (fun i => (i < 10)%nat) dims -> is_u64 sum ->
  sum_slots dims w sum = Z.min MaxUint64 (foldl (fun n i => n + slot w i) sum dims).
Proof.
  induction dims as [|i dims IH]; intros sum Hw Hd Hs; cbn [sum_slots foldl].
  { unfold MaxUint64. int_lia. }
  inversion_clear Hd as [|? ? Hi Hd']. pose proof (slot_range w i Hw Hi) as Hsl. fold (slot w i).
  rewrite safemath_Add_cases by done. destruct (Z.ltb_spec (sum + slot w i) two64) as [Hlt|Hge].
  - apply IH; [done|done|int_lia].
  - assert (forall m, sum + slot w i <= m ->
      sum + slot w i <= foldl (fun n i => n + slot w i) m dims) as Hmono.
    { clear IH Hge. intros m Hm. revert m Hm. induction Hd' as [|j dims Hj _ IH]; intros m Hm; simpl; [done|].
      apply IH. pose proof (slot_range w j Hw Hj). int_lia. }
    specialize (Hmono _ (Z.le_refl _)). unfold MaxUint64. lia.
Qed.

Definition slots_total (w : bytes) : Z := foldl (fun n i => n + slot w i) 0 (seq 0 10).

Lemma Sum_exact w : wf_window w -> Sum w = Z.min MaxUint64 (slots_total w).
Proof.
  intros Hw. apply sum_slots_exact; [done| |int_lia]. apply Forall_forall. intros i. rewrite in_seq. lia.
Qed.

Lemma Update_wf w start units :
  wf_window w -> (start + 8 <= WindowSliceSize)%nat -> wf_window (Update w start units).
Proof.
  intros [Hl Hw] Hs. split; unfold Update.
  - by rewrite length_PutUint64_at by by rewrite Hl.
  - by apply PutUint64_at_wf.
Qed.

(** What the next window holds: the slots still in it, shifted, and the units
    of the parent block in the slot of its second. *)
Lemma next_window_wf w consumed since : wf_window w -> 0 <= since -> wf_window (next_window w consumed since).
Proof.
  intros Hw Hs. unfold next_window, WindowSize. pose proof (Roll_wf w since Hw Hs) as Hr.
  destruct (Z.ltb_spec since 10); [|done]. apply Update_wf; [done|]. unfold WindowSliceSize. lia.
Qed.

Lemma slot_next_window w consumed since i :
  wf_window w -> is_u64 consumed -> 0 <= since -> (i < 10)%nat ->
  slot (next_window w consumed since) i =
    let kept := if decide (Z.of_nat i + since < 10) then slot w (i + Z.to_nat since) else 0 in
    if decide (Z.of_nat i + since = 9) then Z.min MaxUint64 (kept + consumed) else kept.
Proof.
  intros Hw Hc Hs Hi. unfold next_window, WindowSize. pose proof (Roll_wf w since Hw Hs) as [Hrl Hrw].
  destruct (Z.ltb_spec since 10) as [Hlt|Hge].
  - unfold Update. set (start := Z.to_nat ((10 - 1 - since) * 8)).
    assert (start + 8 <= length (Roll w since))%nat as Hb.
    { rewrite Hrl. unfold start, WindowSliceSize. lia. }
    assert (start = (8 * Z.to_nat (9 - since))%nat) as Est by (unfold start; lia).
    pose proof (Uint64_at_range start _ Hrw Hb) as Hprev.
    cbv zeta. rewrite <- (slot_Roll w since i Hw Hs Hi). unfold slot. case_decide as Hd.
    + replace (8 * i)%nat with start by lia. rewrite safemath_Add_cases by done.
      destruct (Z.ltb_spec (Uint64_at start (Roll w since) + consumed) two64) as [Hlt'|Hge'].
      * rewrite Uint64_at_put_same by (done || int_lia). unfold MaxUint64. lia.
      * rewrite Uint64_at_put_same by (done || unfold MaxUint64; int_lia). unfold MaxUint64. lia.
    + apply Uint64_at_put_other; [done|lia].
  - cbv zeta. rewrite slot_Roll by done. by rewrite decide_False, (decide_False (P := _ = 9)) by lia.
Qed.

(** ** The next price *)

Lemma base_delta_cases price delta target denom :
  base_delta price delta target denom =
    if (target =? 0) || (denom =? 0) then Panics ErrDivide
    else Returns (Z.max 1 (u64 (price * delta) / target / denom)).
Proof.
  unfold base_delta, div_u64. destruct (target =? 0); [done|]. destruct (denom =? 0); [done|]. simpl.
  f_equal. destruct (Z.ltb_spec (u64 (price * delta) / target / denom) 1); lia.
Qed.

(** A price moves unless the window holds exactly the target, and then it
    must be possible to divide by the target and the denominator. *)
Lemma moved_price_panics total price target denom since :
  (exists err, moved_price total price target denom since = Panics err) <->
  total <> target /\ (target = 0 \/ denom = 0).
Proof.
  unfold moved_price. rewrite !base_delta_cases.
  destruct (Z.ltb_spec target total), (Z.ltb_spec total target), (Z.eqb_spec target 0), (Z.eqb_spec denom 0);
    cbn [orb]; split; try (intros [? ?]; done); try lia; eauto;
    try (intros _; eexists; reflexivity); intros _; lia.
Qed.

Lemma moved_price_law total price target denom since p :
  is_u64 price -> 0 <= target -> 0 <= denom -> 0 <= since ->
  moved_price total price target denom since = Returns p ->
  is_u64 p /\ (target < total -> Z.min MaxUint64 (price + 1) <= p) /\
  (total < target -> since <= WindowSize -> p <= Z.max 0 (price - 1)) /\ (total = target -> p = price).
Proof.
  intros Hp Ht Hd Hs. unfold moved_price. rewrite !base_delta_cases. unfold MaxUint64, WindowSize.
  destruct (Z.ltb_spec target total) as [Hlt|Hge].
  - destruct ((target =? 0) || (denom =? 0)) eqn:E0; [done|].
    apply orb_false_iff in E0 as [E1%Z.eqb_neq E2%Z.eqb_neq].
    set (b := Z.max 1 _). assert (1 <= b < two64) as Hb.
    { pose proof (u64_range (price * (total - target))) as [Hx Hx']. unfold b.
      pose proof (Z.div_le_upper_bound (u64 (price * (total - target))) target (two64 - 1)) as Hy.
      pose proof (Z.div_pos (u64 (price * (total - target))) target Hx ltac:(lia)) as Hy0.
      specialize (Hy ltac:(lia)). 
      pose proof (Z.div_le_upper_bound (u64 (price * (total - target)) / target) denom (two64 - 1) ltac:(lia)) as Hz.
      split; [lia|]. int_lia. }
    rewrite safemath_Add_cases by int_lia.
    destruct (Z.ltb_spec (price + b) two64); intros [= <-]; repeat split; int_lia.
  - destruct (Z.ltb_spec total target).
    + destruct ((target =? 0) || (denom =? 0)); [done|]. intros [= <-]. unfold safemath_Sub.
      destruct (Z.ltb_spec 10 since).
      * pose proof (u64_range (Z.max 1 (u64 (price * (target - total)) / target / denom) * (since / 10))).
        case_match eqn:E; destruct (Z.ltb_spec price (u64 (Z.max 1 (u64 (price * (target - total)) / target / denom) * (since / 10))));
          simplify_eq; repeat split; int_lia.
      * set (b := Z.max 1 _). assert (1 <= b) by (unfold b; lia).
        destruct (Z.ltb_spec price b); repeat split; int_lia.
    + intros [= <-]. repeat split; int_lia.
Qed.

(** ** The next manager *)

Lemma Window_wf_window f d : wf_manager f -> (d < FeeDimensions)%nat -> wf_window (Window f d).
Proof. intros Hf Hd. split; [by apply length_Window|by apply Window_wf]. Qed.

Lemma bounded_ok {A} high f (k : outcome A) : wf_manager f -> (high <= managerLen)%nat -> bounded high f k = k.
Proof. intros [Hl _] Hh. unfold bounded. by rewrite Hl, (proj2 (Nat.ltb_ge _ _)). Qed.

Lemma bounded_dimension {A} d f (k : outcome A) : wf_manager f -> (d < FeeDimensions)%nat ->
  bounded (window_start d + WindowSliceSize) f (bounded (consumed_start d + 8) f k) = k.
Proof. intros Hf Hd. by rewrite !bounded_ok by (done || offsets). Qed.

(** Rules whose fee parameters are five numbers each. *)
Record wf_fee_rules {R} `{ChainRules R} (r : R) : Prop := {
  wff_min : Forall is_u64 (GetMinUnitPrice r);
  wff_target : Forall is_u64 (GetWindowTargetUnits r);
  wff_denom : Forall is_u64 (GetUnitPriceChangeDenominator r);
}.

Lemma nth_u64 d i : Forall is_u64 d -> is_u64 (nth i d 0).
Proof.
  intros Hd. destruct (nth_in_or_default i d 0) as [Hin| ->]; [|int_lia].
  rewrite Forall_forall in Hd. by apply Hd.
Qed.

Section next_facts.
Context {R : Type} `{ChainRules R} (r : R) (Hr : wf_fee_rules r).

(** The price and the window of a dimension, [since] seconds later. *)
Definition next_price_window (f : bytes) (since : Z) (i : nat) : outcome (Z * bytes) :=
  computeNextPriceWindow (Window f i) (lastConsumed f i) (unitPrice f i)
    (nth i (GetWindowTargetUnits r) 0) (nth i (GetUnitPriceChangeDenominator r) 0)
    (nth i (GetMinUnitPrice r) 0) since.

Lemma next_price_window_wf f since i p w :
  wf_manager f -> (i < FeeDimensions)%nat -> 0 <= since ->
  next_price_window f since i = Returns (p, w) ->
  is_u64 p /\ nth i (GetMinUnitPrice r) 0 <= p /\ wf_window w.
Proof using Hr.
  intros Hf Hi Hs. unfold next_price_window, computeNextPriceWindow. cbv zeta. destruct Hr.
  pose proof (unitPrice_range f Hf i Hi) as Hp.
  destruct (moved_price _ _ _ _ _) as [m|] eqn:E; [|done]. intros [= <- <-].
  apply moved_price_law in E as (Hm & _); [|done|by apply nth_u64..|done].
  pose proof (nth_u64 (GetMinUnitPrice r) i wff_min0) as Hmin.
  split_and!; [..|by apply next_window_wf; [apply Window_wf_window|]].
  all: destruct (Z.ltb_spec m (nth i (GetMinUnitPrice r) 0)); done || lia.
Qed.

(** Filling in the dimensions one after the other. *)
Lemma next_dimensions_spec f since dims : forall out g,
  wf_manager f -> wf_manager out -> 0 <= since -> List.NoDup dims ->
  Forall (fun i => (i < FeeDimensions)%nat) dims ->
  next_dimensions f r since dims out = Returns g ->
  wf_manager g /\ Uint64_at 0 g = Uint64_at 0 out /\
  (forall i, lastConsumed g i = lastConsumed out i) /\
  (forall i, i ∉ dims -> unitPrice g i = unitPrice out i /\ Window g i = Window out i) /\
  (forall i, i ∈ dims -> next_price_window f since i = Returns (unitPrice g i, Window g i)).
Proof using Hr.
  induction dims as [|d dims IH]; intros out g Hf Ho Hs Hn Hlt; cbn [next_dimensions].
  { intros [= <-]. split_and!; try done. intros i Hi. by apply not_elem_of_nil in Hi. }
  inversion_clear Hn as [|? ? Hni Hnd]. inversion_clear Hlt as [|? ? Hd Hlt'].
  rewrite <- list_elem_of_In in Hni. rewrite bounded_dimension by done. fold (next_price_window f since d).
  destruct (next_price_window f since d) as [[p w]|] eqn:E; [|done].
  destruct (next_price_window_wf f since d p w Hf Hd Hs E) as (Hp & _ & Hwl & Hww).
  set (out1 := PutUint64_at (price_start d) p out). set (out2 := copy_at (window_start d) w out1).
  destruct Ho as [Hol How].
  assert (price_start d + 8 <= length out)%nat as Hb1 by (rewrite Hol; offsets).
  assert (length out1 = managerLen) as Hl1 by (unfold out1; by rewrite length_PutUint64_at).
  assert (window_start d + length w <= length out1)%nat as Hb2 by (rewrite Hl1, Hwl; offsets).
  assert (wf_manager out2) as Hw2.
  { split; [unfold out2; by rewrite length_copy_at|].
    apply copy_at_wf; [done|]. by apply PutUint64_at_wf. }
  assert (forall i, (i + 8 <= price_start d \/ window_start d + WindowSliceSize <= i)%nat ->
    Uint64_at i out2 = Uint64_at i out) as Hother.
  { intros i Hi. unfold Uint64_at, out2. rewrite slice_copy_other by (try done; rewrite Hwl; offsets).
    apply (Uint64_at_put_other i); [done|offsets]. }
  intros Eg. destruct (IH out2 g Hf Hw2 Hs Hnd Hlt' Eg) as (Hg & Ht & Hc & Hrest & Hin).
  assert (unitPrice out2 d = p) as Hpd.
  { unfold unitPrice, Uint64_at, out2. rewrite slice_copy_other by (try done; offsets).
    by apply (Uint64_at_put_same (price_start d)). }
  assert (Window out2 d = w) as Hwd by (unfold Window, out2; by apply slice_copy_same).
  assert (forall i, i <> d -> unitPrice out2 i = unitPrice out i /\ Window out2 i = Window out i) as Hne.
  { intros i Hi. split; [apply Hother; offsets|]. unfold Window, out2, out1, PutUint64_at.
    rewrite slice_copy_other by (try done; rewrite Hwl; offsets).
    apply slice_copy_other; [by rewrite length_be_put|rewrite length_be_put; offsets]. }
  split_and!; [done|rewrite Ht; apply Hother; offsets| | |].
  - intros i. rewrite Hc. apply Hother. destruct (Nat.lt_trichotomy i d) as [|[->|]]; offsets.
  - intros i Hi. apply not_elem_of_cons in Hi as [Hid Hi]. destruct (Hrest i Hi) as [-> ->]. by apply Hne.
  - intros i [->|Hi]%elem_of_cons; [|by apply Hin].
    destruct (Hrest d Hni) as [-> ->]. by rewrite E, Hpd, Hwd.
Qed.

(** The manager of the next block: its time, nothing consumed yet, and every
    dimension's next price and window. *)
Lemma ComputeNext_spec f now g :
  wf_manager f -> ComputeNext f now r = Returns g ->
  wf_manager g /\ Uint64_at 0 g = u64 (Z.quot now 1000) /\
  UnitsConsumed g = [0; 0; 0; 0; 0] /\
  forall i, (i < FeeDimensions)%nat ->
    next_price_window f (u64 (Z.quot now 1000 - i64_of_u64 (Uint64_at 0 f))) i =
      Returns (unitPrice g i, Window g i).
Proof using Hr.
  intros Hf E. unfold ComputeNext in E. cbv zeta in E. rewrite bounded_ok in E by (done || offsets). pose proof wf_NewManager as Hz.
  set (out := PutUint64_at 0 _ _) in E. change (NewManager []) with (make_bytes managerLen) in Hz.
  assert (0 + 8 <= length (make_bytes managerLen))%nat as Hb.
  { destruct Hz as [Hzl _]. rewrite Hzl. offsets. }
  assert (wf_manager out) as Ho.
  { destruct Hz. split; [unfold out; by rewrite length_PutUint64_at|by apply PutUint64_at_wf]. }
  destruct (next_dimensions_spec _ _ _ _ _ Hf Ho ltac:(apply u64_range) (seq_NoDup _ _)
    dims_in_range E) as (Hg & Ht & Hc & _ & Hin).
  split_and!; [done| | |].
  - rewrite Ht. apply Uint64_at_put_same; [done|apply u64_range].
  - unfold UnitsConsumed. cbn [seq FeeDimensions map]. rewrite !Hc. unfold lastConsumed, out.
    rewrite !Uint64_at_put_other by (done || offsets). by rewrite !Uint64_at_zeros.
  - intros i Hi. apply Hin. apply list_elem_of_In, in_seq. lia.
Qed.

(** Every price of the next manager is at least the minimum. *)
Lemma ComputeNext_floor f now g i :
  wf_manager f -> ComputeNext f now r = Returns g -> (i < FeeDimensions)%nat ->
  nth i (GetMinUnitPrice r) 0 <= unitPrice g i.
Proof using Hr.
  intros Hf E Hi. destruct (ComputeNext_spec f now g Hf E) as (_ & _ & _ & Hn).
  specialize (Hn i Hi). apply next_price_window_wf in Hn as (_ & Hmin & _); [done..|apply u64_range].
Qed.
End next_facts.

(** ** Panics *)

Lemma slot_le_Sum w i : wf_window w -> (i < 10)%nat -> slot w i <= Sum w.
Proof.
  intros Hw Hi. rewrite Sum_exact by done. pose proof (slot_range w i Hw Hi) as Hs.
  assert (slot w i <= slots_total w) as Hle; [|unfold MaxUint64; int_lia].
  unfold slots_total. cbn [seq foldl].
  pose proof (slot_range w 0 Hw ltac:(lia)); pose proof (slot_range w 1 Hw ltac:(lia));
  pose proof (slot_range w 2 Hw ltac:(lia)); pose proof (slot_range w 3 Hw ltac:(lia));
  pose proof (slot_range w 4 Hw ltac:(lia)); pose proof (slot_range w 5 Hw ltac:(lia));
  pose proof (slot_range w 6 Hw ltac:(lia)); pose proof (slot_range w 7 Hw ltac:(lia));
  pose proof (slot_range w 8 Hw ltac:(lia)); pose proof (slot_range w 9 Hw ltac:(lia)).
  do 10 (destruct i as [|i]; [int_lia|]). lia.
Qed.

(** What the last block consumed is in the next window for ten seconds. *)
Lemma consumed_in_window w consumed since :
  wf_window w -> is_u64 consumed -> 0 <= since < 10 -> consumed <= Sum (next_window w consumed since).
Proof.
  intros Hw Hc Hs. pose proof (next_window_wf w consumed since Hw ltac:(lia)) as Hn.
  pose proof (slot_le_Sum _ (Z.to_nat (9 - since)) Hn ltac:(lia)) as Hle.
  rewrite slot_next_window in Hle by (done || lia). cbv zeta in Hle.
  rewrite (decide_True (P := _ = 9)), decide_True in Hle by lia.
  pose proof (slot_range w (Z.to_nat (9 - since) + Z.to_nat since) Hw ltac:(lia)).
  unfold MaxUint64 in Hle. int_lia.
Qed.

Section panics.
Context {R : Type} `{ChainRules R} (r : R).

(** The only panic is the division, and one dimension is enough. *)
Lemma moved_price_panic total price target denom since err :
  moved_price total price target denom since = Panics err -> err = ErrDivide.
Proof.
  unfold moved_price. rewrite !base_delta_cases.
  destruct (target <? total), (total <? target), ((target =? 0) || (denom =? 0)); congruence.
Qed.

Lemma next_price_window_panic f since i err : next_price_window r f since i = Panics err -> err = ErrDivide.
Proof.
  unfold next_price_window, computeNextPriceWindow. cbv zeta.
  destruct (moved_price _ _ _ _ _) eqn:E; [done|]. intros [= <-]. by apply moved_price_panic in E.
Qed.

Lemma next_dimensions_panics f since dims i : forall out,
  wf_manager f -> Forall (fun i => (i < FeeDimensions)%nat) dims -> i ∈ dims -> (exists err, next_price_window r f since i = Panics err) ->
  next_dimensions f r since dims out = Panics ErrDivide.
Proof.
  induction dims as [|d dims IH]; intros out Hf Hd Hi [err E]; [by apply not_elem_of_nil in Hi|].
  inversion_clear Hd as [|? ? Hlt Hd']. cbn [next_dimensions]. rewrite bounded_dimension by done. fold (next_price_window r f since d).
  destruct (next_price_window r f since d) as [[p w]|err'] eqn:Ed.
  - apply elem_of_cons in Hi as [->|Hi]; [congruence|]. eauto.
  - by rewrite (next_price_window_panic _ _ _ _ Ed).
Qed.

Lemma zero_target_price f since i :
  wf_manager f -> (i < FeeDimensions)%nat -> nth i (GetWindowTargetUnits r) 0 = 0 -> lastConsumed f i <> 0 ->
  0 <= since < 10 -> exists err, next_price_window r f since i = Panics err.
Proof.
  intros Hf Hi Ht Hc Hs. pose proof (lastConsumed_range f Hf i Hi) as Hu.
  pose proof (consumed_in_window _ _ _ (Window_wf_window f i Hf Hi) Hu Hs) as Hsum.
  unfold next_price_window, computeNextPriceWindow. cbv zeta. rewrite Ht.
  generalize dependent (Sum (next_window (Window f i) (lastConsumed f i) since)). intros total Hsum.
  destruct (proj2 (moved_price_panics total (unitPrice f i) 0 (nth i (GetUnitPriceChangeDenominator r) 0) since))
    as [err ->]; [|by eexists]. split; [unfold is_u64 in Hu; lia|by left].
Qed.

(** Consuming anything in a dimension without a target stops the next
    computation of prices, for ten seconds. *)
Lemma zero_target_ComputeNext f now i :
  wf_manager f -> (i < FeeDimensions)%nat -> nth i (GetWindowTargetUnits r) 0 = 0 -> lastConsumed f i <> 0 ->
  0 <= Z.quot now 1000 - i64_of_u64 (Uint64_at 0 f) < 10 ->
  ComputeNext f now r = Panics ErrDivide.
Proof.
  intros Hf Hi Ht Hc Hs. unfold ComputeNext. cbv zeta. rewrite bounded_ok by (done || offsets).
  generalize (PutUint64_at 0 (u64 (Z.quot now 1000)) (make_bytes managerLen)).
  generalize dependent (Z.quot now 1000 - i64_of_u64 (Uint64_at 0 f)). intros since Hs out.
  rewrite u64_small by int_lia. apply (next_dimensions_panics f since _ i out); [done|apply dims_in_range| |by apply zero_target_price].
  apply list_elem_of_In, in_seq. lia.
Qed.

(** With a target and a denominator in every dimension, prices are always
    computed. *)
Lemma ComputeNext_returns f now :
  wf_manager f ->
  (forall i, (i < FeeDimensions)%nat ->
    nth i (GetWindowTargetUnits r) 0 <> 0 /\ nth i (GetUnitPriceChangeDenominator r) 0 <> 0) ->
  exists g, ComputeNext f now r = Returns g.
Proof.
  intros Hf Hnz. unfold ComputeNext. cbv zeta. rewrite bounded_ok by (done || offsets). generalize (PutUint64_at 0 (u64 (Z.quot now 1000)) (make_bytes managerLen)).
  generalize (u64 (Z.quot now 1000 - i64_of_u64 (Uint64_at 0 f))). intros since.
  pose proof dims_in_range as Hd. induction Hd as [|d dims Hd _ IH]; intros out; cbn [next_dimensions]; [by eexists|].
  rewrite bounded_dimension by done. fold (next_price_window r f since d). destruct (next_price_window r f since d) as [[p w]|err] eqn:E; [apply IH|].
  exfalso. unfold next_price_window, computeNextPriceWindow in E. cbv zeta in E.
  destruct (moved_price _ _ _ _ _) as [q|err'] eqn:Em; [done|].
  destruct (Hnz d Hd) as [H1 H2]. destruct (proj1 (moved_price_panics _ _ _ _ _) (ex_intro _ err' Em)) as [_ []]; done.
Qed.
End panics.
