(* ===== verification/Generate.v ===== *)
(** * Making transactions (hypersdk/chain/transaction.go)

    [GenerateTransaction], which the load generator and the workload call:
    it estimates the units of the actions, takes the fee of the estimate as
    the maximal fee, and has the transaction signed. *)

From S2P Require Import Prelude GoErrors Lib Rules Consts Packer LinearCodec Store Permissions TState StorageKeys Balances Markets Ledger Controller BuyYes BuyNo BuySpec BuyFacts Trade CreateMarket ActionBytes Footprint Canoto Vm KeyStore Transaction Wire Fees.
#[local] Open Scope Z_scope.

(** chain/base.go: a varint, a fixed integer, an ID, and three tags. *)
Definition MaxVarintLen : Z := 10.
Definition MaxBaseSize : Z := MaxVarintLen + 8 + 32 + MaxVarintLen + 3 * MaxVarintLen.

Abbreviation GeneratedTx := (SignedTransaction Action Auth).

(** [state.Keys.ChunkSizes], in the order of the map. *)
Definition ChunkSizes (k : gmap bytes Z) : option (list Z) := mapM MaxChunks (map fst (map_to_list k)).

(** fees/dimension.go *)
Fixpoint mul_sum (val : Z) (a b : Dimensions) : result Z :=
  match a, b with
  | x :: a, y :: b =>
      v ← safemath_Mul x y;
      newVal ← safemath_Add val v;
      mul_sum newVal a b
  | _, _ => Ok val
  end.

Definition MulSum (a b : Dimensions) : result Z := mul_sum 0 a b.

Section estimate.
Context {R F : Type} `{ChainRules R} `{AuthFactory F} `{Crypto}.
Variable (r : R).

(** The loop over the actions: bandwidth, chunks and compute units. *)
Fixpoint estimate_actions (authFactory : F) (actions : list Action) (bandwidth : Z) (maxChunks : list Z)
    (computeOp : Uint64Operator) : outcome (result (Z * list Z * Uint64Operator)) :=
  match actions with
  | [] => Returns (Ok (bandwidth, maxChunks, computeOp))
  | action :: actions =>
      match Action_Bytes action with
      | Panics err => Panics err
      | Returns actionBytes =>
          match ChunkSizes (StateKeys action (Address authFactory)) with
          | None => Returns (Err chain_ErrInvalidKeyValue)
          | Some chunks =>
              estimate_actions authFactory actions (u64 (bandwidth + Z.of_nat (length actionBytes)))
                (maxChunks ++ chunks) (op_Add (ComputeUnits action) computeOp)
          end
      end
  end.

(** The loop over the chunks. *)
Definition chunk_units (maxChunks : list Z) (ops : Uint64Operator * Uint64Operator * Uint64Operator)
  : Uint64Operator * Uint64Operator * Uint64Operator :=
  foldl (fun '(readsOp, allocatesOp, writesOp) c =>
    (op_MulAdd c (GetStorageValueReadUnits r) (op_Add (GetStorageKeyReadUnits r) readsOp),
     op_MulAdd c (GetStorageValueAllocateUnits r) (op_Add (GetStorageKeyAllocateUnits r) allocatesOp),
     op_MulAdd c (GetStorageValueWriteUnits r) (op_Add (GetStorageKeyWriteUnits r) writesOp))) ops maxChunks.

Definition EstimateUnits (actions : list Action) (authFactory : F) : outcome (result Dimensions) :=
  let computeOp := NewUint64Operator (GetBaseComputeUnits r) in
  match estimate_actions authFactory actions (u64 (MaxBaseSize + 1)) [] computeOp with
  | Panics err => Panics err
  | Returns (Err err) => Returns (Err err)
  | Returns (Ok (bandwidth, maxChunks, computeOp)) =>
      let '(authBandwidth, authCompute) := MaxUnits authFactory in
      let bandwidth := u64 (bandwidth + authBandwidth) in
      let maxChunks := maxChunks ++ GetSponsorStateKeysMaxChunks r in
      let computeOp := op_Add authCompute computeOp in
      Returns (
        compute ← op_Value computeOp;
        let '(readsOp, allocatesOp, writesOp) := chunk_units maxChunks
          (NewUint64Operator 0, NewUint64Operator 0, NewUint64Operator 0) in
        reads ← op_Value readsOp;
        allocates ← op_Value allocatesOp;
        writes ← op_Value writesOp;
        Ok [bandwidth; compute; reads; allocates; writes])
  end.

(** utils.UnixRMilli; [now] is not negative. *)
Definition UnixRMilli (now add : Z) : Z := let t := i64 (now + add) in t - Z.rem t 1000.

Definition GenerateTransactionManual (timestamp : Z) (actions : list Action) (authFactory : F) (maxFee : Z)
  : outcome (result GeneratedTx) :=
  match NewTxData (mkBase (UnixRMilli timestamp (GetValidityWindow r)) (GetChainID r) maxFee) actions with
  | Panics err => Panics err
  | Returns unsignedTx =>
      match TransactionData_Sign unsignedTx authFactory with
      | Panics err => Panics err
      | Returns (Err err) => Returns (Err (Errorf_w "" err ": failed to sign transaction"))
      | Returns (Ok tx) => Returns (Ok tx)
      end
  end.
End estimate.

Definition GenerateTransaction {R F} `{ChainRules R} `{AuthFactory F} `{Crypto} (GetRules : Z -> R)
    (unitPrices : Dimensions) (timestamp : Z) (actions : list Action) (authFactory : F)
  : outcome (result GeneratedTx) :=
  let rules := GetRules timestamp in
  match EstimateUnits rules actions authFactory with
  | Panics err => Panics err
  | Returns (Err err) => Returns (Err err)
  | Returns (Ok units) =>
      match MulSum unitPrices units with
      | Err err => Returns (Err err)
      | Ok maxFee => GenerateTransactionManual rules timestamp actions authFactory maxFee
      end
  end.

(** ** The estimate, exactly *)

(** Units of [key] each and [value] per chunk. *)
Definition listed_units (key value : Z) (chunks : list Z) : Z :=
  foldr (fun c n => key + c * value + n) 0 chunks.

#[export] Instance listed_units_Permutation key value : Proper (Permutation ==> eq) (listed_units key value).
Proof. intros l1 l2 Hp. unfold listed_units. induction Hp; simpl; lia. Qed.

Lemma chunk_units_exact {R} `{ChainRules R} (r : R) cs : forall o1 o2 o3 n1 n2 n3,
  wf_rules r -> Forall (fun c => 0 <= c) cs -> op_holds o1 n1 -> op_holds o2 n2 -> op_holds o3 n3 ->
  exists p1 p2 p3, chunk_units r cs (o1, o2, o3) = (p1, p2, p3) /\
    op_holds p1 (n1 + listed_units (GetStorageKeyReadUnits r) (GetStorageValueReadUnits r) cs) /\
    op_holds p2 (n2 + listed_units (GetStorageKeyAllocateUnits r) (GetStorageValueAllocateUnits r) cs) /\
    op_holds p3 (n3 + listed_units (GetStorageKeyWriteUnits r) (GetStorageValueWriteUnits r) cs).
Proof.
  induction cs as [|c cs IH]; intros o1 o2 o3 n1 n2 n3 Hr Hc H1 H2 H3; cbn [listed_units foldr].
  { rewrite !Z.add_0_r. by exists o1, o2, o3. }
  inversion_clear Hc as [|? ? Hc1 Hcs]. unfold chunk_units. cbn [foldl].
  destruct (IH
    (op_MulAdd c (GetStorageValueReadUnits r) (op_Add (GetStorageKeyReadUnits r) o1))
    (op_MulAdd c (GetStorageValueAllocateUnits r) (op_Add (GetStorageKeyAllocateUnits r) o2))
    (op_MulAdd c (GetStorageValueWriteUnits r) (op_Add (GetStorageKeyWriteUnits r) o3))
    (n1 + GetStorageKeyReadUnits r + c * GetStorageValueReadUnits r)
    (n2 + GetStorageKeyAllocateUnits r + c * GetStorageValueAllocateUnits r)
    (n3 + GetStorageKeyWriteUnits r + c * GetStorageValueWriteUnits r))
    as (p1 & p2 & p3 & E & Hp1 & Hp2 & Hp3);
    [done|done|by destruct Hr; apply op_holds_MulAdd; [apply op_holds_Add|..]..|].
  exists p1, p2, p3. split; [exact E|]. unfold listed_units in *. rewrite !Z.add_assoc in *. auto.
Qed.

(** The keys a buy declares itself: the sponsor's key is not among them. *)
Definition buy_own_keys (sd : side) (o : order) (actor : bytes) : list bytes :=
  [BalanceKey actor; MarketKey (o_market o); ShareBalanceKey (o_market o) actor (side_type sd)].

Lemma buy_own_keys_list `{Hashing} sd o actor :
  wf_addr actor -> map fst (map_to_list (StateKeys (buy_Action sd o) actor)) ≡ₚ buy_own_keys sd o actor.
Proof.
  intros Ha. apply NoDup_Permutation; [apply NoDup_fst_map_to_list| |].
  - pose proof (buy_keys_distinct sd o actor Ha) as Hd. unfold buy_keys in Hd.
    change (NoDup (buy_own_keys sd o actor ++ [StateKeysBalance actor])) in Hd.
    by apply list.NoDup_app in Hd as (Hd & _).
  - intros k. rewrite elem_of_map_keys. unfold buy_own_keys. rewrite !elem_of_cons, elem_of_nil.
    destruct sd; cbn [buy_Action StateKeys BuyYes_Action BuyNo_Action]; unfold BuyYes_StateKeys, BuyNo_StateKeys;
      cbn [by_MarketID bn_MarketID side_type]; rewrite !lookup_insert_is_Some, lookup_empty, !is_Some_alt;
      assert (forall x, k = x <-> x = k) as Hs by (split; congruence); rewrite !Hs;
      destruct (decide (BalanceKey actor = k)), (decide (MarketKey (o_market o) = k)); tauto.
Qed.

Lemma mapM_MaxChunks keys :
  Forall (fun k => (2 <= length k)%nat) keys -> mapM MaxChunks keys = Some (map chunks keys).
Proof. intros Hk. apply mapM_Some_2. induction Hk; constructor; [by apply MaxChunks_valid|done]. Qed.

Lemma buy_ChunkSizes `{Hashing} sd o actor :
  wf_addr actor -> exists cs, ChunkSizes (StateKeys (buy_Action sd o) actor) = Some cs /\
    cs ≡ₚ map chunks (buy_own_keys sd o actor).
Proof.
  intros Ha. pose proof (buy_own_keys_list sd o actor Ha) as Hp.
  exists (map chunks (map fst (map_to_list (StateKeys (buy_Action sd o) actor)))). split.
  - apply mapM_MaxChunks. rewrite Hp. pose proof (buy_keys_wf sd o actor Ha) as Hw.
    unfold buy_keys in Hw. change (Forall (fun k => (2 <= length k)%nat /\ wf_bytes k)
      (buy_own_keys sd o actor ++ [StateKeysBalance actor])) in Hw.
    apply Forall_app in Hw as [Hw _]. eapply Forall_impl; [|exact Hw]. by intros k [].
  - by rewrite Hp.
Qed.

Lemma own_chunks_nonneg `{Hashing} sd o actor :
  wf_addr actor -> Forall (fun c => 0 <= c) (map chunks (buy_own_keys sd o actor)).
Proof.
  intros Ha. apply list.Forall_forall. intros c Hin. apply list_elem_of_fmap in Hin as (k & -> & Hin).
  apply chunks_nonneg. pose proof (buy_keys_wf sd o actor Ha) as Hw. rewrite list.Forall_forall in Hw.
  apply Hw. unfold buy_own_keys, buy_keys in *. rewrite !elem_of_cons in *. tauto.
Qed.

(** The chunks the estimate counts for a buy: one for the sponsor. *)
Definition estimated_chunks (sd : side) (o : order) (actor : bytes) : Z :=
  1 + o_market o mod 65536 + (256 * nth 32 actor 0 + side_type sd) + 1.

Lemma estimated_chunks_range sd o actor : wf_addr actor -> 0 <= estimated_chunks sd o actor < 2 ^ 20.
Proof.
  intros [_ Hw]. unfold estimated_chunks.
  pose proof (Z.mod_pos_bound (o_market o) 65536 ltac:(lia)). pose proof (nth_u8 actor 32 Hw) as [? ?].
  assert (0 <= side_type sd <= 1) by (by destruct sd). lia.
Qed.

Lemma listed_own_keys key value sd o actor : wf_addr actor ->
  listed_units key value (map chunks (buy_own_keys sd o actor) ++ [1]) =
    4 * key + estimated_chunks sd o actor * value.
Proof.
  intros Ha. assert (is_u8 (side_type sd)) as Ht by by destruct sd.
  destruct (key_chunks (o_market o) actor (side_type sd) Ha Ht) as (E1 & E2 & E3 & _).
  unfold buy_own_keys, listed_units. cbn [map app foldr]. rewrite E1, E2, E3. unfold estimated_chunks. lia.
Qed.

Lemma buy_bytes_good `{Hashing} sd o :
  exists b, Action_Bytes (buy_Action sd o) = Returns b /\ good_bytes b /\ length b = 24%nat.
Proof.
  assert (forall i a p, good_bytes (order_bytes i a p) /\ length (order_bytes i a p) = 24%nat) as Hb.
  { intros i a p. pose proof (length_order_bytes i a p) as Hl. split; [split; [|by rewrite Hl]|done].
    unfold order_bytes. rewrite !wf_bytes_app. auto with vm. }
  destruct sd; eexists; (split; [reflexivity|]); [rewrite BuyYes_Bytes_eq|rewrite BuyNo_Bytes_eq]; apply Hb.
Qed.

Lemma length_buy_bytes `{Hashing} sd o : exists b, Action_Bytes (buy_Action sd o) = Returns b /\ length b = 24%nat.
Proof. destruct (buy_bytes_good sd o) as (b & E & _ & Hl). eauto. Qed.

(** Under the default rules; [bw] and [cu] bound the signature. *)
Lemma EstimateUnits_buy `{Hashing} {F} `{AuthFactory F} (f : F) sd o bw cu :
  wf_addr (Address f) -> MaxUnits f = (bw, cu) -> 0 <= bw -> 0 <= cu -> bw < two63 -> 1 + cu < two64 ->
  EstimateUnits NewDefaultRules [buy_Action sd o] f =
    Returns (Ok (buy_units (115 + bw) cu (estimated_chunks sd o (Address f)))).
Proof.
  intros Ha Hm Hb Hc Hb63 Hcu. unfold EstimateUnits. cbn [estimate_actions].
  destruct (length_buy_bytes sd o) as (b & -> & Hl).
  destruct (buy_ChunkSizes sd o (Address f) Ha) as (cs & -> & Hcs). rewrite Hm, Hl.
  assert (ComputeUnits (buy_Action sd o) = 0) as -> by by destruct sd.
  assert (op_holds (op_Add cu (op_Add 0 (NewUint64Operator (GetBaseComputeUnits NewDefaultRules)))) (1 + 0 + cu))
    as Hop by (repeat apply op_holds_Add; [by apply op_holds_new|done|int_lia]).
  rewrite (op_holds_Value _ _ Hop), (proj2 (Z.ltb_lt _ _)) by lia.
  change (GetSponsorStateKeysMaxChunks NewDefaultRules) with [1]. cbn [app].
  assert (Forall (fun c => 0 <= c) (cs ++ [1])) as Hpos.
  { rewrite Hcs. apply Forall_app. split; [by apply own_chunks_nonneg|by repeat constructor]. }
  destruct (chunk_units_exact NewDefaultRules (cs ++ [1]) (NewUint64Operator 0) (NewUint64Operator 0)
    (NewUint64Operator 0) 0 0 0 default_rules_wf Hpos) as (p1 & p2 & p3 & -> & H1 & H2 & H3);
    [by apply op_holds_new..|].
  rewrite Hcs, listed_own_keys in H1, H2, H3 by done.
  change (GetStorageKeyReadUnits NewDefaultRules) with 5 in H1.
  change (GetStorageValueReadUnits NewDefaultRules) with 2 in H1.
  change (GetStorageKeyAllocateUnits NewDefaultRules) with 20 in H2.
  change (GetStorageValueAllocateUnits NewDefaultRules) with 5 in H2.
  change (GetStorageKeyWriteUnits NewDefaultRules) with 10 in H3.
  change (GetStorageValueWriteUnits NewDefaultRules) with 3 in H3.
  pose proof (estimated_chunks_range sd o (Address f) Ha) as Hr. change (2 ^ 20) with 1048576 in Hr.
  set (c := estimated_chunks sd o (Address f)) in *. cbn [mbind result_bind].
  rewrite (op_holds_Value _ _ H1), (op_holds_Value _ _ H2), (op_holds_Value _ _ H3).
  rewrite !(proj2 (Z.ltb_lt _ _)) by (unfold two64; lia). cbn [mbind result_bind].
  change (u64 (u64 (MaxBaseSize + 1) + Z.of_nat 24)) with 115.
  rewrite (u64_small (115 + bw)) by (unfold is_u64, two64, two63 in *; lia).
  unfold buy_units. rewrite Z.add_0_r.
  replace (0 + (4 * 5 + c * 2)) with (20 + 2 * c) by lia.
  replace (0 + (4 * 20 + c * 5)) with (80 + 5 * c) by lia.
  by replace (0 + (4 * 10 + c * 3)) with (40 + 3 * c) by lia.
Qed.

(** What a generated transaction is made of. *)
Lemma GenerateTransaction_inv {R F} `{ChainRules R} `{AuthFactory F} `{Crypto} (GetRules : Z -> R) prices now
    actions (f : F) tx :
  GenerateTransaction GetRules prices now actions f = Returns (Ok tx) ->
  exists units maxFee bs auth, EstimateUnits (GetRules now) actions f = Returns (Ok units) /\
    MulSum prices units = Ok maxFee /\ actions_Bytes actions = Returns bs /\
    let base := mkBase (UnixRMilli now (GetValidityWindow (GetRules now))) (GetChainID (GetRules now)) maxFee in
    Sign f (SerializeTx_MarshalCanoto (mkSerializeTx base bs [])) = Ok auth /\
    NewTransaction base actions auth = Returns tx.
Proof.
  unfold GenerateTransaction, GenerateTransactionManual, NewTxData, TransactionData_Sign. cbv zeta.
  destruct (EstimateUnits _ _ _) as [[d|e]|e]; [|done..].
  destruct (MulSum _ _) as [maxFee|] eqn:Em; [|done]. destruct (actions_Bytes actions) as [bs|]; [|done].
  cbn [td_unsignedBytes td_Base td_Actions]. destruct (Sign _ _) as [auth|] eqn:Es; [|done].
  destruct (NewTransaction _ _ _) as [tx'|] eqn:En; [|done]. intros [= <-].
  exists d, maxFee, bs, auth. by split_and!.
Qed.

Lemma NewTransaction_data {A} `{Serialized A} `{Crypto} base (actions : list A) auth tx :
  NewTransaction base actions auth = Returns tx ->
  td_Actions (st_Data tx) = actions /\ td_Base (st_Data tx) = base /\ st_Auth tx = auth.
Proof. rewrite NewTransaction_eq. destruct (actions_Bytes actions); [|done]. by intros [= <-]. Qed.

Lemma GenerateTransaction_actions {R F} `{ChainRules R} `{AuthFactory F} `{Crypto} (GetRules : Z -> R) prices now
    actions (f : F) tx :
  GenerateTransaction GetRules prices now actions f = Returns (Ok tx) -> td_Actions (st_Data tx) = actions.
Proof.
  intros (d & fee & bs & auth & _ & _ & _ & _ & E)%GenerateTransaction_inv. by apply NewTransaction_data in E as [? _].
Qed.

Lemma mul_sum_bound a b : forall val fee,
  is_u64 val -> Forall is_u64 a -> Forall is_u64 b -> mul_sum val a b = Ok fee -> is_u64 fee.
Proof.
  revert b. induction a as [|x a IH]; intros [|y b] val fee Hv Ha Hb; cbn [mul_sum]; [by intros [= <-]..|].
  inversion_clear Ha as [|? ? Hx Ha']. inversion_clear Hb as [|? ? Hy Hb'].
  destruct (safemath_Mul x y) as [v|] eqn:E1; cbn [mbind result_bind]; [|done].
  rewrite safemath_Mul_cases in E1 by (done || apply Hx).
  destruct (Z.ltb_spec (x * y) two64); [|done]. injection E1 as <-.
  assert (is_u64 (x * y)) as Hxy by (split; [apply Z.mul_nonneg_nonneg; [apply Hx|apply Hy]|done]).
  destruct (safemath_Add val (x * y)) as [v|] eqn:E2; cbn [mbind result_bind]; [|done].
  rewrite safemath_Add_cases in E2 by done. destruct (Z.ltb_spec (val + x * y) two64); [|done].
  injection E2 as <-. apply IH; [|done..]. unfold is_u64 in *. lia.
Qed.

Section estimate_bounds.
Context {R F : Type} `{ChainRules R} `{AuthFactory F}.

(** Rules and signatures whose numbers are [uint64]. *)
Record wf_generator (r : R) (f : F) : Prop := {
  wfg_rules : wf_rules r;
  wfg_base : is_u64 (GetBaseComputeUnits r);
  wfg_sponsor : Forall (fun c => 0 <= c) (GetSponsorStateKeysMaxChunks r);
  wfg_compute : is_u64 (snd (MaxUnits f));
}.

Lemma op_Value_u64 o n v : op_holds o n -> op_Value o = Ok v -> is_u64 v.
Proof.
  intros Ho. rewrite (op_holds_Value _ _ Ho). destruct (Z.ltb_spec n two64); [|done].
  intros [= <-]. destruct Ho. by split.
Qed.

(** Whatever the loop over the actions found, the estimate does not panic,
    and its numbers are [uint64]. *)
Lemma EstimateUnits_from r f actions bw cs op n :
  wf_generator r f ->
  estimate_actions f actions (u64 (MaxBaseSize + 1)) [] (NewUint64Operator (GetBaseComputeUnits r)) =
    Returns (Ok (bw, cs, op)) ->
  Forall (fun c => 0 <= c) cs -> op_holds op n ->
  exists d, EstimateUnits r actions f = Returns d /\
    match d with Ok d => Forall is_u64 d /\ nth 0 d 0 = u64 (bw + fst (MaxUnits f)) | Err _ => True end.
Proof.
  intros [Hr Hb Hs Hc] E Hcs Hop. unfold EstimateUnits. rewrite E.
  destruct (MaxUnits f) as [abw cu]. cbn [fst snd] in *. eexists. split; [reflexivity|].
  pose proof (op_holds_Add _ _ cu Hop Hc) as H0'.
  destruct (op_Value (op_Add cu _)) as [compute|] eqn:E0; cbn [mbind result_bind]; [|done].
  destruct (chunk_units_exact r (cs ++ GetSponsorStateKeysMaxChunks r) (NewUint64Operator 0) (NewUint64Operator 0)
    (NewUint64Operator 0) 0 0 0 Hr (proj2 (Forall_app _ _ _) (conj Hcs Hs))) as (p1 & p2 & p3 & -> & H1 & H2 & H3);
    [by apply op_holds_new..|].
  destruct (op_Value p1) eqn:E1; cbn [mbind result_bind]; [|done].
  destruct (op_Value p2) eqn:E2; cbn [mbind result_bind]; [|done].
  destruct (op_Value p3) eqn:E3; cbn [mbind result_bind]; [|done]. split; [|done].
  repeat apply List.Forall_cons; try apply List.Forall_nil; first [apply u64_range|eauto using op_Value_u64].
Qed.

(** Without actions. *)
Lemma EstimateUnits_nil r f :
  wf_generator r f -> exists d, EstimateUnits r [] f = Returns d /\
    match d with Ok d => Forall is_u64 d | Err _ => True end.
Proof.
  intros Hg. destruct (EstimateUnits_from r f [] _ [] _ (GetBaseComputeUnits r) Hg eq_refl) as (d & E & Hd);
    [by apply List.Forall_nil|apply op_holds_new, Hg|].
  exists d. split; [done|]. destruct d; [apply Hd|done].
Qed.

(** Of buys: 24 bytes each. *)
Lemma estimate_buys `{Hashing} f orders : wf_addr (Address f) -> forall bw mc op n,
  0 <= bw -> bw + 24 * Z.of_nat (length orders) < two64 -> op_holds op n ->
  exists cs op', estimate_actions f (map (fun p => buy_Action p.1 p.2) orders) bw mc op =
      Returns (Ok (bw + 24 * Z.of_nat (length orders), mc ++ cs, op')) /\
    Forall (fun c => 0 <= c) cs /\ op_holds op' n.
Proof.
  intros Ha. induction orders as [|[sd o] orders IH]; intros bw mc op n Hb Hlt Hop; cbn [map estimate_actions fst snd].
  - exists [], op. rewrite app_nil_r, Z.add_0_r. split_and!; [done|by apply List.Forall_nil|done].
  - destruct (length_buy_bytes sd o) as (b & -> & Hl).
    destruct (buy_ChunkSizes sd o (Address f) Ha) as (cs & -> & Hcs). rewrite Hl. cbn [length] in *.
    assert (ComputeUnits (buy_Action sd o) = 0) as -> by by destruct sd.
    rewrite u64_small by (unfold is_u64; lia).
    destruct (IH (bw + Z.of_nat 24) (mc ++ cs) (op_Add 0 op) n) as (cs' & op' & E & Hcs' & Hop');
      [lia|lia| |].
    { rewrite <- (Z.add_0_r n). by apply op_holds_Add. }
    exists (cs ++ cs'), op'. rewrite E, app_assoc. split_and!; [|apply Forall_app; split; [|done]|done].
    + do 4 f_equal. lia.
    + rewrite Hcs. by apply own_chunks_nonneg.
Qed.

(** The serialized buys. *)
Lemma buys_Bytes `{Hashing} orders :
  exists bs, actions_Bytes (map (fun p => buy_Action p.1 p.2) orders) = Returns bs /\
    length bs = length orders /\ Forall (fun b => good_bytes b /\ length b = 24%nat) bs.
Proof.
  induction orders as [|[sd o] orders (bs & E & Hl & Hb)]; [by exists []|].
  destruct (buy_bytes_good sd o) as (b & Eb & Hg). exists (b :: bs).
  cbn [map actions_Bytes fst snd]. change (Bytes_of (buy_Action sd o)) with (Action_Bytes (buy_Action sd o)).
  rewrite Eb, E. cbn [length]. split_and!; [done|by f_equal|by constructor].
Qed.
End estimate_bounds.

Lemma UnixRMilli_range now add : is_i64 (UnixRMilli now add).
Proof.
  unfold UnixRMilli. cbv zeta. assert (is_i64 (i64 (now + add))) as Ht by (apply i64_range, u64_range).
  unfold is_i64, two63 in *. generalize dependent (i64 (now + add)). intros t Ht.
  destruct (Z.le_gt_cases 0 t).
  - pose proof (Z.rem_bound_pos t 1000 ltac:(lia) ltac:(lia)). lia.
  - pose proof (Z.rem_bound_pos_neg t 1000 ltac:(lia) ltac:(lia)). lia.
Qed.
