(* ===== verification/Processor.v ===== *)
(** * Blocks of signed transactions (hypersdk/chain/processor.go)

    What a validator does with a block: the checks on its time and height,
    the next prices, the units of every transaction, the transactions
    themselves with all that [PreExecute] asks of them, and the block's own
    keys.  Signatures, replays and the Merkle root are answered by other parts
    of the chain: they are arguments. *)

From S2P Require Import Prelude GoErrors Lib Rules Consts Packer LinearCodec Store Permissions TState StorageKeys Balances Markets Ledger Controller BuyYes BuyNo BuySpec BuyFacts Trade CreateMarket Footprint Canoto Vm KeyStore Transaction Wire Fees FeeManager Generate.
#[local] Open Scope Z_scope.

(** chain/errors.go and validitywindow.go *)
Definition ErrInvalidChainID : error := ErrVar "chain.ErrInvalidChainID" "invalid chain ID".
Definition ErrTooManyActions : error := ErrVar "chain.ErrTooManyActions" "too many actions".
Definition ErrAuthNotActivated : error := ErrVar "chain.ErrAuthNotActivated" "auth not activated".
Definition ErrTimestampTooEarly : error := ErrVar "chain.ErrTimestampTooEarly" "timestamp too early".
Definition ErrTimestampTooEarlyEmptyBlock : error :=
  ErrVar "chain.ErrTimestampTooEarlyEmptyBlock" "timestamp too early for empty block".
Definition ErrTimestampTooLate : error := ErrVar "chain.ErrTimestampTooLate" "timestamp too late".
Definition ErrDuplicateTx : error := ErrVar "chain.ErrDuplicateTx" "duplicate transaction".
Definition ErrInvalidBlockHeight : error := ErrVar "chain.ErrInvalidBlockHeight" "invalid block height".
Definition ErrStateRootMismatch : error := ErrVar "chain.ErrStateRootMismatch" "state root mismatch".
Definition ErrFailedToFetchParentHeight : error :=
  ErrVar "chain.ErrFailedToFetchParentHeight" "failed to fetch height from state".
Definition ErrFailedToFetchParentTimestamp : error :=
  ErrVar "chain.ErrFailedToFetchParentTimestamp" "failed to fetch timestamp from state".
Definition ErrFailedToFetchParentFee : error :=
  ErrVar "chain.ErrFailedToFetchParentFee" "failed to fetch fee manager from state".
Definition ErrFailedToParseParentHeight : error :=
  ErrVar "chain.ErrFailedToParseParentHeight" "failed to parse height".
Definition ErrFailedToParseParentTimestamp : error :=
  ErrVar "chain.ErrFailedToParseParentTimestamp" "failed to parse timestamp".
Definition ErrMisalignedTime : error := ErrVar "validitywindow.ErrMisalignedTime" "misaligned time".
Definition ErrTimestampExpired : error :=
  ErrVar "validitywindow.ErrTimestampExpired" "declared timestamp expired".
Definition ErrFutureTimestamp : error :=
  ErrVar "validitywindow.ErrFutureTimestamp" "declared timestamp too far in the future".

(** ** base.go *)

Definition VerifyTimestamp (containerTimestamp executionTimestamp divisor validityWindow : Z) : result unit :=
  if negb (Z.rem containerTimestamp divisor =? 0)
  then Err (Errorf_w "" ErrMisalignedTime (": timestamp (" +:+ fmt_d containerTimestamp +:+ ") % divisor ("
              +:+ fmt_d divisor +:+ ") != 0"))
  else if containerTimestamp <? executionTimestamp
  then Err (Errorf_w "" ErrTimestampExpired (": timestamp (" +:+ fmt_d containerTimestamp
              +:+ ") < block timestamp (" +:+ fmt_d executionTimestamp +:+ ")"))
  else if i64 (executionTimestamp + validityWindow) <? containerTimestamp
  then Err (Errorf_w "" ErrFutureTimestamp (": timestamp (" +:+ fmt_d containerTimestamp
              +:+ ") > block timestamp (" +:+ fmt_d executionTimestamp +:+ ") + validity window ("
              +:+ fmt_d validityWindow +:+ ")"))
  else Ok tt.

Definition validityWindowTimestampDivisor : Z := 1000.

(** [chain.Auth]: what a signature costs and when it is accepted. *)
Class AuthMethods (R : Type) := {
  auth_ComputeUnits : Auth -> R -> Z;
  auth_ValidRange : Auth -> R -> Z * Z;
}.

(** auth/ed25519.go *)
Definition ED25519ComputeUnits : Z := 5.
Definition ED25519_AuthMethods (R : Type) : AuthMethods R := {|
  auth_ComputeUnits _ _ := ED25519ComputeUnits;
  auth_ValidRange _ _ := (-1, -1);
|}.

(** A transaction's result, with the units and the fee it records. *)
Record TxResult := mkTxResult { tr_Result : Result; tr_Units : Dimensions; tr_Fee : Z }.

Section transactions.
Context {R BH : Type} `{ChainRules R} `{AuthMethods R} `{BalanceHandler BH}.
Variable (ID_String : bytes -> string) (bh : BH) (r : R).

Definition Base_Execute (b : Base) (timestamp : Z) : result unit :=
  if negb (bool_decide (ChainID b = GetChainID r))
  then Err (Errorf_w "" ErrInvalidChainID (": chainID=" +:+ ID_String (ChainID b) +:+ ", expected="
              +:+ ID_String (GetChainID r)))
  else VerifyTimestamp (Timestamp b) timestamp validityWindowTimestampDivisor (GetValidityWindow r).

Definition SignedTransaction_Units (tx : GeneratedTx) : result Dimensions :=
  Units bh r (st_size tx) (auth_ComputeUnits (st_Auth tx) r) (signed_tx tx).

(** Whether a range of times, open where it is negative, excludes one. *)
Definition out_of_range (range : Z * Z) (timestamp : Z) : bool :=
  let '(start, stop) := range in
  ((0 <=? start) && (timestamp <? start)) || ((0 <=? stop) && (stop <? timestamp)).

(** The loop of [PreExecute] over the actions. *)
Fixpoint check_actions (i : Z) (actions : list Action) (timestamp : Z) : result unit :=
  match actions with
  | [] => Ok tt
  | action :: actions =>
      if out_of_range (ValidRange action) timestamp
      then Err (Errorf_w "" ErrActionNotActivated (": action type " +:+ fmt_d (GetTypeID action)
                  +:+ " at index " +:+ fmt_d i))
      else check_actions (i + 1) actions timestamp
  end.

Definition SignedTransaction_PreExecute (tx : GeneratedTx) (feeManager : bytes) (im : TStateView)
    (timestamp : Z) : result unit :=
  _ ← Base_Execute (td_Base (st_Data tx)) timestamp;
  if GetMaxActionsPerTx r <? Z.of_nat (length (td_Actions (st_Data tx))) then Err ErrTooManyActions
  else
    _ ← check_actions 0 (td_Actions (st_Data tx)) timestamp;
    if out_of_range (auth_ValidRange (st_Auth tx) r) timestamp then Err ErrAuthNotActivated
    else
      units ← SignedTransaction_Units tx;
      fee ← Manager_Fee feeManager units;
      CanDeduct bh (Sponsor (st_Auth tx)) fee im.

Definition SignedTransaction_Execute (tx : GeneratedTx) (feeManager : bytes) (timestamp : Z)
  : GoM TStateView TxResult :=
  units ← on_error (fun err => Errorf_w "failed to calculate tx units: " err "") (lift (SignedTransaction_Units tx));
  fee ← on_error (fun err => Errorf_w "failed to calculate tx fee: " err "") (lift (Manager_Fee feeManager units));
  res ← tx_Execute bh (signed_tx tx) fee timestamp;
  mret (mkTxResult res units fee).

(** ** executeTxs

    The loop fixes the keys of each transaction and consumes its units, and
    leaves running it to the executor.  Here they run in the order of the
    block; ExecutorCorrect.v runs them on the executor, and shows that every
    schedule gives the same.  Only prices are read while they run, which
    consuming units does not change. *)

Fixpoint plan_txs (txs : list GeneratedTx) (feeManager : bytes)
  : result (list (gmap bytes Z)) * bytes :=
  match txs with
  | [] => (Ok [], feeManager)
  | tx :: txs =>
      match tx_StateKeys bh (signed_tx tx) with
      | Err err => (Err err, feeManager)
      | Ok stateKeys =>
          match SignedTransaction_Units tx with
          | Err err => (Err err, feeManager)
          | Ok units =>
              match Manager_Consume feeManager units (GetMaxBlockUnits r) with
              | (Some d, feeManager) =>
                  (Err (Errorf_w "" ErrInvalidUnitsConsumed (": " +:+ fmt_d (Z.of_nat d) +:+ " too large")),
                   feeManager)
              | (None, feeManager) =>
                  match plan_txs txs feeManager with
                  | (Err err, feeManager) => (Err err, feeManager)
                  | (Ok plan, feeManager) => (Ok (stateKeys :: plan), feeManager)
                  end
              end
          end
      end
  end.

(** What the executor runs for one transaction. *)
Definition run_task (tx : GeneratedTx) (stateKeys : gmap bytes Z) (feeManager : bytes) (timestamp : Z)
    (storage : bytes -> result bytes) (ts : TState) : result TxResult * TState :=
  let tsv := TState_NewView ts stateKeys storage in
  match SignedTransaction_PreExecute tx feeManager tsv timestamp with
  | Err err => (Err err, ts)
  | Ok _ =>
      match SignedTransaction_Execute tx feeManager timestamp tsv with
      | (Err err, _) => (Err err, ts)
      | (Ok result, tsv) => (Ok result, Commit tsv)
      end
  end.

Fixpoint run_tasks (tasks : list (GeneratedTx * gmap bytes Z)) (feeManager : bytes) (timestamp : Z)
    (storage : bytes -> result bytes) (ts : TState) : result (list TxResult) * TState :=
  match tasks with
  | [] => (Ok [], ts)
  | (tx, stateKeys) :: tasks =>
      match run_task tx stateKeys feeManager timestamp storage ts with
      | (Err err, ts) => (Err err, ts)
      | (Ok result, ts) =>
          match run_tasks tasks feeManager timestamp storage ts with
          | (Err err, ts) => (Err err, ts)
          | (Ok results, ts) => (Ok (result :: results), ts)
          end
      end
  end.

(** The results, with the block's changes; the manager afterwards. *)
Definition executeTxs (txs : list GeneratedTx) (timestamp : Z) (storage : bytes -> result bytes)
    (feeManager : bytes) : result (list TxResult * TState) * bytes :=
  match plan_txs txs feeManager with
  | (Err err, feeManager) => (Err err, feeManager)
  | (Ok plan, feeManager) =>
      match run_tasks (zip txs plan) feeManager timestamp storage fresh_block with
      | (Err err, _) => (Err err, feeManager)
      | (Ok results, ts) => (Ok (results, ts), feeManager)
      end
  end.
End transactions.

(** ** The block's own keys (chain/consts.go, state/metadata) *)

Record MetadataManager := mkMetadataManager {
  HeightPrefix : bytes;
  FeePrefix : bytes;
  TimestampPrefix : bytes;
}.

Definition NewDefaultManager : MetadataManager := {|
  HeightPrefix := [0];
  FeePrefix := [2];
  TimestampPrefix := [1];
|}.

(** [keys.EncodeChunks]. *)
Definition EncodeChunks (key : bytes) (maxChunks : Z) : bytes := key ++ be_put 2 maxChunks.

Definition HeightKey (prefix : bytes) : bytes := EncodeChunks prefix 1.
Definition TimestampKey (prefix : bytes) : bytes := EncodeChunks prefix 1.
Definition FeeKey (prefix : bytes) : bytes := EncodeChunks prefix 8.

(** The loop of [HasConflictingPrefixes] over the prefixes not seen yet. *)
Fixpoint conflicting (prefixes verifiedPrefixes : list bytes) : bool :=
  match prefixes with
  | [] => false
  | p :: prefixes =>
      existsb (fun vp => bytes_HasPrefix p vp || bytes_HasPrefix vp p) verifiedPrefixes
      || conflicting prefixes (verifiedPrefixes ++ [p])
  end.

Definition HasConflictingPrefixes (m : MetadataManager) (vmPrefixes : list bytes) : bool :=
  conflicting ([HeightPrefix m; FeePrefix m; TimestampPrefix m] ++ vmPrefixes) [].

(** ** The block *)

Record ExecutionBlock := mkExecutionBlock {
  Tmstmp : Z;
  Hght : Z;
  Txs : list GeneratedTx;
  StateRoot : bytes;
}.

Record blockContext := mkBlockContext {
  bc_height : Z;
  bc_timestamp : Z;
  bc_feeManager : bytes;
}.

Record OutputBlock := mkOutputBlock {
  View : bytes -> result bytes;
  ob_Results : list TxResult;
  ob_UnitPrices : Dimensions;
  ob_UnitsConsumed : Dimensions;
}.

Section processor.
Context {R BH : Type} `{ChainRules R} `{AuthMethods R} `{BalanceHandler BH}.
Variable (ID_String : bytes -> string) (bh : BH) (m : MetadataManager) (r : R).

Definition createBlockContext (im : bytes -> result bytes) (block : ExecutionBlock)
  : outcome (result blockContext) :=
  match im (HeightKey (HeightPrefix m)) with
  | Err err => Returns (Err (Errorf_ww ErrFailedToFetchParentHeight err))
  | Ok parentHeightRaw =>
  match ParseUInt64 parentHeightRaw with
  | Err err => Returns (Err (Errorf_ww ErrFailedToParseParentHeight err))
  | Ok parentHeight =>
  if negb (Hght block =? u64 (parentHeight + 1))
  then Returns (Err (Errorf_w "" ErrInvalidBlockHeight (": block height " +:+ fmt_d (Hght block)
         +:+ " != parentHeight (" +:+ fmt_d parentHeight +:+ ") + 1")))
  else
  match im (TimestampKey (TimestampPrefix m)) with
  | Err err => Returns (Err (Errorf_ww ErrFailedToFetchParentTimestamp err))
  | Ok parentTimestampRaw =>
  match ParseUInt64 parentTimestampRaw with
  | Err err => Returns (Err (Errorf_ww ErrFailedToParseParentTimestamp err))
  | Ok parsedParentTimestamp =>
  let parentTimestamp := i64_of_u64 parsedParentTimestamp in
  if Tmstmp block <? i64 (parentTimestamp + GetMinBlockGap r)
  then Returns (Err (Errorf_w "" ErrTimestampTooEarly (": block timestamp " +:+ fmt_d (Tmstmp block)
         +:+ " < parentTimestamp (" +:+ fmt_d parentTimestamp +:+ ") + minBlockGap ("
         +:+ fmt_d (GetMinBlockGap r) +:+ ")")))
  else if (length (Txs block) =? 0)%nat && (Tmstmp block <? i64 (parentTimestamp + GetMinEmptyBlockGap r))
  then Returns (Err (Errorf_w "" ErrTimestampTooEarlyEmptyBlock (": timestamp (" +:+ fmt_d (Tmstmp block)
         +:+ ") < parentTimestamp (" +:+ fmt_d parentTimestamp +:+ ") + minEmptyBlockGap ("
         +:+ fmt_d (GetMinEmptyBlockGap r) +:+ ")")))
  else
  match im (FeeKey (FeePrefix m)) with
  | Err err => Returns (Err (Errorf_ww ErrFailedToFetchParentFee err))
  | Ok parentFeeRaw =>
  match ComputeNext (NewManager parentFeeRaw) (Tmstmp block) r with
  | Panics err => Panics err
  | Returns blockFeeManager =>
      Returns (Ok (mkBlockContext (Hght block) (Tmstmp block) blockFeeManager))
  end end end end end end.

(** [state.CompletePermissions], for the keys that are written under it. *)
Definition CompletePermissions : gmap bytes Z :=
  {[ HeightKey (HeightPrefix m) := All;
     TimestampKey (TimestampPrefix m) := All;
     FeeKey (FeePrefix m) := All ]}.

Definition writeBlockContext (blockCtx : blockContext) : GoM TStateView unit :=
  on_error (fun err => Errorf_w "failed to insert height into state: " err "")
    (Insert (HeightKey (HeightPrefix m)) (be_put 8 (bc_height blockCtx)));;
  on_error (fun err => Errorf_w "failed to insert timestamp into state: " err "")
    (Insert (TimestampKey (TimestampPrefix m)) (be_put 8 (u64 (bc_timestamp blockCtx))));;
  on_error (fun err => Errorf_w "failed to insert fee manager into state: " err "")
    (Insert (FeeKey (FeePrefix m)) (bc_feeManager blockCtx)).

(** [Processor.Execute] at the time [now] of the validator, with what checking
    the signatures (started, then waited for), looking for replays and hashing
    the parent's state gave. *)
Definition Processor_Execute (now : Z) (isNormalOp : bool)
    (verifySignatures waitSignatures verifyExpiryReplayProtection : result unit)
    (parentRoot : result bytes) (parentView : bytes -> result bytes) (b : ExecutionBlock)
  : outcome (result OutputBlock) :=
  if now + 1000 <? Tmstmp b then Returns (Err ErrTimestampTooLate)
  else
  match verifySignatures with
  | Err err => Returns (Err err)
  | Ok _ =>
  match createBlockContext parentView b with
  | Panics err => Panics err
  | Returns (Err err) => Returns (Err err)
  | Returns (Ok blockCtx) =>
  match (if isNormalOp then verifyExpiryReplayProtection else Ok tt) with
  | Err err => Returns (Err (Errorf_ww ErrDuplicateTx err))
  | Ok _ =>
  match executeTxs ID_String bh r (Txs b) (Tmstmp b) parentView (bc_feeManager blockCtx) with
  | (Err err, _) => Returns (Err (Errorf_w "failed to execute txs: " err ""))
  | (Ok (results, ts), feeManager) =>
  let blockCtx := mkBlockContext (bc_height blockCtx) (bc_timestamp blockCtx) feeManager in
  let tsv := TState_NewView ts CompletePermissions (fun _ => Err ErrNotFound) in
  match writeBlockContext blockCtx tsv with
  | (Err err, _) => Returns (Err err)
  | (Ok _, tsv) =>
  let ts := Commit tsv in
  match parentRoot with
  | Err err => Returns (Err (Errorf_w "failed to calculate parent state root: " err ""))
  | Ok computedRoot =>
  if negb (bool_decide (StateRoot b = computedRoot))
  then Returns (Err (Errorf_w "" ErrStateRootMismatch
         (": expected=" +:+ ID_String computedRoot +:+ " found=" +:+ ID_String (StateRoot b))))
  else
  match waitSignatures with
  | Err err => Returns (Err (Errorf_w "signatures failed verification: " err ""))
  | Ok _ =>
      Returns (Ok (mkOutputBlock (block_value ts parentView) results
        (UnitPrices feeManager) (UnitsConsumed feeManager)))
  end end end end end end end.
End processor.
