(* ===== verification/Load.v ===== *)
(** * The load generator (load/issuer.go)

    The issuer makes transactions without actions, as long as its own count
    of its funds covers their maximal fees, and hands them to the web socket
    client and the tracker. *)

From S2P Require Import Prelude GoErrors Lib Rules Canoto Vm KeyStore Transaction Wire Fees Generate.
#[local] Open Scope Z_scope.

Definition ErrTxGeneratorFundsExhausted : error :=
  ErrVar "load.ErrTxGeneratorFundsExhausted" "tx generator funds exhausted".

(** The rule factory is its method [GetRules].  What the tracker was told and
    what was printed are here too; [Registered] has the transactions the
    client took. *)
Record Issuer (R F : Type) := mkIssuer {
  authFactory : F;
  currBalance : Z;
  ruleFactory : Z -> R;
  unitPrices : Dimensions;
  registered : list bytes;
  issued : list bytes;
  printed : list string;
}.
Arguments mkIssuer {R F}.
Arguments authFactory {R F}.
Arguments currBalance {R F}.
Arguments ruleFactory {R F}.
Arguments unitPrices {R F}.
Arguments registered {R F}.
Arguments issued {R F}.
Arguments printed {R F}.

Section issuer.
Context {R F : Type} `{ChainRules R} `{HF : AuthFactory F} `{HCr : Crypto}.

Definition NewIssuer (authFactory : F) (ruleFactory : Z -> R) (currBalance : Z) (unitPrices : Dimensions)
  : Issuer R F := mkIssuer authFactory currBalance ruleFactory unitPrices [] [] [].

Definition set_currBalance (b : Z) (i : Issuer R F) : Issuer R F :=
  mkIssuer (authFactory i) b (ruleFactory i) (unitPrices i) (registered i) (issued i) (printed i).

Definition Println (line : string) (i : Issuer R F) : Issuer R F :=
  mkIssuer (authFactory i) (currBalance i) (ruleFactory i) (unitPrices i) (registered i) (issued i)
    (printed i ++ [line]).

(** The clock is in milliseconds. *)
Definition GenerateTx (now : Z) (i : Issuer R F) : outcome (result GeneratedTx * Issuer R F) :=
  match GenerateTransaction (ruleFactory i) (unitPrices i) now [] (authFactory i) with
  | Panics err => Panics err
  | Returns (Err err) => Returns (Err err, i)
  | Returns (Ok tx) =>
      let maxFee := MaxFee (td_Base (st_Data tx)) in
      if currBalance i <? maxFee then Returns (Err ErrTxGeneratorFundsExhausted, i)
      else Returns (Ok tx, set_currBalance (u64 (currBalance i - maxFee)) i)
  end.

(** [RegisterTx] of the client is given by its error. *)
Definition IssueTx (RegisterTx : option error) (tx : GeneratedTx) : GoM (Issuer R F) unit := fun i =>
  match RegisterTx with
  | Some err => (Err err, i)
  | None =>
      (Ok tt, mkIssuer (authFactory i) (currBalance i) (ruleFactory i) (unitPrices i)
                (registered i ++ [st_id tx]) (issued i ++ [st_id tx]) (printed i))
  end.

(** [Listen] prints, blocks until the context is done, and returns its error. *)
Definition Listen (ctx_Err : error) : GoM (Issuer R F) unit := fun i =>
  (Err ctx_Err, Println
    "[Issuer.Listen] Placeholder: Listening for transaction finalization (blocks until context done)." i).

Definition Stop (i : Issuer R F) : Issuer R F := Println "[Issuer.Stop] Placeholder: Issuer stop called." i.

(** ** Runs *)

(** What is called on an issuer, in any order: a transaction is made at some
    time; one, whoever made it, is issued, with the client's answer; it
    listens until the context ends; it is stopped. *)
Inductive call :=
| CallGenerateTx (now : Z)
| CallIssueTx (RegisterTx : option error) (tx : GeneratedTx)
| CallListen (ctx_Err : error)
| CallStop.

(** The transactions that were generated. *)
Fixpoint run_issuer (calls : list call) (i : Issuer R F) : outcome (list GeneratedTx * Issuer R F) :=
  match calls with
  | [] => Returns ([], i)
  | CallStop :: calls => run_issuer calls (Stop i)
  | CallListen ctx_Err :: calls => run_issuer calls (snd (Listen ctx_Err i))
  | CallIssueTx RegisterTx tx :: calls => run_issuer calls (snd (IssueTx RegisterTx tx i))
  | CallGenerateTx now :: calls =>
      match GenerateTx now i with
      | Panics err => Panics err
      | Returns (Err _, i) => run_issuer calls i
      | Returns (Ok tx, i) =>
          match run_issuer calls i with
          | Panics err => Panics err
          | Returns (txs, i) => Returns (tx :: txs, i)
          end
      end
  end.

Definition total_fees (txs : list GeneratedTx) : Z :=
  foldr (fun tx n => MaxFee (td_Base (st_Data tx)) + n) 0 txs.

(** The issuer as it is set up: its own settings do not change. *)
Record wf_issuer (i : Issuer R F) : Prop := {
  wfi_rules ts : wf_generator (ruleFactory i ts) (authFactory i);
  wfi_prices : Forall is_u64 (unitPrices i);
  wfi_balance : is_u64 (currBalance i);
}.

Lemma GenerateTx_cases `{!LawfulAuthFactory F} now i :
  wf_issuer i ->
  exists r i', GenerateTx now i = Returns (r, i') /\ wf_issuer i' /\ authFactory i' = authFactory i /\
    match r with
    | Err _ => i' = i
    | Ok tx => signed_tx tx = mkTransaction [] (Address (authFactory i)) (Address (authFactory i)) /\
        0 <= MaxFee (td_Base (st_Data tx)) /\
        currBalance i' + MaxFee (td_Base (st_Data tx)) = currBalance i
    end.
Proof.
  intros Hi. pose proof Hi as [Hr Hp Hb]. unfold GenerateTx, GenerateTransaction. cbv zeta.
  destruct (EstimateUnits_nil _ _ (Hr now)) as ([d|e] & -> & Hd); [|by eexists _, _].
  destruct (MulSum (unitPrices i) d) as [fee|e] eqn:Ef; [|by eexists _, _].
  assert (is_u64 fee) as Hfee.
  { unfold MulSum in Ef. eapply mul_sum_bound; [..|exact Ef]; [|exact Hp|exact Hd]. by apply (bool_decide_unpack _). }
  unfold GenerateTransactionManual, NewTxData, TransactionData_Sign. cbn [actions_Bytes].
  destruct (Sign _ _) as [auth|e] eqn:Es; [|by eexists _, _].
  apply Sign_actor in Es as [Hactor Hsponsor]. rewrite NewTransaction_eq. cbv zeta.
  unfold signed_tx. cbn [td_Base td_Actions actions_Bytes st_Data st_Auth MaxFee].
  destruct (Z.ltb_spec (currBalance i) fee); [by eexists _, _|].
  eexists _, _. split; [reflexivity|]. unfold is_u64 in *. rewrite u64_small by (unfold is_u64; lia).
  split; [|cbn [td_Actions st_Data st_Auth td_Base MaxFee set_currBalance currBalance]; split_and!; [done|by rewrite Hactor, Hsponsor|lia|lia]].
  split; [exact Hr|exact Hp|]. unfold is_u64. cbn [set_currBalance currBalance]. lia.
Qed.

Lemma run_issuer_spec `{!LawfulAuthFactory F} calls : forall i,
  wf_issuer i ->
  exists txs i', run_issuer calls i = Returns (txs, i') /\ wf_issuer i' /\
    currBalance i' + total_fees txs = currBalance i /\ 0 <= total_fees txs /\
    Forall (fun tx => signed_tx tx = mkTransaction [] (Address (authFactory i)) (Address (authFactory i))) txs.
Proof.
  induction calls as [|[now|reg tx|err|] calls IH]; intros i Hi; cbn [run_issuer].
  - exists [], i. split_and!; [done|done|simpl; lia|simpl; lia|done].
  - destruct (GenerateTx_cases now i Hi) as ([tx|e] & i1 & -> & Hi1 & Hauth & H1); [|subst i1; by apply IH].
    destruct H1 as (Ha & Hf & Hb). destruct (IH _ Hi1) as (txs & i' & -> & Hi' & Hs & Hpos & Hall).
    exists (tx :: txs), i'. cbn [total_fees foldr]. fold (total_fees txs). split_and!; [done..|lia|lia|].
    constructor; [done|by rewrite <- Hauth].
  - destruct reg; [by apply IH|]. cbn [IssueTx snd].
    by apply (IH (mkIssuer (authFactory i) (currBalance i) (ruleFactory i) (unitPrices i) _ _ _)); destruct Hi.
  - apply (IH (snd (Listen err i))). by destruct Hi.
  - apply (IH (Stop i)). by destruct Hi.
Qed.
End issuer.
