(* ===== verification/Workload.v ===== *)
(** * The workload of the network tests (tests/workload)

    The transaction generator, the keys of the test networks with the genesis
    that funds them (Genesis.v), and codec.LoadHex, which reads the keys. *)

From S2P Require Import Prelude GoErrors Lib Rules Consts Store CreateMarket BuyYes Genesis Canoto Cobra Vm KeyStore Transaction Wire Fees Generate.
#[local] Open Scope Z_scope.

(** ** hypersdk/codec/hex.go *)

Definition ErrInvalidSize : error := ErrVar "codec.ErrInvalidSize" "invalid size".
Definition ErrLength : error := ErrVar "hex.ErrLength" "encoding/hex: odd length hex string".

(** The entry of [reverseHexTable] for a byte, or [None] for 0xff. *)
Definition from_hex (c : Z) : option Z :=
  if (48 <=? c) && (c <=? 57) then Some (c - 48)
  else if (97 <=? c) && (c <=? 102) then Some (c - 87)
  else if (65 <=? c) && (c <=? 70) then Some (c - 55)
  else None.

Section hex.
(** [fmt.Sprintf("%#U", rune(c))]. *)
Variable (format_rune : Z -> string).

Definition InvalidByteError (c : Z) : error := ErrFresh ("encoding/hex: invalid byte: " +:+ format_rune c).

(** encoding/hex.Decode; the decoded bytes are dropped on an error. *)
Fixpoint hex_Decode (src : bytes) : result bytes :=
  match src with
  | p :: q :: src =>
      match from_hex p, from_hex q with
      | Some a, Some b => dst ← hex_Decode src; Ok (Z.lor (Z.shiftl a 4) b :: dst)
      | None, _ => Err (InvalidByteError p)
      | _, None => Err (InvalidByteError q)
      end
  | [p] => match from_hex p with None => Err (InvalidByteError p) | Some _ => Err ErrLength end
  | [] => Ok []
  end.

Definition hex_DecodeString (s : string) : result bytes := hex_Decode (bytes_of_string s).

Definition strip_0x (s : string) : string := if HasPrefix "0x" s then string_drop 2 s else s.

Definition LoadHex (s : string) (expectedSize : Z) : result bytes :=
  bytes ← hex_DecodeString (strip_0x s);
  if negb (expectedSize =? -1) && negb (Z.of_nat (length bytes) =? expectedSize)
  then Err ErrInvalidSize else Ok bytes.

(** ** genesis.go *)

Definition PrivateKeyLen : Z := 64.

Definition ed25519HexKeys : list string := [
  "323b1d8f4eed5f0da9da93071b034f2dce9d2d22692c172f3cb252a64ddfafd01b057de320297c29ad0c1f589ea216869cf1938d88c9fbd70d6748323dbf2fa7";
  "8a7be2e0c9a2d09ac2861c34326d6fe5a461d920ba9c2b345ae28e603d517df148735063f8d5d8ba79ea4668358943e5c80bc09e9b2b9a15b5b15db6c1862e88";
  "5c94b89bd0cccc0b5cef5b79ae2a0d2949c8b5596ec9869ddd4eab4e982b2b6a44bc6edd1009fce73b608cc51ab694dff11b27f8647350c0d43eb138c261796d"
].

Context {F : Type} `{AuthFactory F}.
Variable (NewED25519Factory : bytes -> F).

Fixpoint auth_factories (keys : list string) : outcome (list F) :=
  match keys with
  | [] => Returns []
  | keyHex :: keys =>
      match LoadHex keyHex PrivateKeyLen with
      | Err err => Panics err
      | Ok bytes =>
          match auth_factories keys with
          | Panics err => Panics err
          | Returns factories => Returns (NewED25519Factory bytes :: factories)
          end
      end
  end.

Definition newDefaultAuthFactories : outcome (list F) := auth_factories ed25519HexKeys.

Record NetworkConfiguration := mkNetworkConfiguration {
  net_name : string;
  net_genesisBytes : bytes;
  net_authFactories : list F;
}.

(** The gap is a [time.Duration], in nanoseconds. *)
Definition NewTestNetworkConfig `{GenesisJSON} (minBlockGap : Z) : outcome (result NetworkConfiguration) :=
  match newDefaultAuthFactories with
  | Panics err => Panics err
  | Returns keys =>
      let networkGenesis := newGenesis (map Address keys) (Z.quot minBlockGap 1000000) in
      Returns (
        genesisBytes ← MarshalGenesis networkGenesis;
        Ok (mkNetworkConfiguration Consts.Name genesisBytes keys))
  end.

(** ** generator.go *)

(** The program's client is made anew for each transaction; the unit prices
    come from hypersdk's own API. *)
Section generator.
Context {W : Type}.
Variable (SendGenesisRequest : string -> W -> result (option DefaultGenesis) * W).
Variable (UnitPrices : string -> W -> result Dimensions * W).

Definition workload_action `{Hashing} : Action := BuyYes_Action (mkBuyYes 1 1 0).

(** The rules of the genesis, a pointer, are behind the rule factory. *)
Definition TxGenerator_GenerateTx `{Hashing} `{Crypto} (factory : F) (uri : string) (now : Z) (w : W)
  : outcome (result GeneratedTx * W) :=
  match GetRuleFactory dg_Rules SendGenesisRequest (NewJSONRPCClient uri, w) with
  | Panics err => Panics err
  | Returns (Err err, (_, w)) => Returns (Err err, w)
  | Returns (Ok rules, (_, w)) =>
      match UnitPrices uri w with
      | (Err err, w) => Returns (Err err, w)
      | (Ok unitPrices, w) =>
          match rules with
          | None => Panics nil_rules
          | Some r =>
              match GenerateTransaction (fun _ => r) unitPrices now [workload_action] factory with
              | Panics err => Panics err
              | Returns (Err err) => Returns (Err err, w)
              | Returns (Ok tx) => Returns (Ok tx, w)
              end
          end
      end
  end.
End generator.
End hex.

(** The keys of the test networks are read without a panic. *)
Lemma newDefaultAuthFactories_ok {F} format_rune (NewED25519Factory : bytes -> F) :
  exists k1 k2 k3, newDefaultAuthFactories format_rune NewED25519Factory =
    Returns [NewED25519Factory k1; NewED25519Factory k2; NewED25519Factory k3] /\
    Forall (fun k => length k = 64%nat) [k1; k2; k3].
Proof. eexists _, _, _. split; [reflexivity|]. repeat constructor. Qed.

(** The workload's order is refused for its price. *)
Lemma workload_action_fails {S} `{Mutable S} `{Hashing} ts actor (s : S) :
  BuyYes_Execute (mkBuyYes 1 1 0) ts actor s = (Err ErrMaxPriceCannotBeZero, s).
Proof. reflexivity. Qed.
