(* ===== verification/ChainCorrect.v ===== *)
(** * Theorems on transactions

    What the chain's rules (scope, rollback, declared keys) make of the
    program's actions. *)

From S2P Require Import Prelude GoErrors Lib Rules Consts Packer LinearCodec Store Permissions TState StorageKeys Balances Markets Ledger Controller BuyYes BuyNo BuySpec BuyFacts Trade CreateMarket Creation Accounting Examples Footprint Genesis Transaction Typing Fees.
#[local] Open Scope Z_scope.

#[local] Existing Instance state_Immutable.

(** The committed state of the examples, and a fresh block over it. *)
Definition demo_storage : bytes -> result bytes := GetValue demo_store.

Definition demo_tx (actions : list Action) : Transaction := mkTransaction actions alice alice.
Definition demo_buy : Action := BuyYes_Action (mkBuyYes 7 10 15).

(** Rolling back.  From a view whose bookkeeping is consistent (every new
    view is), any sequence of accepted inserts and removals followed by a
    rollback to the operation count of the start reads as at the start under
    every key, and commits the same changes. *)
Lemma rollback_restores v v' :
  consistent v -> rtc view_step v v' ->
  (forall k, view_value (Rollback (OpIndex v) v') k = view_value v k) /\
  changedKeys (Commit (Rollback (OpIndex v) v')) = changedKeys (Commit v) /\
  v_ops (Rollback (OpIndex v) v') = v_ops v.
Proof.
  intros Hc Hs. destruct (Rollback_changes v v' Hc Hs) as [Hsame Hops].
  split_and!; [|by apply same_changes_Commit|done]. intros k. by apply same_changes_value.
Qed.

Lemma rollback_restores_witness :
  let v := TState_NewView fresh_block {[BalanceKey alice := All]} demo_storage in
  let v' := snd (TStateView_Insert (BalanceKey alice) (be_put 8 5) v) in
  (forall k, view_value (Rollback (OpIndex v) v') k = view_value v k) /\
  changedKeys (Commit (Rollback (OpIndex v) v')) = changedKeys (Commit v) /\
  v_ops (Rollback (OpIndex v) v') = v_ops v.
Proof.
  intros v v'. apply (rollback_restores v v').
  - apply NewView_consistent.
  - apply rtc_once. eapply step_insert with (k := BalanceKey alice) (b := be_put 8 5).
    vm_compute. reflexivity.
Defined.

(** C8: transactions are all or nothing.  When an action of a transaction of
    the program's actions fails, what is committed is the block's state with
    the fee deducted from the sponsor and nothing else. *)
Theorem failed_tx_pays_fee_only `{Hashing} t fee ts storage block keys r block' :
  Forall program_action (tx_Actions t) -> tx_StateKeys New t = Ok keys ->
  run_tx New t fee ts storage block = (Ok r, block') -> Success r = false ->
  exists v1, DeductBalance (tx_Sponsor t) fee (TState_NewView block keys storage) = (Ok tt, v1) /\
    changedKeys block' = changedKeys (Commit v1).
Proof.
  intros Hp Hk. unfold run_tx. rewrite Hk. cbv zeta.
  destruct (tx_PreExecute _ _ _ _ _); [|done].
  destruct (tx_Execute New t fee ts (TState_NewView block keys storage)) as [[res|e] v'] eqn:E; [|done].
  intros [= <- <-] Hf.
  destruct (tx_Execute_failed _ _ _ _ _ _ Hp (NewView_consistent _ _ _) E Hf) as (v1 & E1 & Hs).
  exists v1. split; [done|]. by apply same_changes_Commit.
Qed.

Lemma failed_tx_pays_fee_only_witness :
  exists v1, DeductBalance alice 100 (TState_NewView fresh_block
      (default ∅ (match tx_StateKeys New (demo_tx [demo_buy]) with Ok k => Some k | Err _ => None end))
      demo_storage) = (Ok tt, v1) /\
    changedKeys (snd (run_tx New (demo_tx [demo_buy]) 100 500 demo_storage fresh_block))
      = changedKeys (Commit v1).
Proof.
  apply (failed_tx_pays_fee_only (demo_tx [demo_buy]) 100 500 demo_storage fresh_block)
    with (r := mkResult false (bytes_of_string (Error
       (Errorf_w ("failed to set new share balance 10 for actor " +:+ Address_String alice
         +:+ ", market 7, type YES: ") ErrInvalidKeyValue ""))) []).
  - constructor; [constructor|constructor].
  - vm_compute. reflexivity.
  - vm_compute. reflexivity.
  - reflexivity.
Defined.

(** C9: no transaction ever creates a key.  The actions and the controller
    declare their keys without the Allocate permission, so over any block of
    transactions of the program's actions, whatever the fees and however the
    block ends, a key absent from the state stays absent: no first share
    balance and no market ever appears. *)
Theorem no_key_is_created `{Hashing} txs ts storage block r block' k :
  Forall (fun tf => Forall program_action (tx_Actions tf.1)) txs ->
  run_txs New txs ts storage block = (r, block') ->
  block_value block storage k = Err ErrNotFound ->
  block_value block' storage k = Err ErrNotFound.
Proof. apply run_txs_absent. Qed.

Lemma no_key_is_created_witness :
  let txs := [(demo_tx [demo_buy], 100); (demo_tx [BuyNo_Action (mkBuyNo 7 1 1)], 100)] in
  block_value (snd (run_txs New txs 500 demo_storage fresh_block)) demo_storage
    (ShareBalanceKey 7 alice YesShareType) = Err ErrNotFound.
Proof.
  intros txs.
  apply (no_key_is_created txs 500 demo_storage fresh_block
    (fst (run_txs New txs 500 demo_storage fresh_block))).
  - repeat constructor.
  - by destruct (run_txs New txs 500 demo_storage fresh_block).
  - vm_compute. reflexivity.
Defined.

(** A first purchase never succeeds.  A transaction whose one action buys
    shares of a kind the buyer has no balance record of yet, whatever else is
    in place, is either rejected or executes without success. *)
Lemma first_purchase_fails `{Hashing} sd o actor fee ts storage block r block' :
  wf_addr actor -> is_u64 fee -> (forall k b, block_value block storage k = Ok b -> wf_bytes b) ->
  block_value block storage (ShareBalanceKey (o_market o) actor (side_type sd)) = Err ErrNotFound ->
  run_tx New (mkTransaction [buy_Action sd o] actor actor) fee ts storage block = (Ok r, block') ->
  Success r = false.
Proof.
  intros Ha Hfee Hv Hk E. destruct (Success r) eqn:Hs; [exfalso|done].
  destruct (run_tx_buy_success _ _ _ _ _ _ _ _ _ Ha Hfee Hv E Hs)
    as (m & bal & sh & _ & _ & _ & _ & _ & _ & _ & _ & _ & _ & Hval).
  specialize (Hval (ShareBalanceKey (o_market o) actor (side_type sd))).
  assert (Forall program_action [buy_Action sd o]) as Hp by (constructor; [apply buy_Action_program|done]).
  pose proof (run_tx_absent (mkTransaction [buy_Action sd o] actor actor) _ _ _ _ _ _ _ Hp E Hk) as Habs.
  rewrite Habs in Hval.
  do 2 (case_decide; [done|]). done.
Qed.

Lemma first_purchase_fails_witness :
  Success (match fst (run_tx New (demo_tx [demo_buy]) 100 500 demo_storage fresh_block) with
           | Ok r => r | Err _ => mkResult true [] [] end) = false.
Proof.
  apply (first_purchase_fails Yes demo_order alice 100 500 demo_storage fresh_block) with
    (block' := snd (run_tx New (demo_tx [demo_buy]) 100 500 demo_storage fresh_block)).
  - apply wf_alice.
  - by apply (bool_decide_unpack _).
  - intros k b. apply demo_values.
  - vm_compute. reflexivity.
  - vm_compute. reflexivity.
Defined.

(** C10: a purchase that succeeds on the chain.  With the market, the balance
    and the shares that the block's state held before: the market was open
    for trading, the buyer, who pays the fee too, had the fee and the cost,
    and the block's state afterwards differs exactly in the market's total and
    the buyer's shares, more by the amount, and the buyer's balance, less by
    the fee and the cost. *)
Theorem purchase_on_chain `{Hashing} sd o actor fee ts storage block r block' :
  wf_addr actor -> is_u64 fee -> (forall k b, block_value block storage k = Ok b -> wf_bytes b) ->
  run_tx New (mkTransaction [buy_Action sd o] actor actor) fee ts storage block = (Ok r, block') ->
  Success r = true ->
  exists m bal sh, GetMarket (block_value block storage) (o_market o) = Ok m /\
    GetBalance (block_value block storage) actor = Ok bal /\
    GetShareBalance (block_value block storage) (o_market o) actor (side_type sd) = Ok sh /\ fee + order_cost o <= bal /\ is_u64 bal /\ is_u64 sh /\ wf_market m /\
    tradable m ts = true /\ o_amount o <> 0 /\ o_price o <> 0 /\
    forall k, block_value block' storage k =
      if decide (MarketKey (ID m) = k) then Ok (market_bytes (record_purchase sd (o_amount o) m))
      else if decide (ShareBalanceKey (o_market o) actor (side_type sd) = k)
      then Ok (be_put 8 (u64 (sh + o_amount o)))
      else if decide (BalanceKey actor = k) then Ok (be_put 8 (bal - fee - order_cost o))
      else block_value block storage k.
Proof. apply run_tx_buy_success. Qed.

(** A state in which alice holds NO shares of market 7 already. *)
Definition holding_store : InMemoryStore :=
  snd (Insert (ShareBalanceKey 7 alice NoShareType) (be_put 8 3) demo_store).

Lemma holding_values : wf_values holding_store.
Proof.
  apply (wf_values_insert demo_store (ShareBalanceKey 7 alice NoShareType) (be_put 8 3));
    [reflexivity|apply demo_values|by apply (bool_decide_unpack _)].
Qed.

Lemma purchase_on_chain_witness :
  let after := snd (run_tx New (mkTransaction [buy_Action No demo_order] alice alice) 100 500
                      (GetValue holding_store) fresh_block) in
  exists m bal sh, GetMarket (block_value fresh_block (GetValue holding_store)) 7 = Ok m /\
    GetBalance (block_value fresh_block (GetValue holding_store)) alice = Ok bal /\
    GetShareBalance (block_value fresh_block (GetValue holding_store)) 7 alice NoShareType = Ok sh /\ 100 + order_cost demo_order <= bal /\ is_u64 bal /\ is_u64 sh /\ wf_market m /\
    tradable m 500 = true /\ o_amount demo_order <> 0 /\ o_price demo_order <> 0 /\
    forall k, block_value after (GetValue holding_store) k =
      if decide (MarketKey (ID m) = k) then Ok (market_bytes (record_purchase No 10 m))
      else if decide (ShareBalanceKey 7 alice NoShareType = k) then Ok (be_put 8 (u64 (sh + 10)))
      else if decide (BalanceKey alice = k) then Ok (be_put 8 (bal - 100 - order_cost demo_order))
      else block_value fresh_block (GetValue holding_store) k.
Proof.
  intros after.
  apply (purchase_on_chain No demo_order alice 100 500 (GetValue holding_store) fresh_block
    (mkResult true [] [[]])).
  - apply wf_alice.
  - by apply (bool_decide_unpack _).
  - intros k b. apply holding_values.
  - vm_compute. reflexivity.
  - reflexivity.
Defined.

(** ** Types *)

(** C29: typed states stay typed.  When every stored value has the type of its
    key (eight bytes under balance and share keys, under a market key the
    encoding of a market with that ID), this holds of every state the chain
    reaches by accepted blocks of transactions whose fields have their Go
    types, and nothing stored is ever misread there: each stored market is
    decoded, with the ID it was asked for, and each stored balance is read,
    or refused for being exactly 0. *)
Theorem chain_stays_typed `{Hashing} state state' :
  typed_state state -> rtc (block_step typed_tx) state state' ->
  typed_state state' /\
  (forall id b, is_u64 id -> state' (MarketKey id) = Ok b ->
     exists m, GetMarket state' id = Ok m /\ ID m = id /\ wf_market m) /\
  (forall a b, wf_addr a -> state' (BalanceKey a) = Ok b ->
     exists v, is_u64 v /\ b = be_put 8 v /\
       GetBalance state' a = if v =? 0
         then Err (Errorf_w "" ErrFieldNotPopulated ": Uint64 field is not populated") else Ok v).
Proof.
  intros Hs Hr. pose proof (chain_typed _ _ Hs Hr) as Hs'. split_and!; [done| |].
  - intros id b Hid E. destruct (typed_market_read _ _ _ Hs' Hid E) as (m & Em & Hid' & Hw & _). eauto.
  - intros a b Ha E. by apply typed_balance_read.
Qed.

Lemma holding_typed : typed_state (GetValue holding_store).
Proof.
  set (I := fun s : InMemoryStore => typed_state (GetValue s)).
  assert (I NewInMemoryStore) as H0 by done.
  pose proof (yields_kept I _ _ _ (SetBalance_yields I alice 1000 wf_alice) H0) as H1.
  pose proof (yields_kept I _ _ _ (SetMarket_yields I rain (proj1 wf_rain)) H1) as H2.
  pose proof (yields_kept I _ _ _ (SetShareBalance_yields I 7 alice NoShareType 3 wf_alice) H2) as H3.
  match type of H3 with I ?s => assert (holding_store = s) as -> by (vm_compute; reflexivity) end.
  exact H3.
Qed.

(** The purchase of [purchase_on_chain_witness], as a block. *)
Lemma chain_stays_typed_witness :
  let t := mkTransaction [buy_Action No demo_order] alice alice in
  let state' := block_value (snd (run_txs New [(t, 100)] 500 (GetValue holding_store) fresh_block))
                  (GetValue holding_store) in
  GetBalance state' alice = Ok 750 /\
  exists m, GetMarket state' 7 = Ok m /\ ID m = 7 /\ wf_market m.
Proof.
  intros t state'. split; [vm_compute; reflexivity|].
  assert (is_u64 7) as H7 by (by apply (bool_decide_unpack _)).
  apply (chain_stays_typed (GetValue holding_store) state' holding_typed) with (b := market_bytes
    (record_purchase No 10 rain)); [|exact H7|vm_compute; reflexivity].
  apply rtc_once, (block_accepted typed_tx (GetValue holding_store) [(t, 100)] 500
    [mkResult true [] [[]]]); [|vm_compute; reflexivity].
  apply List.Forall_cons; [|apply List.Forall_nil].
  split; [|apply wf_alice..]. apply List.Forall_cons; [by apply typed_buy|apply List.Forall_nil].
Defined.

(** C26: CreateMarket cannot be included.  A transaction with a CreateMarket
    action anywhere has no valid set of state keys (the action declares a key
    of one byte, too short for a chunk size), so it is rejected with
    [chain.ErrInvalidKeyValue] and changes nothing. *)
Theorem create_market_rejected `{Hashing} t cm rand_Read fee ts storage block :
  wf_addr (tx_Actor t) -> CreateMarket_Action cm rand_Read ∈ tx_Actions t ->
  run_tx New t fee ts storage block = (Err chain_ErrInvalidKeyValue, block).
Proof.
  intros [Ha _] Hin. unfold run_tx. by rewrite (CreateMarket_keys_invalid t cm rand_Read Ha Hin).
Qed.

Lemma create_market_rejected_witness :
  let cm := mkCreateMarket "Rain?" 1000 2000 0 "w" [] in
  run_tx New (demo_tx [CreateMarket_Action cm (Ok (make_bytes 32))]) 100 500 demo_storage fresh_block
  = (Err chain_ErrInvalidKeyValue, fresh_block).
Proof.
  intros cm. apply (create_market_rejected _ cm (Ok (make_bytes 32))); [apply wf_alice|by left].
Defined.

(** C27: only the buyer can pay.  When the sponsor of a transaction of buys is
    not the buyer, or there are no actions at all (as in the transactions of
    the load generator), the sponsor's balance key is not among the declared
    keys, so the transaction is rejected with [ErrInvalidKeyOrPermission]. *)
Theorem foreign_sponsor_rejected `{Hashing} orders actor sponsor fee ts storage block :
  wf_addr actor -> wf_addr sponsor -> (actor <> sponsor \/ orders = []) ->
  run_tx New (mkTransaction (map (fun p => buy_Action p.1 p.2) orders) actor sponsor) fee ts storage block
  = (Err ErrInvalidKeyOrPermission, block).
Proof. apply foreign_sponsor. Qed.

Lemma foreign_sponsor_rejected_witness :
  run_tx New (mkTransaction (map (fun p => buy_Action p.1 p.2) [(Yes, demo_order); (No, demo_order)]) alice bob)
    100 500 demo_storage fresh_block = (Err ErrInvalidKeyOrPermission, fresh_block).
Proof.
  apply (foreign_sponsor_rejected [(Yes, demo_order); (No, demo_order)] alice bob);
    [apply wf_alice|apply wf_bob|left; by apply (bool_decide_unpack _)].
Defined.

(** A block with the default prices, nothing consumed yet. *)
Definition fresh_manager : Manager := mkManager [100; 100; 100; 100; 100] [0; 0; 0; 0; 0].

(** The state above, with enough of a balance for the fee. *)
Definition funded_store : InMemoryStore := snd (Insert (BalanceKey alice) (be_put 8 100000) holding_store).

(** Who can buy under the default rules.  The keys of a buy carry no
    chunk size, so that the low bytes of the market ID, of the buyer's address
    and the share type are charged as one; a transaction of one buy only fits
    in a block when these add up to at most 384 chunks: the last byte of the
    address is 0 or 1, and the low half of the market ID is under 384.  What
    is then charged is the fee of exactly those units. *)
Lemma buy_admission `{Hashing} sd o actor size auth ts storage fm block r fm' block' :
  wf_addr actor -> is_u64 size -> is_u64 auth ->
  length (lastConsumed fm) = FeeDimensions -> Forall (fun c => 0 <= c) (lastConsumed fm) ->
  process_tx New NewDefaultRules size auth (mkTransaction [buy_Action sd o] actor actor) ts storage fm block
    = (Ok r, fm', block') ->
  declared_chunks sd o actor <= 384 /\ nth 32 actor 0 <= 1 /\ o_market o mod 65536 < 384 /\
  exists fee, Fee fm (buy_units size auth (declared_chunks sd o actor)) = Ok fee /\
    run_tx New (mkTransaction [buy_Action sd o] actor actor) fee ts storage block = (Ok r, block').
Proof.
  intros Ha Hsz Hau Hl Hc E. unfold process_tx in E. rewrite Units_buy in E by done.
  destruct (buy_StateKeys_list sd o actor Ha) as (keys & Ek & _). rewrite Ek in E.
  destruct (Z.ltb_spec (1 + auth) two64) as [Hover|]; [|done].
  pose proof (declared_chunks_range sd o actor Ha) as Hr. change (2 ^ 20) with 1048576 in Hr.
  set (c := declared_chunks sd o actor) in *. unfold Consume in E.
  destruct (over_limit 0 (lastConsumed fm) (buy_units size auth c) _) eqn:Eo; [done|].
  change (Fee (mkManager (unitPrices fm) _) ?u) with (Fee fm u) in E.
  assert (c <= 384) as Hle.
  { destruct (lookup_lt_is_Some_2 (lastConsumed fm) 3 ltac:(rewrite Hl; unfold FeeDimensions; lia)) as [used Hu].
    pose proof (proj1 (Forall_lookup _ _) Hc 3%nat used Hu) as Hpos. simpl in Hpos.
    pose proof (over_limit_none 0 _ _ _ 3 used (80 + 5 * c) 2000 Eo) as Hlim.
    assert (Forall is_u64 (buy_units size auth c)) as Hw
      by (repeat apply List.Forall_cons; [int_lia..|apply List.Forall_nil]).
    specialize (Hlim Hw Hu eq_refl eq_refl). lia. }
  assert (0 <= nth 32 actor 0 /\ 0 <= nth 31 actor 0 /\ 0 <= o_market o mod 65536 /\ 0 <= side_type sd) as (H1 & H2 & H3 & H4).
  { pose proof (nth_u8 actor 31 (proj2 Ha)) as []. pose proof (nth_u8 actor 32 (proj2 Ha)) as [].
    pose proof (Z.mod_pos_bound (o_market o) 65536 ltac:(lia)).
    assert (0 <= side_type sd) by (by destruct sd). lia. }
  pose proof Hle as Hsum. unfold c, declared_chunks, address_tail in Hsum.
  split_and!; [done|lia|lia|].
  destruct (Fee fm (buy_units size auth c)) as [fee|]; [|done]. exists fee. split; [done|].
  destruct (run_tx _ _ _ _ _ _) as [res ts']. by simplify_eq.
Qed.

Lemma buy_admission_witness :
  declared_chunks No demo_order alice <= 384 /\ nth 32 alice 0 <= 1 /\ o_market demo_order mod 65536 < 384 /\
  exists fee, Fee fresh_manager (buy_units 300 5 (declared_chunks No demo_order alice)) = Ok fee /\
    run_tx New (mkTransaction [buy_Action No demo_order] alice alice) fee 500 (GetValue funded_store) fresh_block
      = (Ok (mkResult true [] [[]]),
         snd (process_tx New NewDefaultRules 300 5 (mkTransaction [buy_Action No demo_order] alice alice) 500
                (GetValue funded_store) fresh_manager fresh_block)).
Proof.
  apply (buy_admission No demo_order alice 300 5 500 (GetValue funded_store) fresh_manager fresh_block
    (mkResult true [] [[]])
    (mkManager [100; 100; 100; 100; 100] [300; 6; 38; 125; 67])).
  - apply wf_alice.
  - by apply (bool_decide_unpack _).
  - by apply (bool_decide_unpack _).
  - reflexivity.
  - by apply (bool_decide_unpack _).
  - vm_compute. reflexivity.
Defined.
