(* ===== verification/LoadCorrect.v ===== *)
(** * Theorems on made transactions: the load generator and the workload *)

From S2P Require Import Prelude GoErrors Lib Rules Consts Store Permissions TState StorageKeys Controller BuyYes BuyNo BuySpec BuyFacts Trade CreateMarket Examples Footprint Transaction Canoto Genesis Vm KeyStore Wire Fees ActionBytes Generate Load Workload ChainCorrect.
#[local] Open Scope Z_scope.

(** A key whose signatures count 97 bytes and 5 units. *)
#[local] Instance keys_sign : AuthFactory bytes := {|
  Address a := a;
  MaxUnits _ := (97, 5);
  Sign a msg := Ok (mkAuth (make_bytes 97) a a);
|}.

#[local] Instance keys_sign_lawful : LawfulAuthFactory bytes.
Proof. split; intros f msg auth [= <-]; [done|]. split; [apply wf_make_bytes|done]. Qed.

#[local] Instance some_crypto : Crypto := {|
  ToID b := take 32 (b ++ make_bytes 32);
  secp256r1_PublicKey b := b;
  bls_PrivateKeyFromBytes := Ok;
  bls_PublicKeyToBytes b := b;
|}.

(** C37: the estimate leaves out the sponsor's key.  Under the default rules,
    the units estimated for a buy, from which its maximal fee is computed,
    count one chunk for the sponsor, while the units it is charged count the
    last two bytes of its address, which stand where the controller's key
    should have a chunk size: the reads, allocations and writes charged are
    the estimated ones plus 2, 5 and 3 for each chunk more. *)
Theorem estimate_misses_address `{Hashing} {F} `{AuthFactory F} (f : F) sd o size bw cu actual estimated :
  wf_addr (Address f) -> MaxUnits f = (bw, cu) -> 0 <= bw < two63 -> is_u64 cu ->
  Units New NewDefaultRules size cu (mkTransaction [buy_Action sd o] (Address f) (Address f)) = Ok actual ->
  EstimateUnits NewDefaultRules [buy_Action sd o] f = Returns (Ok estimated) ->
  let missed := address_tail (Address f) - 1 in
  exists compute reads allocates writes,
    estimated = [115 + bw; compute; reads; allocates; writes] /\
    actual = [size; compute; reads + 2 * missed; allocates + 5 * missed; writes + 3 * missed].
Proof.
  intros Ha Hm Hb Hc Ea Ee missed. rewrite Units_buy in Ea by done.
  destruct (Z.ltb_spec (1 + cu) two64) as [Hcu|]; [|done]. injection Ea as <-.
  rewrite (EstimateUnits_buy f sd o bw cu) in Ee by (done || apply Hb || apply Hc). injection Ee as <-.
  assert (declared_chunks sd o (Address f) = estimated_chunks sd o (Address f) + missed) as ->.
  { unfold declared_chunks, estimated_chunks, missed. lia. }
  unfold buy_units. eexists _, _, _, _. split; [done|]. by rewrite !Z.mul_add_distr_l, !Z.add_assoc.
Qed.

(** An address that ends in 1, 0. *)
Definition carol : bytes := set_byte 31 1 alice.

Lemma wf_carol : wf_addr carol.
Proof. by apply (bool_decide_unpack _). Qed.

Lemma estimate_misses_address_witness :
  let missed := address_tail (Address carol) - 1 in missed = 255 /\
  exists compute reads allocates writes,
    [212; 6; 34; 115; 61] = [115 + 97; compute; reads; allocates; writes] /\
    [180; 6; 544; 1390; 826] = [180; compute; reads + 2 * missed; allocates + 5 * missed; writes + 3 * missed].
Proof.
  split; [done|].
  apply (estimate_misses_address carol Yes (mkOrder 5 10 15) 180 97 5
    [180; 6; 544; 1390; 826] [212; 6; 34; 115; 61]);
    [apply wf_carol|done|done|by apply (bool_decide_unpack _)|vm_compute; reflexivity..].
Defined.

(** The estimate covers the size.  Of up to 16 buys, which is what the
    default rules let a transaction have, the bandwidth that is estimated, 91
    bytes, 24 for each buy and what the signature may take, is never less than
    the size of the signed transaction, whatever its time, chain and fee.  The
    sizes of the entries, two bytes for each buy that the estimate leaves out,
    are made up for by its allowance for the base. *)
Lemma size_within_estimate `{Hashing} `{Crypto} {R F} `{ChainRules R} `{LawfulAuthFactory F}
    (GetRules : Z -> R) prices now orders (f : F) tx :
  wf_generator (GetRules now) f -> wf_addr (Address f) -> Forall is_u64 prices ->
  wf_bytes (GetChainID (GetRules now)) -> length (GetChainID (GetRules now)) = IDLen ->
  (length orders <= 16)%nat -> fst (MaxUnits f) < 16384 ->
  GenerateTransaction GetRules prices now (map (fun p => buy_Action p.1 p.2) orders) f = Returns (Ok tx) ->
  exists units, EstimateUnits (GetRules now) (map (fun p => buy_Action p.1 p.2) orders) f = Returns (Ok units) /\
    nth 0 units 0 = 91 + 24 * Z.of_nat (length orders) + fst (MaxUnits f) /\
    st_size tx <= nth 0 units 0.
Proof.
  intros Hg Ha Hp Hid Hidl Hn Hbw E.
  apply GenerateTransaction_inv in E as (units & maxFee & bs & auth & Eu & Em & Eb & Es & Et).
  set (r := GetRules now) in *. set (actions := map _ orders) in *.
  destruct (estimate_buys f orders Ha (u64 (MaxBaseSize + 1)) [] (NewUint64Operator (GetBaseComputeUnits r))
    (GetBaseComputeUnits r)) as (cs & op & Ee & Hcs & Hop); [done|change (u64 _) with 91; unfold two64; lia
    |apply op_holds_new, Hg|].
  destruct (EstimateUnits_from r f actions _ cs op _ Hg Ee Hcs Hop) as (d & Ed & Hd).
  assert (d = Ok units) as -> by congruence. destruct Hd as [Hu Hb]. exists units. split; [done|].
  apply Sign_size in Es as [Hw Hl].
  assert (nth 0 units 0 = 91 + 24 * Z.of_nat (length orders) + fst (MaxUnits f)) as Hest.
  { rewrite Hb. change (u64 (MaxBaseSize + 1)) with 91. rewrite u64_small by (unfold is_u64, two64; lia). lia. }
  split; [done|]. rewrite Hest.
  destruct (buys_Bytes orders) as (bs' & Eb' & Hlen & Hbs). fold actions in Eb'. assert (bs' = bs) as -> by congruence.
  rewrite NewTransaction_eq, Eb in Et. injection Et as <-. cbn [st_size].
  set (base := mkBase _ _ maxFee).
  assert (wf_base base) as Hbase.
  { split_and!; [apply UnixRMilli_range|done|done|]. eapply mul_sum_bound; [..|exact Em]; [by apply (bool_decide_unpack _)|done..]. }
  assert (good_bytes (Auth_Bytes auth)) as Hau by (split; [done|unfold two64; lia]).
  rewrite SerializeTx_size 
    by (split; [done|split; [|done]]; eapply Forall_impl; [|exact Hbs]; by intros ? []).
  cbn [stx_Base stx_Actions stx_Auth]. pose proof (Base_Size_bound base Hbase) as Hsize.
  assert (forall n, 0 <= n < 16384 -> SizeUint n <= 2) as Hvar.
  { intros n Hn2. unfold SizeUint, Len64. destruct (Z.eqb_spec n 0); [lia|].
    assert (Z.log2 n < 14) by (apply Z.log2_lt_pow2; [lia|change (2 ^ 14) with 16384; lia]).
    apply Z.lt_succ_r, Z.div_lt_upper_bound; lia. }
  assert (SizeUint (Base_Size base) <= 1) as Hone.
  { unfold SizeUint, Len64. destruct (Z.eqb_spec (Base_Size base) 0); [lia|].
    assert (Z.log2 (Base_Size base) < 6) by (apply Z.log2_lt_pow2; [lia|change (2 ^ 6) with 64; lia]).
    apply Z.lt_succ_r, Z.div_lt_upper_bound; lia. }
  assert (foldr (fun b n => 1 + SizeBytes b + n) 0 bs = 26 * Z.of_nat (length bs)) as ->.
  { clear -Hbs. induction Hbs as [|b bs [_ Hb] _ IH]; [done|]. cbn [foldr length]. rewrite IH.
    unfold SizeBytes. rewrite Hb. change (SizeUint (Z.of_nat 24)) with 1. lia. }
  unfold SizeBytes. pose proof (Hvar (Z.of_nat (length (Auth_Bytes auth)))) as Htwo. rewrite Hlen.
  repeat case_match; lia.
Qed.

(** Sixteen buys of alice: 572 bytes are estimated; the transaction takes 533. *)
Lemma size_within_estimate_witness :
  let orders := replicate 16 (Yes, mkOrder 5 10 15) in
  match GenerateTransaction (fun _ => NewDefaultRules) [100; 100; 100; 100; 100] 1700000000000
          (map (fun p => buy_Action p.1 p.2) orders) alice with
  | Returns (Ok tx) =>
      exists units, EstimateUnits NewDefaultRules (map (fun p => buy_Action p.1 p.2) orders) alice = Returns (Ok units) /\
        nth 0 units 0 = 572 /\ st_size tx <= 572
  | _ => False
  end.
Proof.
  intros orders.
  assert (match GenerateTransaction (fun _ => NewDefaultRules) [100; 100; 100; 100; 100] 1700000000000
            (map (fun p => buy_Action p.1 p.2) orders) alice with Returns (Ok _) => true | _ => false end = true)
    as Hok by (vm_compute; reflexivity).
  destruct (GenerateTransaction _ _ _ _ _) as [[tx|e]|e] eqn:E; [clear Hok|discriminate Hok..].
  destruct (size_within_estimate (fun _ => NewDefaultRules) [100; 100; 100; 100; 100] 1700000000000 orders alice tx)
    as (units & Eu & Hn & Hs);
    [|apply wf_alice|by apply (bool_decide_unpack _)|by apply (bool_decide_unpack _)|done|simpl; lia|done|exact E|].
  - split; [apply default_rules_wf|by apply (bool_decide_unpack _)|by repeat constructor|by apply (bool_decide_unpack _)].
  - exists units. rewrite Hn in Hs. auto.
Defined.

(** C38: the issuer's transactions are worthless.  Whatever is called on an
    issuer, in whatever order, its count of funds and the maximal fees of the transactions it
    made add up to what it started with, so the subtraction never wraps and
    nothing panics; but each of these transactions has no actions, so no
    balance key is declared for its fee and the chain rejects it, on every
    state, with [ErrInvalidKeyOrPermission]. *)
Theorem issuer_txs_rejected `{Hashing} `{Crypto} {R F} `{ChainRules R} `{LawfulAuthFactory F} (i : Issuer R F) calls :
  wf_issuer i -> wf_addr (Address (authFactory i)) ->
  exists txs i', run_issuer calls i = Returns (txs, i') /\
    currBalance i' + total_fees txs = currBalance i /\ 0 <= total_fees txs <= currBalance i /\
    forall tx fee ts state block, tx ∈ txs ->
      run_tx New (signed_tx tx) fee ts state block = (Err ErrInvalidKeyOrPermission, block).
Proof.
  intros Hi Ha. destruct (run_issuer_spec calls i Hi) as (txs & i' & E & Hi' & Hsum & Hpos & Hall).
  exists txs, i'. pose proof (wfi_balance _ Hi') as [Hb _]. split_and!; [done|done|done|lia|].
  intros tx fee ts state block Hin. rewrite list.Forall_forall in Hall. rewrite (Hall tx Hin).
  apply (foreign_sponsor []); auto.
Qed.

Lemma wf_alice_issuer : wf_issuer (NewIssuer alice (fun _ => NewDefaultRules) 20000 [100; 100; 100; 100; 100]).
Proof.
  split; [|by apply (bool_decide_unpack _)..]. intros ts.
  split; [apply default_rules_wf|by apply (bool_decide_unpack _)|by repeat constructor|by apply (bool_decide_unpack _)].
Qed.

(** At these prices two transactions use the funds up; the third is refused. *)
Lemma issuer_txs_rejected_witness :
  let i := NewIssuer alice (fun _ => NewDefaultRules) 60000 [100; 100; 100; 100; 100] in
  let calls := [CallGenerateTx 1000; CallStop; CallGenerateTx 2000; CallListen (ErrFresh "context canceled"); CallGenerateTx 3000] in
  match run_issuer calls i with
  | Returns (txs, i') => length txs = 2%nat /\ currBalance i' + total_fees txs = 60000
  | Panics _ => False
  end.
Proof.
  intros i calls.
  destruct (issuer_txs_rejected i calls) as (txs & i' & E & Hs & _);
    [destruct wf_alice_issuer as [H1 H2 _]; split; [exact H1|exact H2|by apply (bool_decide_unpack _)]|apply wf_alice|].
  rewrite E. split; [|exact Hs]. assert (Returns (txs, i') = run_issuer calls i) as E' by done.
  vm_compute in E'. by injection E' as -> ->.
Defined.

(** The workload's transactions always fail.  Each transaction that the
    network tests' generator makes, whatever the node answered, is one BuyYes
    for one share of market 1 without a maximal price; wherever a block
    includes it, it executes without success, with the error of
    [ErrMaxPriceCannotBeZero]. *)
Lemma workload_txs_fail `{Hashing} `{Crypto} {F W} `{AuthFactory F} SendGenesisRequest UnitPrices (f : F) uri now
    (w w' : W) tx fee ts state block r block' :
  TxGenerator_GenerateTx SendGenesisRequest UnitPrices f uri now w = Returns (Ok tx, w') ->
  run_tx New (signed_tx tx) fee ts state block = (Ok r, block') ->
  Success r = false /\ Result_Error r = bytes_of_string "max price cannot be zero".
Proof.
  unfold TxGenerator_GenerateTx. destruct (GetRuleFactory _ _ _) as [[[[rules|]|e] [cli w1]]|e]; try done.
  all: destruct (UnitPrices uri w1) as [[prices|e] w2]; try done.
  destruct (GenerateTransaction _ _ _ _ _) as [[tx'|e]|e] eqn:Eg; try done. intros [= <- <-].
  unfold signed_tx. rewrite (GenerateTransaction_actions _ _ _ _ _ _ Eg). unfold run_tx.
  destruct (tx_StateKeys New _) as [keys|]; [|done].
  destruct (tx_PreExecute _ _ _ _ _); [|done]. unfold tx_Execute.
  destruct (Deduct _ _ _ _) as [[u|e] v]; [|done]. cbn [tx_Actions tx_Actor run_actions].
  change (Execute workload_action ts _ v) with (BuyYes_Execute (mkBuyYes 1 1 0) ts (Actor (st_Auth tx')) v).
  rewrite workload_action_fails. by intros [= <- _].
Qed.

Lemma workload_txs_fail_witness :
  let send (uri : string) (w : nat) := (Ok (Some (NewDefaultGenesis [])), S w) : result (option DefaultGenesis) * nat in
  let prices (uri : string) (w : nat) := (Ok [100; 100; 100; 100; 100], S w) : result Dimensions * nat in
  match TxGenerator_GenerateTx send prices alice "http://node" 1000 0%nat with
  | Returns (Ok tx, 2%nat) =>
      match run_tx New (signed_tx tx) 100 500 demo_storage fresh_block with
      | (Ok r, _) => Success r = false /\ Result_Error r = bytes_of_string "max price cannot be zero"
      | _ => False
      end
  | _ => False
  end.
Proof.
  intros send prices.
  destruct (TxGenerator_GenerateTx send prices alice "http://node" 1000 0%nat) as [[[tx|e] w]|e] eqn:E;
    [|vm_compute in E; discriminate..].
  assert (w = 2%nat) as -> by (vm_compute in E; congruence).
  assert (signed_tx tx = mkTransaction [workload_action] alice alice) as Ha by (vm_compute in E; injection E as <-; reflexivity).
  destruct (run_tx _ _ _ _ _ _) as [[r|e] block'] eqn:Er;
    [by apply (workload_txs_fail send prices alice "http://node" 1000 0%nat 2%nat tx 100 500
       demo_storage fresh_block r block' E Er)|].
  rewrite Ha in Er. vm_compute in Er. discriminate.
Defined.
