(* ===== verification/WireCorrect.v ===== *)
(** * Theorems on transactions as bytes

    The wire format is exact, and what arrives at a node of the transactions
    that are sent. *)

From S2P Require Import Prelude GoErrors Lib Consts LinearCodec BuyYes BuyNo CreateMarket Canoto Vm KeyStore Transaction Wire ActionBytes VmCorrect Examples.
#[local] Open Scope Z_scope.

(** C39: the wire format is exact.  [UnmarshalTx] accepts a slice, for any
    parser of actions and auths, exactly when it is the serialization of a
    base, a list of action bytes and an auth that parse; it then returns what
    they parse to, and takes for the bytes that were signed the serialization
    of the same base and actions without the auth.  So a transaction has one
    serialization only, and its signature covers its base and its actions. *)
Theorem parsed_tx_exact `{Crypto} {A Auth : Type} (parser : TxTypeParser A Auth) B tx :
  wf_bytes B ->
  UnmarshalTx B parser = Ok tx <->
  exists base actionBytes authBytes actions auth,
    let message := mkSerializeTx base actionBytes authBytes in
    wf_stx message /\ B = SerializeTx_MarshalCanoto message /\
    Forall2 (fun b a => ParseAction parser b = Ok a) actionBytes actions /\
    ParseAuth parser authBytes = Ok auth /\
    tx = mkSignedTransaction
           (mkTransactionData base actions (SerializeTx_MarshalCanoto (mkSerializeTx base actionBytes []))) auth
           B (Z.of_nat (length B)) (ToID B).
Proof.
  intros Hw. unfold UnmarshalTx. split.
  - destruct (fst (SerializeTx_UnmarshalCanotoFrom B)) as [c|e] eqn:Es; cbn [mbind result_bind]; [|done].
    apply SerializeTx_exact in Es as [Hc ->]; [|done].
    destruct (parse_actions _ _ _) as [actions|e] eqn:Ea; cbn [mbind result_bind]; [|done].
    destruct (ParseAuth _ _) as [auth|e] eqn:Eau; [|done]. rewrite unsigned_bytes_ok by done.
    cbn [mbind result_bind]. intros [= <-]. apply parse_actions_Forall2 in Ea.
    exists (stx_Base c), (stx_Actions c), (stx_Auth c), actions, auth. destruct c. by split_and!.
  - intros (base & bs & ab & actions & auth & Hc & EB & Ha & Hau & ->).
    rewrite (proj2 (SerializeTx_exact B _ Hw) (conj Hc EB)). cbn [mbind result_bind stx_Actions stx_Auth stx_Base].
    rewrite (proj2 (parse_actions_Forall2 _ _ _ _) Ha). cbn [mbind result_bind]. rewrite Hau.
    pose proof (unsigned_bytes_ok _ Hc) as Hu. rewrite <- EB in Hu. cbn [stx_Auth] in Hu. by rewrite Hu.
Qed.

(** ** What arrives of the program's actions *)

Definition wf_action (a : action) : Prop :=
  match a with
  | ABuyYes y => wf_BuyYes y
  | ABuyNo n => wf_BuyNo n
  | ACreateMarket cm => wf_CreateMarket cm
  end.

Definition unknown_type (typeID : Z) : error := ErrFresh ("typeID " +:+ fmt_d typeID +:+ " not found").

(** What a node makes of an action that is sent: by the top byte of the
    market ID, a BuyYes of the same numbers, or nothing. *)
Definition arrival (a : action) : result action :=
  match a with
  | ABuyYes y =>
      if by_MarketID y / 2 ^ 56 =? BuyYesID then Ok a else Err (unknown_type (by_MarketID y / 2 ^ 56))
  | ABuyNo n =>
      if bn_MarketID n / 2 ^ 56 =? BuyYesID then Ok (ABuyYes (mkBuyYes (bn_MarketID n) (bn_Amount n) (bn_MaxPrice n)))
      else Err (unknown_type (bn_MarketID n / 2 ^ 56))
  | ACreateMarket _ => Err (unknown_type CreateMarketID)
  end.

Lemma good_short b : wf_bytes b -> (length b <= 1024)%nat -> good_bytes b.
Proof. intros Hw Hl. split; [done|]. unfold two64. lia. Qed.

Lemma action_arrives {Auth} (p : parsers Auth) a b :
  ActionParser p = action_parser -> wf_action a -> Bytes_of a = Returns b ->
  good_bytes b /\ ParseAction (vm_Parser p) b = arrival a.
Proof.
  intros Hp Hw Hb. unfold ParseAction, vm_Parser, NewTxTypeParser. cbn [ActionRegistry]. rewrite Hp.
  destruct a as [y|n|cm]; cbn [arrival wf_action] in *;
    unfold Bytes_of, action_Serialized, action_Bytes in Hb.
  - destruct Hw as (H1 & H2 & H3). injection Hb as <-. rewrite BuyYes_Bytes_eq, parse_order by done.
    split; [|by destruct y]. apply good_short; [|rewrite length_order_bytes; lia].
    unfold order_bytes. rewrite !wf_bytes_app. auto with vm.
  - destruct Hw as (H1 & H2 & H3). injection Hb as <-. rewrite BuyNo_Bytes_eq, parse_order by done.
    split; [|done]. apply good_short; [|rewrite length_order_bytes; lia].
    unfold order_bytes. rewrite !wf_bytes_app. auto with vm.
  - pose proof Hb as Hb'. rewrite (CreateMarket_Bytes_cases cm Hw) in Hb'.
    destruct (Z.leb_spec (create_size cm) MaxCreateMarketSize); [|done].
    assert (b = CreateMarketID :: encode (CreateMarket_values cm)) as -> by congruence. clear Hb Hb'.
    split; [|by rewrite action_parser_cases]. apply good_short.
    + apply wf_bytes_cons. split; [done|]. eapply encode_wf. by apply wf_CreateMarket_kinds.
    + pose proof (length_create_bytes cm) as Hl. unfold MaxCreateMarketSize in *. lia.
Qed.

Lemma actions_arrive {Auth} (p : parsers Auth) l bs :
  ActionParser p = action_parser -> Forall wf_action l -> actions_Bytes l = Returns bs ->
  Forall good_bytes bs /\ Forall2 (fun a b => Bytes_of a = Returns b /\ ParseAction (vm_Parser p) b = arrival a) l bs.
Proof.
  intros Hp Hl. revert bs. induction Hl as [|a l Ha _ IH]; intros bs; cbn [actions_Bytes].
  - intros [= <-]. by split; [apply List.Forall_nil|].
  - destruct (Bytes_of a) as [b|e] eqn:Eb; [|done]. destruct (actions_Bytes l) as [bs'|e]; [|done].
    intros [= <-]. destruct (IH bs' eq_refl) as [Hg H2]. destruct (action_arrives p a b Hp Ha Eb) as [Hgb Hb].
    split; by constructor.
Qed.

Lemma SerializeTx_MarshalCanoto_wf c : wf_stx c -> wf_bytes (SerializeTx_MarshalCanoto c).
Proof.
  intros (Hb & Ha & Hau). rewrite <- stx_from_0 by done. unfold stx_from. rewrite !wf_bytes_app.
  split_and!.
  - case_match; [|by apply List.Forall_nil]. apply wf_bytes_app. split; [by apply (bool_decide_unpack _)|].
    by apply AppendBytes_wf, Base_MarshalCanotoInto_good.
  - cbn [Z.leb Z.compare]. induction Ha as [|b l Hbb _ IH]; [by apply List.Forall_nil|]. unfold entries in *.
    cbn [map concat]. rewrite !wf_bytes_app. split_and!; [by apply (bool_decide_unpack _)|by apply AppendBytes_wf|done].
  - case_match; [|by apply List.Forall_nil]. apply wf_bytes_app. split; [by apply (bool_decide_unpack _)|].
    by apply AppendBytes_wf.
Qed.

(** C40: transactions do not arrive as they were sent.  The bytes of a
    transaction of the program's actions, signed and made by the library, are
    parsed with the VM's parser as follows.  When every action is a purchase
    in a market whose ID has 5 for its top byte, the same base, signature,
    signed bytes and ID come back, but each BuyNo has become a BuyYes of the
    same numbers.  Otherwise parsing fails at the first other action, for an
    unknown type ID. *)
Theorem sent_tx_misparsed `{Crypto} {Auth' : Type} (d1 d2 d3 : bytes -> result Auth') p base l auth tx :
  init d1 d2 d3 None = Returns p -> wf_base base -> Forall wf_action l -> good_bytes (Auth_Bytes auth) ->
  NewTransaction base l auth = Returns tx ->
  (forall l' auth', Forall2 (fun a a' => arrival a = Ok a') l l' ->
     Unmarshal (AuthParser p) (Auth_Bytes auth) = Ok auth' ->
     UnmarshalTx (st_bytes tx) (vm_Parser p) = Ok (mkSignedTransaction
       (mkTransactionData base l' (td_unsignedBytes (st_Data tx))) auth' (st_bytes tx) (st_size tx) (st_id tx))) /\
  (forall pre a post err, l = pre ++ a :: post -> Forall (fun a => is_ok (arrival a) = true) pre ->
     arrival a = Err err -> exists b, Bytes_of a = Returns b /\
     UnmarshalTx (st_bytes tx) (vm_Parser p) =
       Err (Errorf_w ("failed to parse action " +:+ fmt_x b +:+ " at index " +:+ fmt_d (Z.of_nat (length pre)) +:+ ": ")
              err "")).
Proof.
  intros Hi Hb Hl Ha Et. rewrite init_result in Hi. injection Hi as <-.
  rewrite NewTransaction_eq in Et. destruct (actions_Bytes l) as [bs|e] eqn:Ebs; [|done].
  match goal with |- context [vm_Parser ?q] => set (p := q) end.
  destruct (actions_arrive p l bs eq_refl Hl Ebs) as [Hg H2].
  assert (wf_stx (mkSerializeTx base bs (Auth_Bytes auth))) as Hc by by split_and!.
  injection Et as <-. cbn [st_bytes st_Data td_unsignedBytes st_size st_id].
  pose proof (SerializeTx_MarshalCanoto_wf _ Hc) as Hw. split.
  - intros l' auth' Hl' Hau. unfold UnmarshalTx.
    rewrite (proj2 (SerializeTx_exact _ _ Hw) (conj Hc eq_refl)). cbn [mbind result_bind stx_Actions stx_Auth stx_Base].
    rewrite (proj2 (parse_actions_Forall2 (vm_Parser p) bs l' 0)).
    + cbn [mbind result_bind]. unfold ParseAuth at 1. change (AuthRegistry (vm_Parser p)) with (AuthParser p). rewrite Hau.
      pose proof (unsigned_bytes_ok _ Hc) as Hu. cbn [stx_Auth] in Hu. by rewrite Hu.
    + clear -H2 Hl'. revert l' Hl'. induction H2 as [|a b l bs [_ Hab] _ IH]; intros l' Hl'; inversion_clear Hl'; [constructor|].
      constructor; [congruence|auto].
  - intros pre a post err -> Hpre Herr. apply Forall2_app_inv_l in H2 as (bpre & bs' & Hbpre & Hbs' & ->).
    inversion Hbs' as [|? b ? bpost [Eb Hab] Hpost]; subst. exists b. split; [done|]. unfold UnmarshalTx.
    rewrite (proj2 (SerializeTx_exact _ _ Hw) (conj Hc eq_refl)). cbn [mbind result_bind stx_Actions].
    rewrite (parse_actions_fail (vm_Parser p) bpre b bpost err 0).
    + cbn [mbind result_bind]. by rewrite (Forall2_length Hbpre), Z.add_0_l.
    + clear -Hbpre Hpre. induction Hbpre as [|a b l bs [_ Hab] _ IH]; [by apply List.Forall_nil|].
      inversion_clear Hpre as [|? ? Ha Hl]. constructor; [|auto]. destruct (arrival a) as [a'|]; [eauto|done].
    + by rewrite Hab.
Qed.

(** ** Witnesses *)

(** Decides a closed statement by evaluation. *)
Ltac decided := apply (bool_decide_unpack _); vm_compute; exact I.

#[local] Instance some_crypto : Crypto := {|
  ToID b := take 32 (b ++ make_bytes 32);
  secp256r1_PublicKey b := b;
  bls_PrivateKeyFromBytes := Ok;
  bls_PublicKeyToBytes b := b;
|}.

Definition example_parsers : parsers bytes :=
  match init Ok Ok Ok None with Returns p => p | Panics _ => mkParsers action_parser NewTypeParser end.

Definition example_base : Base := mkBase 1700000061000 (be_put 32 7) 12345.

(** A signature of type 0, and two orders in the market whose ID starts with
    5. *)
Definition example_auth : Auth := mkAuth (make_bytes 97) alice alice.
Definition fives : Z := 5 * 2 ^ 56 + 7.
Definition example_actions : list action := [ABuyYes (mkBuyYes fives 10 15); ABuyNo (mkBuyNo fives 20 25)].
Definition arrived_actions : list action := [ABuyYes (mkBuyYes fives 10 15); ABuyYes (mkBuyYes fives 20 25)].

Definition example_bytes (l : list action) : bytes :=
  match NewTransaction example_base l example_auth with Returns tx => st_bytes tx | Panics _ => [] end.

Definition action_bytes (a : action) : bytes := match Bytes_of a with Returns b => b | Panics _ => [] end.

Lemma parsed_tx_exact_witness :
  let B := example_bytes example_actions in
  let message := mkSerializeTx example_base (map action_bytes example_actions) (make_bytes 97) in
  UnmarshalTx B (vm_Parser example_parsers) = Ok (mkSignedTransaction
    (mkTransactionData example_base arrived_actions
       (SerializeTx_MarshalCanoto (without_auth message))) (make_bytes 97) B 203 (ToID B)).
Proof.
  intros B message.
  apply (proj2 (parsed_tx_exact (vm_Parser example_parsers) B _ ltac:(decided))).
  exists example_base, (map action_bytes example_actions), (make_bytes 97), arrived_actions, (make_bytes 97).
  split_and!.
  - decided.
  - vm_compute. reflexivity.
  - repeat (apply List.Forall2_cons; [vm_compute; reflexivity|]). apply List.Forall2_nil.
  - vm_compute; reflexivity.
  - vm_compute. reflexivity.
Defined.

(** The BuyNo arrives as a BuyYes; in market 7 an order does not arrive at
    all. *)
Lemma sent_tx_misparsed_witness :
  match NewTransaction example_base example_actions example_auth with
  | Returns tx =>
      UnmarshalTx (st_bytes tx) (vm_Parser example_parsers) = Ok (mkSignedTransaction
        (mkTransactionData example_base arrived_actions (td_unsignedBytes (st_Data tx))) (make_bytes 97)
        (st_bytes tx) (st_size tx) (st_id tx))
  | Panics _ => False
  end /\
  let lost := mkBuyYes 7 10 15 in
  match NewTransaction example_base [ABuyYes (mkBuyYes fives 10 15); ABuyYes lost] example_auth with
  | Returns tx =>
      exists b, BuyYes_Bytes lost = b /\
      UnmarshalTx (st_bytes tx) (vm_Parser example_parsers) =
        Err (Errorf_w ("failed to parse action " +:+ fmt_x b +:+ " at index 1: ") (unknown_type 0) "")
  | Panics _ => False
  end.
Proof.
  split.
  - destruct (NewTransaction example_base example_actions example_auth) as [tx|e] eqn:E; [|discriminate].
    refine (proj1 (sent_tx_misparsed Ok Ok Ok example_parsers example_base example_actions example_auth tx
      eq_refl _ _ _ E) arrived_actions (make_bytes 97) _ eq_refl).
    + decided.
    + repeat (apply List.Forall_cons; [decided|]). apply List.Forall_nil.
    + split; [decided|done].
    + repeat (apply List.Forall2_cons; [reflexivity|]). apply List.Forall2_nil.
  - intros lost. destruct (NewTransaction _ _ _) as [tx|e] eqn:E; [|discriminate].
    destruct (proj2 (sent_tx_misparsed Ok Ok Ok example_parsers example_base
      [ABuyYes (mkBuyYes fives 10 15); ABuyYes lost] example_auth tx eq_refl
      ltac:(decided)
      ltac:(repeat (apply List.Forall_cons; [decided|]); apply List.Forall_nil)
      ltac:(split; [decided|done]) E) [ABuyYes (mkBuyYes fives 10 15)] (ABuyYes lost) []
      (unknown_type 0)) as (b & Hb & Hu); [done| |done|].
    + apply List.Forall_cons; [reflexivity|apply List.Forall_nil].
    + exists b. split; [by injection Hb|exact Hu].
Defined.
