(* ===== verification/NodeCorrect.v ===== *)
(** * Theorems on the node and its clients

    Which APIs the VM serves, and what the program's client sees of them
    while the chain goes on. *)

From S2P Require Import Prelude GoErrors Lib Consts Store TState StorageKeys Balances Markets Controller BuySpec BuyFacts BuyNo Trade CreateMarket Examples Footprint Transaction Genesis Strconv Cobra Vm ActionBytes VmCorrect KeyStore Node.
#[local] Open Scope Z_scope.

(** ** The handlers of a set of options *)

Section handlers.
Context {V W Auth : Type} `{ApiVM V W} `{Services V} `{Quoting}.
Context `{JSONConfig Config} `{JSONConfig IndexerConfig} `{JSONConfig WsConfig}
  `{JSONConfig SubscriberConfig}.
Implicit Types (vm : V) (raw : string -> bytes) (o : Options V).

(** A factory whose handlers keep off a path. *)
Definition avoids (path : string) (f : HandlerFactory V) : Prop :=
  forall vm, h_Path (f vm).1 = path -> is_Some (f vm).2.

(** An option that leaves such factories only. *)
Definition option_avoids (path : string) (opt : VMOption V) : Prop :=
  forall vm config f, optionFunc opt vm config = Ok f -> forall o,
    Forall (avoids path) (vmAPIHandlerFactories o) -> Forall (avoids path) (vmAPIHandlerFactories (f o)).

Lemma apply_options_avoids path vm raw opts : forall o o',
  Forall (option_avoids path) opts -> apply_options vm raw opts o = Ok o' ->
  Forall (avoids path) (vmAPIHandlerFactories o) -> Forall (avoids path) (vmAPIHandlerFactories o').
Proof.
  induction opts as [|opt opts IH]; intros o o' Ho E Hf; simpl in E; [by simplify_eq|].
  inversion_clear Ho as [|? ? Ho1 Ho2].
  destruct (optionFunc opt vm _) as [f|] eqn:Ef; simpl in E; [|done].
  eapply IH; [done|exact E|]. by eapply Ho1.
Qed.

Lemma add_handlers_avoids path vm fs : forall hs hs',
  Forall (avoids path) fs -> add_handlers vm fs hs = Ok hs' -> hs' !! path = hs !! path.
Proof.
  induction fs as [|f fs IH]; intros hs hs' Hf E; simpl in E; [by simplify_eq|].
  inversion_clear Hf as [|? ? Hf1 Hf2]. pose proof (Hf1 vm) as Hp.
  destruct (f vm) as [api [err|]]; [done|]. rewrite (IH _ _ Hf2 E).
  apply lookup_insert_ne. intros Hpath. by destruct (Hp Hpath).
Qed.

Lemma library_API_avoids path name path' (service : V -> Service V) :
  path' <> path -> avoids path (library_API name path' service).
Proof.
  intros Hne vm. unfold library_API, NewJSONRPCHandler.
  destruct (RegisterService name (service vm)); simpl; [by eexists|done].
Qed.

Lemma NewOption_avoids {C} `{JSONConfig C} path ns (c : C) f :
  (forall vm config, match f vm config with
     | Ok g => forall o, Forall (avoids path) (vmAPIHandlerFactories o) -> Forall (avoids path) (vmAPIHandlerFactories (g o))
     | Err _ => True end) ->
  option_avoids path (NewOption ns c f).
Proof.
  intros Hf vm config g. unfold NewOption. cbn [optionFunc mbind result_bind].
  destruct (if (0 <? length config)%nat then _ else _) as [c'|e]; [|done].
  intros E. specialize (Hf vm c'). cbn in E. by rewrite E in Hf.
Qed.

Lemma WithVMAPIs_avoids path f o :
  avoids path f -> Forall (avoids path) (vmAPIHandlerFactories o) ->
  Forall (avoids path) (vmAPIHandlerFactories (WithVMAPIs [f] o)).
Proof. intros Hf Ho. apply Forall_app. split; [done|by constructor]. Qed.

Lemma default_options_avoid : Forall (option_avoids JSONRPCEndpoint) NewDefaultOptions.
Proof.
  repeat constructor; apply NewOption_avoids; intros vm config.
  all: destruct (negb _); [done|].
  - cbv zeta. destruct (NewIndexer (V := V)); [done|]. intros o Ho.
    apply WithVMAPIs_avoids; [by apply library_API_avoids|done].
  - intros o Ho. by apply WithVMAPIs_avoids.
  - intros o Ho. apply WithVMAPIs_avoids; [by apply library_API_avoids|done].
  - by destruct (NewExternalSubscriberClient (V := V)).
  - intros o Ho. apply WithVMAPIs_avoids; [by apply library_API_avoids|done].
Qed.

Lemma New_options (p : parsers Auth) opts v :
  New p opts = Ok v -> vm_options v = NewDefaultOptions ++ opts.
Proof.
  unfold New, Factory_New. destruct (allocate_namespaces _ _); [done|].
  destruct (NewABI _ _); [done|]. by intros [= <-].
Qed.

Lemma apply_options_app vm raw opts1 opts2 : forall o,
  apply_options vm raw (opts1 ++ opts2) o =
    (o1 ← apply_options vm raw opts1 o; apply_options vm raw opts2 o1).
Proof.
  induction opts1 as [|opt opts1 IH]; intros o; simpl; [done|].
  destruct (optionFunc opt vm _) as [f|]; simpl; [apply IH|done].
Qed.

Lemma add_handlers_app vm fs1 fs2 : forall hs,
  add_handlers vm (fs1 ++ fs2) hs = (hs1 ← add_handlers vm fs1 hs; add_handlers vm fs2 hs1).
Proof.
  induction fs1 as [|f fs1 IH]; intros hs; simpl; [done|]. destruct (f vm) as [api [err|]]; [done|apply IH].
Qed.

(** Without the option of the package the VM serves no prediction API. *)
Lemma New_alone_handlers (p : parsers Auth) v vm raw handlers :
  New p [] = Ok v -> CreateHandlers vm raw v = Ok handlers -> handlers !! JSONRPCEndpoint = None.
Proof.
  intros Hv E. unfold CreateHandlers in E. rewrite (New_options _ _ _ Hv), app_nil_r in E.
  destruct (apply_options _ _ _ _) as [o|] eqn:Eo; simpl in E; [|done].
  apply (apply_options_avoids _ _ _ _ _ _ default_options_avoid) in Eo; [|done].
  rewrite (add_handlers_avoids _ _ _ _ _ Eo E). apply lookup_empty.
Qed.

(** With the option, and no configuration for it, it does. *)
Lemma New_with_handlers (p : parsers Auth) v vm raw handlers :
  New p [With] = Ok v -> raw Namespace = [] -> CreateHandlers vm raw v = Ok handlers ->
  handlers !! JSONRPCEndpoint = Some (JSONRPCHandler Consts.Name (PredictionService (NewJSONRPCServer vm))).
Proof.
  intros Hv Hraw E. unfold CreateHandlers in E. rewrite (New_options _ _ _ Hv), apply_options_app in E.
  destruct (apply_options vm raw NewDefaultOptions _) as [o|] eqn:Eo; simpl in E; [|done].
  rewrite Hraw in E. simpl in E. rewrite add_handlers_app in E.
  destruct (add_handlers vm _ ∅) as [hs|]; simpl in E; [|done].
  unfold jsonRPCServerFactory_New, NewJSONRPCHandler in E.
  destruct (RegisterService _ _); simpl in E; [done|]. injection E as <-. apply lookup_insert_eq.
Qed.
End handlers.

(** ** The client *)

Section clients.
Context {V W G R : Type} `{ApiVM V W}.
Variables (base : string) (handlers : gmap string (HttpHandler V)) (next : W -> W).
Variables (not_served : string -> error) (rpc_error rpc_panic : error -> error).

Lemma string_drop_app (a b : string) : string_drop (String.length a) (a +:+ b) = b.
Proof. by induction a as [|c a IH]. Qed.

Lemma HasPrefix_app (a b : string) : HasPrefix a (a +:+ b) = true.
Proof.
  induction a as [|c a IH]; [by destruct b|]. change (String c a +:+ b) with (String c (a +:+ b)).
  unfold HasPrefix; fold HasPrefix. by rewrite Ascii.eqb_refl, IH.
Qed.

(** Where the URI of a client of this node leads. *)
Lemma route_client name :
  route base handlers (base +:+ JSONRPCEndpoint) name =
    match handlers !! JSONRPCEndpoint with
    | Some (JSONRPCHandler n service) => if decide (n = name) then Some service else None
    | _ => None
    end.
Proof. unfold route. by rewrite HasPrefix_app, string_drop_app. Qed.
End clients.

(** ** An example node *)

#[local] Instance quiet_services : Services VMRef := {|
  RegisterService _ _ := None;
  NewIndexer _ _ := None;
  NewExternalSubscriberClient _ _ := None;
  NewABI _ _ := None;
|}.

(** Configurations are ignored. *)
#[local] Instance default_config {C} : JSONConfig C := fun _ config => Ok config.
#[local] Existing Instance plain_quote.

Definition example_vm : VMRef := mkVMRef "/data" [] (IsDefaultGenesis (NewDefaultGenesis [])).

Definition example_parsers : parsers unit := mkParsers action_parser NewTypeParser.

Definition made (options : list (VMOption VMRef)) : @VM VMRef unit :=
  match New example_parsers options with Ok v => v | Err _ => mkVM Controller.New example_parsers [] end.

Definition served (options : list (VMOption VMRef)) : gmap string (HttpHandler VMRef) :=
  match CreateHandlers example_vm (fun _ => []) (made options) with Ok handlers => handlers | Err _ => ∅ end.

(** The chain accepts this block before every answer when it can: alice pays
    fees for buys that fail. *)
Definition example_next (state : bytes -> result bytes) : bytes -> result bytes :=
  match run_txs Controller.New [(mkTransaction [buy_Action No demo_order] alice alice, 100)] 500 state fresh_block with
  | (Ok _, block) => block_value block state
  | (Err _, _) => state
  end.

Lemma example_next_accepts state : rtc (block_step program_tx) state (example_next state).
Proof.
  unfold example_next. destruct (run_txs _ _ _ _ _) as [[rs|e] block] eqn:E; [|done].
  apply rtc_once. eapply block_accepted; [|exact E]. apply List.Forall_cons; [|apply List.Forall_nil]. apply List.Forall_cons; [apply buy_Action_program|apply List.Forall_nil].
Qed.

Definition refused (uri : string) : error := ErrFresh ("404 " +:+ uri).

(** C31: the program's API is not served.  The VM that the predictionvm binary
    makes, by [New] without options, registers no handler under
    /predictionapi, whatever the node's configuration: the option [With] of
    the package is not among its defaults.  So every call of the program's
    client against such a node fails as for a URI that is not served, and
    [WaitForBalance] in its first round.  A VM made with the option, and with
    no configuration for it, has the program's service there. *)
Theorem api_not_served {V W Auth R : Type} `{ApiVM V W} `{Services V} `{Quoting} `{JSONConfig Config}
    `{JSONConfig IndexerConfig} `{JSONConfig WsConfig} `{JSONConfig SubscriberConfig}
    (p : parsers Auth) v (vm : V) raw handlers base (next : W -> W) not_served rpc_error rpc_panic
    (mk : DefaultGenesis -> R) (w : W) :
  New p [] = Ok v -> CreateHandlers vm raw v = Ok handlers -> TrimSuffix_slash base = base ->
  let cli := NewJSONRPCClient base in
  let err := not_served (base +:+ JSONRPCEndpoint) in
  let send_balance := SendBalanceRequest base handlers next not_served rpc_error rpc_panic in
  let send_genesis := SendGenesisRequest base handlers next not_served rpc_error rpc_panic in
  handlers !! JSONRPCEndpoint = None /\
  (forall addr, Client_Balance send_balance addr (cli, w) = (Err err, (cli, next w))) /\
  Genesis send_genesis (cli, w) = (Err err, (cli, next w)) /\
  GetRuleFactory mk send_genesis (cli, w) = Returns (Err err, (cli, next w)) /\
  (forall fuel ctx_Err addr min, ctx_Err 0%nat = None ->
    WaitForBalance send_balance (S fuel) ctx_Err addr min (cli, w) = Some (Some err, (cli, next w))) /\
  forall v' handlers', New p [With] = Ok v' -> raw Namespace = [] -> CreateHandlers vm raw v' = Ok handlers' ->
    handlers' !! JSONRPCEndpoint = Some (JSONRPCHandler Consts.Name (PredictionService (NewJSONRPCServer vm))).
Proof.
  intros Hv Hh Hbase cli err send_balance send_genesis.
  pose proof (New_alone_handlers _ _ _ _ _ Hv Hh) as Hnone.
  assert (cli_uri cli = base +:+ JSONRPCEndpoint) as Huri by (unfold cli, NewJSONRPCClient; simpl; by rewrite Hbase).
  assert (forall addr, Client_Balance send_balance addr (cli, w) = (Err err, (cli, next w))) as Hbal.
  { intros addr. unfold Client_Balance, send_balance, SendBalanceRequest.
    by rewrite Huri, route_client, Hnone. }
  assert (Genesis send_genesis (cli, w) = (Err err, (cli, next w))) as Hgen.
  { unfold Genesis, send_genesis, SendGenesisRequest. by rewrite Huri, route_client, Hnone. }
  split_and!; [done..| | |].
  - unfold GetRuleFactory. change (cli_ruleFactory (fst (cli, w))) with (@None R). by rewrite Hgen.
  - intros fuel ctx_Err addr min Hctx. unfold WaitForBalance. cbn [Wait]. rewrite Hctx.
    by rewrite check_balance_run, Hbal.
  - intros v' handlers' Hv' Hraw Hh'. by apply (New_with_handlers p v' vm raw).
Qed.

Lemma api_not_served_witness :
  dom (served []) = {["/indexer"; "/corews"; "/coreapi"; "/corestate"]} /\
  Client_Balance (SendBalanceRequest "http://node" (served []) example_next refused id id) alice
    (NewJSONRPCClient (G := DefaultGenesis) (R := unit) "http://node", GetValue demo_store)
  = (Err (refused "http://node/predictionapi"),
     (NewJSONRPCClient "http://node", example_next (GetValue demo_store))) /\
  served [With] !! "/predictionapi" = Some (JSONRPCHandler Consts.Name (PredictionService (NewJSONRPCServer example_vm))).
Proof.
  destruct (api_not_served example_parsers (made []) example_vm (fun _ => []) (served []) "http://node"
    example_next refused id id (fun _ => tt) (GetValue demo_store)) as (_ & Hbal & _ & _ & _ & Hwith);
    [vm_compute; reflexivity..|].
  split; [by apply (bool_decide_unpack _)|]. split; [apply Hbal|].
  apply (Hwith (made [With])); vm_compute; reflexivity.
Defined.

(** C30: waiting for a balance never succeeds.  Even on a node whose VM is made
    with the option, so that the API is served, over any chain of blocks of
    the program's actions whose state starts without the address's RPC
    balance key, the served balance is 0 for ever: waiting for any positive
    balance, whatever the address owns, ends in no number of rounds while the
    context lives, and otherwise with the context's error as soon as it
    ends. *)
Theorem served_balance_never_arrives `{Hashing} {Auth : Type} `{Services VMRef} `{Quoting} `{JSONConfig Config}
    `{JSONConfig IndexerConfig} `{JSONConfig WsConfig} `{JSONConfig SubscriberConfig}
    (p : parsers Auth) v (vm : VMRef) raw handlers base next not_served rpc_error rpc_panic state addr min :
  New p [With] = Ok v -> raw Namespace = [] -> CreateHandlers vm raw v = Ok handlers ->
  TrimSuffix_slash base = base ->
  (forall state, rtc (block_step program_tx) state (next state)) ->
  state (StateKeysBalance addr) = Err ErrNotFound -> 0 < min ->
  let s := (NewJSONRPCClient (G := DefaultGenesis) (R := unit) base, state) in
  let wait fuel ctx_Err := WaitForBalance
        (SendBalanceRequest base handlers next not_served rpc_error rpc_panic) fuel ctx_Err addr min s in
  (forall ctx_Err n err, (forall i, (i < n)%nat -> ctx_Err i = None) -> ctx_Err n = Some err ->
     forall fuel, (n < fuel)%nat -> wait fuel ctx_Err = Some (Some err, (fst s, Nat.iter n next state))) /\
  (forall ctx_Err, (forall i, ctx_Err i = None) -> forall fuel, wait fuel ctx_Err = None).
Proof.
  intros Hv Hraw Hh Hbase Hnext Hstate Hmin s wait.
  set (send := SendBalanceRequest base handlers next not_served rpc_error rpc_panic) in *.
  pose proof (New_with_handlers _ _ _ _ _ Hv Hraw Hh) as Hserved.
  assert (forall n, polled send addr n s = (fst s, Nat.iter n next state)) as Hpolled.
  { induction n as [|n IH]; [done|]. unfold polled in *. simpl. by rewrite IH. }
  assert (forall n, Nat.iter n next state (StateKeysBalance addr) = Err ErrNotFound) as Hkey.
  { induction n as [|n IH]; [done|]. simpl. by eapply chain_absent, IH. }
  assert (forall n, fst (Client_Balance send addr (polled send addr n s)) = Ok 0) as Hzero.
  { intros n. rewrite Hpolled. unfold Client_Balance, send, SendBalanceRequest. unfold s at 1.
    unfold NewJSONRPCClient. cbn [cli_uri fst]. rewrite Hbase, route_client, Hserved.
    rewrite decide_True by done. unfold JSONRPCServer_Balance, Vm.JSONRPCServer_Balance, GetBalanceFromState.
    simpl. unfold GetValue, state_Immutable. by rewrite Hkey. }
  assert (forall ctx_Err n, pending send ctx_Err addr min n s = match ctx_Err n with None => true | _ => false end) as Hp.
  { intros ctx_Err n. unfold pending. rewrite Hzero. destruct (ctx_Err n); [done|]. apply Z.ltb_lt, Hmin. }
  split.
  - intros ctx_Err n err Hlive Hend fuel Hf. unfold wait, WaitForBalance.
    change s with (polled send addr 0 s). rewrite (Wait_rounds send ctx_Err addr min s n n 0); [|lia|done|..].
    + unfold last_round. by rewrite Hend, Hpolled.
    + intros j Hj. rewrite Hp, Hlive by lia. done.
    + by rewrite Hp, Hend.
  - intros ctx_Err Hlive fuel. unfold wait, WaitForBalance. change s with (polled send addr 0 s).
    apply (Wait_pending send). intros j. by rewrite Hp, Hlive.
Qed.

(** Alice owns 1000 on the chain and waits for 1 in vain. *)
Lemma served_balance_never_arrives_witness :
  let s := (NewJSONRPCClient (G := DefaultGenesis) (R := unit) "http://node", GetValue demo_store) in
  let wait fuel ctx_Err := WaitForBalance
        (SendBalanceRequest "http://node" (served [With]) example_next refused id id) fuel ctx_Err alice 1 s in
  let deadline (i : nat) := if (i <? 2)%nat then None else Some (ErrFresh "context deadline exceeded") in
  wait 9%nat deadline = Some (Some (ErrFresh "context deadline exceeded"),
                              (fst s, example_next (example_next (GetValue demo_store)))) /\
  forall fuel, wait fuel (fun _ => None) = None.
Proof.
  intros s wait deadline.
  destruct (served_balance_never_arrives example_parsers (made [With]) example_vm (fun _ => []) (served [With])
    "http://node" example_next refused id id (GetValue demo_store) alice 1) as [H1 H2];
    [vm_compute; reflexivity|reflexivity|vm_compute; reflexivity|reflexivity|apply example_next_accepts
    |vm_compute; reflexivity|reflexivity|].
  split; [|intros fuel; by apply H2].
  apply (H1 deadline 2%nat); [|done|lia]. intros i Hi. unfold deadline.
  by rewrite (proj2 (Nat.ltb_lt i 2) Hi).
Defined.
