(* ===== verification/ProcessorCorrect.v ===== *)
(** * Blocks, proved

    What a validator accepts: the transactions of an accepted block were in
    time, on the right chain and within the limits; the block runs them as
    Transaction.v does, at fees the next prices set; its own keys meet no key
    of the program; and heights, times and prices over a chain of blocks. *)

From S2P Require Import Prelude GoErrors Lib Rules Strconv Consts Packer LinearCodec Store Permissions TState StorageKeys Balances Markets Ledger Controller BuyYes BuyNo BuySpec BuyFacts Trade CreateMarket ActionBytes Examples Footprint Canoto Vm KeyStore Cli Transaction Wire Fees FeeManager Generate Processor ChainCorrect LoadCorrect.
#[local] Open Scope Z_scope.

#[local] Existing Instance keys_sign.
#[local] Existing Instance some_crypto.
#[local] Existing Instance ED25519_AuthMethods.

(** ** Times *)

Lemma VerifyTimestamp_ok t now divisor window :
  divisor <> 0 -> is_i64 (now + window) ->
  VerifyTimestamp t now divisor window = Ok tt <-> (divisor | t) /\ now <= t <= now + window.
Proof.
  intros Hd Hi. unfold VerifyTimestamp, i64. rewrite i64_roundtrip by done.
  assert (Z.rem t divisor = 0 <-> (divisor | t)) as <-.
  { rewrite Z.rem_divide by done. done. }
  destruct (Z.eqb_spec (Z.rem t divisor) 0); simpl; [|intuition done].
  destruct (Z.ltb_spec t now); [split; [done|lia]|].
  destruct (Z.ltb_spec (now + window) t); [split; [done|lia]|]. intuition lia.
Qed.

Section times.
Context {R : Type} `{ChainRules R}.
Variable (ID_String : bytes -> string) (r : R).

Lemma Base_Execute_ok b now :
  is_i64 (now + GetValidityWindow r) ->
  Base_Execute ID_String r b now = Ok tt <->
  ChainID b = GetChainID r /\ (1000 | Timestamp b) /\ now <= Timestamp b <= now + GetValidityWindow r.
Proof.
  intros Hi. unfold Base_Execute. case_bool_decide as Hc; simpl; [|intuition done].
  rewrite VerifyTimestamp_ok by done. tauto.
Qed.
End times.

(** ** From signed transactions to Transaction.v *)

Lemma out_of_range_activated action ts :
  action_activated ts action = negb (out_of_range (ValidRange action) ts).
Proof. unfold action_activated, out_of_range. destruct (ValidRange action). by rewrite negb_orb. Qed.

Lemma check_actions_ok actions ts : forall i,
  check_actions i actions ts = Ok tt <-> forallb (action_activated ts) actions = true.
Proof.
  induction actions as [|action actions IH]; intros i; simpl; [done|].
  rewrite out_of_range_activated. destruct (out_of_range _ _); simpl; [done|apply IH].
Qed.

Section blocks.
Context {R BH : Type} `{ChainRules R} `{AuthMethods R} `{BalanceHandler BH}.
Variable (ID_String : bytes -> string) (bh : BH) (r : R).

(** What a transaction that passes [PreExecute] met. *)
Record admitted (fm : bytes) (ts : Z) (tx : GeneratedTx) (im : TStateView) (fee : Z) : Prop := {
  ad_base : Base_Execute ID_String r (td_Base (st_Data tx)) ts = Ok tt;
  ad_count : Z.of_nat (length (td_Actions (st_Data tx))) <= GetMaxActionsPerTx r;
  ad_actions : forallb (action_activated ts) (td_Actions (st_Data tx)) = true;
  ad_auth : out_of_range (auth_ValidRange (st_Auth tx) r) ts = false;
  ad_fee : (units ← SignedTransaction_Units bh r tx; Manager_Fee fm units) = Ok fee;
  ad_funds : CanDeduct bh (Sponsor (st_Auth tx)) fee im = Ok tt;
}.

Lemma PreExecute_ok fm ts tx im :
  SignedTransaction_PreExecute ID_String bh r tx fm im ts = Ok tt <->
  exists fee, admitted fm ts tx im fee.
Proof.
  unfold SignedTransaction_PreExecute. split.
  - destruct (Base_Execute _ _ _ _) as [[]|] eqn:E1; [|done]. cbn [mbind result_bind].
    destruct (Z.ltb_spec (GetMaxActionsPerTx r) (Z.of_nat (length (td_Actions (st_Data tx))))); [done|].
    destruct (check_actions _ _ _) as [[]|] eqn:E2; [|done]. cbn [mbind result_bind].
    destruct (out_of_range _ ts) eqn:E3; [done|].
    destruct (SignedTransaction_Units bh r tx) as [units|] eqn:E4; [|done]. cbn [mbind result_bind].
    destruct (Manager_Fee fm units) as [fee|] eqn:E5; [|done]. cbn [mbind result_bind]. intros E6. exists fee.
    split; try done; [by eapply check_actions_ok|by rewrite E4].
  - intros [fee [E1 E2 E3 E4 E5 E6]]. rewrite E1. cbn [mbind result_bind].
    rewrite (proj2 (Z.ltb_ge _ _)) by done. rewrite (proj2 (check_actions_ok _ ts 0) E3). cbn [mbind result_bind].
    rewrite E4. destruct (SignedTransaction_Units bh r tx) as [units|]; [|done]. cbn [mbind result_bind] in *.
    by rewrite E5.
Qed.

(** What a result records: the units of its transaction and their fee. *)
Definition charged (fm : bytes) (tx : GeneratedTx) (res : TxResult) : Prop :=
  SignedTransaction_Units bh r tx = Ok (tr_Units res) /\ Manager_Fee fm (tr_Units res) = Ok (tr_Fee res).

(** One task is one transaction of Transaction.v, at the fee of its units. *)
Lemma run_task_run_tx tx keys fm ts storage block res block' :
  tx_StateKeys bh (signed_tx tx) = Ok keys ->
  run_task ID_String bh r tx keys fm ts storage block = (Ok res, block') ->
  charged fm tx res /\
  admitted fm ts tx (TState_NewView block keys storage) (tr_Fee res) /\
  run_tx bh (signed_tx tx) (tr_Fee res) ts storage block = (Ok (tr_Result res), block').
Proof.
  intros Hk. unfold run_task. cbv zeta. set (v := TState_NewView block keys storage).
  destruct (SignedTransaction_PreExecute _ _ _ _ _ _ _) as [[]|] eqn:Ep; [|done].
  apply PreExecute_ok in Ep as [fee Had]. destruct Had as [E1 E2 E3 E4 E5 E6].
  destruct (SignedTransaction_Execute _ _ _ _ _ _) as [[res1|] v'] eqn:Ex; [|done]. intros [= <- <-].
  unfold SignedTransaction_Execute in Ex.
  destruct (SignedTransaction_Units bh r tx) as [units|] eqn:Eu; [|done]. cbn [mbind result_bind] in E5.
  unfold mbind, GoM_bind, on_error, lift in Ex. rewrite E5 in Ex.
  destruct (tx_Execute bh (signed_tx tx) fee ts v) as [[res0|] v0] eqn:Et; [|done].
  injection Ex as <- <-. cbn [tr_Fee tr_Result mbind result_bind]. split_and!; [done|by split; try done; rewrite Eu|].
  unfold run_tx. rewrite Hk. cbv zeta. unfold tx_PreExecute. cbn [tx_Actions tx_Sponsor signed_tx].
  rewrite E3. fold v. rewrite E6. by rewrite Et.
Qed.

(** ... and a run of tasks is a run of transactions. *)
Lemma run_tasks_run_txs txs plan fm ts storage : forall block res block',
  Forall2 (fun tx keys => tx_StateKeys bh (signed_tx tx) = Ok keys) txs plan ->
  run_tasks ID_String bh r (zip txs plan) fm ts storage block = (Ok res, block') ->
  Forall2 (charged fm) txs res /\
  Forall (fun tx => exists im fee, admitted fm ts tx im fee) txs /\
  run_txs bh (zip (map signed_tx txs) (map tr_Fee res)) ts storage block = (Ok (map tr_Result res), block').
Proof.
  intros block res block' Hf. revert block res block'.
  induction Hf as [|tx keys txs plan Hk _ IH]; intros block res block'; cbn [zip zip_with run_tasks].
  { intros [= <- <-]. by repeat constructor. }
  destruct (run_task _ _ _ _ _ _ _ _ _) as [[res1|] block1] eqn:E1; [|done].
  destruct (run_tasks _ _ _ _ _ _ _ _) as [[ress|] block2] eqn:E2; [|done]. intros [= <- <-].
  destruct (run_task_run_tx _ _ _ _ _ _ _ _ Hk E1) as (Hfee & Had & Hrun).
  destruct (IH _ _ _ E2) as (Hfees & Hads & Hruns).
  split_and!; [by constructor|constructor; [by eexists _, _|done]|].
  cbn [map zip zip_with run_txs]. rewrite Hrun. fold (zip (map signed_tx txs) (map tr_Fee ress)).
  by rewrite Hruns.
Qed.
End blocks.

(** ** Units are [uint64]s *)

Lemma op_Add_u64 n o : is_u64 n -> is_u64 (op_v o) -> is_u64 (op_v (op_Add n o)).
Proof.
  intros Hn Ho. unfold op_Add. destruct (op_err o); [done|].
  rewrite safemath_Add_cases by done. destruct (Z.ltb_spec (op_v o + n) two64); simpl; [int_lia|done].
Qed.

Lemma op_MulAdd_u64 a b o : 0 <= a -> is_u64 b -> is_u64 (op_v o) -> is_u64 (op_v (op_MulAdd a b o)).
Proof.
  intros Ha Hb Ho. unfold op_MulAdd. destruct (op_err o); [done|].
  rewrite safemath_Mul_cases by done. destruct (Z.ltb_spec (a * b) two64); simpl; [|done].
  assert (is_u64 (a * b)) as Hab by (unfold is_u64 in *; nia).
  rewrite safemath_Add_cases by done. destruct (Z.ltb_spec (op_v o + a * b) two64); simpl; [int_lia|done].
Qed.

Lemma op_Value_bounded o v : is_u64 (op_v o) -> op_Value o = Ok v -> is_u64 v.
Proof. unfold op_Value. destruct (op_err o); [done|]. by intros ? [= <-]. Qed.

Section units.
Context {R : Type} `{ChainRules R} (r : R) (Hr : wf_rules r).

Lemma storage_units_u64 keys : forall ops ops',
  Forall wf_bytes keys ->
  is_u64 (op_v ops.1.1) /\ is_u64 (op_v ops.1.2) /\ is_u64 (op_v ops.2) ->
  storage_units r keys ops = Ok ops' ->
  is_u64 (op_v ops'.1.1) /\ is_u64 (op_v ops'.1.2) /\ is_u64 (op_v ops'.2).
Proof using Hr.
  induction keys as [|k keys IH]; intros [[o1 o2] o3] ops' Hk Ho; cbn [storage_units]; [by intros [= <-]|].
  inversion_clear Hk as [|? ? Hk1 Hks]. cbn [fst snd] in Ho. destruct Ho as (H1 & H2 & H3).
  destruct (MaxChunks k) as [c|] eqn:Ec; [|done]. intros E. apply (IH _ _ Hks) in E; [done|].
  assert (0 <= c) as Hc. { pose proof (chunks_nonneg k Hk1) as Hn. unfold chunks in Hn. by rewrite Ec in Hn. }
  destruct Hr. cbn [fst snd]. split_and!; apply op_MulAdd_u64; try done; by apply op_Add_u64.
Qed.
End units.

Lemma program_action_keys_wf `{Hashing} a actor k :
  program_action a -> wf_addr actor -> is_Some (StateKeys a actor !! k) -> wf_bytes k.
Proof.
  intros Hp [Hl Hw]. assert (wf_bytes (BalanceKey actor)) as Hb.
  { rewrite BalanceKey_eq by done. rewrite !wf_bytes_app. split_and!; [by repeat constructor|done|by repeat constructor]. }
  assert (forall id, wf_bytes (MarketKey id)) as Hm.
  { intros id. rewrite MarketKey_eq, wf_bytes_app. split; [by repeat constructor|apply be_put_wf]. }
  assert (forall id t, is_u8 t -> wf_bytes (ShareBalanceKey id actor t)) as Hs.
  { intros id t Ht. rewrite ShareBalanceKey_eq by done. rewrite !wf_bytes_app.
    split_and!; [by repeat constructor|apply be_put_wf|done|by apply Forall_singleton]. }
  assert (wf_bytes (StateKeysBalance actor)) as Hst.
  { rewrite StateKeysBalance_eq by done. rewrite wf_bytes_app. split; [by repeat constructor|done]. }
  assert (wf_bytes [MarketPrefix]) as Hmp by by repeat constructor.
  destruct Hp as [b|b|cm rr]; cbn [StateKeys BuyYes_Action BuyNo_Action CreateMarket_Action];
    unfold BuyYes_StateKeys, BuyNo_StateKeys, CreateMarket_StateKeys;
    rewrite !lookup_insert_is_Some, lookup_empty, is_Some_alt;
    intros Hk; repeat (destruct Hk as [<-|[_ Hk]]; [solve [done|apply Hm|by apply Hs]|]); by destruct Hk.
Qed.

(** Signed transactions of the program's actions, with well-formed addresses
    and a size. *)
Record wf_tx `{Hashing} (tx : GeneratedTx) : Prop := {
  wt_program : program_tx (signed_tx tx);
  wt_actor : wf_addr (Actor (st_Auth tx));
  wt_sponsor : wf_addr (Sponsor (st_Auth tx));
  wt_size : is_u64 (st_size tx);
}.

(** Rules and signatures whose units are [uint64]s. *)
Record wf_chain {R} `{ChainRules R} `{AuthMethods R} (r : R) : Prop := {
  wfc_rules : wf_rules r;
  wfc_fees : wf_fee_rules r;
  wfc_base : is_u64 (GetBaseComputeUnits r);
  wfc_auth a : is_u64 (auth_ComputeUnits a r);
  wfc_limits : length (GetMaxBlockUnits r) = FeeDimensions;
}.

Section plans.
Context `{Hashing} {R : Type} `{ChainRules R} `{AuthMethods R}.
Context (r : R) (Hr : wf_chain r).

Lemma tx_StateKeys_wf tx keys :
  wf_tx tx -> tx_StateKeys New (signed_tx tx) = Ok keys -> Forall wf_bytes (map fst (map_to_list keys)).
Proof.
  intros [Hp Ha Hs _]. unfold tx_StateKeys. destruct (Keys_AddAll _ _) as [ks|] eqn:E; [|done]. intros [= <-].
  apply list.Forall_forall. intros k Hk. apply elem_of_map_keys in Hk.
  apply (Keys_AddAll_dom _ _ _ k E) in Hk as [Hk|Hk]; [by rewrite lookup_empty in Hk; destruct Hk|].
  apply list_elem_of_fmap in Hk as ([k' p] & -> & Hin). apply elem_of_app in Hin as [Hin|Hin].
  - apply list_elem_of_bind in Hin as (a & Hin & Hina). apply elem_of_map_to_list in Hin.
    unfold program_tx in Hp. rewrite list.Forall_forall in Hp.
    apply (program_action_keys_wf a (Actor (st_Auth tx)) k' (Hp a Hina) Ha). by eexists.
  - apply elem_of_map_to_list in Hin. cbn [SponsorStateKeys Controller_BalanceHandler] in Hin.
    unfold Controller_SponsorStateKeys in Hin.
    apply lookup_insert_Some in Hin as [[<- _]|[_ Hin]]; [|by rewrite lookup_empty in Hin].
    destruct Hs as [Hl Hw]. cbn [fst]. rewrite StateKeysBalance_eq by done. rewrite wf_bytes_app.
    split; [by repeat constructor|done].
Qed.

Lemma Units_u64 tx units :
  wf_tx tx -> SignedTransaction_Units New r tx = Ok units -> length units = FeeDimensions /\ Forall is_u64 units.
Proof using Hr.
  intros Htx. destruct Hr as [Hrules _ Hbase Hauth _]. unfold SignedTransaction_Units, Units. cbv zeta.
  set (o := op_Add _ _). assert (is_u64 (op_v o)) as Ho.
  { apply op_Add_u64; [apply Hauth|]. destruct Htx as [Hp _ _ _]. unfold program_tx in Hp. clear o.
    assert (is_u64 (op_v (NewUint64Operator (GetBaseComputeUnits r)))) as Hn by done. revert Hn.
    generalize (NewUint64Operator (GetBaseComputeUnits r)).
    induction Hp as [|a l Ha _ IH]; intros o Ho; simpl; [done|]. apply IH. apply op_Add_u64; [|done].
    by destruct Ha. }
  destruct (op_Value o) as [c|] eqn:Ec; [|done]. cbn [mbind result_bind].
  destruct (tx_StateKeys New (signed_tx tx)) as [keys|] eqn:Ek; [|done]. cbn [mbind result_bind].
  destruct (storage_units _ _ _) as [[[o1 o2] o3]|] eqn:Es; [|done]. cbn [mbind result_bind].
  apply (storage_units_u64 r Hrules) in Es as (Hrd & Hal & Hwr); [|by apply (tx_StateKeys_wf tx)|by repeat split].
  destruct (op_Value o1) as [rd|] eqn:E1; [|done]. cbn [mbind result_bind].
  destruct (op_Value o2) as [al|] eqn:E2; [|done]. cbn [mbind result_bind].
  destruct (op_Value o3) as [wr|] eqn:E3; [|done]. cbn [mbind result_bind]. intros [= <-].
  split; [done|].
  repeat apply List.Forall_cons; [apply Htx|eapply op_Value_bounded; [|eassumption]; done..|apply List.Forall_nil].
Qed.

(** The units of a list of transactions in one dimension. *)
Definition consumption (units : list Dimensions) (i : nat) : Z := foldr (fun u n => nth i u 0 + n) 0 units.

(** A plan: the keys and the units of every transaction, and the units added
    to the manager, which stay within the limits. *)
Lemma plan_txs_spec txs : forall fm plan fm',
  wf_manager fm -> Forall wf_tx txs -> plan_txs New r txs fm = (Ok plan, fm') ->
  Forall2 (fun tx keys => tx_StateKeys New (signed_tx tx) = Ok keys) txs plan /\
  wf_manager fm' /\ UnitPrices fm' = UnitPrices fm /\ Uint64_at 0 fm' = Uint64_at 0 fm /\
  (forall i, Window fm' i = Window fm i) /\
  exists units, Forall2 (fun tx u => SignedTransaction_Units New r tx = Ok u) txs units /\
    forall i, (i < FeeDimensions)%nat ->
      lastConsumed fm' i = lastConsumed fm i + consumption units i /\
      (txs <> [] -> lastConsumed fm' i <= nth i (GetMaxBlockUnits r) 0).
Proof using Hr.
  induction txs as [|tx txs IH]; intros fm plan fm' Hfm Htxs; cbn [plan_txs].
  { intros [= <- <-]. split_and!; try done. exists []. split; [done|].
    intros i Hi. cbn. split; [lia|done]. }
  inversion_clear Htxs as [|? ? Htx Htxs'].
  destruct (tx_StateKeys New (signed_tx tx)) as [keys|] eqn:Ek; [|done].
  destruct (SignedTransaction_Units New r tx) as [u|] eqn:Eu; [|done].
  destruct (Units_u64 tx u Htx Eu) as [Hul Hu]. pose proof (wfc_limits r Hr) as Hlim.
  pose proof (Manager_Consume_view fm u (GetMaxBlockUnits r) Hfm Hul Hlim Hu) as Hview.
  unfold Manager_Consume in Hview |- *.
  destruct (consume_check fm (seq 0 FeeDimensions) u (GetMaxBlockUnits r)) as [d|] eqn:Ec; [done|].
  apply consume_check_none in Ec.
  destruct (consume_commit_spec u (seq 0 FeeDimensions) fm Hfm Hu (seq_NoDup _ _) dims_in_range)
    as (g & Eg & Hg & Hgt & Hgp & Hgw & Hgc).
  { eapply List.Forall_impl; [|exact Ec]. by intros i []. }
  rewrite Eg. clear Hview.
  destruct (plan_txs New r txs g) as [[plan1|] fm1] eqn:Ep; [|done]. intros [= <- <-].
  destruct (IH g plan1 fm1 Hg Htxs' Ep) as (Hk & Hw & Hp & Ht & Hwin & units & Hunits & Hc).
  split_and!; [by constructor|done| |congruence|congruence|].
  { rewrite Hp. unfold UnitPrices. by apply map_ext. }
  exists (u :: units). split; [by constructor|]. intros i Hi.
  destruct (Hc i Hi) as [E1 E2]. rewrite Hgc, decide_True in E1 by (apply list_elem_of_In, in_seq; lia).
  cbn [consumption foldr]. fold (consumption units i). split; [lia|]. intros _.
  destruct txs as [|tx' txs']; [|by apply E2].
  apply Forall2_nil_inv_l in Hunits as ->. rewrite E1. cbn. rewrite Z.add_0_r.
  rewrite Forall_forall in Ec. apply (Ec i). apply in_seq. lia.
Qed.
End plans.

(** ** The block's own keys *)

Definition metadata_keys (m : MetadataManager) : list bytes :=
  [HeightKey (HeightPrefix m); TimestampKey (TimestampPrefix m); FeeKey (FeePrefix m)].

Lemma Insert_pending k b v v' k' :
  TStateView_Insert k b v = (Ok tt, v') -> k <> k' -> v_pending v' !! k' = v_pending v !! k'.
Proof.
  intros (_ & _ & _ & [[-> _]|(o & un & _ & _ & Hp & _)])%Insert_inv Hk; [done|].
  rewrite Hp. unfold put. by destruct un; rewrite ?lookup_delete_ne, lookup_insert_ne by done.
Qed.

Lemma metadata_distinct m : NoDup (metadata_keys m) ->
  HeightKey (HeightPrefix m) <> TimestampKey (TimestampPrefix m) /\ HeightKey (HeightPrefix m) <> FeeKey (FeePrefix m) /\
  TimestampKey (TimestampPrefix m) <> FeeKey (FeePrefix m).
Proof. intros Hm. unfold metadata_keys in Hm. rewrite !list.NoDup_cons, !not_elem_of_cons in Hm. intuition congruence. Qed.

(** Committing what a view holds; what it holds unchanged is in the parent. *)
Lemma commit_value v parent k b : view_value v k = Ok b -> (v_storage v k = Ok b -> parent k = Ok b) ->
  block_value (Commit v) parent k = Ok b.
Proof.
  intros Hv Hp. unfold view_value, block_value, parent_value in *. cbn [changedKeys Commit v_ts TState_NewView v_storage].
  destruct (v_pending v !! k) as [o|] eqn:E.
  - by rewrite (lookup_union_Some_l _ _ _ _ E).
  - rewrite (lookup_union_r _ _ _ E). destruct (changedKeys (v_ts v) !! k) as [[|]|]; [done..|]. by apply Hp.
Qed.

(** Committing a view with nothing below it, onto a parent state. *)
Lemma commit_over v parent k b :
  (forall k, v_storage v k = Err ErrNotFound) -> view_value v k = Ok b ->
  block_value (Commit v) parent k = Ok b.
Proof.
  intros Hs. unfold view_value, block_value, parent_value. cbn [changedKeys Commit v_ts TState_NewView].
  destruct (v_pending v !! k) as [o|] eqn:E.
  - by rewrite (lookup_union_Some_l _ _ _ _ E).
  - rewrite (lookup_union_r _ _ _ E). destruct (changedKeys (v_ts v) !! k) as [[|]|]; [done..|]. by rewrite Hs.
Qed.

Section metadata.
Variable (m : MetadataManager).

Lemma writeBlockContext_spec ctx ts parent v' :
  NoDup (metadata_keys m) ->
  writeBlockContext m ctx (TState_NewView ts (CompletePermissions m) (fun _ => Err ErrNotFound)) = (Ok tt, v') ->
  let state := block_value (Commit v') parent in
  state (HeightKey (HeightPrefix m)) = Ok (be_put 8 (bc_height ctx)) /\
  state (TimestampKey (TimestampPrefix m)) = Ok (be_put 8 (u64 (bc_timestamp ctx))) /\
  state (FeeKey (FeePrefix m)) = Ok (bc_feeManager ctx) /\
  forall k, k ∉ metadata_keys m -> state k = block_value ts parent k.
Proof.
  unfold metadata_keys. set (kh := HeightKey _). set (kt := TimestampKey _). set (kf := FeeKey _).
  intros Hnd E. assert (kh <> kt /\ kh <> kf /\ kt <> kf) as (N1 & N2 & N3).
  { rewrite !list.NoDup_cons, !not_elem_of_cons in Hnd. intuition congruence. }
  unfold writeBlockContext in E. fold kh kt kf in E.
  apply run_bind_inv_ok in E as ([] & v1 & E1%run_on_error_inv_ok & E).
  apply run_bind_inv_ok in E as ([] & v2 & E2%run_on_error_inv_ok & E3%run_on_error_inv_ok).
  change Insert with TStateView_Insert in *.
  pose proof (Insert_inv _ _ _ _ E1) as (_ & _ & (B1 & _ & S1) & _).
  pose proof (Insert_inv _ _ _ _ E2) as (_ & _ & (B2 & _ & S2) & _).
  pose proof (Insert_inv _ _ _ _ E3) as (_ & _ & (B3 & _ & S3) & _).
  assert (forall k, v_storage v' k = Err ErrNotFound) as Hs by (intros k; by rewrite S3, S2, S1).
  split_and!; [apply commit_over; [done|]..|].
  - rewrite (Insert_value _ _ _ _ _ E3), decide_False, (Insert_value _ _ _ _ _ E2), decide_False by done.
    by rewrite (Insert_value _ _ _ _ _ E1), decide_True.
  - rewrite (Insert_value _ _ _ _ _ E3), decide_False, (Insert_value _ _ _ _ _ E2) by done.
    by rewrite decide_True.
  - by rewrite (Insert_value _ _ _ _ _ E3), decide_True.
  - intros k Hk. rewrite !not_elem_of_cons in Hk. destruct Hk as (K1 & K2 & K3 & _).
    unfold block_value, parent_value. cbn [changedKeys Commit v_ts TState_NewView v_storage].
    rewrite lookup_union_r.
    + by rewrite B3, B2, B1.
    + by rewrite (Insert_pending _ _ _ _ _ E3), (Insert_pending _ _ _ _ _ E2), (Insert_pending _ _ _ _ _ E1) by done.
Qed.
End metadata.

(** ** Accepted blocks *)

(** What went on in a block that [Processor.Execute] accepted: the parent's
    height, time and fees; the block's manager, and the manager with the units
    consumed; the plan, the changes and the view that wrote the block's
    keys. *)
Record accepted {R} `{ChainRules R} `{AuthMethods R} (ID_String : bytes -> string) (m : MetadataManager) (r : R)
    (now : Z) (parent : bytes -> result bytes) (b : ExecutionBlock) (out : OutputBlock)
    (height time : Z) (fees fm fm' : bytes) (plan : list (gmap bytes Z)) (block : TState) (v : TStateView)
  : Prop := {
  ac_now : Tmstmp b <= now + 1000;
  ac_height_read : (raw ← parent (HeightKey (HeightPrefix m)); ParseUInt64 raw) = Ok height;
  ac_height : Hght b = u64 (height + 1);
  ac_time_read : (raw ← parent (TimestampKey (TimestampPrefix m)); ParseUInt64 raw) = Ok time;
  ac_time : i64 (i64_of_u64 time + GetMinBlockGap r) <= Tmstmp b;
  ac_fees_read : parent (FeeKey (FeePrefix m)) = Ok fees;
  ac_next : ComputeNext (NewManager fees) (Tmstmp b) r = Returns fm;
  ac_plan : plan_txs New r (Txs b) fm = (Ok plan, fm');
  ac_run : run_tasks ID_String New r (zip (Txs b) plan) fm' (Tmstmp b) parent fresh_block
    = (Ok (ob_Results out), block);
  ac_write : writeBlockContext m (mkBlockContext (Hght b) (Tmstmp b) fm')
      (TState_NewView block (CompletePermissions m) (fun _ => Err ErrNotFound)) = (Ok tt, v);
  ac_view : View out = block_value (Commit v) parent;
  ac_prices : ob_UnitPrices out = UnitPrices fm';
  ac_consumed : ob_UnitsConsumed out = UnitsConsumed fm';
}.

Section accepting.
Context {R : Type} `{ChainRules R} `{AuthMethods R}.
Variable (ID_String : bytes -> string) (m : MetadataManager) (r : R).

Lemma createBlockContext_inv im b ctx :
  createBlockContext m r im b = Returns (Ok ctx) ->
  exists height time fees fm,
    (raw ← im (HeightKey (HeightPrefix m)); ParseUInt64 raw) = Ok height /\ Hght b = u64 (height + 1) /\
    (raw ← im (TimestampKey (TimestampPrefix m)); ParseUInt64 raw) = Ok time /\
    i64 (i64_of_u64 time + GetMinBlockGap r) <= Tmstmp b /\
    im (FeeKey (FeePrefix m)) = Ok fees /\ ComputeNext (NewManager fees) (Tmstmp b) r = Returns fm /\
    ctx = mkBlockContext (Hght b) (Tmstmp b) fm.
Proof.
  unfold createBlockContext. destruct (im (HeightKey _)) as [hraw|]; [|done].
  destruct (ParseUInt64 hraw) as [height|] eqn:Eh; [|done].
  destruct (Z.eqb_spec (Hght b) (u64 (height + 1))); [|done]. cbn [negb].
  destruct (im (TimestampKey _)) as [traw|]; [|done].
  destruct (ParseUInt64 traw) as [time|] eqn:Et; [|done]. cbv zeta.
  destruct (Z.ltb_spec (Tmstmp b) (i64 (i64_of_u64 time + GetMinBlockGap r))); [done|].
  destruct (_ && _); [done|]. destruct (im (FeeKey _)) as [fees|]; [|done].
  destruct (ComputeNext _ _ _) as [fm|] eqn:En; [|done]. intros [= <-]. by exists height, time, fees, fm.
Qed.

Lemma Processor_Execute_inv now norm sig wait replay root parent b out :
  Processor_Execute ID_String New m r now norm sig wait replay root parent b = Returns (Ok out) ->
  exists height time fees fm fm' plan block v,
    accepted ID_String m r now parent b out height time fees fm fm' plan block v.
Proof.
  unfold Processor_Execute. destruct (Z.ltb_spec (now + 1000) (Tmstmp b)); [done|].
  destruct sig; [|done]. destruct (createBlockContext m r parent b) as [[ctx|]|] eqn:Ec; [|done..].
  apply createBlockContext_inv in Ec as (height & time & fees & fm & E1 & E2 & E3 & E4 & E5 & E6 & ->).
  destruct (if norm then replay else Ok tt); [|done]. unfold executeTxs. cbn [bc_feeManager bc_height bc_timestamp].
  destruct (plan_txs New r (Txs b) fm) as [[plan|] fm'] eqn:Ep; [|done].
  destruct (run_tasks _ _ _ _ _ _ _ _) as [[results|] block] eqn:Er; [|done]. cbv zeta.
  destruct (writeBlockContext _ _ _) as [[[]|] v] eqn:Ew; [|done]. destruct root as [root|]; [|done].
  destruct (negb _); [done|]. destruct wait; [|done]. intros [= <-].
  by exists height, time, fees, fm, fm', plan, block, v.
Qed.
End accepting.

(** The fees a parent may leave: nothing yet, or a manager. *)
Definition wf_fees (parent : bytes -> result bytes) (m : MetadataManager) : Prop :=
  forall raw, parent (FeeKey (FeePrefix m)) = Ok raw -> raw = [] \/ wf_manager raw.

Lemma wf_NewManager_fees raw : raw = [] \/ wf_manager raw -> wf_manager (NewManager raw).
Proof.
  intros [->|Hw]; [apply wf_NewManager|]. destruct Hw as [Hl Hw]. unfold NewManager.
  destruct (Nat.eqb_spec (length raw) 0) as [E|E]; [rewrite Hl in E; done|done].
Qed.

Section accepted_facts.
Context `{Hashing} {R : Type} `{ChainRules R} `{AuthMethods R} {ID_String : bytes -> string} {m : MetadataManager}.
Context {r : R} (Hr : wf_chain r).

Lemma accepted_managers now parent b out height time fees fm fm' plan block v :
  wf_fees parent m -> Forall wf_tx (Txs b) ->
  accepted ID_String m r now parent b out height time fees fm fm' plan block v ->
  wf_manager fm' /\ Uint64_at 0 fm' = u64 (Z.quot (Tmstmp b) 1000) /\
  UnitPrices fm' = UnitPrices fm /\ Forall2 (fun tx keys => tx_StateKeys New (signed_tx tx) = Ok keys) (Txs b) plan /\
  (forall i, (i < FeeDimensions)%nat -> nth i (GetMinUnitPrice r) 0 <= unitPrice fm' i) /\
  exists units, Forall2 (fun tx u => SignedTransaction_Units New r tx = Ok u) (Txs b) units /\
    UnitsConsumed fm' = map (consumption units) (seq 0 FeeDimensions) /\
    (Txs b <> [] -> forall i, (i < FeeDimensions)%nat -> consumption units i <= nth i (GetMaxBlockUnits r) 0).
Proof using Hr.
  intros Hfees Htxs Hac. destruct Hac. pose proof (wfc_fees r Hr) as Hfr.
  pose proof (wf_NewManager_fees _ (Hfees _ ac_fees_read0)) as Hw0.
  destruct (ComputeNext_spec r Hfr _ _ _ Hw0 ac_next0) as (Hfm & Htm & Hzero & _).
  destruct (plan_txs_spec r Hr _ _ _ _ Hfm Htxs ac_plan0) as (Hk & Hfm' & Hp & Htm' & _ & units & Hu & Hc).
  assert (forall i, (i < FeeDimensions)%nat -> lastConsumed fm i = 0) as Hz.
  { intros i Hi. unfold FeeDimensions in Hi. cbn [UnitsConsumed seq FeeDimensions map] in Hzero. injection Hzero as Z0 Z1 Z2 Z3 Z4.
    by destruct i as [|[|[|[|[|]]]]]; [..|lia]. }
  assert (forall i, (i < FeeDimensions)%nat -> unitPrice fm' i = unitPrice fm i) as Hpi.
  { intros i Hi. unfold FeeDimensions in Hi. unfold UnitPrices in Hp. cbn [seq FeeDimensions map] in Hp.
    injection Hp as P0 P1 P2 P3 P4. by destruct i as [|[|[|[|[|]]]]]; [..|lia]. }
  split_and!; [done|congruence|done|done| |].
  { intros i Hi. rewrite Hpi by done. by apply (ComputeNext_floor r Hfr _ _ _ _ Hw0 ac_next0). }
  exists units. split_and!; [done| |].
  - unfold UnitsConsumed. apply map_ext_in. intros i Hi. apply in_seq in Hi.
    destruct (Hc i ltac:(lia)) as [-> _]. rewrite Hz by lia. lia.
  - intros Hne i Hi. destruct (Hc i Hi) as [E Hle]. specialize (Hle Hne). rewrite E, Hz in Hle by done. lia.
Qed.
End accepted_facts.

(** *** A block of one buy

    Alice's buy in the block of time 500 over a state with her shares, the
    market and a balance; its parent is block 7, of time 100. *)
Definition demo_metadata (fees : bytes) (k : bytes) : result bytes :=
  if decide (k = HeightKey [0]) then Ok (be_put 8 7)
  else if decide (k = TimestampKey [1]) then Ok (be_put 8 100)
  else if decide (k = FeeKey [2]) then Ok fees
  else GetValue funded_store k.

Definition demo_parent : bytes -> result bytes := demo_metadata (make_bytes managerLen).

(** A signed buy, valid until [time]. *)
Definition demo_signed (time : Z) : GeneratedTx :=
  match NewTransaction (mkBase time (make_bytes 32) 0) [buy_Action No demo_order]
          (mkAuth (make_bytes 97) alice alice) with
  | Returns tx => tx
  | Panics _ => mkSignedTransaction (mkTransactionData (mkBase 0 [] 0) [] []) (mkAuth [] [] []) [] 0 []
  end.

Definition demo_block : ExecutionBlock := mkExecutionBlock 500 8 [demo_signed 1000] (make_bytes 32).

Definition demo_ID_String (b : bytes) : string := hex_EncodeToString b.

(** Processing it, everything else in order. *)
Definition demo_process_under (r : Rules) : outcome (result OutputBlock) :=
  Processor_Execute demo_ID_String New NewDefaultManager r 600 true (Ok tt) (Ok tt) (Ok tt)
    (Ok (make_bytes 32)) demo_parent demo_block.

Definition demo_process : outcome (result OutputBlock) := demo_process_under NewDefaultRules.

Definition accepts (x : outcome (result OutputBlock)) : bool :=
  match x with Returns (Ok _) => true | _ => false end.

Lemma accepts_inv x : accepts x = true -> exists out, x = Returns (Ok out).
Proof. destruct x as [[out|]|]; [by exists out|done..]. Qed.

Lemma demo_accepted : exists out, demo_process = Returns (Ok out).
Proof. apply accepts_inv. vm_compute. reflexivity. Qed.

Lemma demo_signed_wf time : time = 1000 \/ time = 10000 -> wf_tx (demo_signed time).
Proof.
  intros Ht. assert (signed_tx (demo_signed time) = mkTransaction [buy_Action No demo_order] alice alice) as E.
  { by destruct Ht as [-> | ->]. }
  split.
  - unfold program_tx. rewrite E. apply Forall_singleton. constructor.
  - apply wf_alice.
  - apply wf_alice.
  - destruct Ht as [-> | ->]; apply (bool_decide_unpack _); by vm_compute.
Qed.

Lemma demo_txs_wf : Forall wf_tx (Txs demo_block).
Proof. apply Forall_singleton, demo_signed_wf. by left. Qed.

Lemma demo_chain_wf : wf_chain NewDefaultRules.
Proof.
  split; [apply default_rules_wf|split; apply (bool_decide_unpack _); by vm_compute|..]; done.
Qed.

Lemma demo_fees_wf fees : wf_manager fees -> wf_fees (demo_metadata fees) NewDefaultManager.
Proof. intros Hw raw. cbn. intros [= <-]. by right. Qed.

(** Accepted blocks are within the limits.  In a block of the program's
    transactions that a validator accepts, every transaction names the chain,
    has a whole second for its time, which is between the time of the block
    and a validity window later, and no more actions than are allowed; and
    the units of all of them together, which the block reports, stay within
    the block's limit in each dimension. *)
Lemma accepted_block_within_limits `{Hashing} {R} `{ChainRules R} `{AuthMethods R} ID_String m (r : R)
    now norm sig wait replay root parent b out :
  wf_chain r -> wf_fees parent m -> Forall wf_tx (Txs b) -> is_i64 (Tmstmp b + GetValidityWindow r) ->
  Processor_Execute ID_String New m r now norm sig wait replay root parent b = Returns (Ok out) ->
  Tmstmp b <= now + 1000 /\
  Forall (fun tx => let base := td_Base (st_Data tx) in
    ChainID base = GetChainID r /\ (1000 | Timestamp base) /\
    Tmstmp b <= Timestamp base <= Tmstmp b + GetValidityWindow r /\
    Z.of_nat (length (td_Actions (st_Data tx))) <= GetMaxActionsPerTx r) (Txs b) /\
  exists units, Forall2 (fun tx u => SignedTransaction_Units New r tx = Ok u) (Txs b) units /\
    ob_UnitsConsumed out = map (consumption units) (seq 0 FeeDimensions) /\
    (Txs b <> [] -> forall i, (i < FeeDimensions)%nat -> consumption units i <= nth i (GetMaxBlockUnits r) 0).
Proof.
  intros Hr Hfees Htxs Hw E.
  apply Processor_Execute_inv in E as (height & time & fees & fm & fm' & plan & block & v & Hac).
  destruct (accepted_managers Hr _ _ _ _ _ _ _ _ _ _ _ _ Hfees Htxs Hac)
    as (_ & _ & _ & Hk & _ & units & Hu & Hc & Hlim).
  destruct Hac. split_and!; [done| |exists units; by rewrite ac_consumed0].
  destruct (run_tasks_run_txs _ _ _ _ _ _ _ _ _ _ _ Hk ac_run0) as (_ & Had & _).
  eapply List.Forall_impl; [|exact Had]. intros tx (im & fee & [Hb Hn _ _ _ _]).
  apply Base_Execute_ok in Hb as (? & ? & ?); [|done]. done.
Qed.

Lemma accepted_block_within_limits_witness :
  exists out, demo_process = Returns (Ok out) /\ Tmstmp demo_block <= 600 + 1000 /\
  Forall (fun tx => let base := td_Base (st_Data tx) in
    ChainID base = GetChainID NewDefaultRules /\ (1000 | Timestamp base) /\
    Tmstmp demo_block <= Timestamp base <= Tmstmp demo_block + GetValidityWindow NewDefaultRules /\
    Z.of_nat (length (td_Actions (st_Data tx))) <= GetMaxActionsPerTx NewDefaultRules) (Txs demo_block) /\
  exists units, Forall2 (fun tx u => SignedTransaction_Units New NewDefaultRules tx = Ok u) (Txs demo_block) units /\
    ob_UnitsConsumed out = map (consumption units) (seq 0 FeeDimensions) /\
    (Txs demo_block <> [] -> forall i, (i < FeeDimensions)%nat ->
       consumption units i <= nth i (GetMaxBlockUnits NewDefaultRules) 0).
Proof.
  destruct demo_accepted as [out E]. exists out. split; [done|].
  apply (accepted_block_within_limits demo_ID_String NewDefaultManager NewDefaultRules 600 true (Ok tt) (Ok tt)
    (Ok tt) (Ok (make_bytes 32)) demo_parent demo_block out); [apply demo_chain_wf| |apply demo_txs_wf| |exact E].
  - apply demo_fees_wf, wf_NewManager.
  - apply (bool_decide_unpack _). by vm_compute.
Defined.

(** C12: a block runs its transactions.  What the validator's processor does
    with an accepted block is what [run_txs] does with its transactions in
    their order, at fees that are the units of each at the block's prices;
    the state it leaves is a step of the chain of Transaction.v, but for the
    block's own three keys. *)
Theorem accepted_block_is_step `{Hashing} {R} `{ChainRules R} `{AuthMethods R} ID_String m (r : R)
    now norm sig wait replay root parent b out :
  wf_chain r -> NoDup (metadata_keys m) -> wf_fees parent m -> Forall wf_tx (Txs b) ->
  Processor_Execute ID_String New m r now norm sig wait replay root parent b = Returns (Ok out) ->
  exists block, run_txs New (zip (map signed_tx (Txs b)) (map tr_Fee (ob_Results out))) (Tmstmp b) parent fresh_block
      = (Ok (map tr_Result (ob_Results out)), block) /\
    block_step program_tx parent (block_value block parent) /\
    (forall k, k ∉ metadata_keys m -> View out k = block_value block parent k) /\
    Forall2 (fun tx res => SignedTransaction_Units New r tx = Ok (tr_Units res) /\
      fee_sum 0 (ob_UnitPrices out) (tr_Units res) = Ok (tr_Fee res)) (Txs b) (ob_Results out).
Proof.
  intros Hr Hnd Hfees Htxs E.
  apply Processor_Execute_inv in E as (height & time & fees & fm & fm' & plan & block & v & Hac).
  destruct (accepted_managers Hr _ _ _ _ _ _ _ _ _ _ _ _ Hfees Htxs Hac) as (Hfm' & _ & _ & Hk & _).
  destruct Hac.
  destruct (run_tasks_run_txs _ _ _ _ _ _ _ _ _ _ _ Hk ac_run0) as (Hfee & _ & Hrun).
  exists block. split_and!; [done| | |].
  - eapply block_accepted; [|exact Hrun]. apply list.Forall_forall. intros [t fee] Hin.
    apply elem_of_zip_l in Hin. apply list_elem_of_fmap in Hin as (tx & -> & Hin).
    rewrite list.Forall_forall in Htxs. apply (Htxs tx Hin).
  - intros k Hnk. rewrite ac_view0.
    destruct (writeBlockContext_spec m _ _ parent _ Hnd ac_write0) as (_ & _ & _ & Hrest). by apply Hrest.
  - rewrite ac_prices0. clear -Hfee Htxs Hr. induction Hfee as [|tx res txs ress [Hu Hf] _ IH]; [constructor|].
    inversion_clear Htxs as [|? ? Htx Htxs']. constructor; [|by apply IH]. split; [done|].
    destruct (Units_u64 r Hr tx _ Htx Hu) as [Hl _]. by rewrite Manager_Fee_view in Hf.
Qed.

Lemma default_metadata_distinct : NoDup (metadata_keys NewDefaultManager).
Proof. apply (bool_decide_unpack _). by vm_compute. Qed.

Lemma accepted_block_is_step_witness :
  exists out, demo_process = Returns (Ok out) /\
  exists block, run_txs New (zip (map signed_tx (Txs demo_block)) (map tr_Fee (ob_Results out))) 500 demo_parent
      fresh_block = (Ok (map tr_Result (ob_Results out)), block) /\
    block_step program_tx demo_parent (block_value block demo_parent) /\
    (forall k, k ∉ metadata_keys NewDefaultManager -> View out k = block_value block demo_parent k) /\
    Forall2 (fun tx res => SignedTransaction_Units New NewDefaultRules tx = Ok (tr_Units res) /\
      fee_sum 0 (ob_UnitPrices out) (tr_Units res) = Ok (tr_Fee res)) (Txs demo_block) (ob_Results out).
Proof.
  destruct demo_accepted as [out E]. exists out. split; [done|].
  apply (accepted_block_is_step demo_ID_String NewDefaultManager NewDefaultRules 600 true (Ok tt) (Ok tt)
    (Ok tt) (Ok (make_bytes 32)) demo_parent demo_block out);
    [apply demo_chain_wf|apply default_metadata_distinct| |apply demo_txs_wf|exact E].
  apply demo_fees_wf, wf_NewManager.
Defined.

(** ** Prefixes *)

Lemma length_metadata_key m k :
  length (HeightPrefix m) = 1%nat -> length (TimestampPrefix m) = 1%nat -> length (FeePrefix m) = 1%nat ->
  k ∈ metadata_keys m -> length k = 3%nat.
Proof.
  intros H1 H2 H3. unfold metadata_keys, HeightKey, TimestampKey, FeeKey, EncodeChunks.
  rewrite !elem_of_cons, elem_of_nil. intros [->|[->|[->|[]]]]; by rewrite length_app, length_be_put, ?H1, ?H2, ?H3.
Qed.

(** C23: the prefixes conflict, the keys do not.  The prefixes of the storage
    package (0, 1 and 2) are the ones the chain keeps its height, time and
    fees under, which [HasConflictingPrefixes] reports; the prefix of the
    consts package (3) is free.  But every key the program makes is longer
    than those three keys, so that none of them is ever one of these. *)
Theorem metadata_keys_apart addr id user t :
  length addr = AddressLen -> length user = AddressLen ->
  HasConflictingPrefixes NewDefaultManager [[BalancePrefix]; [MarketPrefix]; [ShareBalancePrefix]] = true /\
  (forall p, p ∈ [BalancePrefix; MarketPrefix; ShareBalancePrefix] ->
     HasConflictingPrefixes NewDefaultManager [[p]] = true) /\
  HasConflictingPrefixes NewDefaultManager [[Consts.BalancePrefix]] = false /\
  Forall (fun k => k ∉ metadata_keys NewDefaultManager)
    [BalanceKey addr; StateKeysBalance addr; MarketKey id; ShareBalanceKey id user t].
Proof.
  intros Ha Hu. split_and!; [done| |done|].
  - intros p. rewrite !elem_of_cons, elem_of_nil. by intros [->|[->|[->|[]]]].
  - repeat apply List.Forall_cons; [..|apply List.Forall_nil];
      intros Hk%length_metadata_key; try done;
      by rewrite ?length_BalanceKey, ?length_StateKeysBalance, ?length_MarketKey, ?length_ShareBalanceKey in Hk.
Qed.

Lemma metadata_keys_apart_witness :
  length alice = AddressLen /\ length bob = AddressLen /\
  HasConflictingPrefixes NewDefaultManager [[BalancePrefix]; [MarketPrefix]; [ShareBalancePrefix]] = true /\
  (forall p, p ∈ [BalancePrefix; MarketPrefix; ShareBalancePrefix] ->
     HasConflictingPrefixes NewDefaultManager [[p]] = true) /\
  HasConflictingPrefixes NewDefaultManager [[Consts.BalancePrefix]] = false /\
  Forall (fun k => k ∉ metadata_keys NewDefaultManager)
    [BalanceKey alice; StateKeysBalance alice; MarketKey 5; ShareBalanceKey 5 bob NoShareType].
Proof. do 2 (split; [done|]). by apply (metadata_keys_apart alice 5 bob NoShareType). Defined.

(** ** Heights, times and prices over a chain *)

(** A block of the program's transactions that some validator accepted, at
    whatever time of its own and whatever the rest of the chain answered;
    times stay below 2^62 milliseconds. *)
Inductive processed `{Hashing} {R} `{ChainRules R} `{AuthMethods R} (ID_String : bytes -> string)
    (m : MetadataManager) (r : R) (parent : bytes -> result bytes) : (bytes -> result bytes) -> Prop :=
| processed_block now norm sig wait replay root b out :
    Forall wf_tx (Txs b) -> Tmstmp b < 2 ^ 62 ->
    Processor_Execute ID_String New m r now norm sig wait replay root parent b = Returns (Ok out) ->
    processed ID_String m r parent (View out).

(** What a state says of its block: its height, its time and its manager. *)
Record clock (m : MetadataManager) (state : bytes -> result bytes) (height time : Z) (fees : bytes) : Prop := {
  ck_height : state (HeightKey (HeightPrefix m)) = Ok (be_put 8 height);
  ck_time : state (TimestampKey (TimestampPrefix m)) = Ok (be_put 8 time);
  ck_fees : state (FeeKey (FeePrefix m)) = Ok fees;
  ck_height_range : is_u64 height;
  ck_time_range : 0 <= time < 2 ^ 62;
  ck_manager : wf_manager fees;
}.

Lemma clock_fees m s h t f : clock m s h t f -> wf_fees s m.
Proof. intros Hc raw. rewrite (ck_fees _ _ _ _ _ Hc). intros [= <-]. right. apply Hc. Qed.

(** Reading the clock. *)
Section reading.
Context {m : MetadataManager} {s : bytes -> result bytes} {h t : Z} {f : bytes} (Hc : clock m s h t f).

Lemma clock_height_read : (raw ← s (HeightKey (HeightPrefix m)); ParseUInt64 raw) = Ok h.
Proof using Hc. destruct Hc. rewrite ck_height0. by apply ParseUInt64_PackUInt64. Qed.

Lemma clock_time_read : (raw ← s (TimestampKey (TimestampPrefix m)); ParseUInt64 raw) = Ok t.
Proof using Hc. destruct Hc. rewrite ck_time0. apply ParseUInt64_PackUInt64. unfold is_u64, two64. lia. Qed.

Lemma clock_time_signed gap : 0 <= gap < 2 ^ 62 -> i64 (i64_of_u64 t + gap) = t + gap.
Proof using Hc.
  intros Hg. destruct Hc as [_ _ _ _ Ht _]. assert (i64_of_u64 t = t) as ->.
  { unfold i64_of_u64, two63. destruct (Z.ltb_spec t 9223372036854775808); lia. }
  unfold i64. rewrite i64_roundtrip; [done|]. unfold is_i64, two63. lia.
Qed.
End reading.

Lemma accepted_clock `{Hashing} {R} `{ChainRules R} `{AuthMethods R} {ID_String m} {r : R}
    now s b out height time fees fm fm' plan block v h t f :
  wf_chain r -> NoDup (metadata_keys m) -> 0 <= GetMinBlockGap r < 2 ^ 62 ->
  Forall wf_tx (Txs b) -> Tmstmp b < 2 ^ 62 -> clock m s h t f ->
  accepted ID_String m r now s b out height time fees fm fm' plan block v ->
  Hght b = u64 (h + 1) /\ clock m (View out) (Hght b) (Tmstmp b) fm' /\ t + GetMinBlockGap r <= Tmstmp b.
Proof.
  intros Hr Hnd Hg Htxs Hb Hc Hac.
  destruct (accepted_managers Hr _ _ _ _ _ _ _ _ _ _ _ _ (clock_fees _ _ _ _ _ Hc) Htxs Hac) as (Hfm' & _).
  destruct Hac. destruct (writeBlockContext_spec m _ _ s _ Hnd ac_write0) as (W1 & W2 & W3 & _).
  cbn [bc_height bc_timestamp bc_feeManager] in *. rewrite <- ac_view0 in *.
  rewrite (clock_height_read Hc) in ac_height_read0. injection ac_height_read0 as <-.
  rewrite (clock_time_read Hc) in ac_time_read0. injection ac_time_read0 as <-.
  rewrite (clock_time_signed Hc) in ac_time0 by done. destruct Hc as [_ _ _ Hh Ht _].
  split_and!; [done| |done]. rewrite u64_small in W2 by (unfold is_u64, two64; lia).
  split; try done; [|lia]. rewrite ac_height0. apply u64_range.
Qed.

Lemma processed_clock `{Hashing} {R} `{ChainRules R} `{AuthMethods R} ID_String m (r : R) s s' h t f :
  wf_chain r -> NoDup (metadata_keys m) -> 0 <= GetMinBlockGap r < 2 ^ 62 ->
  processed ID_String m r s s' -> clock m s h t f ->
  exists t' f', clock m s' (u64 (h + 1)) t' f' /\ t + GetMinBlockGap r <= t' /\
    forall i, (i < FeeDimensions)%nat -> nth i (GetMinUnitPrice r) 0 <= unitPrice f' i.
Proof.
  intros Hr Hnd Hg [now norm sig wait replay root b out Htxs Hb E] Hc.
  apply Processor_Execute_inv in E as (height & time & fees & fm & fm' & plan & block & v & Hac).
  destruct (accepted_managers Hr _ _ _ _ _ _ _ _ _ _ _ _ (clock_fees _ _ _ _ _ Hc) Htxs Hac)
    as (_ & _ & _ & _ & Hmin & _).
  destruct (accepted_clock _ _ _ _ _ _ _ _ _ _ _ _ _ _ _ Hr Hnd Hg Htxs Hb Hc Hac) as (Eh & Hc' & Ht).
  exists (Tmstmp b), fm'. rewrite <- Eh. done.
Qed.

(** C21: the chain's clock.  Along the blocks that validators accept, the
    height in the state counts the blocks, the time grows by at least the
    minimal gap with each, and after the first block no unit price is below
    the minimum the rules set. *)
Theorem chain_clock `{Hashing} {R} `{ChainRules R} `{AuthMethods R} ID_String m (r : R) n s s' h t f :
  wf_chain r -> NoDup (metadata_keys m) -> 0 <= GetMinBlockGap r < 2 ^ 62 ->
  clock m s h t f -> h + Z.of_nat n < two64 -> nsteps (processed ID_String m r) n s s' ->
  exists t' f', clock m s' (h + Z.of_nat n) t' f' /\ t + Z.of_nat n * GetMinBlockGap r <= t' /\
    ((0 < n)%nat -> forall i, (i < FeeDimensions)%nat -> nth i (GetMinUnitPrice r) 0 <= unitPrice f' i).
Proof.
  intros Hr Hnd Hg Hc Hn Hsteps. revert h t f Hc Hn.
  induction Hsteps as [s|n s s1 s' Hstep Hrest IH]; intros h t f Hc Hn.
  { exists t, f. rewrite Z.add_0_r. split_and!; [done|lia|lia]. }
  destruct (processed_clock _ _ _ _ _ _ _ _ Hr Hnd Hg Hstep Hc) as (t1 & f1 & Hc1 & Ht1 & Hp1).
  pose proof (ck_height_range _ _ _ _ _ Hc) as Hh. rewrite u64_small in Hc1 by int_lia.
  destruct (IH _ _ _ Hc1 ltac:(lia)) as (t2 & f2 & Hc2 & Ht2 & Hp2). exists t2, f2. split_and!.
  - by replace (h + Z.of_nat (S n)) with (h + 1 + Z.of_nat n) by lia.
  - lia.
  - intros _. destruct n as [|n]; [|apply Hp2; lia].
    inversion Hrest; subst. intros i Hi. destruct Hc1 as [_ _ F1 _ _ _], Hc2 as [_ _ F2 _ _ _].
    rewrite F1 in F2. injection F2 as <-. by apply Hp1.
Qed.

Lemma demo_clock : clock NewDefaultManager demo_parent 7 100 (make_bytes managerLen).
Proof. split; try done. apply wf_NewManager. Qed.

Lemma chain_clock_witness :
  exists out, demo_process = Returns (Ok out) /\ nsteps (processed demo_ID_String NewDefaultManager NewDefaultRules) 1
    demo_parent (View out) /\
  exists t' f', clock NewDefaultManager (View out) (7 + Z.of_nat 1) t' f' /\
    100 + Z.of_nat 1 * GetMinBlockGap NewDefaultRules <= t' /\
    ((0 < 1)%nat -> forall i, (i < FeeDimensions)%nat -> nth i (GetMinUnitPrice NewDefaultRules) 0 <= unitPrice f' i).
Proof.
  destruct demo_accepted as [out E]. exists out. split; [done|].
  assert (nsteps (processed demo_ID_String NewDefaultManager NewDefaultRules) 1 demo_parent (View out)) as Hs.
  { apply nsteps_once. eapply processed_block; [apply demo_txs_wf|done|exact E]. }
  split; [exact Hs|].
  refine (chain_clock demo_ID_String NewDefaultManager NewDefaultRules 1 demo_parent (View out) 7 100
    (make_bytes managerLen) demo_chain_wf default_metadata_distinct _ demo_clock _ Hs);
    apply (bool_decide_unpack _); by vm_compute.
Defined.

(** ** A window without a target *)

Lemma createBlockContext_run {R} `{ChainRules R} m (r : R) s b h t f :
  clock m s h t f -> 0 <= GetMinBlockGap r < 2 ^ 62 ->
  Hght b = u64 (h + 1) -> t + GetMinBlockGap r <= Tmstmp b ->
  (Txs b = [] -> 0 <= GetMinEmptyBlockGap r < 2 ^ 62 /\ t + GetMinEmptyBlockGap r <= Tmstmp b) ->
  createBlockContext m r s b =
    match ComputeNext f (Tmstmp b) r with
    | Panics err => Panics err
    | Returns fm => Returns (Ok (mkBlockContext (Hght b) (Tmstmp b) fm))
    end.
Proof.
  intros Hc Hg Hh Ht Htx. pose proof (clock_height_read Hc) as E1. pose proof (clock_time_read Hc) as E2.
  unfold createBlockContext. destruct (s (HeightKey _)) as [hraw|]; [|done]. cbn [mbind result_bind] in E1.
  rewrite E1, Hh, Z.eqb_refl. cbn [negb]. destruct (s (TimestampKey _)) as [traw|]; [|done].
  cbn [mbind result_bind] in E2. rewrite E2. cbv zeta. rewrite (clock_time_signed Hc) by done.
  rewrite (proj2 (Z.ltb_ge _ _)) by done.
  assert ((length (Txs b) =? 0)%nat && (Tmstmp b <? i64 (i64_of_u64 t + GetMinEmptyBlockGap r)) = false) as ->.
  { destruct (Txs b) as [|tx txs]; [|done]. destruct (Htx eq_refl) as [He Hle].
    rewrite (clock_time_signed Hc) by done. by rewrite (proj2 (Z.ltb_ge _ _)). }
  rewrite (ck_fees _ _ _ _ _ Hc). destruct (ck_manager _ _ _ _ _ Hc) as [Hl _]. unfold NewManager.
  by rewrite Hl.
Qed.

(** C22: a zero target stops the chain.  The genesis command takes any window
    targets.  With a target of 0 in a dimension, a block that consumes units
    in it is accepted, and then every block of transactions in the next ten
    seconds makes the validator divide by zero: [Processor.Execute] panics. *)
Theorem zero_target_panics `{Hashing} {R} `{ChainRules R} `{AuthMethods R} ID_String m (r : R) s h t f i
    now norm sig wait replay root b out now' norm' wait' replay' root' b' :
  wf_chain r -> NoDup (metadata_keys m) -> 0 <= GetMinBlockGap r < 2 ^ 62 -> clock m s h t f ->
  Forall wf_tx (Txs b) -> Tmstmp b < 2 ^ 62 ->
  Processor_Execute ID_String New m r now norm sig wait replay root s b = Returns (Ok out) ->
  (i < FeeDimensions)%nat -> nth i (GetWindowTargetUnits r) 0 = 0 -> nth i (ob_UnitsConsumed out) 0 <> 0 ->
  Hght b' = u64 (Hght b + 1) -> Txs b' <> [] -> Tmstmp b' <= now' + 1000 ->
  Tmstmp b + GetMinBlockGap r <= Tmstmp b' -> Z.quot (Tmstmp b') 1000 < Z.quot (Tmstmp b) 1000 + 10 ->
  Processor_Execute ID_String New m r now' norm' (Ok tt) wait' replay' root' (View out) b' = Panics ErrDivide.
Proof.
  intros Hr Hnd Hg Hc Htxs Hb E Hi Ht Hcons Hh' Htx' Hnow' Hgap Hten.
  apply Processor_Execute_inv in E as (height & time & fees & fm & fm' & plan & block & v & Hac).
  destruct (accepted_managers Hr _ _ _ _ _ _ _ _ _ _ _ _ (clock_fees _ _ _ _ _ Hc) Htxs Hac)
    as (Hfm' & Htm & _).
  destruct (accepted_clock _ _ _ _ _ _ _ _ _ _ _ _ _ _ _ Hr Hnd Hg Htxs Hb Hc Hac) as (Eh & Hc' & Hgt).
  pose proof (ck_time_range _ _ _ _ _ Hc') as Htr. rewrite (ac_consumed _ _ _ _ _ _ _ _ _ _ _ _ _ _ _ Hac) in Hcons.
  unfold Processor_Execute. rewrite (proj2 (Z.ltb_ge _ _)) by done.
  rewrite (createBlockContext_run _ _ _ _ _ _ _ Hc' Hg Hh' Hgap (fun E => False_ind _ (Htx' E))).
  rewrite (zero_target_ComputeNext r fm' (Tmstmp b') i Hfm' Hi Ht); [done| |].
  - intros E0. apply Hcons. unfold UnitsConsumed. unfold FeeDimensions in Hi |- *. cbn [seq map].
    do 5 (destruct i as [|i]; [done|]). lia.
  - rewrite Htm. assert (0 <= Z.quot (Tmstmp b) 1000 <= Z.quot (Tmstmp b') 1000) as Hq.
    { split; [apply Z.quot_pos; lia|apply Z.quot_le_mono; lia]. }
    assert (Z.quot (Tmstmp b) 1000 < 2 ^ 62).
    { apply Z.quot_lt_upper_bound; lia. }
    rewrite u64_small by (unfold is_u64, two64; lia).
    unfold i64_of_u64, two63. destruct (Z.ltb_spec (Z.quot (Tmstmp b) 1000) 9223372036854775808); lia.
Qed.

#[local] Existing Instance plain_quote.

(** The rules of a genesis made with window targets of 0. *)
Definition zero_rules : Rules :=
  match apply_flags (mkFlags [] [] ["0"; "0"; "0"; "0"; "0"]%string (-1) (-1)) NewDefaultRules with
  | Ok r => r
  | Err _ => NewDefaultRules
  end.

Lemma zero_rules_wf : wf_chain zero_rules.
Proof.
  split; [split|split|..]; try (intros a); apply (bool_decide_unpack _); by vm_compute.
Qed.

Definition consumes (x : outcome (result OutputBlock)) : bool :=
  match x with Returns (Ok out) => negb (nth 0 (ob_UnitsConsumed out) 0 =? 0) | _ => false end.

Lemma zero_target_panics_witness :
  apply_flags (mkFlags [] [] ["0"; "0"; "0"; "0"; "0"]%string (-1) (-1)) NewDefaultRules = Ok zero_rules /\
  exists out, demo_process_under zero_rules = Returns (Ok out) /\
    Processor_Execute demo_ID_String New NewDefaultManager zero_rules 700 true (Ok tt) (Ok tt) (Ok tt)
      (Ok (make_bytes 32)) (View out) (mkExecutionBlock 700 9 [demo_signed 1000] (make_bytes 32)) = Panics ErrDivide.
Proof.
  split; [vm_compute; reflexivity|].
  assert (consumes (demo_process_under zero_rules) = true) as Ec by (vm_compute; reflexivity).
  destruct (demo_process_under zero_rules) as [[out|]|] eqn:E; [|done..]. exists out. split; [done|].
  apply negb_true_iff, Z.eqb_neq in Ec.
  unfold demo_process_under in E.
  eapply zero_target_panics with (i := 0%nat) (b := demo_block);
    [apply zero_rules_wf|apply default_metadata_distinct| |apply demo_clock|apply demo_txs_wf| |exact E| | |exact Ec| | | | |].
  all: try (apply (bool_decide_unpack _); vm_compute; exact I).
  all: discriminate.
Defined.
