(* ===== verification/Admission.v ===== *)
(** * Who gets into a block

    When the chain accepts a signed purchase, exactly: the conditions on its
    time, its size, its keys and its sponsor's balance, together sufficient
    and each necessary; and for how long a freshly made transaction is
    accepted. *)

From S2P Require Import Prelude GoErrors Lib Rules Consts Packer LinearCodec Store Permissions TState StorageKeys Balances Markets Ledger Controller BuyYes BuyNo BuySpec BuyFacts Trade CreateMarket ActionBytes Examples Footprint Canoto Vm KeyStore Transaction Wire Fees FeeManager Generate Processor ChainCorrect LoadCorrect ProcessorCorrect.
#[local] Open Scope Z_scope.

#[local] Existing Instance keys_sign.
#[local] Existing Instance some_crypto.
#[local] Existing Instance ED25519_AuthMethods.

(** ** Prices *)

(** What units cost, in unbounded arithmetic. *)
Definition total_price (prices d : Dimensions) : Z := foldr Z.add 0 (zip_with Z.mul prices d).

Lemma total_price_nonneg prices : forall d, Forall is_u64 prices -> Forall is_u64 d -> 0 <= total_price prices d.
Proof.
  unfold total_price. induction prices as [|p prices IH]; intros [|u d] Hp Hd; simpl; try lia.
  inversion_clear Hp as [|? ? [Hp0 _] Hp']. inversion_clear Hd as [|? ? [Hu0 _] Hd'].
  specialize (IH d Hp' Hd'). pose proof (Z.mul_nonneg_nonneg p u Hp0 Hu0). lia.
Qed.

(** The sum that [Fee] computes is that, or does not fit. *)
Lemma fee_sum_exact prices : forall d fee,
  Forall is_u64 prices -> Forall is_u64 d -> is_u64 fee ->
  fee_sum fee prices d =
    if fee + total_price prices d <? two64 then Ok (fee + total_price prices d) else Err ErrOverflow.
Proof.
  induction prices as [|p prices IH]; intros d fee Hp Hd Hf; cbn [fee_sum].
  { unfold total_price. cbn. rewrite Z.add_0_r. by rewrite (proj2 (Z.ltb_lt _ _)) by apply Hf. }
  destruct d as [|u d].
  { unfold total_price. cbn. rewrite Z.add_0_r. by rewrite (proj2 (Z.ltb_lt _ _)) by apply Hf. }
  inversion_clear Hp as [|? ? Hp0 Hp']. inversion_clear Hd as [|? ? Hu0 Hd'].
  pose proof (total_price_nonneg prices d Hp' Hd') as Hn.
  change (total_price (p :: prices) (u :: d)) with (p * u + total_price prices d).
  pose proof (Z.mul_nonneg_nonneg p u ltac:(apply Hp0) ltac:(apply Hu0)) as Hpu. destruct Hf as [Hf0 Hf1].
  rewrite safemath_Mul_cases by (done || apply Hp0). destruct (Z.ltb_spec (p * u) two64).
  - cbn [mbind result_bind]. rewrite safemath_Add_cases by done.
    destruct (Z.ltb_spec (p * u + fee) two64); cbn [mbind result_bind].
    + rewrite IH by (done || unfold is_u64; lia).
      by replace (p * u + fee + total_price prices d) with (fee + (p * u + total_price prices d)) by lia.
    + by rewrite (proj2 (Z.ltb_ge _ _)) by lia.
  - cbn [mbind result_bind]. by rewrite (proj2 (Z.ltb_ge _ _)) by lia.
Qed.

Lemma UnitPrices_u64 f : wf_manager f -> Forall is_u64 (UnitPrices f).
Proof.
  intros Hf. unfold UnitPrices. apply List.Forall_map. eapply List.Forall_impl; [|apply dims_in_range].
  intros i Hi. by apply unitPrice_range.
Qed.

Lemma Manager_Fee_exact f d : wf_manager f -> length d = FeeDimensions -> Forall is_u64 d ->
  Manager_Fee f d =
    if total_price (UnitPrices f) d <? two64 then Ok (total_price (UnitPrices f) d) else Err ErrOverflow.
Proof.
  intros Hf Hl Hd. rewrite Manager_Fee_view by done. unfold Fee. cbn [view unitPrices].
  rewrite fee_sum_exact by (done || by apply UnitPrices_u64). by rewrite Z.add_0_l.
Qed.

(** ** Limits *)

Lemma consume_check_fresh f d l dims :
  Forall is_u64 d -> Forall (fun i => lastConsumed f i = 0) dims ->
  consume_check f dims d l = None <-> Forall (fun i => nth i d 0 <= nth i l 0) dims.
Proof.
  intros Hd Hz. split.
  - intros E%consume_check_none. revert E. induction Hz as [|i dims Hi _ IH]; intros E; [constructor|].
    inversion_clear E as [|? ? [_ E1] E2]. constructor; [lia|auto].
  - induction Hz as [|i dims Hi _ IH]; intros E; [done|]. inversion_clear E as [|? ? E1 E2].
    cbn [consume_check]. pose proof (nth_u64 d i Hd) as Hu. rewrite Hi, safemath_Add_cases by done.
    rewrite (proj2 (Z.ltb_lt _ _)) by (unfold is_u64 in Hu; lia).
    rewrite (proj2 (Z.ltb_ge _ _)) by lia. auto.
Qed.

(** ** The balance key *)

(** Writing a key that is there, in scope and large enough. *)
Lemma Insert_existing k b v past :
  checkScope v k Write = true -> VerifyValue k b = true -> view_value v k = Ok past ->
  v_pending v !! k = None ->
  exists v', TStateView_Insert k b v = (Ok tt, v').
Proof.
  intros Hs Hv E Hp. unfold TStateView_Insert. rewrite Hs, Hv. cbn [negb].
  assert (exists un, isUnchanged v k (Some b) = Ok un) as [un ->].
  { unfold view_value, parent_value in E. rewrite Hp in E. unfold isUnchanged.
    destruct (changedKeys (v_ts v) !! k) as [[|]|]; [by eexists|done|]. destruct (v_storage v k); [by eexists|done]. }
  rewrite E. cbv zeta. case_decide; by eexists.
Qed.

Lemma fold_left_has (l : list (bytes * Z)) key q p :
  Permissions_Has p q = true \/ (exists r, (key, r) ∈ l /\ Permissions_Has r q = true) ->
  Permissions_Has (fold_left (fun p kp => if decide (kp.1 = key) then Z.lor p kp.2 else p) l p) q = true.
Proof.
  revert p. induction l as [|[k r] l IH]; intros p [Hp|(r' & Hin & Hr)]; simpl; [done|by apply not_elem_of_nil in Hin|..].
  - apply IH. left. case_decide; [|done]. rewrite Z.lor_comm. by apply Permissions_Has_lor.
  - apply elem_of_cons in Hin as [[= <- <-]|Hin]; apply IH; [|by right; exists r'].
    left. rewrite decide_True by done. by apply Permissions_Has_lor.
Qed.

Section buyer.
Context `{Hashing} (sd : side) (o : order) (actor : bytes) (Ha : wf_addr actor).

Lemma buy_balance_scope keys :
  tx_StateKeys New (mkTransaction [buy_Action sd o] actor actor) = Ok keys ->
  Keys_Has keys (BalanceKey actor) Write = true.
Proof.
  unfold tx_StateKeys. destruct (Keys_AddAll _ _) as [ks|] eqn:E; [|done]. intros [= <-].
  apply Keys_AddAll_lookup with (key := BalanceKey actor) in E. unfold Keys_Has. rewrite E.
  apply fold_left_has. right. exists (Z.lor Read Write). split; [|done].
  apply elem_of_app. left. apply list_elem_of_bind. exists (buy_Action sd o). split; [|by left].
  apply elem_of_map_to_list. cbn [tx_Actor].
  destruct sd; apply lookup_insert_eq.
Qed.

Lemma balance_fits v : VerifyValue (BalanceKey actor) (be_put 8 v) = true.
Proof using Ha.
  destruct (key_chunks 0 actor 0 Ha ltac:(done)) as [Hc _]. unfold VerifyValue, NumChunks. rewrite length_be_put.
  rewrite MaxChunks_valid by (rewrite length_BalanceKey by apply Ha; lia). by rewrite Hc.
Qed.

(** Over a committed balance: who can pay, and that paying works. *)
Lemma buyer_CanDeduct keys storage bal fee :
  tx_StateKeys New (mkTransaction [buy_Action sd o] actor actor) = Ok keys ->
  storage (BalanceKey actor) = Ok (be_put 8 bal) -> is_u64 bal ->
  CanDeduct New actor fee (TState_NewView fresh_block keys storage) = Ok tt <-> bal <> 0 /\ fee <= bal.
Proof using Ha.
  intros Hk Hs Hb. cbn [CanDeduct Controller_BalanceHandler]. unfold Controller_CanDeduct.
  assert (GetValue (TState_NewView fresh_block keys storage) (BalanceKey actor) = Ok (be_put 8 bal)) as Hg.
  { unfold GetValue. simpl. unfold TStateView_GetValue, checkScope. cbn [v_scope TState_NewView].
    pose proof (buy_balance_scope keys Hk) as Hw. unfold Keys_Has in *. by rewrite (Write_Read _ Hw). }
  rewrite (GetBalance_stored _ actor bal Hb Hg).
  destruct (Z.eqb_spec bal 0); cbn [mbind result_bind]; [split; [done|tauto]|].
  destruct (Z.ltb_spec bal fee); split; try done; lia.
Qed.

Lemma buyer_executes keys storage bal fee ts :
  tx_StateKeys New (mkTransaction [buy_Action sd o] actor actor) = Ok keys ->
  storage (BalanceKey actor) = Ok (be_put 8 bal) -> is_u64 bal -> bal <> 0 -> fee <= bal ->
  exists res v', tx_Execute New (mkTransaction [buy_Action sd o] actor actor) fee ts
    (TState_NewView fresh_block keys storage) = (Ok res, v').
Proof using Ha.
  intros Hk Hs Hb Hnz Hle. set (v := TState_NewView fresh_block keys storage).
  pose proof (buy_balance_scope keys Hk) as Hw.
  assert (GetValue v (BalanceKey actor) = Ok (be_put 8 bal)) as Hg.
  { unfold GetValue. simpl. unfold TStateView_GetValue, checkScope. cbn [v_scope v TState_NewView].
    unfold Keys_Has in *. by rewrite (Write_Read _ Hw). }
  assert (GetBalance v actor = Ok bal) as Eb.
  { rewrite (GetBalance_stored _ actor bal Hb Hg). by destruct (Z.eqb_spec bal 0). }
  unfold tx_Execute. cbn [Deduct Controller_BalanceHandler tx_Sponsor]. unfold Controller_Deduct.
  rewrite (DeductBalance_ok v actor fee bal Eb Hle). change Insert with TStateView_Insert.
  destruct (Insert_existing (BalanceKey actor) (be_put 8 (u64 (bal - fee))) v (be_put 8 bal)) as [v1 ->];
    [exact Hw|apply balance_fits|exact Hs|done|].
  destruct (run_actions _ _ _ _ _) as [[outs [e|]] v2]; by eexists _, _.
Qed.
End buyer.

(** ** One purchase *)

Section purchase.
Context `{Hashing} {ID_String : bytes -> string} (tx : GeneratedTx) (sd : side) (o : order) (actor : bytes).
Context (Htx : signed_tx tx = mkTransaction [buy_Action sd o] actor actor) (Ha : wf_addr actor).
Context (Hsize : is_u64 (st_size tx)).

#[local] Abbreviation units := (buy_units (st_size tx) ED25519ComputeUnits (declared_chunks sd o actor)).

Lemma purchase_units : SignedTransaction_Units New NewDefaultRules tx = Ok units.
Proof using Ha Htx.
  unfold SignedTransaction_Units. rewrite Htx. cbn [auth_ComputeUnits ED25519_AuthMethods].
  by rewrite Units_buy by (done || by apply (bool_decide_unpack _)).
Qed.

Lemma purchase_units_u64 : Forall is_u64 units.
Proof using Ha Hsize.
  pose proof (declared_chunks_range sd o actor Ha) as Hr. change (2 ^ 20) with 1048576 in Hr. unfold buy_units.
  repeat apply List.Forall_cons; [done|unfold ED25519ComputeUnits; int_lia..|apply List.Forall_nil].
Qed.

Lemma purchase_fits fm :
  UnitsConsumed fm = [0; 0; 0; 0; 0] ->
  consume_check fm (seq 0 FeeDimensions) units (GetMaxBlockUnits NewDefaultRules) = None <->
  st_size tx <= 1800000 /\ declared_chunks sd o actor <= 384.
Proof using Ha Hsize.
  intros Hz. rewrite consume_check_fresh; [|apply purchase_units_u64|].
  - change (GetMaxBlockUnits NewDefaultRules) with [1800000; 2000; 2000; 2000; 2000].
    unfold FeeDimensions, buy_units, ED25519ComputeUnits. cbn [seq]. rewrite !Forall_cons_iff. cbn [nth].
    split; [lia|]. intros []. split_and!; [lia..|constructor].
  - unfold UnitsConsumed in Hz. unfold FeeDimensions in *. cbn [seq map] in Hz. injection Hz as Z0 Z1 Z2 Z3 Z4.
    cbn [seq]. by repeat constructor.
Qed.

Lemma purchase_actions : td_Actions (st_Data tx) = [buy_Action sd o] /\ Sponsor (st_Auth tx) = actor.
Proof using Htx. unfold signed_tx in Htx. by injection Htx. Qed.

Lemma purchase_activated ts : forallb (action_activated ts) [buy_Action sd o] = true.
Proof. by destruct sd. Qed.

Lemma purchase_count : Z.of_nat (length (td_Actions (st_Data tx))) <= GetMaxActionsPerTx NewDefaultRules.
Proof using Htx. destruct purchase_actions as [-> _]. change (GetMaxActionsPerTx NewDefaultRules) with 16. simpl. lia. Qed.

(** Who passes [PreExecute]. *)
Lemma purchase_admitted_at fm keys storage ts bal :
  is_i64 (ts + GetValidityWindow NewDefaultRules) -> wf_manager fm ->
  tx_StateKeys New (signed_tx tx) = Ok keys ->
  storage (BalanceKey actor) = Ok (be_put 8 bal) -> is_u64 bal ->
  SignedTransaction_PreExecute ID_String New NewDefaultRules tx fm (TState_NewView fresh_block keys storage) ts = Ok tt <->
  (ChainID (td_Base (st_Data tx)) = GetChainID NewDefaultRules /\ (1000 | Timestamp (td_Base (st_Data tx))) /\
   ts <= Timestamp (td_Base (st_Data tx)) <= ts + GetValidityWindow NewDefaultRules) /\
  bal <> 0 /\ total_price (UnitPrices fm) units <= bal.
Proof using Ha Hsize Htx.
  intros Hw Hfm Hk Hs Hb. rewrite PreExecute_ok. rewrite Htx in Hk. destruct purchase_actions as [Eact Esp].
  pose proof (Manager_Fee_exact fm units Hfm ltac:(done) purchase_units_u64) as Hfee.
  rewrite <- (Base_Execute_ok ID_String NewDefaultRules (td_Base (st_Data tx)) ts Hw). split.
  - intros [fee [E1 _ _ _ E5 E6]]. split; [done|]. rewrite purchase_units in E5. cbn [mbind result_bind] in E5.
    rewrite Hfee in E5. destruct (Z.ltb_spec (total_price (UnitPrices fm) units) two64); [|done].
    injection E5 as <-. rewrite Esp in E6.
    by apply (buyer_CanDeduct sd o actor Ha keys storage bal _ Hk Hs Hb) in E6.
  - intros (E1 & Hnz & Hle). exists (total_price (UnitPrices fm) units). split; [done|apply purchase_count|..].
    + rewrite Eact. apply purchase_activated.
    + done.
    + rewrite purchase_units. cbn [mbind result_bind]. rewrite Hfee.
      by rewrite (proj2 (Z.ltb_lt _ _)) by (unfold is_u64 in Hb; lia).
    + rewrite Esp. by apply (buyer_CanDeduct sd o actor Ha keys storage bal _ Hk Hs Hb).
Qed.

(** An accepted purchase runs to a result. *)
Lemma purchase_runs fm keys storage ts bal :
  wf_manager fm -> tx_StateKeys New (signed_tx tx) = Ok keys ->
  storage (BalanceKey actor) = Ok (be_put 8 bal) -> is_u64 bal -> bal <> 0 ->
  total_price (UnitPrices fm) units <= bal ->
  exists res v', SignedTransaction_Execute New NewDefaultRules tx fm ts (TState_NewView fresh_block keys storage)
    = (Ok res, v').
Proof using Ha Hsize Htx.
  intros Hfm Hk Hs Hb Hnz Hle. rewrite Htx in Hk.
  pose proof (Manager_Fee_exact fm units Hfm ltac:(done) purchase_units_u64) as Hfee.
  rewrite (proj2 (Z.ltb_lt _ _)) in Hfee by (unfold is_u64 in Hb; lia).
  destruct (buyer_executes sd o actor Ha keys storage bal _ ts Hk Hs Hb Hnz Hle) as (res & v' & E).
  unfold SignedTransaction_Execute, mbind, GoM_bind, on_error, lift. rewrite purchase_units, Hfee, Htx, E.
  by eexists _, _.
Qed.
End purchase.

(** C11: who can buy under the default rules.  A block of one signed purchase,
    by a buyer who pays for it and has a stored balance, is executed exactly
    when the transaction names the chain, its time is a whole second within
    the validity window, its size fits the block, the low bytes of the market
    ID, of the address and the share type, which the chain takes for chunk
    sizes, add up to at most 384, and the balance is not 0 and covers the
    price of its units.  Whether the purchase itself then succeeds is a matter
    of its result. *)
Theorem purchase_admission `{Hashing} ID_String (tx : GeneratedTx) sd o actor ts storage fm bal :
  signed_tx tx = mkTransaction [buy_Action sd o] actor actor -> wf_addr actor -> is_u64 (st_size tx) ->
  is_i64 (ts + GetValidityWindow NewDefaultRules) ->
  wf_manager fm -> UnitsConsumed fm = [0; 0; 0; 0; 0] ->
  storage (BalanceKey actor) = Ok (be_put 8 bal) -> is_u64 bal ->
  (exists out fm', executeTxs ID_String New NewDefaultRules [tx] ts storage fm = (Ok out, fm')) <->
  ChainID (td_Base (st_Data tx)) = GetChainID NewDefaultRules /\
  (1000 | Timestamp (td_Base (st_Data tx))) /\
  ts <= Timestamp (td_Base (st_Data tx)) <= ts + GetValidityWindow NewDefaultRules /\
  st_size tx <= 1800000 /\ declared_chunks sd o actor <= 384 /\ bal <> 0 /\
  total_price (UnitPrices fm) (buy_units (st_size tx) ED25519ComputeUnits (declared_chunks sd o actor)) <= bal.
Proof.
  intros Htx Ha Hsize Hw Hfm Hz Hs Hb.
  destruct (buy_StateKeys_list sd o actor Ha) as (keys & Hk & _). rewrite <- Htx in Hk.
  pose proof (purchase_fits tx sd o actor Ha Hsize fm Hz) as Hfit.
  set (units := buy_units _ _ _) in *.
  unfold executeTxs, plan_txs. rewrite Hk, (purchase_units tx sd o actor Htx Ha). fold units.
  pose proof (Manager_Consume_view fm units (GetMaxBlockUnits NewDefaultRules) Hfm ltac:(done) ltac:(done)
    (purchase_units_u64 tx sd o actor Ha Hsize)) as Hview.
  destruct (Manager_Consume fm units (GetMaxBlockUnits NewDefaultRules)) as [over g] eqn:Ec.
  destruct Hview as (Ev & Hg & _ & _). destruct over as [d|].
  { split; [intros (out & fm' & ?); done|]. intros (_ & _ & _ & H5 & H6 & _).
    unfold Consume in Ev. cbn [view Fees.lastConsumed] in Ev.
    by rewrite consume_check_view, (proj2 Hfit (conj H5 H6)) in Ev. }
  assert (UnitPrices g = UnitPrices fm) as Ep.
  { pose proof (f_equal (fun p => unitPrices p.2) Ev) as Eu. unfold Consume in Eu.
    by destruct (over_limit _ _ _ _). }
  assert (st_size tx <= 1800000 /\ declared_chunks sd o actor <= 384) as Hlim.
  { apply Hfit. unfold Manager_Consume in Ec. destruct (consume_check _ _ _ _); [done|done]. }
  pose proof (purchase_admitted_at (ID_String := ID_String) tx sd o actor Htx Ha Hsize g keys storage ts bal Hw Hg Hk Hs Hb)
    as Hadm. fold units in Hadm. rewrite Ep in Hadm.
  cbn [zip zip_with run_tasks]. unfold run_task. cbv zeta.
  destruct (SignedTransaction_PreExecute _ _ _ _ _ _ _) as [[]|e] eqn:Epre.
  - destruct (proj1 Hadm eq_refl) as (Hbase & Hnz & Hle). rewrite <- Ep in Hle.
    destruct (purchase_runs tx sd o actor Htx Ha Hsize g keys storage ts bal Hg Hk Hs Hb Hnz Hle) as (res & v' & ->).
    rewrite Ep in Hle. split; [tauto|]. intros _. by eexists _, _.
  - split; [intros (out & fm' & ?); done|]. intros (B1 & B2 & B3 & _ & _ & Hnz & Hle).
    by discriminate (proj2 Hadm (conj (conj B1 (conj B2 B3)) (conj Hnz Hle))).
Qed.

(** A manager with the default prices, nothing consumed. *)
Definition demo_manager : bytes :=
  foldr (fun i f => PutUint64_at (price_start i) 100 f) (make_bytes managerLen) (seq 0 5).

Lemma demo_manager_wf : wf_manager demo_manager.
Proof. split; [by vm_compute|apply (bool_decide_unpack _); by vm_compute]. Qed.

Lemma purchase_admission_witness :
  (exists out fm', executeTxs demo_ID_String New NewDefaultRules [demo_signed 1000] 500 demo_parent demo_manager
     = (Ok out, fm')) <->
  ChainID (td_Base (st_Data (demo_signed 1000))) = GetChainID NewDefaultRules /\
  (1000 | Timestamp (td_Base (st_Data (demo_signed 1000)))) /\
  500 <= Timestamp (td_Base (st_Data (demo_signed 1000))) <= 500 + GetValidityWindow NewDefaultRules /\
  st_size (demo_signed 1000) <= 1800000 /\ declared_chunks No demo_order alice <= 384 /\ 100000 <> 0 /\
  total_price (UnitPrices demo_manager)
    (buy_units (st_size (demo_signed 1000)) ED25519ComputeUnits (declared_chunks No demo_order alice)) <= 100000.
Proof.
  assert (signed_tx (demo_signed 1000) = mkTransaction [buy_Action No demo_order] alice alice) as Htx by reflexivity.
  assert (is_u64 (st_size (demo_signed 1000))) as Hsize by (apply (bool_decide_unpack _); by vm_compute).
  assert (is_i64 (500 + GetValidityWindow NewDefaultRules)) as Hw by (apply (bool_decide_unpack _); by vm_compute).
  assert (UnitsConsumed demo_manager = [0; 0; 0; 0; 0]) as Hz by (by vm_compute).
  assert (demo_parent (BalanceKey alice) = Ok (be_put 8 100000)) as Hs by (by vm_compute).
  assert (is_u64 100000) as Hb by (apply (bool_decide_unpack _); by vm_compute).
  exact (purchase_admission demo_ID_String (demo_signed 1000) No demo_order alice 500 demo_parent demo_manager 100000
    Htx wf_alice Hsize Hw demo_manager_wf Hz Hs Hb).
Defined.

(** ** How long a transaction lasts *)

(** The life of a transaction.  What [GenerateTransaction] makes at a time
    passes the checks of its base in the blocks from the last whole second
    (counted so that its expiry is one) before it was made, up to a validity
    window after that: less than a second early, at least the window less a
    second long, and never longer than the window. *)
Lemma fresh_tx_lasts `{Crypto} {R F} `{ChainRules R} `{AuthFactory F} ID_String (GetRules : Z -> R) prices now
    actions (f : F) tx ts :
  let w := GetValidityWindow (GetRules now) in
  GenerateTransaction GetRules prices now actions f = Returns (Ok tx) ->
  0 <= now -> 0 <= w -> now + w < two63 -> is_i64 (ts + w) ->
  let start := now - (now + w) mod 1000 in
  Base_Execute ID_String (GetRules now) (td_Base (st_Data tx)) ts = Ok tt <-> start <= ts <= start + w.
Proof.
  intros w E Hn Hw0 Hnw Hw start.
  apply GenerateTransaction_inv in E as (units & maxFee & bs & auth & _ & _ & _ & _ & En).
  apply NewTransaction_data in En as (_ & -> & _). rewrite Base_Execute_ok by done. cbn [ChainID Timestamp].
  fold w. assert (UnixRMilli now w = start + w) as ->.
  { unfold UnixRMilli, i64. rewrite i64_roundtrip by (unfold is_i64, two63 in *; lia). cbv zeta.
    rewrite Z.rem_mod_nonneg by lia. unfold start. lia. }
  assert (1000 | start + w) as Hd.
  { exists ((now + w) / 1000). unfold start. pose proof (Z.div_mod (now + w) 1000 ltac:(lia)). lia. }
  split; [lia|]. intros Ht. split_and!; [done|done|lia..].
Qed.

Lemma fresh_tx_lasts_witness :
  let w := GetValidityWindow NewDefaultRules in
  let start := 1700000000123 - (1700000000123 + w) mod 1000 in
  start = 1700000000000 /\
  exists tx, GenerateTransaction (fun _ => NewDefaultRules) [100; 100; 100; 100; 100] 1700000000123
      [buy_Action Yes demo_order] alice = Returns (Ok tx) /\
    (Base_Execute demo_ID_String NewDefaultRules (td_Base (st_Data tx)) 1700000060000 = Ok tt <->
     start <= 1700000060000 <= start + w).
Proof.
  split; [by vm_compute|].
  assert (match GenerateTransaction (fun _ => NewDefaultRules) [100; 100; 100; 100; 100] 1700000000123
      [buy_Action Yes demo_order] alice with Returns (Ok _) => true | _ => false end = true) as Ed
    by (vm_compute; reflexivity).
  destruct (GenerateTransaction _ _ _ _ _) as [[tx|]|] eqn:E; [|done..]. exists tx. split; [done|].
  assert (0 <= 1700000000123 /\ 0 <= GetValidityWindow NewDefaultRules /\
    1700000000123 + GetValidityWindow NewDefaultRules < two63 /\
    is_i64 (1700000060000 + GetValidityWindow NewDefaultRules)) as (H1 & H2 & H3 & H4)
    by (apply (bool_decide_unpack _); by vm_compute).
  exact (fresh_tx_lasts demo_ID_String (fun _ => NewDefaultRules) [100; 100; 100; 100; 100] 1700000000123
    [buy_Action Yes demo_order] alice tx 1700000060000 E H1 H2 H3 H4).
Defined.
