(* ===== verification/UnitTests.v ===== *)
(** * The unit tests of actions/, run on the model

    buy_no_action_test.go and market_actions_test.go, test by test: the same
    store contents, the same action and the same assertions, evaluated. *)

From S2P Require Import Prelude GoErrors Lib Rules Consts Store Balances Markets BuyYes BuyNo BuySpec Trade CreateMarket Vm Examples.
#[local] Open Scope Z_scope.

(** The markets of the tests: ID 1, ending at 200, of the given status. *)
Definition test_market (description : string) (status : Z) : Market := {|
  ID := 1;
  Description := description;
  Status := status;
  Creator := bob;
  EndTime := 200;
  ResolutionTime := 300;
  TotalYesShares := 0;
  TotalNoShares := 0;
  OracleType := 0;
  OracleSource := "";
  OracleParameters := [];
  ResolvedOutcome := 0;
|}.

(** [&MockRules{GetTimeFunc: func() int64 { return 100 }}]. *)
Definition test_rules : MockRules action := {|
  MaxActionGasFunc := None;
  FetchCustomFunc := None;
  GetTimeFunc := Some 100;
  MaxBlockGasFunc := None;
  GetBaseComputeUnitsFunc := None;
  GetChainIDFunc := None;
  GetMaxActionsPerTxFunc := None;
  GetMaxBlockUnitsFunc := None;
  GetMinBlockGapFunc := None;
  GetMinEmptyBlockGapFunc := None;
  GetMinUnitPriceFunc := None;
  GetNetworkIDFunc := None;
  GetSponsorStateKeysMaxChunksFunc := None;
  GetStorageKeyAllocateUnitsFunc := None;
  GetStorageKeyReadUnitsFunc := None;
  GetStorageKeyWriteUnitsFunc := None;
  GetStorageValueAllocateUnitsFunc := None;
  GetStorageValueReadUnitsFunc := None;
  GetStorageValueWriteUnitsFunc := None;
  GetUnitPriceChangeDenominatorFunc := None;
  GetValidityWindowFunc := None;
  GetWindowTargetUnitsFunc := None;
|}.

(** The sender's balance, when it is set, and the market, when there is one. *)
Definition test_store (balance : option Z) (market : option Market) : InMemoryStore :=
  let s := match balance with
           | Some v => snd (SetBalance alice v NewInMemoryStore)
           | None => NewInMemoryStore
           end in
  match market with Some m => snd (SetMarket m s) | None => s end.

(** What the assertions look at: the two share balances, the balance and the
    totals of the market. *)
Definition observed (s : InMemoryStore) : result Z * result Z * result Z * result (Z * Z) :=
  (GetBalance s alice, GetShareBalance s 1 alice YesShareType, GetShareBalance s 1 alice NoShareType,
   m ← GetMarket s 1; Ok (TotalYesShares m, TotalNoShares m)).

(** A failing test: the error is the package variable, its text contains the
    expected one, there is no output, and the store is unchanged. *)
Definition fails_with (var : error) (text : string) (r : result bytes * InMemoryStore)
    (before : InMemoryStore) : Prop :=
  exists e, r = (Err e, before) /\ errors_Is e var = true /\
    exists front back, Error e = front +:+ text +:+ back.

Ltac run_test front back :=
  eexists; split_and!; [vm_compute; reflexivity|vm_compute; reflexivity|];
  exists front, back; vm_compute; reflexivity.

Example TestBuyYes_Execute_Success :
  let '(r, s) := BuyYes_Execute (mkBuyYes 1 10 15) (GetTime test_rules) alice
    (test_store (Some 1000) (Some (test_market "Test Market for BuyYes" MarketStatus_Open))) in
  r = Ok [] /\ observed s = (Ok 850, Ok 10, Ok 0, Ok (10, 0)).
Proof. by vm_compute. Qed.

Example TestBuyNo_Execute_Success :
  let '(r, s) := BuyNo_Execute (mkBuyNo 1 10 15) (GetTime test_rules) alice
    (test_store (Some 1000) (Some (test_market "Test Market for BuyNo" MarketStatus_Open))) in
  r = Ok [] /\ observed s = (Ok 850, Ok 0, Ok 10, Ok (0, 10)).
Proof. by vm_compute. Qed.

Example TestBuyNo_Execute_Error_MarketNotFound :
  let s := test_store (Some 1000) None in
  fails_with ErrMarketNotFound "market 999 not found when fetching"
    (BuyNo_Execute (mkBuyNo 999 10 50) (GetTime test_rules) alice s) s /\
  GetBalance s alice = Ok 1000 /\ GetShareBalance s 999 alice NoShareType = Ok 0.
Proof. split; [run_test "market not found: " ""|by vm_compute]. Qed.

Example TestBuyNo_Execute_Error_MarketResolvedYes :
  let s := test_store (Some 1000) (Some (test_market "Test Market Resolved" MarketStatus_ResolvedYes)) in
  fails_with ErrMarketInteraction "market 1 is already resolved"
    (BuyNo_Execute (mkBuyNo 1 10 50) (GetTime test_rules) alice s) s /\
  observed s = (Ok 1000, Ok 0, Ok 0, Ok (0, 0)).
Proof. split; [run_test "market interaction error: " " (status: ResolvedYes)"|by vm_compute]. Qed.

Example TestBuyNo_Execute_Error_MarketResolvedNo :
  let s := test_store (Some 1000) (Some (test_market "Test Market Resolved" MarketStatus_ResolvedNo)) in
  fails_with ErrMarketInteraction "market 1 is already resolved"
    (BuyNo_Execute (mkBuyNo 1 10 50) (GetTime test_rules) alice s) s /\
  observed s = (Ok 1000, Ok 0, Ok 0, Ok (0, 0)).
Proof. split; [run_test "market interaction error: " " (status: ResolvedNo)"|by vm_compute]. Qed.

Example TestBuyNo_Execute_Error_InsufficientFunds :
  let s := test_store (Some 49) (Some (test_market "Test Market Insufficient Funds" MarketStatus_Open)) in
  fails_with ErrInsufficientFunds "actor balance 49, cost 50"
    (BuyNo_Execute (mkBuyNo 1 10 5) (GetTime test_rules) alice s) s /\
  observed s = (Ok 49, Ok 0, Ok 0, Ok (0, 0)).
Proof.
  split; [run_test "insufficient funds: " " for 10 shares at max price 5 for market 1"|by vm_compute].
Qed.

Example TestBuyNo_Execute_Error_AmountZero :
  fails_with ErrAmountCannotBeZero "amount cannot be zero"
    (BuyNo_Execute (mkBuyNo 1 0 50) (GetTime test_rules) alice NewInMemoryStore) NewInMemoryStore.
Proof. run_test "" "". Qed.

Example TestBuyNo_Execute_Error_MaxPriceZero :
  fails_with ErrMaxPriceCannotBeZero "max price cannot be zero"
    (BuyNo_Execute (mkBuyNo 1 10 0) (GetTime test_rules) alice NewInMemoryStore) NewInMemoryStore.
Proof. run_test "" "". Qed.

Example TestBuyNo_Execute_Error_NoBalanceRecord_InsufficientFunds :
  let s := test_store None (Some (test_market "Test Market No Balance Record" MarketStatus_Open)) in
  fails_with ErrInsufficientFunds (" has no balance record, cost is 50")
    (BuyNo_Execute (mkBuyNo 1 10 5) (GetTime test_rules) alice s) s /\
  observed s = (Ok 0, Ok 0, Ok 0, Ok (0, 0)).
Proof.
  split; [run_test ("insufficient funds: actor " +:+ Address_String alice) ""|by vm_compute].
Qed.

Example TestBuyNo_Execute_Error_MarketTradingClosed :
  let s := test_store (Some 1000) (Some (test_market "Test Market Trading Closed" MarketStatus_TradingClosed)) in
  fails_with ErrMarketInteraction "market 1 trading is closed"
    (BuyNo_Execute (mkBuyNo 1 10 50) (GetTime test_rules) alice s) s /\
  observed s = (Ok 1000, Ok 0, Ok 0, Ok (0, 0)).
Proof. split; [run_test "market interaction error: " " (status: TradingClosed)"|by vm_compute]. Qed.

Example TestBuyNo_Execute_Error_MarketEndTimePassed :
  let m := test_market "Test Market EndTime Passed" MarketStatus_Open in
  let s := test_store (Some 1000) (Some (mkMarket (ID m) (Description m) (Status m) (Creator m) 50
    (ResolutionTime m) 0 0 0 "" [] 0)) in
  fails_with ErrMarketInteraction "market 1 has ended (current: 100, end: 50)"
    (BuyNo_Execute (mkBuyNo 1 10 50) (GetTime test_rules) alice s) s /\
  observed s = (Ok 1000, Ok 0, Ok 0, Ok (0, 0)).
Proof. split; [run_test "market interaction error: " ""|by vm_compute]. Qed.

(** The order of tests/workload/generator.go, one share of market 1, leaves
    MaxPrice at 0: it is refused in every state. *)
Lemma workload_buy_refused {S} `{Mutable S} `{Hashing} ts actor (s : S) :
  BuyYes_Execute (mkBuyYes 1 1 0) ts actor s = (Err ErrMaxPriceCannotBeZero, s).
Proof. reflexivity. Qed.
