(* ===== verification/Executor.v ===== *)
(** * The parallel executor (hypersdk/internal/executor)

    The object that runs the transactions of a block on several cores while
    keeping the order of those that share a key.  One goroutine calls [Run]
    for every task and then [Wait]; the workers take tasks off the channel.
    An execution is a sequence of atomic steps ([step]): a step is what a
    goroutine does while it holds a lock, one operation on an atomic or the
    channel, or one run of a task's function.

    The memory the tasks' functions share is a parameter, as are the
    functions; an error leaves the memory as it was.  [Go]'s [map[int]*task]
    is the set of its keys, since a task is stored under its own id. *)

From stdpp Require Import relations.
From S2P Require Import Prelude GoErrors Permissions.
#[local] Open Scope Z_scope.

(** ** errors.go *)

Definition ErrStopped : error := ErrVar "executor.ErrStopped" "stopped".

(** Where the worker that took a task is in [runTask]: it has not been taken;
    the worker has it and is to look at [err]; it has passed that check and is
    to call [f]; [f] is over and it clears [reading]; it holds the task's lock and notifies the blocked tasks;
    it is done.  The lock is released after [executed] is set, so [executed]
    is being done. *)
Inductive position := Waiting | Taken | Running | Clearing | Notifying | Done.

#[export] Instance position_eq_dec : EqDecision position.
Proof. solve_decision. Defined.

(** A task without its [id], which is where the heap keeps it, and [f]. *)
Record task := mkTask {
  t_reading : gset nat;
  t_blocked : gset nat;
  t_readers : gset nat;
  t_dependencies : Z;
  t_pc : position;
}.

Definition t_executed (t : task) : bool := bool_decide (t_pc t = Done).
Definition t_locked (t : task) : bool := bool_decide (t_pc t = Notifying).

Definition new_task (maxDependencies : Z) : task := mkTask ∅ ∅ ∅ maxDependencies Waiting.

Definition with_reading (f : gset nat -> gset nat) (t : task) : task :=
  mkTask (f (t_reading t)) (t_blocked t) (t_readers t) (t_dependencies t) (t_pc t).
Definition with_blocked (f : gset nat -> gset nat) (t : task) : task :=
  mkTask (t_reading t) (f (t_blocked t)) (t_readers t) (t_dependencies t) (t_pc t).
Definition with_readers (f : gset nat -> gset nat) (t : task) : task :=
  mkTask (t_reading t) (t_blocked t) (f (t_readers t)) (t_dependencies t) (t_pc t).
Definition dependencies_Add (delta : Z) (t : task) : task :=
  mkTask (t_reading t) (t_blocked t) (t_readers t) (t_dependencies t + delta) (t_pc t).
Definition with_pc (p : position) (t : task) : task :=
  mkTask (t_reading t) (t_blocked t) (t_readers t) (t_dependencies t) p.

(** The tasks by id. *)
Definition heap : Type := nat -> task.

Definition upd (i : nat) (f : task -> task) (h : heap) : heap :=
  fun j => if decide (j = i) then f (h j) else h j.
Definition upd_all (is_ : gset nat) (f : task -> task) (h : heap) : heap :=
  fun j => if decide (j ∈ is_) then f (h j) else h j.

(** A call of [Run] in progress: the task's id, the keys still to visit, and
    the local [dependencies]. *)
Record call := mkCall {
  c_id : nat;
  c_keys : list (bytes * Z);
  c_dependencies : gset nat;
}.

(** [e_order] is a history variable: the tasks whose function has been run. *)
Record Executor (Mem : Type) := mkExecutor {
  e_heap : heap;
  e_executable : list nat;
  e_tasks : nat;
  e_nodes : gmap bytes nat;
  e_err : option error;
  e_call : option call;
  e_memory : Mem;
  e_order : list nat;
}.
Arguments mkExecutor {_} _ _ _ _ _ _ _ _.
Arguments e_heap {_} _.
Arguments e_executable {_} _.
Arguments e_tasks {_} _.
Arguments e_nodes {_} _.
Arguments e_err {_} _.
Arguments e_call {_} _.
Arguments e_memory {_} _.
Arguments e_order {_} _.

Section executor.
Context {Mem : Type}.
Implicit Types e : Executor Mem.

Definition at_ e (i : nat) : position := t_pc (e_heap e i).

Definition with_heap (h : heap) e : Executor Mem :=
  mkExecutor h (e_executable e) (e_tasks e) (e_nodes e) (e_err e) (e_call e) (e_memory e) (e_order e).
Definition with_executable (q : list nat) e : Executor Mem :=
  mkExecutor (e_heap e) q (e_tasks e) (e_nodes e) (e_err e) (e_call e) (e_memory e) (e_order e).
Definition with_nodes (n : gmap bytes nat) e : Executor Mem :=
  mkExecutor (e_heap e) (e_executable e) (e_tasks e) n (e_err e) (e_call e) (e_memory e) (e_order e).
Definition with_call (c : option call) e : Executor Mem :=
  mkExecutor (e_heap e) (e_executable e) (e_tasks e) (e_nodes e) (e_err e) c (e_memory e) (e_order e).
Definition with_err (x : error) e : Executor Mem :=
  mkExecutor (e_heap e) (e_executable e) (e_tasks e) (e_nodes e)
    (match e_err e with None => Some x | Some y => Some y end) (e_call e) (e_memory e) (e_order e).

(** [e.executable <- t]; the channel has room for every task. *)
Definition send (t : nat) e : Executor Mem := with_executable (e_executable e ++ [t]) e.

Definition NewExecutor (memory : Mem) : Executor Mem :=
  mkExecutor (fun _ => new_task 0) [] 0 ∅ None None memory [].

Definition Stop e : Executor Mem := with_err ErrStopped e.

(** ** Run *)

(** Up to the loop. *)
Definition Run_new (maxDependencies : Z) (keys : list (bytes * Z)) e : Executor Mem :=
  let id := e_tasks e in
  mkExecutor (upd id (fun _ => new_task maxDependencies) (e_heap e)) (e_executable e) (S id) (e_nodes e)
    (e_err e) (Some (mkCall id keys ∅)) (e_memory e) (e_order e).

(** The tasks an exclusive user blocks on besides [lt]. *)
Definition other_readers (id : nat) (lt : task) : gset nat := t_readers lt ∖ {[id]}.

(** One round of the loop, for the key [k] with permissions [v]. *)
Definition Run_key (k : bytes) (v : Z) (c : call) e : Executor Mem :=
  let id := c_id c in
  match e_nodes e !! k with
  | None => with_call (Some c) (with_nodes (<[k := id]> (e_nodes e)) e)
  | Some lt =>
      let '(dependencies, e) :=
        if decide (v = Read) then
          (c_dependencies c,
           with_heap (upd lt (with_readers (fun s => {[id]} ∪ s))
                       (upd id (with_reading (fun s => {[lt]} ∪ s)) (e_heap e))) e)
        else
          let rts := other_readers id (e_heap e lt) in
          (c_dependencies c ∪ rts,
           with_nodes (<[k := id]> (e_nodes e))
             (with_heap (upd_all rts (with_blocked (fun s => {[id]} ∪ s)) (e_heap e)) e)) in
      if t_executed (e_heap e lt)
      then with_call (Some (mkCall id (c_keys c) dependencies)) e
      else with_call (Some (mkCall id (c_keys c) ({[lt]} ∪ dependencies)))
             (with_heap (upd lt (with_blocked (fun s => {[id]} ∪ s)) (e_heap e)) e)
  end.

(** After the loop. *)
Definition Run_adjust (maxDependencies : Z) (c : call) e : Executor Mem :=
  let id := c_id c in
  let difference := maxDependencies - Z.of_nat (size (c_dependencies c)) in
  let e := with_call None (with_heap (upd id (dependencies_Add (- difference)) (e_heap e)) e) in
  if decide (0 < t_dependencies (e_heap e id)) then e else send id e.

(** ** runTask *)

(** A worker takes the task, the first of the channel. *)
Definition runTask_take (t : nat) (rest : list nat) e : Executor Mem :=
  with_executable rest (with_heap (upd t (with_pc Taken) (e_heap e)) e).

(** It looks at [err]. *)
Definition runTask_check (t : nat) e : Executor Mem :=
  let p := match e_err e with None => Running | Some _ => Clearing end in
  with_heap (upd t (with_pc p) (e_heap e)) e.

Definition runTask_f (f : Mem -> result Mem) (t : nat) e : Executor Mem :=
  let e := with_heap (upd t (with_pc Clearing) (e_heap e)) e in
  match f (e_memory e) with
  | Err err => with_err err e
  | Ok memory =>
      mkExecutor (e_heap e) (e_executable e) (e_tasks e) (e_nodes e) (e_err e) (e_call e) memory
        (e_order e ++ [t])
  end.

Definition runTask_clear (t rt : nat) e : Executor Mem :=
  with_heap (upd t (with_reading (fun s => s ∖ {[rt]}))
              (upd rt (with_readers (fun s => s ∖ {[t]})) (e_heap e))) e.

Definition runTask_lock (t : nat) e : Executor Mem := with_heap (upd t (with_pc Notifying) (e_heap e)) e.

(** [t.blocked] is dropped after its loop; an entry that has been visited is
    removed here. *)
Definition runTask_notify (t bt : nat) e : Executor Mem :=
  let e := with_heap (upd bt (dependencies_Add (-1))
                       (upd t (with_blocked (fun s => s ∖ {[bt]})) (e_heap e))) e in
  if decide (0 < t_dependencies (e_heap e bt)) then e else send bt e.

Definition runTask_done (t : nat) e : Executor Mem := with_heap (upd t (with_pc Done) (e_heap e)) e.

(** ** Executions

    [items] tasks are run, the task [i] with the keys [keys i] and the
    function [f i], on [concurrency] workers. *)

Context (items concurrency : nat) (maxDependencies : Z).
Context (keys : nat -> gmap bytes Z) (f : nat -> Mem -> result Mem).

(** The workers that are not waiting for a task. *)
Definition busy e : list nat :=
  filter (fun i => at_ e i <> Waiting /\ at_ e i <> Done) (seq 0 (e_tasks e)).

Inductive step e : Executor Mem -> Prop :=
| step_new ks :
    e_call e = None -> (e_tasks e < items)%nat -> ks ≡ₚ map_to_list (keys (e_tasks e)) ->
    step e (Run_new maxDependencies ks e)
| step_key id k v ks deps :
    e_call e = Some (mkCall id ((k, v) :: ks) deps) ->
    (forall lt, e_nodes e !! k = Some lt -> t_locked (e_heap e lt) = false /\
       (v <> Read -> forall rt, rt ∈ other_readers id (e_heap e lt) -> t_locked (e_heap e rt) = false)) ->
    step e (Run_key k v (mkCall id ks deps) e)
| step_adjust id deps :
    e_call e = Some (mkCall id [] deps) -> step e (Run_adjust maxDependencies (mkCall id [] deps) e)
| step_take t rest :
    e_executable e = t :: rest -> (length (busy e) < concurrency)%nat -> step e (runTask_take t rest e)
| step_check t : at_ e t = Taken -> step e (runTask_check t e)
| step_f t : at_ e t = Running -> step e (runTask_f (f t) t e)
| step_clear t rt :
    at_ e t = Clearing -> rt ∈ t_reading (e_heap e t) -> t_locked (e_heap e rt) = false ->
    step e (runTask_clear t rt e)
| step_lock t : at_ e t = Clearing -> t_reading (e_heap e t) = ∅ -> step e (runTask_lock t e)
| step_notify t bt :
    at_ e t = Notifying -> bt ∈ t_blocked (e_heap e t) -> step e (runTask_notify t bt e)
| step_done t : at_ e t = Notifying -> t_blocked (e_heap e t) = ∅ -> step e (runTask_done t e).

(** ** Schedules

    The same steps by name, so that an execution can be computed. *)

Inductive move :=
  | MNew | MKey | MAdjust | MTake | MCheck (t : nat) | MF (t : nat) | MClear (t rt : nat) | MLock (t : nat)
  | MNotify (t bt : nat) | MDone (t : nat).

Definition free e (i : nat) : bool := negb (t_locked (e_heap e i)).

Definition key_free e (id : nat) (k : bytes) : bool :=
  match e_nodes e !! k with
  | None => true
  | Some lt => free e lt && forallb (free e) (elements (other_readers id (e_heap e lt)))
  end.

Definition perform (m : move) e : option (Executor Mem) :=
  match m, e_call e, e_executable e with
  | MNew, None, _ =>
      if decide (e_tasks e < items)%nat
      then Some (Run_new maxDependencies (map_to_list (keys (e_tasks e))) e) else None
  | MKey, Some (mkCall id ((k, v) :: ks) deps), _ =>
      if key_free e id k then Some (Run_key k v (mkCall id ks deps) e) else None
  | MAdjust, Some (mkCall id [] deps), _ => Some (Run_adjust maxDependencies (mkCall id [] deps) e)
  | MTake, _, t :: rest =>
      if decide (length (busy e) < concurrency)%nat then Some (runTask_take t rest e) else None
  | MCheck t, _, _ => if decide (at_ e t = Taken) then Some (runTask_check t e) else None
  | MF t, _, _ => if decide (at_ e t = Running) then Some (runTask_f (f t) t e) else None
  | MClear t rt, _, _ =>
      if decide (at_ e t = Clearing /\ rt ∈ t_reading (e_heap e t) /\ t_locked (e_heap e rt) = false)
      then Some (runTask_clear t rt e) else None
  | MLock t, _, _ =>
      if decide (at_ e t = Clearing /\ t_reading (e_heap e t) = ∅) then Some (runTask_lock t e) else None
  | MNotify t bt, _, _ =>
      if decide (at_ e t = Notifying /\ bt ∈ t_blocked (e_heap e t)) then Some (runTask_notify t bt e) else None
  | MDone t, _, _ =>
      if decide (at_ e t = Notifying /\ t_blocked (e_heap e t) = ∅) then Some (runTask_done t e) else None
  | _, _, _ => None
  end.

Fixpoint perform_all (ms : list move) e : option (Executor Mem) :=
  match ms with
  | [] => Some e
  | m :: ms => match perform m e with Some e => perform_all ms e | None => None end
  end.

Lemma key_free_spec e id k lt :
  key_free e id k = true -> e_nodes e !! k = Some lt ->
  t_locked (e_heap e lt) = false /\
  forall rt, rt ∈ other_readers id (e_heap e lt) -> t_locked (e_heap e rt) = false.
Proof.
  unfold key_free, free. intros Hf Hlt. rewrite Hlt in Hf. apply andb_true_iff in Hf as [Hl Hr].
  split; [by apply negb_true_iff|]. intros rt Hrt. apply negb_true_iff.
  rewrite forallb_forall in Hr. apply (Hr rt), list_elem_of_In. by apply elem_of_elements.
Qed.

Lemma perform_step m e e' : perform m e = Some e' -> step e e'.
Proof.
  destruct m as [| | | |t|t|t rt|t|t bt|t]; cbn [perform]; try (case_decide as Hd; [|done]; intros [= <-]).
  - destruct (e_call e) eqn:Hc; [done|]. case_decide; [|done]. intros [= <-]. by constructor.
  - destruct (e_call e) as [[id [|[k v] ks] deps]|] eqn:Hc; [done| |done].
    destruct (key_free e id k) eqn:Hf; [|done]. intros [= <-]. constructor; [done|].
    intros lt Hlt. destruct (key_free_spec e id k lt Hf Hlt) as [A B]. split; [done|]. intros _. exact B.
  - destruct (e_call e) as [[id [|[k v] ks] deps]|] eqn:Hc; [|done..]. intros [= <-]. by constructor.
  - destruct (e_executable e) as [|t rest] eqn:Hq; [by destruct (e_call e)|].
    assert (Hm : (if decide (length (busy e) < concurrency)%nat then Some (runTask_take t rest e) else None) = Some e' ->
      step e e') by (case_decide; [intros [= <-]; by constructor|done]).
    by destruct (e_call e).
  - by constructor.
  - by constructor.
  - destruct Hd as (A & B & C). by constructor.
  - destruct Hd as (A & B). by constructor.
  - destruct Hd as (A & B). by constructor.
  - destruct Hd as (A & B). by constructor.
Qed.

Lemma perform_steps ms : forall e e', perform_all ms e = Some e' -> rtc step e e'.
Proof.
  induction ms as [|m ms IH]; intros e e'; cbn [perform_all]; [by intros [= <-]|].
  destruct (perform m e) as [e1|] eqn:Hm; [|done]. intros H. apply (rtc_l _ _ e1); [by apply (perform_step m)|by apply IH].
Qed.

(** [Wait] returns when every task has been run: what it returns. *)
Definition Wait e : option (option error) :=
  if decide (e_call e = None /\ e_tasks e = items /\ forallb (fun i => t_executed (e_heap e i)) (seq 0 items))
  then Some (e_err e) else None.
End executor.
