(* ===== verification/ExecutorInv.v ===== *)
(** * The order the executor keeps

    The invariant of the executions of Executor.v: the blocked sets form an
    acyclic graph whose incoming edges the counter of a task counts, and of
    two tasks that use a key, not both to read it, the earlier has run or the
    later waits for it ([covered]).  Every step preserves it. *)

From stdpp Require Import relations.
From S2P Require Import Prelude GoErrors Permissions Executor.
#[local] Open Scope nat_scope.

(** ** Positions in order *)

Definition rank (p : position) : nat :=
  match p with Waiting => 0 | Taken => 1 | Running => 2 | Clearing => 3 | Notifying => 4 | Done => 5 end.

Lemma rank_locked t : t_locked t = false -> rank (t_pc t) <> 4.
Proof. unfold t_locked. by destruct (t_pc t). Qed.

Lemma rank_executed t : t_executed t = true <-> rank (t_pc t) = 5.
Proof. unfold t_executed. by destruct (t_pc t). Qed.

Lemma rank_pos p q : rank p = rank q -> p = q.
Proof. by destruct p, q. Qed.

Section graph.
Context {Mem : Type}.
Implicit Types e : Executor Mem.

Definition level e (i : nat) : nat := rank (at_ e i).

(** [b] waits for [a]. *)
Definition edge e (a b : nat) : Prop := b ∈ t_blocked (e_heap e a).

Definition covered e (a b : nat) : Prop := 3 <= level e a \/ tc (edge e) a b.

Definition called e (b : nat) : Prop := exists c, e_call e = Some c /\ c_id c = b.

#[export] Instance called_dec e b : Decision (called e b).
Proof.
  destruct (e_call e) as [c|] eqn:Hc.
  - destruct (decide (c_id c = b)) as [Hb|Hb]; [left; by exists c|right]. intros (c' & Hc' & Hb'). congruence.
  - right. intros (c' & Hc' & _). congruence.
Defined.

Definition incoming e (b : nat) : gset nat :=
  filter (fun d => b ∈ t_blocked (e_heap e d)) (set_seq 0 b).

Lemma incoming_spec e d b : d ∈ incoming e b <-> d < b /\ edge e d b.
Proof. unfold incoming. rewrite elem_of_filter, elem_of_set_seq. unfold edge. intuition lia. Qed.

Lemma incoming_ext e e' b : (forall d, edge e d b <-> edge e' d b) -> incoming e b = incoming e' b.
Proof. intros H. apply set_eq. intros d. rewrite !incoming_spec. by rewrite H. Qed.

Lemma covered_edge e a b : edge e a b -> covered e a b.
Proof. intros. right. by constructor. Qed.

End graph.

Section invariant.
Context {Mem : Type} (items : nat) (maxDependencies : Z) (keys : nat -> gmap bytes Z).
Implicit Types e : Executor Mem.

(** [a] uses [k] with permissions [v], and [Run] has visited it. *)
Definition visited e (k : bytes) (a : nat) (v : Z) : Prop :=
  a < e_tasks e /\ keys a !! k = Some v /\ forall c, e_call e = Some c -> c_id c = a -> k ∉ (c_keys c).*1.

(** What the counter of a task holds besides its incoming edges, while [Run]
    sets it up. *)
Definition slack e (b : nat) : Z :=
  match e_call e with
  | Some c => if decide (c_id c = b) then maxDependencies - Z.of_nat (size (c_dependencies c)) else 0
  | None => 0
  end%Z.

Record call_ok e (c : call) : Prop := {
  co_id : S (c_id c) = e_tasks e;
  co_nodup : NoDup (c_keys c).*1;
  co_keys k v : (k, v) ∈ c_keys c -> keys (c_id c) !! k = Some v;
  co_below d : d ∈ c_dependencies c -> d < c_id c /\ (edge e d (c_id c) \/ 4 <= level e d);
  co_edge d : edge e d (c_id c) -> d ∈ c_dependencies c;
}.

(** [l] is the task [nodes] holds for [k]. *)
Definition last_ok e (k : bytes) (l : nat) : Prop :=
  (exists v, visited e k l v) /\
  forall a v, visited e k a v ->
    a < l /\ covered e a l \/ a = l \/ v = Read /\ (a ∈ t_readers (e_heap e l) \/ 3 <= level e a).

Record Inv e : Prop := {
  inv_edge a b : edge e a b -> a < b < e_tasks e;
  inv_fresh i : 1 <= level e i -> i < e_tasks e;
  inv_items : e_tasks e <= items;
  inv_call c : e_call e = Some c -> call_ok e c;
  inv_count b : b < e_tasks e ->
    t_dependencies (e_heap e b) = (Z.of_nat (size (incoming e b)) + slack e b)%Z;
  inv_ready b : b ∈ e_executable e \/ 1 <= level e b -> b < e_tasks e /\ ~ called e b /\ forall d, ~ edge e d b;
  inv_queue : NoDup (e_executable e);
  inv_queued b : b ∈ e_executable e -> level e b = 0;
  inv_live b : b < e_tasks e -> ~ called e b -> (forall d, ~ edge e d b) -> b ∈ e_executable e \/ 1 <= level e b;
  inv_readers r l : r ∈ t_readers (e_heap e l) <-> l ∈ t_reading (e_heap e r);
  inv_reading r l : l ∈ t_reading (e_heap e r) -> r < e_tasks e /\ l < e_tasks e /\ level e r <= 3;
  inv_blocked d : level e d = 5 -> t_blocked (e_heap e d) = ∅;
  inv_none k : e_nodes e !! k = None -> forall a v, ~ visited e k a v;
  inv_last k l : e_nodes e !! k = Some l -> last_ok e k l;
  inv_order a b k va vb : a < b -> visited e k a va -> visited e k b vb -> ~ (va = Read /\ vb = Read) ->
    covered e a b;
}.

End invariant.
Arguments inv_edge {_ _ _ _ _} _.
Arguments inv_fresh {_ _ _ _ _} _.
Arguments inv_items {_ _ _ _ _} _.
Arguments inv_call {_ _ _ _ _} _.
Arguments inv_count {_ _ _ _ _} _.
Arguments inv_ready {_ _ _ _ _} _.
Arguments inv_queue {_ _ _ _ _} _.
Arguments inv_queued {_ _ _ _ _} _.
Arguments inv_live {_ _ _ _ _} _.
Arguments inv_readers {_ _ _ _ _} _.
Arguments inv_reading {_ _ _ _ _} _.
Arguments inv_blocked {_ _ _ _ _} _.
Arguments inv_none {_ _ _ _ _} _.
Arguments inv_last {_ _ _ _ _} _.
Arguments inv_order {_ _ _ _ _} _.

Section lemmas.
Context {Mem : Type} {items : nat} {maxDependencies : Z} {keys : nat -> gmap bytes Z}.
Implicit Types e : Executor Mem.
#[local] Abbreviation Inv := (Inv items maxDependencies keys).
#[local] Abbreviation visited := (visited keys).
#[local] Abbreviation last_ok := (last_ok keys).
#[local] Abbreviation call_ok := (call_ok keys).
#[local] Abbreviation slack := (slack maxDependencies).

(** ** The graph *)

Lemma incoming_nil e b : Inv e -> size (incoming e b) = 0 <-> forall d, ~ edge e d b.
Proof.
  intros I. rewrite size_empty_iff. split; intros H d.
  - intros He. apply (not_elem_of_empty (C := gset nat) d), H, incoming_spec.
    split; [apply (inv_edge I) in He; lia|done].
  - split; [|by intros ?%not_elem_of_empty]. intros [_ He]%incoming_spec. destruct (H d He).
Qed.

Lemma edge_waits e a b : Inv e -> edge e a b -> level e b = 0.
Proof.
  intros I He. destruct (decide (level e b = 0)) as [|Hn]; [done|].
  destruct (inv_ready I b) as (_ & _ & Hb); [right; lia|]. destruct (Hb a He).
Qed.

Lemma covered_started e a b : Inv e -> covered e a b -> 1 <= level e b \/ b ∈ e_executable e -> 3 <= level e a.
Proof.
  intros I [Ha|Ht] Hb; [done|]. exfalso.
  destruct (inv_ready I b) as (_ & _ & Hn); [tauto|].
  induction Ht as [x y He|x y z He _ IH]; [exact (Hn x He)|by apply IH].
Qed.

Lemma covered_trans e a b c : Inv e -> covered e a b -> covered e b c -> covered e a c.
Proof.
  intros I [Ha|Hab] Hbc; [by left|]. destruct Hbc as [Hb|Hbc]; [|right; by transitivity b].
  left. apply (covered_started e a b I); [by right|left; lia].
Qed.

(** What is covered stays so when edges go only from tasks that have run. *)
Lemma covered_mono e e' a b :
  Inv e -> (forall i, level e i <= level e' i) ->
  (forall x y, edge e x y -> edge e' x y \/ 3 <= level e x) -> covered e a b -> covered e' a b.
Proof.
  intros I Hl He [Ha|Ht]; [left; specialize (Hl a); lia|].
  enough (3 <= level e a \/ tc (edge e') a b) as [Ha|H]; [left; specialize (Hl a); lia|by right|].
  induction Ht as [x y Hxy|x y z Hxy _ IH].
  - destruct (He _ _ Hxy); [right; by constructor|by left].
  - pose proof (edge_waits _ _ _ I Hxy) as Hy. destruct IH as [IH|IH]; [lia|].
    destruct (He _ _ Hxy) as [H|H]; [right; by apply (tc_l _ _ y)|by left].
Qed.

(** ** A step of a worker *)

(** What such a step leaves alone and what it may change. *)
Record quiet e e' : Prop := {
  q_tasks : e_tasks e' = e_tasks e;
  q_nodes : e_nodes e' = e_nodes e;
  q_call : e_call e' = e_call e;
  q_level i : level e i <= level e' i;
  q_new a b : edge e' a b -> edge e a b;
  q_old a b : edge e a b -> edge e' a b \/ 4 <= level e a;
  q_readers r l : r ∈ t_readers (e_heap e l) -> r ∈ t_readers (e_heap e' l) \/ 3 <= level e' r;
}.

Section quiet.
Context (e e' : Executor Mem) (I : Inv e) (Q : quiet e e').

Lemma quiet_visited k a v : visited e' k a v <-> visited e k a v.
Proof. unfold visited. by rewrite (q_tasks _ _ Q), (q_call _ _ Q). Qed.

Lemma quiet_called b : called e' b <-> called e b.
Proof. unfold called. by rewrite (q_call _ _ Q). Qed.

Lemma quiet_covered a b : covered e a b -> covered e' a b.
Proof.
  apply covered_mono; [done|apply Q|]. intros x y [H|H]%(q_old _ _ Q); [by left|right; lia].
Qed.

Lemma quiet_call_ok c : e_call e' = Some c -> call_ok e' c.
Proof.
  rewrite (q_call _ _ Q). intros Hc. destruct (inv_call I _ Hc) as [A B C D E].
  split; [by rewrite (q_tasks _ _ Q)|done|done| |].
  - intros d Hd. destruct (D d Hd) as [Hlt [He|Hl]]; (split; [done|]).
    + destruct (q_old _ _ Q _ _ He) as [H|H]; [by left|right]. pose proof (q_level _ _ Q d). lia.
    + right. pose proof (q_level _ _ Q d). lia.
  - intros d Hd. by apply E, Q.
Qed.

Lemma quiet_last k l : e_nodes e' !! k = Some l -> last_ok e' k l.
Proof.
  rewrite (q_nodes _ _ Q). intros Hk. destruct (inv_last I _ _ Hk) as [[v Hv] Ha].
  split; [exists v; by apply quiet_visited|]. intros a w Hw%quiet_visited.
  destruct (Ha a w Hw) as [[Hlt Hc]|[->|[-> Hr]]].
  - left. split; [done|by apply quiet_covered].
  - by right; left.
  - right; right. split; [done|]. destruct Hr as [Hr|Hr]; [by apply (q_readers _ _ Q)|].
    right. pose proof (q_level _ _ Q a). lia.
Qed.

(** The rest of the invariant is about the tasks' own fields. *)
Lemma quiet_inv :
  (forall b, b < e_tasks e -> t_dependencies (e_heap e' b) = (Z.of_nat (size (incoming e' b)) + slack e b)%Z) ->
  (forall b, b ∈ e_executable e' \/ 1 <= level e' b -> b < e_tasks e /\ ~ called e b /\ forall d, ~ edge e' d b) ->
  NoDup (e_executable e') -> (forall b, b ∈ e_executable e' -> level e' b = 0) ->
  (forall b, b < e_tasks e -> ~ called e b -> (forall d, ~ edge e' d b) ->
     b ∈ e_executable e' \/ 1 <= level e' b) ->
  (forall r l, r ∈ t_readers (e_heap e' l) <-> l ∈ t_reading (e_heap e' r)) ->
  (forall r l, l ∈ t_reading (e_heap e' r) -> l ∈ t_reading (e_heap e r) /\ level e' r <= 3) ->
  (forall d, level e' d = 5 -> t_blocked (e_heap e' d) = ∅) -> Inv e'.
Proof.
  intros Hcount Hready Hnd Hq Hlive Hrs Hrd Hbl.
  split; try rewrite (q_tasks _ _ Q); try setoid_rewrite quiet_called; try done.
  - intros a b He. by apply (inv_edge I), Q.
  - intros i Hi. apply (Hready i). by right.
  - apply (inv_items I).
  - apply quiet_call_ok.
  - intros b Hb. rewrite (Hcount b Hb). unfold slack. by rewrite (q_call _ _ Q).
  - intros r l Hl. destruct (Hrd r l Hl) as [H H2]. destruct (inv_reading I r l H) as (A & B & _). done.
  - rewrite (q_nodes _ _ Q). intros k Hk a v Hv%quiet_visited. exact (inv_none I k Hk a v Hv).
  - apply quiet_last.
  - intros a b k va vb Hab Ha%quiet_visited Hb%quiet_visited Hr.
    by apply quiet_covered, (inv_order I _ _ k va vb).
Qed.
End quiet.

(** A step that moves [t] to the position [p], and may take it off the
    channel. *)
Section move.
Context (e e' : Executor Mem) (t : nat) (p : position) (I : Inv e).
Hypothesis Hheap : e_heap e' = upd t (with_pc p) (e_heap e).
Hypothesis Htasks : e_tasks e' = e_tasks e.
Hypothesis Hnodes : e_nodes e' = e_nodes e.
Hypothesis Hcall : e_call e' = e_call e.
Hypothesis Hrank : level e t <= rank p /\ 1 <= rank p.
Hypothesis Hqueue :
  e_executable e' = e_executable e /\ 1 <= level e t \/ e_executable e = t :: e_executable e'.
Hypothesis Hreading : 4 <= rank p -> t_reading (e_heap e t) = ∅.
Hypothesis Hblocked : rank p = 5 -> t_blocked (e_heap e t) = ∅.

Lemma move_level i : level e' i = if decide (i = t) then rank p else level e i.
Proof. unfold level, at_. rewrite Hheap. unfold upd. by case_decide. Qed.

Lemma move_fields i :
  t_blocked (e_heap e' i) = t_blocked (e_heap e i) /\ t_readers (e_heap e' i) = t_readers (e_heap e i) /\
  t_reading (e_heap e' i) = t_reading (e_heap e i) /\
  t_dependencies (e_heap e' i) = t_dependencies (e_heap e i).
Proof. rewrite Hheap. unfold upd. by case_decide. Qed.

Lemma move_edge a b : edge e' a b <-> edge e a b.
Proof. unfold edge. by destruct (move_fields a) as [-> _]. Qed.

Lemma move_ready : t ∈ e_executable e \/ 1 <= level e t.
Proof. destruct Hqueue as [[_ H]| ->]; [by right|left; left]. Qed.

Lemma move_quiet : quiet e e'.
Proof.
  split; try done.
  - intros i. rewrite move_level. case_decide; [subst; lia|done].
  - intros a b. by rewrite move_edge.
  - intros a b. rewrite move_edge. by left.
  - intros r l. destruct (move_fields l) as (_ & -> & _). by left.
Qed.

Lemma move_inv : Inv e'.
Proof.
  pose proof (inv_queue I) as Hnd.
  assert (Hsub : forall b, b ∈ e_executable e' -> b ∈ e_executable e /\ b <> t).
  { intros b Hb. destruct Hqueue as [[Hq Ht]|Hq].
    - rewrite Hq in Hb. split; [done|]. intros ->. pose proof (inv_queued I _ Hb). lia.
    - rewrite Hq in Hnd |- *. apply list.NoDup_cons in Hnd as [Hn _]. split; [by right|by intros ->]. }
  apply (quiet_inv e e' I move_quiet); try setoid_rewrite move_edge; try setoid_rewrite move_level.
  - intros b Hb. destruct (move_fields b) as (_ & _ & _ & ->).
    rewrite (incoming_ext e' e b) by (intros; apply move_edge). by apply (inv_count I).
  - intros b Hb. apply (inv_ready I). case_decide; [subst; apply move_ready|].
    destruct Hb as [Hb|Hb]; [left; by apply Hsub|by right].
  - destruct Hqueue as [[-> _]|Hq]; [done|]. rewrite Hq in Hnd. by apply list.NoDup_cons in Hnd as [_ ?].
  - intros b Hb. destruct (Hsub b Hb) as [Hq Hn]. rewrite decide_False by done. by apply (inv_queued I).
  - intros b Hb Hc Hd. case_decide; [by right; lia|].
    destruct (inv_live I b Hb Hc Hd) as [Hq|Hl]; [left|by right].
    destruct Hqueue as [[-> _]|Hq']; [done|]. rewrite Hq' in Hq. by apply elem_of_cons in Hq as [|].
  - intros r l. destruct (move_fields l) as (_ & -> & _), (move_fields r) as (_ & _ & -> & _).
    apply (inv_readers I).
  - intros r l. destruct (move_fields r) as (_ & _ & -> & _). intros Hl. split; [done|].
    case_decide as Ht; [|by apply (inv_reading I) in Hl as (_ & _ & ?)].
    subst r. destruct (decide (4 <= rank p)) as [H3|]; [|lia]. rewrite (Hreading H3) in Hl. by apply not_elem_of_empty in Hl.
  - intros d. destruct (move_fields d) as (-> & _). case_decide; [subst; apply Hblocked|apply (inv_blocked I)].
Qed.
End move.
End lemmas.
