(* ===== verification/ExecutorSteps.v ===== *)
(** * Every step keeps the executor's order

    Preservation of the invariant of ExecutorInv.v by the steps of Executor.v,
    one lemma per step. *)

From stdpp Require Import relations.
From S2P Require Import Prelude GoErrors Permissions Executor ExecutorInv.
#[local] Open Scope nat_scope.

Section steps.
Context {Mem : Type} (items concurrency : nat) (maxDependencies : Z).
Context (keys : nat -> gmap bytes Z) (f : nat -> Mem -> result Mem).
Context (Hmax : (Z.of_nat items <= maxDependencies)%Z).
Implicit Types e : Executor Mem.
#[local] Abbreviation Inv := (ExecutorInv.Inv items maxDependencies keys).
#[local] Abbreviation step := (Executor.step items concurrency maxDependencies keys f).

(** ** The workers *)

Lemma started e t : Inv e -> 1 <= level e t -> t < e_tasks e /\ ~ called e t /\ forall d, ~ edge e d t.
Proof. intros I Ht. apply (inv_ready I). by right. Qed.

Lemma take_inv e t rest : Inv e -> e_executable e = t :: rest -> Inv (runTask_take t rest e).
Proof.
  intros I Hq. assert (Ht : level e t = 0) by (apply (inv_queued I); rewrite Hq; left).
  apply (move_inv e _ t Taken I); cbn [rank]; try done; try lia. by right.
Qed.

Lemma check_inv e t : Inv e -> at_ e t = Taken -> Inv (runTask_check t e).
Proof.
  intros I Ht. assert (Hl : level e t = 1) by (unfold level; by rewrite Ht).
  apply (move_inv e _ t (match e_err e with None => Running | Some _ => Clearing end) I); try done;
    try (destruct (e_err e); cbn [rank]; lia).
  left. split; [done|lia].
Qed.

Lemma f_inv e t : Inv e -> at_ e t = Running -> Inv (runTask_f (f t) t e).
Proof.
  intros I Ht. assert (Hl : level e t = 2) by (unfold level; by rewrite Ht).
  apply (move_inv e _ t Clearing I);
    try (unfold runTask_f; by destruct (f t (e_memory (with_heap _ e)))); cbn [rank]; try lia.
  left. split; [unfold runTask_f; by destruct (f t (e_memory (with_heap _ e)))|lia].
Qed.

Lemma lock_inv e t : Inv e -> at_ e t = Clearing -> t_reading (e_heap e t) = ∅ -> Inv (runTask_lock t e).
Proof.
  intros I Ht Hr. assert (Hl : level e t = 3) by (unfold level; by rewrite Ht).
  apply (move_inv e _ t Notifying I); cbn [rank]; try done; try lia. left. split; [done|lia].
Qed.

Lemma done_inv e t : Inv e -> at_ e t = Notifying -> t_blocked (e_heap e t) = ∅ -> Inv (runTask_done t e).
Proof.
  intros I Ht Hb. assert (Hl : level e t = 4) by (unfold level; by rewrite Ht).
  apply (move_inv e _ t Done I); cbn [rank]; try done; try lia; [left; split; [done|lia]|].
  intros _. apply set_eq. intros x. split; [|by intros ?%not_elem_of_empty]. intros Hx.
  destruct (inv_reading I t x Hx) as (_ & _ & H). lia.
Qed.

Lemma clear_inv e t rt :
  Inv e -> at_ e t = Clearing -> rt ∈ t_reading (e_heap e t) -> Inv (runTask_clear t rt e).
Proof.
  intros I Ht Hr. set (e' := runTask_clear t rt e).
  assert (Hf : forall i, t_pc (e_heap e' i) = t_pc (e_heap e i) /\
      t_blocked (e_heap e' i) = t_blocked (e_heap e i) /\
      t_dependencies (e_heap e' i) = t_dependencies (e_heap e i)).
  { intros i. unfold e', runTask_clear. cbn [e_heap with_heap]. unfold upd. by repeat case_decide. }
  assert (Hl : forall i, level e' i = level e i) by (intros i; unfold level, at_; by destruct (Hf i) as [-> _]).
  assert (He : forall a b, edge e' a b <-> edge e a b)
    by (intros a b; unfold edge; by destruct (Hf a) as (_ & -> & _)).
  assert (Hrs : forall r l, r ∈ t_readers (e_heap e' l) <-> r ∈ t_readers (e_heap e l) /\ ~ (r = t /\ l = rt)).
  { intros r l. unfold e', runTask_clear. cbn [e_heap with_heap]. unfold upd.
    repeat case_decide; subst; cbn [t_readers with_reading with_readers];
      rewrite ?elem_of_difference, ?elem_of_singleton; intuition congruence. }
  assert (Hrd : forall r l, l ∈ t_reading (e_heap e' r) <-> l ∈ t_reading (e_heap e r) /\ ~ (r = t /\ l = rt)).
  { intros r l. unfold e', runTask_clear. cbn [e_heap with_heap]. unfold upd.
    repeat case_decide; subst; cbn [t_reading with_reading with_readers];
      rewrite ?elem_of_difference, ?elem_of_singleton; intuition congruence. }
  apply (quiet_inv e e' I); try setoid_rewrite He; try setoid_rewrite Hl; try apply I.
  - split; try done.
    + intros i. by rewrite Hl.
    + intros a b. by rewrite He.
    + intros a b. rewrite He. by left.
    + intros r l Hin. destruct (decide (r = t /\ l = rt)) as [[-> _]|Hn]; [right|left; by apply Hrs].
      rewrite Hl. unfold level. by rewrite Ht.
  - intros b Hb. destruct (Hf b) as (_ & _ & ->).
    rewrite (incoming_ext e' e b) by (intros; apply He). by apply (inv_count I).
  - intros r l. rewrite Hrs, Hrd, (inv_readers I). done.
  - intros r l. rewrite Hrd. intros [H _]. split; [done|]. by apply (inv_reading I r l).
  - intros d. destruct (Hf d) as (_ & -> & _). apply (inv_blocked I).
Qed.

(** The call of [Run] holds back more than it has counted. *)
Lemma slack_pos e c : Inv e -> e_call e = Some c -> (0 < slack maxDependencies e (c_id c))%Z.
Proof.
  intros I Hc. unfold slack. rewrite Hc, decide_True by done.
  destruct (inv_call I c Hc) as [Hid _ _ Hb _]. pose proof (inv_items I).
  assert (c_dependencies c ⊆ set_seq 0 (c_id c)) as Hsub
    by (intros d Hd; apply elem_of_set_seq; destruct (Hb d Hd); lia).
  apply subseteq_size in Hsub. rewrite size_set_seq in Hsub. lia.
Qed.

Lemma slack_none e b : ~ called e b -> slack maxDependencies e b = 0%Z.
Proof.
  intros Hn. unfold slack. destruct (e_call e) as [c|] eqn:Hc; [|done].
  rewrite decide_False; [done|]. intros Hb. apply Hn. by exists c.
Qed.
(** One edge goes, and the counter of its end with it. *)
Section notify.
Context e (t bt : nat) (I : Inv e) (Ht : at_ e t = Notifying) (Hb : bt ∈ t_blocked (e_heap e t)).
#[local] Abbreviation e' := (runTask_notify t bt e).

Lemma notify_below : t < bt < e_tasks e.
Proof. by apply (inv_edge I). Qed.

Lemma notify_heap i :
  e_heap e' i = upd bt (dependencies_Add (-1)) (upd t (with_blocked (fun s => s ∖ {[bt]})) (e_heap e)) i.
Proof. unfold runTask_notify. cbv zeta. by case_decide. Qed.

Lemma notify_fields i :
  t_pc (e_heap e' i) = t_pc (e_heap e i) /\ t_readers (e_heap e' i) = t_readers (e_heap e i) /\
  t_reading (e_heap e' i) = t_reading (e_heap e i) /\
  t_dependencies (e_heap e' i) =
    if decide (i = bt) then (t_dependencies (e_heap e i) - 1)%Z else t_dependencies (e_heap e i).
Proof. rewrite notify_heap. unfold upd. by repeat case_decide. Qed.

Lemma notify_level i : level e' i = level e i.
Proof. unfold level, at_. by destruct (notify_fields i) as [-> _]. Qed.

Lemma notify_edge a b : edge e' a b <-> edge e a b /\ ~ (a = t /\ b = bt).
Proof.
  unfold edge. rewrite notify_heap. unfold upd. repeat case_decide; subst; cbn [t_blocked with_blocked dependencies_Add];
    rewrite ?elem_of_difference, ?elem_of_singleton; intuition congruence.
Qed.

Lemma notify_incoming :
  size (incoming e bt) = S (size (incoming e' bt)) /\ forall b, b <> bt -> incoming e' b = incoming e b.
Proof.
  split.
  - assert (incoming e bt = {[t]} ∪ incoming e' bt) as ->.
    { apply set_eq. intros d. rewrite elem_of_union, elem_of_singleton, !incoming_spec, notify_edge.
      pose proof notify_below. destruct (decide (d = t)) as [->|]; [|intuition congruence].
      split; [by left|]. intros _. split; [lia|done]. }
    rewrite size_union, size_singleton; [done|]. apply disjoint_singleton_l.
    rewrite incoming_spec, notify_edge. intuition.
  - intros b Hn. apply incoming_ext. intros d. rewrite notify_edge. intuition congruence.
Qed.

Lemma notify_counter : t_dependencies (e_heap e' bt) = (Z.of_nat (size (incoming e' bt)) + slack maxDependencies e bt)%Z.
Proof.
  destruct (notify_fields bt) as (_ & _ & _ & ->). rewrite decide_True by done.
  rewrite (inv_count I) by apply notify_below. destruct notify_incoming as [-> _]. lia.
Qed.

(** [bt] is sent just when that was its last edge and [Run] is through with
    it. *)
Lemma notify_queue :
  (~ called e bt /\ (forall d, ~ edge e' d bt) /\ e_executable e' = e_executable e ++ [bt]) \/
  ((called e bt \/ exists d, edge e' d bt) /\ e_executable e' = e_executable e).
Proof.
  pose proof notify_counter as Hc.
  assert (Hq : e_executable e' = if decide (0 < t_dependencies (e_heap e' bt))%Z then e_executable e
                                 else e_executable e ++ [bt]).
  { unfold runTask_notify. cbv zeta. by repeat case_decide. }
  assert (Hn : forall d, edge e' d bt -> d ∈ incoming e' bt).
  { intros d Hd. apply incoming_spec. split; [|done]. apply notify_edge in Hd as [Hd _].
    apply (inv_edge I) in Hd. lia. }
  rewrite Hq. destruct (decide (called e bt)) as [(c & Hcall & <-)|Hcall].
  - right. split; [left; by exists c|]. pose proof (slack_pos e c I Hcall). rewrite decide_True by lia. done.
  - rewrite (slack_none _ _ Hcall) in Hc. case_decide as Hd.
    + right. split; [right|done]. destruct (set_choose_or_empty (incoming e' bt)) as [[d Hin]|He].
      * exists d. by apply incoming_spec in Hin as [_ ?].
      * apply size_empty_iff in He. lia.
    + left. split; [done|]. split; [|done]. intros d Hin%Hn.
      assert (size (incoming e' bt) <> 0); [|lia]. intros E%size_empty_iff. apply E in Hin. by apply not_elem_of_empty in Hin.
Qed.

Lemma notify_quiet : quiet e e'.
Proof.
  split; try (unfold runTask_notify; cbv zeta; by case_decide).
  - intros i. by rewrite notify_level.
  - intros a b Hab. by apply notify_edge in Hab as [? _].
  - intros a b Hab. destruct (decide (a = t /\ b = bt)) as [[-> _]|Hn].
    + right. unfold level. by rewrite Ht.
    + left. by apply notify_edge.
  - intros r l. destruct (notify_fields l) as (_ & -> & _). by left.
Qed.

Lemma notify_inv : Inv e'.
Proof.
  assert (Hw : level e bt = 0) by (by apply (edge_waits e t bt I)).
  assert (Hq0 : bt ∉ e_executable e).
  { intros Hin. destruct (inv_ready I bt) as (_ & _ & Hn); [by left|]. by apply (Hn t). }
  assert (Hold : forall b, b ∈ e_executable e \/ 1 <= level e b ->
      b < e_tasks e /\ ~ called e b /\ forall d, ~ edge e' d b).
  { intros b (A & B & C)%(inv_ready I). repeat split; [done|done|]. intros d [Hd _]%notify_edge. by apply (C d). }
  apply (quiet_inv e e' I notify_quiet).
  - intros b Hlt. destruct (decide (b = bt)) as [->|Hn]; [apply notify_counter|].
    destruct (notify_fields b) as (_ & _ & _ & ->). rewrite decide_False by done.
    destruct notify_incoming as [_ Hi]. rewrite (Hi b Hn). by apply (inv_count I).
  - intros b. rewrite notify_level. destruct notify_queue as [(A & B & ->)|(_ & ->)]; [|apply Hold].
    rewrite elem_of_app, list_elem_of_singleton. intros [[Hb'| ->]|Hb']; [apply Hold; by left| |apply Hold; by right].
    split; [apply notify_below|done].
  - destruct notify_queue as [(_ & _ & ->)|(_ & ->)]; [|apply (inv_queue I)].
    apply list.NoDup_app. split; [apply (inv_queue I)|]. split; [|apply list.NoDup_singleton].
    intros x Hx ->%list_elem_of_singleton. done.
  - intros b. rewrite notify_level. destruct notify_queue as [(_ & _ & ->)|(_ & ->)]; [|apply (inv_queued I)].
    rewrite elem_of_app, list_elem_of_singleton. intros [Hx| ->]; [by apply (inv_queued I)|done].
  - intros b Hlt Hc Hn. rewrite notify_level. destruct (decide (b = bt)) as [->|Hne].
    + destruct notify_queue as [(_ & _ & ->)|([?|[d Hd]] & _)]; [|done|destruct (Hn d Hd)].
      left. apply elem_of_app. right. by apply list_elem_of_singleton.
    + destruct (inv_live I b Hlt Hc) as [Hq|Hl]; [|left|by right].
      * intros d Hd. apply (Hn d), notify_edge. split; [done|]. by intros [_ ->].
      * destruct notify_queue as [(_ & _ & ->)|(_ & ->)]; [apply elem_of_app; by left|done].
  - intros r l. destruct (notify_fields l) as (_ & -> & _), (notify_fields r) as (_ & _ & -> & _).
    apply (inv_readers I).
  - intros r l. rewrite notify_level. destruct (notify_fields r) as (_ & _ & -> & _). intros Hl.
    split; [done|]. by apply (inv_reading I r l).
  - intros d. rewrite notify_level. intros Hd. apply set_eq. intros b. split; [|by intros ?%not_elem_of_empty].
    intros [Hx _]%notify_edge. unfold edge in Hx. by rewrite (inv_blocked I d Hd) in Hx.
Qed.
End notify.

(** ** Run *)

(** A step of [Run] that leaves the edges and the tasks' positions alone, and
    what [nodes] is about. *)
Section same.
Context e e' (I : Inv e).
Hypothesis Hlevel : forall i, level e' i = level e i.
Hypothesis Hedge : forall a b, edge e' a b <-> edge e a b.
Hypothesis Hvisited : forall k a v, visited keys e' k a v <-> visited keys e k a v.
Hypothesis Hreaders : forall i, t_readers (e_heap e' i) = t_readers (e_heap e i).
Hypothesis Hnodes : e_nodes e' = e_nodes e.

Lemma same_covered a b : covered e a b -> covered e' a b.
Proof.
  apply (covered_mono (items := items) (maxDependencies := maxDependencies) (keys := keys)); [done| |].
  - intros i. by rewrite Hlevel.
  - intros x y. rewrite Hedge. by left.
Qed.

Lemma same_none k : e_nodes e' !! k = None -> forall a v, ~ visited keys e' k a v.
Proof. rewrite Hnodes. intros Hk a v. rewrite Hvisited. by apply (inv_none I). Qed.

Lemma same_last k l : e_nodes e' !! k = Some l -> last_ok keys e' k l.
Proof.
  rewrite Hnodes. intros Hk. destruct (inv_last I _ _ Hk) as [[v Hv] Ha].
  split; [exists v; by apply Hvisited|]. intros a w Hw%Hvisited. rewrite Hreaders, Hlevel.
  destruct (Ha a w Hw) as [[Hlt Hc]|H]; [left|by right]. split; [done|by apply same_covered].
Qed.

Lemma same_order a b k va vb :
  a < b -> visited keys e' k a va -> visited keys e' k b vb -> ~ (va = Read /\ vb = Read) -> covered e' a b.
Proof. rewrite !Hvisited. intros. by apply same_covered, (inv_order I a b k va vb). Qed.
End same.

Section new.
Context e (ks : list (bytes * Z)) (I : Inv e) (Hcall : e_call e = None) (Hitems : e_tasks e < items).
Context (Hks : ks ≡ₚ map_to_list (keys (e_tasks e))).
#[local] Abbreviation id := (e_tasks e).
#[local] Abbreviation e' := (Run_new maxDependencies ks e).

Lemma new_level i : level e' i = level e i.
Proof.
  unfold level at 1, at_. cbn [e_heap Run_new]. unfold upd. case_decide; [|done]. subst i.
  destruct (decide (level e id = 0)) as [->|Hn]; [done|]. pose proof (inv_fresh I id). lia.
Qed.

Lemma new_edge a b : edge e' a b <-> edge e a b.
Proof.
  unfold edge at 1. cbn [e_heap Run_new]. unfold upd. case_decide; [|done]. subst a.
  split; [by intros ?%not_elem_of_empty|]. intros He%(inv_edge I). lia.
Qed.

Lemma new_readers i :
  t_readers (e_heap e' i) = t_readers (e_heap e i) /\ t_reading (e_heap e' i) = t_reading (e_heap e i).
Proof.
  cbn [e_heap Run_new]. unfold upd. case_decide; [|done]. subst i. cbn [t_readers t_reading new_task].
  split; symmetry; apply set_eq; intros x; (split; [|by intros ?%not_elem_of_empty]).
  - intros (_ & H & _)%(inv_readers I)%(inv_reading I). lia.
  - intros (H & _)%(inv_reading I). lia.
Qed.

Lemma new_visited k a v : visited keys e' k a v <-> visited keys e k a v.
Proof.
  unfold visited. cbn [e_tasks e_call Run_new]. rewrite Hcall. split.
  - intros (Ha & Hk & Hc). destruct (decide (a = id)) as [->|Hn].
    + exfalso. apply (Hc _ eq_refl eq_refl). cbn [c_keys]. apply list_elem_of_fmap. exists (k, v).
      split; [done|]. rewrite Hks. by apply elem_of_map_to_list.
    + split; [lia|done].
  - intros (Ha & Hk & _). split; [lia|]. split; [done|]. intros c [= <-] Hc. cbn [c_id] in Hc. lia.
Qed.

Lemma new_inv : Inv e'.
Proof.
  assert (Hc : forall b, b < id -> ~ called e' b) by (intros b Hb (c & [= <-] & Hid); cbn [c_id] in Hid; lia).
  split; try setoid_rewrite new_level; try setoid_rewrite new_edge.
  - intros a b [H1 H2]%(inv_edge I). cbn [e_tasks Run_new]. lia.
  - intros i Hi%(inv_fresh I). cbn [e_tasks Run_new]. lia.
  - done.
  - intros c [= <-]. split; cbn [c_id c_keys c_dependencies]; [done| | | |].
    + rewrite Hks. apply NoDup_fst_map_to_list.
    + intros k v. rewrite Hks. apply elem_of_map_to_list.
    + by intros d ?%not_elem_of_empty.
    + intros d [_ H]%new_edge%(inv_edge I). lia.
  - intros b Hb. rewrite (incoming_ext e' e b) by (intros; apply new_edge). unfold slack.
    cbn [e_heap e_call Run_new c_id]. unfold upd. repeat case_decide; try congruence.
    + subst b. cbn [t_dependencies new_task c_dependencies]. rewrite size_empty.
      assert (size (incoming e id) = 0) as ->; [|lia]. apply (incoming_nil e id I). intros d [_ H]%(inv_edge I). lia.
    + cbn [e_tasks Run_new] in Hb. rewrite (inv_count I) by lia. unfold slack. by rewrite Hcall.
  - intros b Hb. destruct (inv_ready I b Hb) as (Hlt & _ & Hn). cbn [e_tasks Run_new].
    split; [lia|]. by split; [apply Hc|].
  - apply (inv_queue I).
  - apply (inv_queued I).
  - intros b Hb Hn He. apply (inv_live I b); [|intros (c & Hc' & _); congruence|done].
    cbn [e_tasks Run_new] in Hb. destruct (decide (b = id)) as [->|]; [|lia]. destruct Hn. by exists (mkCall id ks ∅).
  - intros r l. destruct (new_readers l) as [-> _], (new_readers r) as [_ ->]. apply (inv_readers I).
  - intros r l. destruct (new_readers r) as [_ ->]. intros (A & B & C)%(inv_reading I). cbn [e_tasks Run_new]. lia.
  - intros d Hd. cbn [e_heap Run_new]. unfold upd. case_decide; [done|by apply (inv_blocked I)].
  - intros k. apply (same_none e e' I new_visited eq_refl).
  - apply (same_last e e' I new_level new_edge new_visited (fun i => proj1 (new_readers i)) eq_refl).
  - apply (same_order e e' I new_level new_edge new_visited).
Qed.
End new.

Section adjust.
Context e (id : nat) (deps : gset nat) (I : Inv e) (Hcall : e_call e = Some (mkCall id [] deps)).
#[local] Abbreviation e' := (Run_adjust maxDependencies (mkCall id [] deps) e).

Lemma adjust_fields i :
  t_pc (e_heap e' i) = t_pc (e_heap e i) /\ t_blocked (e_heap e' i) = t_blocked (e_heap e i) /\
  t_readers (e_heap e' i) = t_readers (e_heap e i) /\ t_reading (e_heap e' i) = t_reading (e_heap e i) /\
  (i <> id -> t_dependencies (e_heap e' i) = t_dependencies (e_heap e i)).
Proof.
  unfold Run_adjust. cbv zeta. case_decide; cbn [e_heap with_heap with_call send with_executable c_id];
    unfold upd; by case_decide.
Qed.

Lemma adjust_id : S id = e_tasks e.
Proof. exact (co_id _ _ _ (inv_call I _ Hcall)). Qed.

Lemma adjust_level i : level e' i = level e i.
Proof. unfold level, at_. by destruct (adjust_fields i) as [-> _]. Qed.

Lemma adjust_edge a b : edge e' a b <-> edge e a b.
Proof. unfold edge. by destruct (adjust_fields a) as (_ & -> & _). Qed.

Lemma adjust_same : e_tasks e' = e_tasks e /\ e_nodes e' = e_nodes e /\ e_call e' = None.
Proof. unfold Run_adjust. cbv zeta. by case_decide. Qed.

Lemma adjust_visited k a v : visited keys e' k a v <-> visited keys e k a v.
Proof.
  unfold visited. destruct adjust_same as (-> & _ & ->). split; intros (A & B & _); (split; [done|]; split; [done|]).
  - intros c. rewrite Hcall. intros [= <-] _. by intros ?%not_elem_of_nil.
  - done.
Qed.

(** The counter is the number of edges; the task is sent if there is none. *)
Lemma adjust_counter : t_dependencies (e_heap e' id) = Z.of_nat (size (incoming e id)).
Proof.
  unfold Run_adjust. cbv zeta. case_decide; cbn [e_heap with_heap with_call send with_executable c_id c_dependencies];
    unfold upd; rewrite decide_True by done; cbn [t_dependencies dependencies_Add];
    (rewrite (inv_count I) by (rewrite <- adjust_id; lia)); unfold slack; rewrite Hcall; cbn [c_id c_dependencies];
    rewrite decide_True by done; lia.
Qed.

Lemma adjust_queue :
  ((forall d, ~ edge e d id) /\ e_executable e' = e_executable e ++ [id]) \/
  ((exists d, edge e d id) /\ e_executable e' = e_executable e).
Proof.
  pose proof adjust_counter as Hc.
  assert (Hq : e_executable e' = if decide (0 < t_dependencies (e_heap e' id))%Z then e_executable e
                                 else e_executable e ++ [id]).
  { unfold Run_adjust. cbv zeta. by repeat case_decide. }
  rewrite Hq. case_decide as Hd.
  - right. split; [|done]. destruct (set_choose_or_empty (incoming e id)) as [[d Hin]|He].
    + exists d. by apply incoming_spec in Hin as [_ ?].
    + apply size_empty_iff in He. lia.
  - left. split; [|done]. apply (incoming_nil e id I). lia.
Qed.

Lemma adjust_inv : Inv e'.
Proof.
  destruct adjust_same as (Ht & Hn & Hc). pose proof adjust_id as Hid.
  assert (Hnc : forall b, ~ called e' b) by (intros b (c & Hc' & _); congruence).
  assert (Hcalled : forall b, called e b <-> b = id).
  { intros b. split; [intros (c & Hc' & <-); rewrite Hcall in Hc'; by injection Hc' as <-|].
    intros ->. by exists (mkCall id [] deps). }
  assert (Hq0 : id ∉ e_executable e).
  { intros Hin. destruct (inv_ready I id) as (_ & Hx & _); [by left|]. by apply Hx, Hcalled. }
  split; rewrite ?Ht; try setoid_rewrite adjust_level; try setoid_rewrite adjust_edge; try apply I.
  - intros c. by rewrite Hc.
  - intros b Hb. rewrite (incoming_ext e' e b) by (intros; apply adjust_edge). unfold slack. rewrite Hc.
    destruct (decide (b = id)) as [->|Hne]; [rewrite adjust_counter; lia|].
    destruct (adjust_fields b) as (_ & _ & _ & _ & ->); [|done]. rewrite (inv_count I) by done.
    rewrite slack_none; [done|]. by rewrite Hcalled.
  - intros b. assert (Hold : b ∈ e_executable e \/ 1 <= level e b -> b < e_tasks e /\ ~ called e' b /\ (forall d, ~ edge e d b)).
    { intros (A & _ & B)%(inv_ready I). by split; [|split; [apply Hnc|]]. }
    destruct adjust_queue as [(A & ->)|(_ & ->)]; [|apply Hold]. rewrite elem_of_app, list_elem_of_singleton.
    intros [[Hb| ->]|Hb]; [apply Hold; by left| |apply Hold; by right]. split; [lia|]. by split; [apply Hnc|].
  - destruct adjust_queue as [(_ & ->)|(_ & ->)]; [|apply (inv_queue I)].
    apply list.NoDup_app. split; [apply (inv_queue I)|]. split; [|apply list.NoDup_singleton].
    by intros x Hx ->%list_elem_of_singleton.
  - intros b. destruct adjust_queue as [(_ & ->)|(_ & ->)]; [|apply (inv_queued I)].
    rewrite elem_of_app, list_elem_of_singleton. intros [Hx| ->]; [by apply (inv_queued I)|].
    destruct (decide (level e id = 0)) as [|Hl]; [done|]. destruct (inv_ready I id) as (_ & Hx & _); [right; lia|].
    destruct Hx. by apply Hcalled.
  - intros b Hb _ He. destruct (decide (b = id)) as [->|Hne].
    + destruct adjust_queue as [(_ & ->)|([d Hd] & _)]; [left|destruct (He d Hd)].
      apply elem_of_app. right. by apply list_elem_of_singleton.
    + destruct (inv_live I b Hb) as [Hq|Hl]; [by rewrite Hcalled|done|left|by right].
      destruct adjust_queue as [(_ & ->)|(_ & ->)]; [apply elem_of_app; by left|done].
  - intros r l. destruct (adjust_fields l) as (_ & _ & -> & _), (adjust_fields r) as (_ & _ & _ & -> & _).
    apply (inv_readers I).
  - intros r l. destruct (adjust_fields r) as (_ & _ & _ & -> & _). apply (inv_reading I).
  - intros d. destruct (adjust_fields d) as (_ & -> & _). apply (inv_blocked I).
  - intros k. apply (same_none e e' I adjust_visited Hn).
  - apply (same_last e e' I adjust_level adjust_edge adjust_visited); [|done]. intros i. apply adjust_fields.
  - apply (same_order e e' I adjust_level adjust_edge adjust_visited).
Qed.
End adjust.
End steps.

(** ** The loop of Run

    One round over a task's keys ([Run_key]): the task blocks on the last
    exclusive user of the key, if that has not been executed, and an exclusive
    user on the readers since; that is enough for every earlier user of the
    key it conflicts with. *)
Section fields.
Context {Mem : Type} (e : Executor Mem) (id : nat) (k : bytes) (v : Z) (ks : list (bytes * Z)) (deps : gset nat).
#[local] Abbreviation e' := (Run_key k v (mkCall id ks deps) e).

(** The tasks [id] is made to wait for. *)
Definition new_edges : gset nat :=
  match e_nodes e !! k with
  | None => ∅
  | Some lt => (if t_executed (e_heap e lt) then ∅ else {[lt]}) ∪
               (if decide (v = Read) then ∅ else other_readers id (e_heap e lt))
  end.

(** *** The fields afterwards *)

Lemma key_fields i :
  t_pc (e_heap e' i) = t_pc (e_heap e i) /\ t_dependencies (e_heap e' i) = t_dependencies (e_heap e i).
Proof.
  unfold Run_key. cbn [c_id c_dependencies c_keys]. destruct (e_nodes e !! k) as [lt|]; [|done].
  destruct (decide (v = Read)); case_match; cbn [e_heap with_heap with_nodes with_call];
    unfold upd, upd_all; by repeat case_decide.
Qed.

Lemma key_executed lt h :
  (forall i, t_pc (h i) = t_pc (e_heap e i)) -> t_executed (h lt) = t_executed (e_heap e lt).
Proof. intros H. unfold t_executed. by rewrite H. Qed.

Lemma key_edge a b : edge e' a b <-> edge e a b \/ b = id /\ a ∈ new_edges.
Proof.
  unfold edge, new_edges, Run_key. cbn [c_id c_dependencies c_keys]. destruct (e_nodes e !! k) as [lt|];
    [|rewrite elem_of_empty; tauto].
  destruct (decide (v = Read)); cbn [e_heap with_heap with_nodes];
    (rewrite key_executed; [|intros i; unfold upd, upd_all; by repeat case_decide]);
    destruct (t_executed (e_heap e lt)); cbn [e_heap with_heap with_nodes with_call]; unfold upd, upd_all;
    repeat case_decide; subst; cbn [t_blocked with_blocked with_readers with_reading];
    rewrite ?elem_of_union, ?elem_of_singleton, ?elem_of_empty; intuition (congruence || auto).
Qed.

Lemma key_readers r l :
  (r ∈ t_readers (e_heap e' l) <->
     r ∈ t_readers (e_heap e l) \/ r = id /\ e_nodes e !! k = Some l /\ v = Read) /\
  (l ∈ t_reading (e_heap e' r) <->
     l ∈ t_reading (e_heap e r) \/ r = id /\ e_nodes e !! k = Some l /\ v = Read).
Proof.
  unfold Run_key. cbn [c_id c_dependencies c_keys].
  destruct (e_nodes e !! k) as [lt|]; [|split; intuition congruence].
  destruct (decide (v = Read)); case_match; cbn [e_heap with_heap with_nodes with_call];
    unfold upd, upd_all; split; repeat case_decide; subst; cbn [t_readers t_reading with_blocked with_readers with_reading];
    rewrite ?elem_of_union, ?elem_of_singleton; intuition congruence.
Qed.

Lemma key_same : e_tasks e' = e_tasks e /\ e_executable e' = e_executable e.
Proof.
  unfold Run_key. cbn [c_id c_dependencies c_keys]. destruct (e_nodes e !! k) as [lt|]; [|done].
  destruct (decide (v = Read)); by case_match.
Qed.

Lemma key_nodes :
  e_nodes e' = if decide (e_nodes e !! k <> None /\ v = Read) then e_nodes e else <[k := id]> (e_nodes e).
Proof.
  unfold Run_key. cbn [c_id c_dependencies c_keys]. destruct (e_nodes e !! k) as [lt|].
  - destruct (decide (v = Read)) as [Hv|Hv].
    + rewrite decide_True by done. by case_match.
    + rewrite decide_False by (by intros [_ ?]). by case_match.
  - rewrite decide_False by (by intros [? _]). done.
Qed.

Lemma key_call : exists deps', e_call e' = Some (mkCall id ks deps') /\ deps' = deps ∪ new_edges.
Proof.
  unfold Run_key, new_edges. cbn [c_id c_dependencies c_keys]. destruct (e_nodes e !! k) as [lt|].
  2: { exists deps. split; [done|]. by rewrite (right_id_L ∅ (∪)). }
  destruct (decide (v = Read)); cbn [e_heap with_heap with_nodes];
    (rewrite key_executed; [|intros i; unfold upd, upd_all; by repeat case_decide]);
    destruct (t_executed (e_heap e lt)); (eexists; split; [done|]); apply set_eq; intros x;
    rewrite ?elem_of_union, ?elem_of_singleton, ?elem_of_empty; tauto.
Qed.
End fields.

(** ** The invariant afterwards *)

Section key.
Context {Mem : Type} (items : nat) (maxDependencies : Z).
Context (keys : nat -> gmap bytes Z).
#[local] Abbreviation Inv := (ExecutorInv.Inv items maxDependencies keys).
#[local] Abbreviation visited := (ExecutorInv.visited keys).
#[local] Abbreviation last_ok := (ExecutorInv.last_ok keys).

Context (e : Executor Mem) (id : nat) (k : bytes) (v : Z) (ks : list (bytes * Z)) (deps : gset nat).
#[local] Abbreviation new_edges := (new_edges e id k v).
#[local] Abbreviation e' := (Run_key k v (mkCall id ks deps) e).
Context (I : Inv e).
Context (Hcall : e_call e = Some (mkCall id ((k, v) :: ks) deps)).
Context (Hfree : forall lt, e_nodes e !! k = Some lt -> t_locked (e_heap e lt) = false).

Lemma key_level i : level e' i = level e i.
Proof. unfold level, at_. by destruct (key_fields e id k v ks deps i) as [-> _]. Qed.

Lemma key_id : S id = e_tasks e.
Proof. exact (co_id _ _ _ (inv_call I _ Hcall)). Qed.

Lemma key_called b : called e b <-> b = id.
Proof.
  split; [intros (c & Hc & <-); rewrite Hcall in Hc; by injection Hc as <-|].
  intros ->. by exists (mkCall id ((k, v) :: ks) deps).
Qed.

Lemma key_called' b : called e' b <-> b = id.
Proof.
  destruct (key_call e id k v ks deps) as (deps' & Hc & _).
  split; [intros (c & Hc' & <-); rewrite Hc in Hc'; by injection Hc' as <-|].
  intros ->. by exists (mkCall id ks deps').
Qed.

Lemma key_visited j a w : visited e' j a w <-> visited e j a w \/ a = id /\ j = k /\ w = v.
Proof.
  destruct (key_call e id k v ks deps) as (deps' & Hc & _), (key_same e id k v ks deps) as [Ht _]. unfold ExecutorInv.visited. rewrite Hc, Hcall, Ht.
  destruct (inv_call I _ Hcall) as [Hid Hnd Hk _ _]. cbn [c_id c_keys] in *.
  apply list.NoDup_cons in Hnd as [Hnk Hnd]. split.
  - intros (A & B & C). destruct (decide (a = id /\ j = k)) as [[-> ->]|Hn].
    + right. split; [done|]. split; [done|]. assert (keys id !! k = Some v) by (apply Hk; left). congruence.
    + left. split; [done|]. split; [done|]. intros c [= <-] <-. cbn [c_keys]. intros [->|Hin]%elem_of_cons; [by apply Hn|].
      by apply (C (mkCall id ks deps')).
  - intros [(A & B & C)|(-> & -> & ->)].
    + split; [done|]. split; [done|]. intros c [= <-] <-. cbn [c_keys]. intros Hin.
      apply (C _ eq_refl eq_refl). by right.
    + split; [lia|]. split; [apply Hk; left|]. by intros c [= <-] _.
Qed.

Lemma key_visited_below a w : visited e k a w -> a < id.
Proof.
  intros (A & _ & C). rewrite <- key_id in A. destruct (decide (a = id)) as [->|]; [|lia].
  exfalso. apply (C _ Hcall eq_refl). left.
Qed.

(** What [id] waits for is before it and not yet being notified. *)
Lemma key_new a : a ∈ new_edges -> a < id /\ level e a < 4.
Proof.
  unfold new_edges. destruct (e_nodes e !! k) as [lt|] eqn:Hk; [|by intros ?%not_elem_of_empty].
  destruct (inv_last I _ _ Hk) as [[w Hw] _]. apply key_visited_below in Hw as Hlt.
  rewrite elem_of_union. intros [Hin|Hin].
  - destruct (t_executed (e_heap e lt)) eqn:Hx; [by apply not_elem_of_empty in Hin|].
    apply elem_of_singleton in Hin as ->. split; [done|]. pose proof (rank_locked _ (Hfree _ eq_refl)).
    assert (level e lt <> 5) by (rewrite <- not_true_iff_false, rank_executed in Hx; done).
    unfold level, at_ in *. destruct (t_pc (e_heap e lt)); cbn [rank] in *; lia.
  - case_decide; [by apply not_elem_of_empty in Hin|]. unfold other_readers in Hin.
    apply elem_of_difference in Hin as [Hr Hn]. rewrite elem_of_singleton in Hn.
    apply (inv_readers I), (inv_reading I) in Hr as (A & _ & C). pose proof key_id. lia.
Qed.

Lemma key_mono a b : covered e a b -> covered e' a b.
Proof.
  apply (covered_mono (items := items) (maxDependencies := maxDependencies) (keys := keys)); [done| |].
  - intros i. by rewrite key_level.
  - intros x y. rewrite key_edge. tauto.
Qed.

(** Every earlier user of the key that conflicts is waited for. *)
Lemma key_covers a w : visited e k a w -> ~ (w = Read /\ v = Read) -> covered e' a id.
Proof.
  intros Ha Hr. destruct (e_nodes e !! k) as [lt|] eqn:Hk; [|destruct (inv_none I _ Hk _ _ Ha)].
  assert (Hlt : level e lt = 5 \/ edge e' lt id).
  { destruct (t_executed (e_heap e lt)) eqn:Hx; [left; by apply rank_executed|right].
    apply key_edge. right. split; [done|]. unfold new_edges. rewrite Hk, Hx.
    rewrite elem_of_union, elem_of_singleton. by left. }
  destruct (inv_last I _ _ Hk) as [_ Hlast]. destruct (Hlast a w Ha) as [[_ Hc]|[->|[-> Hrd]]].
  - destruct Hlt as [Hlt|He].
    + left. rewrite key_level. apply (covered_started e a lt I Hc). lia.
    + destruct (key_mono _ _ Hc) as [Hl|Ht]; [by left|right]. eapply tc_r; [exact Ht|exact He].
  - destruct Hlt as [Hlt|He]; [left; rewrite key_level; lia|by apply covered_edge].
  - destruct Hrd as [Hrd|Hl]; [|left; by rewrite key_level].
    apply covered_edge, key_edge. right. split; [done|]. unfold new_edges. rewrite Hk.
    rewrite (decide_False (P := v = Read)) by tauto. apply elem_of_union. right.
    unfold other_readers. apply elem_of_difference. split; [done|]. apply key_visited_below in Ha. rewrite elem_of_singleton. lia.
Qed.

Lemma key_last_keep j l :
  j <> k \/ v = Read -> e_nodes e !! j = Some l -> last_ok e' j l.
Proof.
  intros Hj Hl. destruct (inv_last I _ _ Hl) as [[w Hw] Ha].
  split; [exists w; apply key_visited; by left|]. intros a w' [Hv|(-> & -> & ->)]%key_visited.
  - destruct (Ha a w' Hv) as [[Hlt Hc]|[->|[-> Hr]]]; [left|by right; left|right; right].
    + split; [done|by apply key_mono].
    + split; [done|]. rewrite key_level. destruct Hr; [left|by right]. apply key_readers. by left.
  - destruct Hj as [|Hv]; [done|]. right; right. split; [done|]. left. apply key_readers. by right.
Qed.

Lemma key_last j l : e_nodes e' !! j = Some l -> last_ok e' j l.
Proof.
  rewrite key_nodes. case_decide as Hd; [by apply key_last_keep; right; destruct Hd|].
  destruct (decide (j = k)) as [->|Hj]; [|rewrite lookup_insert_ne by done; by apply key_last_keep; left].
  rewrite lookup_insert_eq. intros [= <-]. split; [exists v; apply key_visited; by right|].
  intros a w [Hv|(-> & _)]%key_visited; [left|by right; left].
  split; [by apply (key_visited_below a w)|]. apply (key_covers a w Hv). intros [_ Hr].
  apply Hd. split; [|done]. intros Hn. by apply (inv_none I _ Hn a w).
Qed.

Lemma key_none j : e_nodes e' !! j = None -> forall a w, ~ visited e' j a w.
Proof.
  rewrite key_nodes. intros Hj a w [Hv|(-> & -> & ->)]%key_visited.
  - destruct (decide (e_nodes e !! j = None)) as [Hn|Hn]; [by apply (inv_none I _ Hn a w)|].
    case_decide; [done|]. destruct (decide (j = k)) as [->|]; [by rewrite lookup_insert_eq in Hj|].
    by rewrite lookup_insert_ne in Hj.
  - case_decide; [tauto|]. by rewrite lookup_insert_eq in Hj.
Qed.

Lemma key_order a b j va vb :
  a < b -> visited e' j a va -> visited e' j b vb -> ~ (va = Read /\ vb = Read) -> covered e' a b.
Proof.
  intros Hab [Ha|(-> & -> & ->)]%key_visited Hb%key_visited Hr.
  - destruct Hb as [Hb|(-> & -> & ->)]; [by apply key_mono, (inv_order I a b j va vb)|by apply (key_covers a va)].
  - assert (b < e_tasks e) by (destruct Hb as [[]|[]]; [done|lia]). pose proof key_id. lia.
Qed.

Lemma key_count b : b < e_tasks e ->
  t_dependencies (e_heap e' b) = (Z.of_nat (size (incoming e' b)) + slack maxDependencies e' b)%Z.
Proof.
  intros Hb. destruct (key_fields e id k v ks deps b) as [_ ->]. rewrite (inv_count I b Hb).
  destruct (key_call e id k v ks deps) as (deps' & Hc & ->). unfold slack. rewrite Hcall, Hc. cbn [c_id c_dependencies].
  case_decide as Hid.
  - subst b. destruct (inv_call I _ Hcall) as [Hid _ _ Hlow Hold]. cbn [c_id c_dependencies] in *.
    assert (incoming e' id = incoming e id ∪ (new_edges ∖ deps)) as ->.
    { apply set_eq. intros d. rewrite elem_of_union, elem_of_difference, !incoming_spec, key_edge.
      split.
      - intros [Hlt [He|[_ Hin]]]; [by left|]. destruct (decide (d ∈ deps)) as [Hd|Hd]; [left|by right].
        split; [done|]. destruct (Hlow d Hd) as [_ [He|Hl]]; [done|]. apply key_new in Hin. lia.
      - intros [[Hlt He]|[Hin _]]; [tauto|]. split; [by apply key_new|by right]. }
    rewrite size_union.
    2: { intros d [_ Hd]%incoming_spec [_ Hn]%elem_of_difference. by apply Hn, Hold. }
    replace (deps ∪ new_edges) with (deps ∪ (new_edges ∖ deps)).
    2: { apply set_eq. intros d. rewrite !elem_of_union, elem_of_difference. destruct (decide (d ∈ deps)); tauto. }
    rewrite (size_union deps). 2: { intros d Hd [_ Hn]%elem_of_difference. done. } lia.
  - rewrite (incoming_ext e' e b); [done|]. intros d. rewrite key_edge. split; [|tauto].
    intros [?|[-> _]]; [done|congruence].
Qed.

Lemma key_inv : Inv e'.
Proof.
  destruct (key_same e id k v ks deps) as [Ht Hq]. pose proof key_id as Hid.
  assert (Hne : forall d b, b <> id -> edge e' d b <-> edge e d b) by (intros d b Hb; rewrite key_edge; tauto).
  split; rewrite ?Ht, ?Hq; try setoid_rewrite key_level; try apply I; try setoid_rewrite key_called'.
  - intros a b [He|[-> Hn]]%key_edge; [by apply (inv_edge I)|]. apply key_new in Hn. lia.
  - intros c Hc. destruct (key_call e id k v ks deps) as (deps' & Hc' & ->). rewrite Hc in Hc'. injection Hc' as ->.
    destruct (inv_call I _ Hcall) as [_ Hnd Hk Hlow Hold]. cbn [c_id c_keys c_dependencies] in *.
    apply list.NoDup_cons in Hnd as [_ Hnd].
    split; cbn [c_id c_keys c_dependencies]; [by rewrite Ht|done| | |].
    + intros j w Hin. apply Hk. by right.
    + intros d. rewrite elem_of_union, key_level, key_edge. intros [Hd|Hd]; [|by split; [apply key_new|left; right]].
      destruct (Hlow d Hd) as [Hl [He|H3]]; (split; [done|]); [left; by left|by right].
    + intros d. rewrite elem_of_union, key_edge. intros [Hd|[_ Hd]]; [left; by apply Hold|by right].
  - apply key_count.
  - intros b Hb. destruct (inv_ready I b Hb) as (A & B & C). rewrite key_called in B.
    split; [done|]. split; [done|]. intros d. rewrite Hne by done. apply C.
  - intros b Hb Hn He. apply (inv_live I b Hb); [by rewrite key_called|]. intros d. rewrite <- Hne by done. apply He.
  - intros r l. destruct (key_readers e id k v ks deps r l) as [-> ->]. by rewrite (inv_readers I).
  - intros r l. destruct (key_readers e id k v ks deps r l) as [_ ->]. intros [H|(-> & Hk & _)]; [by apply (inv_reading I)|].
    destruct (inv_last I _ _ Hk) as [[w Hw] _]. apply key_visited_below in Hw.
    assert (~ 1 <= level e id); [|lia]. intros Hl. destruct (inv_ready I id) as (_ & Hx & _); [by right|].
    by apply Hx, key_called.
  - intros d Hd. apply set_eq. intros b. split; [|by intros ?%not_elem_of_empty].
    intros [He|[_ Hn]]%key_edge; [unfold edge in He; by rewrite (inv_blocked I d Hd) in He|]. apply key_new in Hn. lia.
  - apply key_none.
  - apply key_last.
  - apply key_order.
Qed.
End key.

(** ** Every reachable state *)

Section reachable.
Context {Mem : Type} (items concurrency : nat) (maxDependencies : Z).
Context (keys : nat -> gmap bytes Z) (f : nat -> Mem -> result Mem).
Context (Hmax : (Z.of_nat items <= maxDependencies)%Z).
#[local] Abbreviation Inv := (ExecutorInv.Inv items maxDependencies keys).
#[local] Abbreviation step := (Executor.step items concurrency maxDependencies keys f).

Lemma init_inv memory : Inv (NewExecutor (Mem := Mem) memory).
Proof.
  assert (Hl : forall i, level (NewExecutor memory) i = 0) by done.
  split; cbn [e_executable e_tasks e_call e_nodes NewExecutor]; try done.
  - intros i Hi. rewrite Hl in Hi. lia.
  - lia.
  - intros b Hb. lia.
  - intros b [Hb|Hb]; [by apply not_elem_of_nil in Hb|]. rewrite Hl in Hb. lia.
  - by apply list.NoDup_nil.
  - intros b Hb. lia.
  - intros k _ a v [Hc _]. cbn [e_tasks NewExecutor] in Hc. lia.
  - intros a b k va vb _ [Hc _]. cbn [e_tasks NewExecutor] in Hc. lia.
Qed.

Lemma step_inv (e e' : Executor Mem) : Inv e -> step e e' -> Inv e'.
Proof.
  intros I H. destruct H.
  - by apply new_inv.
  - eapply key_inv; [done|done|]. intros lt Hlt. by destruct (H0 lt Hlt).
  - by apply adjust_inv.
  - by apply take_inv.
  - by apply check_inv.
  - by apply f_inv.
  - by apply clear_inv.
  - by apply lock_inv.
  - by apply notify_inv.
  - by apply done_inv.
Qed.

Lemma steps_inv (e e' : Executor Mem) : Inv e -> rtc step e e' -> Inv e'.
Proof. intros I H. induction H as [|x y z Hs _ IH]; [done|]. by apply IH, (step_inv x). Qed.
End reachable.
