(* ===== verification/ExecutorRuns.v ===== *)
(** * What an execution of the executor computes

    Executions end: every step lowers a measure, and a state where no step
    is possible is one where every task has been run.  When tasks that do not
    conflict commute, what the executor leaves in memory is what running the
    tasks one after another does. *)

From stdpp Require Import relations.
From S2P Require Import Prelude GoErrors Permissions Executor ExecutorInv ExecutorSteps.
#[local] Open Scope nat_scope.

Lemma sum_list_with_lt {A} (g h : A -> nat) (l : list A) x :
  (forall y, g y <= h y) -> x ∈ l -> g x < h x -> sum_list_with g l < sum_list_with h l.
Proof.
  intros Hle Hx Hlt. assert (Hs : forall l, sum_list_with g l <= sum_list_with h l).
  { intros l'. induction l' as [|y l' IH]; cbn; [done|]. specialize (Hle y). lia. }
  induction l as [|y l IH]; [by apply not_elem_of_nil in Hx|]. cbn.
  specialize (Hs l). apply elem_of_cons in Hx as [->|Hx]; [lia|]. specialize (IH Hx). specialize (Hle y). lia.
Qed.

Lemma size_remove (s : gset nat) x : size (s ∖ {[x]}) <= size s /\ (x ∈ s -> size (s ∖ {[x]}) < size s).
Proof.
  assert (Hsub : s ∖ {[x]} ⊆ s) by (intros y [Hy _]%elem_of_difference; done).
  split; [by apply subseteq_size|]. intros Hx. apply subset_size. split; [done|].
  intros [_ Hn]%(fun H => H x Hx)%elem_of_difference. by apply Hn, elem_of_singleton.
Qed.

Section finished.
Context {Mem : Type} (items : nat).
Implicit Types e : Executor Mem.

(** Every task has been run, and [Wait] has returned. *)
Definition finished e : Prop :=
  e_call e = None /\ e_tasks e = items /\ forall i, i < items -> at_ e i = Done.

Lemma finished_Wait e : finished e <-> Wait items e = Some (e_err e).
Proof.
  unfold finished, Wait. split.
  - intros (Hc & Ht & Hd). rewrite decide_True; [done|]. split; [done|]. split; [done|].
    apply forallb_True, list.Forall_forall. intros i [_ Hi]%elem_of_seq. cbn in Hi.
    unfold t_executed. rewrite bool_decide_eq_true_2; [done|]. by apply Hd.
  - case_decide as H; [|done]. destruct H as (Hc & Ht & Hd). intros _. split; [done|]. split; [done|].
    intros i Hi. rewrite forallb_True, list.Forall_forall in Hd.
    assert (Hx : t_executed (e_heap e i)) by (apply Hd, elem_of_seq; lia).
    by apply bool_decide_unpack in Hx.
Qed.

End finished.

Section runs.
Context {Mem : Type} (items concurrency : nat) (maxDependencies : Z).
Context (keys : nat -> gmap bytes Z) (f : nat -> Mem -> result Mem).
Context (Hmax : (Z.of_nat items <= maxDependencies)%Z) (Hcores : 0 < concurrency).
Implicit Types e : Executor Mem.
#[local] Abbreviation Inv := (ExecutorInv.Inv items maxDependencies keys).
#[local] Abbreviation finished := (finished items).
#[local] Abbreviation step := (Executor.step items concurrency maxDependencies keys f).

(** ** No deadlock *)

Lemma notifying_steps e t : Inv e -> at_ e t = Notifying -> exists e', step e e'.
Proof.
  intros I Ht. destruct (set_choose_or_empty (t_blocked (e_heap e t))) as [[bt Hb]|Hn].
  - eexists. by apply (step_notify _ _ _ _ _ _ t bt).
  - eexists. apply (step_done _ _ _ _ _ _ t); [done|]. by apply leibniz_equiv.
Qed.

Lemma locked_steps e t : Inv e -> t_locked (e_heap e t) = true -> exists e', step e e'.
Proof. intros I Ht%bool_decide_eq_true. by apply (notifying_steps e t). Qed.

Lemma busy_steps e t : Inv e -> 1 <= level e t <= 4 -> exists e', step e e'.
Proof.
  intros I Ht. unfold level in Ht. destruct (at_ e t) eqn:Hp; cbn [rank] in Ht; try lia.
  - eexists. by apply (step_check _ _ _ _ _ _ t).
  - eexists. by apply (step_f _ _ _ _ _ _ t).
  - destruct (set_choose_or_empty (t_reading (e_heap e t))) as [[rt Hr]|Hn].
    + destruct (t_locked (e_heap e rt)) eqn:Hl; [by apply (locked_steps e rt)|].
      eexists. by apply (step_clear _ _ _ _ _ _ t rt).
    + eexists. apply (step_lock _ _ _ _ _ _ t); [done|]. by apply leibniz_equiv.
  - by apply (notifying_steps e t).
Qed.

Lemma call_steps e c : Inv e -> e_call e = Some c -> exists e', step e e'.
Proof.
  intros I Hc. destruct c as [id [|[k v] ks] deps]; [eexists; by apply (step_adjust _ _ _ _ _ _ id deps)|].
  destruct (e_nodes e !! k) as [lt|] eqn:Hk.
  2: { eexists. apply (step_key _ _ _ _ _ _ id k v ks deps Hc). intros lt Hlt. congruence. }
  destruct (t_locked (e_heap e lt)) eqn:Hl; [by apply (locked_steps e lt)|].
  eexists. apply (step_key _ _ _ _ _ _ id k v ks deps Hc). intros lt' Hlt. assert (lt' = lt) as -> by congruence.
  split; [done|]. intros _ rt Hrt. unfold other_readers in Hrt. apply elem_of_difference in Hrt as [Hr _].
  apply (inv_readers I), (inv_reading I) in Hr as (_ & _ & Hr). unfold level, at_ in Hr.
  unfold t_locked. rewrite bool_decide_eq_false. intros Hx. rewrite Hx in Hr. cbn [rank] in Hr. lia.
Qed.

(** A task that waits, the first of them, is in the channel. *)
Lemma first_waiting e b : Inv e -> e_call e = None -> b < e_tasks e -> level e b = 0 ->
  (forall d, d < b -> level e d = 5) -> b ∈ e_executable e.
Proof.
  intros I Hc Hb Hl Hd. destruct (inv_live I b Hb) as [|Hx]; [|intros d He|done|lia].
  - intros (c & Hc' & _). congruence.
  - pose proof (inv_edge I _ _ He) as [Hlt _]. unfold edge in He.
    rewrite (inv_blocked I d (Hd d Hlt)) in He. by apply not_elem_of_empty in He.
Qed.

Lemma least_undone e n : (forall i, i < n -> level e i = 5) \/
  exists b, b < n /\ level e b <> 5 /\ forall d, d < b -> level e d = 5.
Proof.
  induction n as [|n [IH|(b & Hb & H)]]; [left; lia| |right; exists b; split; [lia|done]].
  destruct (decide (level e n = 5)) as [Hn|Hn].
  - left. intros i Hi. destruct (decide (i = n)) as [->|]; [done|]. apply IH. lia.
  - right. exists n. split; [lia|done].
Qed.

Lemma progress e : Inv e -> finished e \/ exists e', step e e'.
Proof.
  intros I. destruct (e_call e) as [c|] eqn:Hc; [right; by apply (call_steps e c)|].
  pose proof (inv_items I). destruct (decide (e_tasks e < items)) as [Hlt|Hge].
  { right. eexists. by apply (step_new _ _ _ _ _ _ (map_to_list (keys (e_tasks e)))). }
  assert (Ht : e_tasks e = items) by lia.
  destruct (busy e) as [|i busy'] eqn:Hbusy.
  - destruct (least_undone e items) as [Hall|(b & Hb & Hl & Hd)].
    + left. split; [done|]. split; [done|]. intros i Hi. specialize (Hall i Hi).
      unfold level in Hall. by destruct (at_ e i).
    + right. assert (Hw : at_ e b = Waiting).
      { destruct (decide (at_ e b = Waiting)) as [|Hw]; [done|exfalso].
        apply (not_elem_of_nil b). rewrite <- Hbusy. apply list_elem_of_filter. split; [split; [done|]|].
        - intros Hx. apply Hl. unfold level. by rewrite Hx.
        - apply elem_of_seq. lia. }
      assert (Hin : b ∈ e_executable e) by (apply first_waiting; [done|done|lia|unfold level; by rewrite Hw|done]).
      destruct (e_executable e) as [|t rest] eqn:Hq; [by apply not_elem_of_nil in Hin|].
      eexists. apply (step_take _ _ _ _ _ _ t rest Hq). rewrite Hbusy. done.
  - right. assert (Hi : i ∈ busy e) by (rewrite Hbusy; left).
    apply list_elem_of_filter in Hi as [[H0 H4] _]. apply (busy_steps e i I). unfold level.
    destruct (at_ e i); cbn [rank]; lia || done.
Qed.

(** ** Termination

    A step makes a new call, or shortens the call in progress, or moves a
    worker on: it lowers the three parts of the measure in that order. *)

Definition weight e (i : nat) : nat :=
  5 - level e i + size (t_reading (e_heap e i)) + size (t_blocked (e_heap e i)).

Definition left_to_call e : nat := items - e_tasks e.
Definition left_of_call e : nat := match e_call e with Some c => S (length (c_keys c)) | None => 0 end.
Definition left_to_work e : nat := sum_list_with (weight e) (seq 0 (e_tasks e)).

Lemma work_lt e e' t :
  e_tasks e' = e_tasks e -> t < e_tasks e -> weight e' t < weight e t ->
  (forall i, weight e' i <= weight e i) -> left_to_work e' < left_to_work e.
Proof.
  intros Ht Hlt Hw Hle. unfold left_to_work. rewrite Ht. apply (sum_list_with_lt _ _ _ t); [done| |done].
  apply elem_of_seq. lia.
Qed.

Lemma move_work e e' t p :
  e_heap e' = upd t (with_pc p) (e_heap e) -> e_tasks e' = e_tasks e -> t < e_tasks e ->
  level e t < rank p -> left_to_work e' < left_to_work e.
Proof.
  intros Hh Ht Hlt Hp. assert (Hr : rank p <= 5) by (destruct p; cbn [rank]; lia).
  apply (work_lt e e' t Ht Hlt); [|intros i]; unfold weight, level, at_ in *; rewrite Hh; unfold upd.
  - rewrite decide_True by done. cbn [t_pc t_reading t_blocked with_pc]. lia.
  - case_decide; [subst i|done]. cbn [t_pc t_reading t_blocked with_pc]. lia.
Qed.

Lemma clear_work e t rt :
  t < e_tasks e -> rt ∈ t_reading (e_heap e t) -> left_to_work (runTask_clear t rt e) < left_to_work e.
Proof.
  intros Ht Hr. destruct (size_remove (t_reading (e_heap e t)) rt) as [Hle Hlt]. specialize (Hlt Hr).
  apply (work_lt e (runTask_clear t rt e) t eq_refl Ht); [|intros i]; unfold weight, level, at_, runTask_clear;
    cbn [e_heap with_heap]; unfold upd; repeat case_decide; try done;
    cbn [t_pc t_reading t_blocked with_reading with_readers]; subst; lia.
Qed.

Lemma notify_work e t bt : t < e_tasks e -> t < bt -> bt ∈ t_blocked (e_heap e t) ->
  left_to_work (runTask_notify t bt e) < left_to_work e.
Proof.
  intros Ht Hbt Hb. destruct (size_remove (t_blocked (e_heap e t)) bt) as [Hle Hlt]. specialize (Hlt Hb).
  assert (Htasks : e_tasks (runTask_notify t bt e) = e_tasks e) by (unfold runTask_notify; cbv zeta; by case_decide).
  apply (work_lt e _ t Htasks Ht); [|intros i]; unfold weight, level, at_; rewrite (notify_heap e t bt);
    unfold upd; repeat case_decide; try done; try lia;
    cbn [t_pc t_reading t_blocked with_blocked dependencies_Add]; subst; lia.
Qed.

Lemma step_measure e e' : Inv e -> step e e' ->
  left_to_call e' < left_to_call e \/
  left_to_call e' = left_to_call e /\
    (left_of_call e' < left_of_call e \/
     left_of_call e' = left_of_call e /\ left_to_work e' < left_to_work e).
Proof.
  intros I H. destruct H as [ks Hc Hlt Hks|id k v ks deps Hc Hl|id deps Hc|t rest Hq Hb|t Ht|t Ht|t rt Ht Hr Hl|t Ht Hr|t bt Ht Hb|t Ht Hb].
  - left. unfold left_to_call. cbn [e_tasks Run_new]. lia.
  - right. destruct (key_same e id k v ks deps) as [Ht _], (key_call e id k v ks deps) as (deps' & Hc' & _).
    unfold left_to_call, left_of_call. rewrite Ht, Hc, Hc'. split; [done|left]. cbn [c_keys length]. lia.
  - right. destruct (adjust_same maxDependencies e id deps) as (Ht & _ & Hc').
    unfold left_to_call, left_of_call. rewrite Ht, Hc, Hc'. split; [done|left]. cbn [c_keys length]. lia.
  - right. split; [done|right]. split; [done|].
    assert (Hin : t ∈ e_executable e) by (rewrite Hq; left).
    apply (move_work e _ t Taken); [done|done| |].
    + by apply (inv_ready I t); left.
    + rewrite (inv_queued I t Hin). cbn [rank]. lia.
  - right. assert (Hl : level e t = 1) by (unfold level; by rewrite Ht). split; [done|right]. split; [done|].
    apply (move_work e _ t (match e_err e with None => Running | Some _ => Clearing end));
      [done|done|apply (inv_fresh I); lia|destruct (e_err e); cbn [rank]; lia].
  - right. assert (Hl : level e t = 2) by (unfold level; by rewrite Ht).
    assert (Hs : let e' := runTask_f (f t) t e in e_tasks e' = e_tasks e /\ e_call e' = e_call e /\
        e_heap e' = upd t (with_pc Clearing) (e_heap e)) by (unfold runTask_f; cbv zeta; by case_match).
    destruct Hs as (A & B & C). unfold left_to_call, left_of_call. rewrite A, B. split; [done|right]. split; [done|].
    apply (move_work e _ t Clearing); [done|done|apply (inv_fresh I); lia|cbn [rank]; lia].
  - right. split; [done|right]. split; [done|]. apply clear_work; [|done].
    by apply (inv_reading I t rt).
  - right. assert (Hl : level e t = 3) by (unfold level; by rewrite Ht). split; [done|right]. split; [done|].
    apply (move_work e _ t Notifying); [done|done|apply (inv_fresh I); lia|cbn [rank]; lia].
  - right. assert (Hs : e_tasks (runTask_notify t bt e) = e_tasks e /\ e_call (runTask_notify t bt e) = e_call e)
      by (unfold runTask_notify; cbv zeta; by case_decide).
    destruct Hs as [A B]. unfold left_to_call, left_of_call. rewrite A, B. split; [done|right]. split; [done|].
    apply (inv_edge I) in Hb as Hlt. apply notify_work; [lia|lia|done].
  - right. assert (Hl : level e t = 4) by (unfold level; by rewrite Ht). split; [done|right]. split; [done|].
    apply (move_work e _ t Done); [done|done|apply (inv_fresh I); lia|cbn [rank]; lia].
Qed.

Lemma terminates e : Inv e -> sn step e.
Proof.
  remember (left_to_call e) as a eqn:Ha. revert e Ha.
  induction (lt_wf a) as [a _ IHa]. intros e. remember (left_of_call e) as b eqn:Hb. revert e Hb.
  induction (lt_wf b) as [b _ IHb]. intros e. remember (left_to_work e) as c eqn:Hc. revert e Hc.
  induction (lt_wf c) as [c _ IHc]. intros e -> -> -> I. constructor. intros e' Hs.
  apply (step_inv items concurrency maxDependencies keys f Hmax) in Hs as I'; [|done].
  destruct (step_measure e e' I Hs) as [H|[H1 [H|[H2 H3]]]].
  - by apply (IHa _ H e').
  - by apply (IHb _ H e').
  - by apply (IHc _ H3 e').
Qed.

(** Whatever has happened, the rest of the execution finishes. *)
Lemma finishes e : Inv e -> exists e', rtc step e e' /\ finished e'.
Proof.
  intros I. induction (terminates e I) as [e _ IH].
  destruct (progress e I) as [Hf|[e' Hs]]; [by exists e|].
  destruct (IH e' Hs (step_inv _ _ _ _ _ Hmax _ _ I Hs)) as (e2 & H2 & Hf). exists e2. split; [|done].
  by apply (rtc_l _ _ e').
Qed.

(** After the end nothing happens. *)
Lemma finished_stuck e e' : Inv e -> finished e -> ~ step e e'.
Proof.
  intros I (Hc & Ht & Hd) H. assert (Hn : forall t, 1 <= level e t -> at_ e t = Done).
  { intros t Hl. apply Hd. rewrite <- Ht. by apply (inv_fresh I). }
  assert (Hp : forall t p, at_ e t = p -> p <> Waiting -> p <> Done -> False).
  { intros t p Hp Hw Hnd. apply Hnd. rewrite <- Hp. apply Hn. unfold level. rewrite Hp. by destruct p; cbn [rank]; try lia. }
  destruct H as [ks _ Hlt _|id k v ks deps Hc' _|id deps Hc'|t rest Hq _|t Hx|t Hx|t rt Hx _ _|t Hx _|t bt Hx _|t Hx _];
    try congruence; try (by apply (Hp t _ Hx)); [lia|].
  assert (Hin : t ∈ e_executable e) by (rewrite Hq; left).
  pose proof (inv_queued I t Hin) as Hl. destruct (inv_ready I t (or_introl Hin)) as (Hlt & _).
  rewrite Ht in Hlt. unfold level in Hl. rewrite (Hd t Hlt) in Hl. done.
Qed.

(** The channel has room for every task. *)
Lemma executable_length e : Inv e -> length (e_executable e) <= items.
Proof.
  intros I. assert (Hsub : e_executable e ⊆+ seq 0 items).
  { apply NoDup_submseteq; [apply (inv_queue I)|]. intros t Ht. apply elem_of_seq.
    destruct (inv_ready I t (or_introl Ht)) as (Hlt & _). pose proof (inv_items I). lia. }
  apply submseteq_length in Hsub. by rewrite length_seq in Hsub.
Qed.
End runs.
