(* ===== verification/Schedule.v ===== *)
(** * The executor runs the tasks as if one after another

    The tasks the executor has run, in the order it ran them, are a list where
    a task comes after the earlier ones it conflicts with.  Swapping
    neighbours that do not conflict turns such a list into the order of the
    calls of [Run], and changes nothing in memory when tasks that do not
    conflict commute. *)

From stdpp Require Import relations sorting.
From S2P Require Import Prelude GoErrors Permissions Executor ExecutorInv ExecutorSteps ExecutorRuns.
#[local] Open Scope nat_scope.

Lemma seq_filter_sorted (P : nat -> Prop) `{forall i, Decision (P i)} s n :
  StronglySorted lt (filter P (seq s n)).
Proof.
  revert s. induction n as [|n IH]; intros s; cbn [seq]; [constructor|]. rewrite filter_cons.
  case_decide; [|apply IH]. constructor; [apply IH|]. apply list.Forall_forall.
  intros i [_ [Hi _]%elem_of_seq]%list_elem_of_filter. lia.
Qed.

Section conflicts.
Context (keys : nat -> gmap bytes Z).

(** Some key is in both, and not only to be read. *)
Definition conflict (a b : nat) : Prop :=
  exists k va vb, keys a !! k = Some va /\ keys b !! k = Some vb /\ ~ (va = Read /\ vb = Read).

Lemma conflict_sym a b : conflict a b -> conflict b a.
Proof. intros (k & va & vb & A & B & C). exists k, vb, va. split; [done|]. split; [done|]. tauto. Qed.

End conflicts.

Section schedule.
Context {Mem : Type} (items : nat) (keys : nat -> gmap bytes Z) (f : nat -> Mem -> result Mem).
#[local] Abbreviation conflict := (conflict keys).

(** Running tasks one after another. *)
Fixpoint exec (l : list nat) (m : Mem) : result Mem :=
  match l with
  | [] => Ok m
  | i :: l => match f i m with Ok m => exec l m | Err err => Err err end
  end.

(** What the client promises: two tasks that do not conflict can be swapped. *)
Definition commutes : Prop := forall a b m m1 m2,
  a < items -> b < items -> a <> b -> ~ conflict a b -> f a m = Ok m1 -> f b m1 = Ok m2 ->
  exists m1', f b m = Ok m1' /\ f a m1' = Ok m2.

(** Every task comes after the earlier tasks it conflicts with. *)
Definition ordered (l : list nat) : Prop :=
  forall l1 b l2, l = l1 ++ b :: l2 -> forall a, a < b -> conflict a b -> a ∈ l1.

Definition below (l : list nat) : Prop := forall i, i ∈ l -> i < items.

Lemma exec_app l1 l2 m m' : exec (l1 ++ l2) m = Ok m' <-> exists m1, exec l1 m = Ok m1 /\ exec l2 m1 = Ok m'.
Proof.
  revert m. induction l1 as [|i l1 IH]; intros m; cbn [exec app].
  - split; [by exists m|]. by intros (m1 & [= <-] & H).
  - destruct (f i m) as [m2|err]; [apply IH|]. split; [done|]. by intros (m1 & ? & _).
Qed.

Lemma ordered_app l1 l2 : ordered (l1 ++ l2) <->
  ordered l1 /\ forall p b q, l2 = p ++ b :: q -> forall a, a < b -> conflict a b -> a ∈ l1 ++ p.
Proof.
  split.
  - intros H. split; intros p b q ->; [apply (H p b (q ++ l2)); by rewrite <- app_assoc|].
    apply (H (l1 ++ p) b q). by rewrite <- app_assoc.
  - intros [H1 H2] p b q He a Hab Hc. apply app_eq_inv in He as [(k & -> & Hk)|(k & -> & ->)].
    + destruct k as [|b' k]; cbn in Hk.
      * rewrite app_nil_r in H2. rewrite <- (app_nil_r p). by apply (H2 [] b q).
      * injection Hk as <- ->. by apply (H1 p b k).
    + by apply (H2 k b q).
Qed.

Lemma ordered_snoc l b : ordered l -> (forall a, a < b -> conflict a b -> a ∈ l) -> ordered (l ++ [b]).
Proof.
  intros Hl Hb. apply ordered_app. split; [done|]. intros p c q He a Hac Hc.
  destruct p as [|x p]; [|by destruct p]. injection He as <- <-. rewrite app_nil_r. by apply Hb.
Qed.

(** Taking out the last task of all. *)
Lemma ordered_remove l1 n l2 :
  (forall i, i ∈ l1 ++ l2 -> i < n) -> ordered (l1 ++ n :: l2) -> ordered (l1 ++ l2).
Proof.
  intros Hn. rewrite !ordered_app. intros [H1 H2]. split; [done|]. intros p b q -> a Hab Hc.
  assert (b < n) by (apply Hn, elem_of_app; right; apply elem_of_app; right; left).
  specialize (H2 (n :: p) b q eq_refl a Hab Hc). rewrite elem_of_app in H2 |- *. destruct H2 as [|H2]; [by left|].
  apply elem_of_cons in H2 as [->|]; [lia|by right].
Qed.

Section commute.
Context (Hcomm : commutes).

(** A task moves over tasks it does not conflict with. *)
Lemma exec_bubble a l m m' :
  below (a :: l) -> a ∉ l -> (forall b, b ∈ l -> ~ conflict a b) ->
  exec (a :: l) m = Ok m' <-> exec (l ++ [a]) m = Ok m'.
Proof.
  revert m. induction l as [|b l IH]; intros m Hb Hn Hc; [done|].
  assert (Ha : a < items) by (apply Hb; left). assert (Hb' : b < items) by (apply Hb; right; left).
  apply not_elem_of_cons in Hn as [Hne Hn].
  assert (Hcab : ~ conflict a b) by (apply Hc; left).
  assert (IH' : forall m2, exec (a :: l) m2 = Ok m' <-> exec (l ++ [a]) m2 = Ok m').
  { intros m2. apply IH; [|done|].
    - intros i [->|Hi]%elem_of_cons; [done|apply Hb; by right; right].
    - intros c Hcl. apply Hc. by right. }
  cbn [exec app]. split.
  - destruct (f a m) as [m1|] eqn:E1; [|done]. destruct (f b m1) as [m2|] eqn:E2; [|done].
    intros He. destruct (Hcomm a b m m1 m2 Ha Hb' Hne Hcab E1 E2) as (m1' & -> & E3).
    apply IH'. cbn [exec]. by rewrite E3.
  - destruct (f b m) as [m1|] eqn:E1; [|done]. intros He. apply IH' in He. cbn [exec] in He.
    destruct (f a m1) as [m2|] eqn:E2; [|done].
    destruct (Hcomm b a m m1 m2 Hb' Ha (not_eq_sym Hne) (fun H => Hcab (conflict_sym _ _ _ H)) E1 E2) as (m1' & -> & E3).
    by rewrite E3.
Qed.

(** An ordered list of all tasks below [n] computes what running them in turn
    does. *)
Lemma exec_sorted n : forall l m m', n <= items -> ordered l -> NoDup l -> (forall i, i ∈ l <-> i < n) ->
  exec l m = Ok m' <-> exec (seq 0 n) m = Ok m'.
Proof.
  induction n as [|n IH]; intros l m m' Hn Ho Hnd Hl.
  { destruct l as [|i l]; [done|]. assert (i < 0) by (apply Hl; left). lia. }
  destruct (list_elem_of_split l n) as (l1 & l2 & ->); [apply Hl; lia|].
  apply list.NoDup_app in Hnd as (Hnd1 & Hdis & Hnd2). apply list.NoDup_cons in Hnd2 as [Hn2 Hnd2].
  assert (Hbelow : forall i, i ∈ l1 \/ i ∈ l2 -> i < n).
  { intros i Hi. assert (i < S n).
    { apply Hl, elem_of_app. destruct Hi; [by left|right; by right]. }
    assert (i <> n); [|lia]. intros ->. destruct Hi as [Hi|Hi]; [|done]. apply (Hdis n Hi). left. }
  rewrite seq_S. cbn [Nat.add].
  assert (Hmove : exec (l1 ++ n :: l2) m = Ok m' <-> exec ((l1 ++ l2) ++ [n]) m = Ok m').
  { rewrite <- app_assoc, !exec_app.
    assert (Hb : forall m1, exec (n :: l2) m1 = Ok m' <-> exec (l2 ++ [n]) m1 = Ok m'); [|by setoid_rewrite Hb].
    intros m1. apply (exec_bubble n l2); [|done|].
    - intros i [->|Hi]%elem_of_cons; [lia|]. specialize (Hbelow i (or_intror Hi)). lia.
    - intros b Hb Hc. apply (Hdis b); [|by right]. apply (Ho l1 n l2 eq_refl b); [by apply Hbelow; right|].
      by apply conflict_sym. }
  rewrite Hmove, !exec_app.
  assert (Hrest : forall m1, exec (l1 ++ l2) m = Ok m1 <-> exec (seq 0 n) m = Ok m1); [|by setoid_rewrite Hrest].
  intros m1. apply IH; [lia| | |].
  - apply (ordered_remove l1 n l2); [|done]. intros i Hi%elem_of_app. by apply Hbelow.
  - apply list.NoDup_app. split; [done|]. split; [|done]. intros x Hx Hx2. apply (Hdis x Hx). by right.
  - intros i. rewrite elem_of_app. split; [apply Hbelow|]. intros Hi.
    assert (Hin : i ∈ l1 ++ n :: l2) by (apply Hl; lia).
    rewrite elem_of_app, elem_of_cons in Hin. destruct Hin as [|[->|]]; [by left|lia|by right].
Qed.

(** A task that fails after an ordered list of others fails the whole. *)
Lemma exec_fails l j m m1 err :
  ordered (l ++ [j]) -> NoDup (l ++ [j]) -> below (l ++ [j]) -> exec l m = Ok m1 -> f j m1 = Err err ->
  exists err', exec (seq 0 items) m = Err err'.
Proof.
  intros Ho Hnd Hb Hl Hj. destruct (exec (seq 0 items) m) as [m'|err'] eqn:He; [|by exists err'].
  exfalso. set (done_ := l ++ [j]) in *. set (rest := filter (fun i => i ∉ done_) (seq 0 items)).
  apply (exec_sorted items (done_ ++ rest)) in He; [| | | |].
  - apply exec_app in He as (m2 & H2 & _). apply exec_app in H2 as (m3 & H3 & H4).
    rewrite Hl in H3. injection H3 as <-. cbn [exec] in H4. by rewrite Hj in H4.
  - done.
  - apply ordered_app. split; [done|]. intros p b q Hr a Hab Hc.
    rewrite elem_of_app. destruct (decide (a ∈ done_)) as [|Hn]; [by left|right].
    assert (Hbr : b ∈ rest) by (rewrite Hr; apply elem_of_app; right; left).
    apply list_elem_of_filter in Hbr as [_ [_ Hb2]%elem_of_seq].
    assert (Har : a ∈ rest) by (apply list_elem_of_filter; split; [done|]; apply elem_of_seq; lia).
    rewrite Hr in Har. apply elem_of_app in Har as [|Har]; [done|].
    apply elem_of_cons in Har as [->|Har]; [lia|]. exfalso.
    pose proof (seq_filter_sorted (fun i => i ∉ done_) 0 items) as Hs. fold rest in Hs. rewrite Hr in Hs.
    apply StronglySorted_app in Hs as (_ & _ & Hs). apply StronglySorted_cons in Hs as [Hs _].
    rewrite list.Forall_forall in Hs. specialize (Hs a Har). lia.
  - apply list.NoDup_app. split; [done|]. split; [|apply list.NoDup_filter, NoDup_seq].
    intros x Hx Hx'. by apply list_elem_of_filter in Hx' as [Hn _].
  - intros i. rewrite elem_of_app. split.
    + intros [Hi|Hi]; [by apply Hb|]. apply list_elem_of_filter in Hi as [_ [_ Hi]%elem_of_seq]. lia.
    + intros Hi. destruct (decide (i ∈ done_)); [by left|right]. apply list_elem_of_filter.
      split; [done|]. apply elem_of_seq. lia.
Qed.
End commute.
End schedule.

(** ** The memory of an execution *)

Section memory.
Context {Mem : Type} (items concurrency : nat) (maxDependencies : Z).
Context (keys : nat -> gmap bytes Z) (f : nat -> Mem -> result Mem) (m0 : Mem).
Context (Hmax : (Z.of_nat items <= maxDependencies)%Z).
Implicit Types e : Executor Mem.
#[local] Abbreviation Inv := (ExecutorInv.Inv items maxDependencies keys).
#[local] Abbreviation step := (Executor.step items concurrency maxDependencies keys f).

(** Until an error the history accounts for the memory; an error is what a
    task returned after an ordered list of others. *)
Definition mem_ok e : Prop :=
  match e_err e with
  | None => exec f (e_order e) m0 = Ok (e_memory e) /\ NoDup (e_order e) /\ ordered keys (e_order e) /\
            forall i, i ∈ e_order e <-> 3 <= level e i
  | Some err => exists l j m, ordered keys (l ++ [j]) /\ NoDup (l ++ [j]) /\ below items (l ++ [j]) /\
            exec f l m0 = Ok m /\ f j m = Err err
  end.

Lemma mem_ok_same e e' :
  e_err e' = e_err e -> e_memory e' = e_memory e -> e_order e' = e_order e ->
  (e_err e = None -> forall i, 3 <= level e' i <-> 3 <= level e i) -> mem_ok e -> mem_ok e'.
Proof.
  unfold mem_ok. intros -> -> -> Hl. destruct (e_err e); [done|]. intros (A & B & C & D).
  split; [done|]. split; [done|]. split; [done|]. intros i. by rewrite (Hl eq_refl).
Qed.

(** A task that runs comes after all those it conflicts with. *)
Lemma running_ordered e t a :
  Inv e -> 1 <= level e t -> a < t -> conflict keys a t -> 3 <= level e a.
Proof.
  intros I Ht Hat (k & va & vb & Ha & Hb & Hr). destruct (inv_ready I t) as (Hlt & Hc & _); [by right|].
  apply (covered_started e a t I); [|by left].
  apply (inv_order I a t k va vb Hat); [| |done]; (split; [lia|]; split; [done|]); intros c Hcall Hid.
  - pose proof (co_id _ _ _ (inv_call I _ Hcall)). lia.
  - destruct Hc. by exists c.
Qed.

Lemma f_mem_ok e t : Inv e -> at_ e t = Running -> mem_ok e -> mem_ok (runTask_f (f t) t e).
Proof.
  intros I Ht M. assert (Hl : level e t = 2) by (unfold level; by rewrite Ht).
  unfold mem_ok in *. unfold runTask_f. cbv zeta. cbn [with_heap e_memory].
  destruct (e_err e) as [err0|] eqn:Herr.
  { destruct (f t (e_memory e)); cbn [e_err with_err with_heap]; by rewrite Herr. }
  destruct M as (A & B & C & D).
  assert (Hn : t ∉ e_order e) by (rewrite D; lia).
  assert (Hnd : NoDup (e_order e ++ [t])).
  { apply list.NoDup_app. split; [done|]. split; [|apply list.NoDup_singleton]. by intros x Hx ->%list_elem_of_singleton. }
  assert (Hord : ordered keys (e_order e ++ [t])).
  { apply ordered_snoc; [done|]. intros a Hat Hc. apply D, (running_ordered e t); [done|lia|done|done]. }
  destruct (f t (e_memory e)) as [m|err] eqn:Hf; cbn [e_err with_err with_heap e_order e_memory]; rewrite Herr.
  - split; [apply exec_app; exists (e_memory e); split; [done|]; cbn [exec]; by rewrite Hf|].
    split; [done|]. split; [done|]. intros i. rewrite elem_of_app, list_elem_of_singleton, D.
    unfold level, at_. cbn [e_heap with_heap]. unfold upd. case_decide; [subst i; cbn [t_pc with_pc rank]; intuition lia|].
    intuition.
  - exists (e_order e), t, (e_memory e). split; [done|]. split; [done|]. split; [|done].
    intros i [Hi| ->%list_elem_of_singleton]%elem_of_app; pose proof (inv_items I).
    + apply D in Hi. pose proof (inv_fresh I i). lia.
    + pose proof (inv_fresh I t). lia.
Qed.

Lemma move_mem_ok e e' t p :
  e_heap e' = upd t (with_pc p) (e_heap e) -> e_err e' = e_err e -> e_memory e' = e_memory e ->
  e_order e' = e_order e -> (e_err e = None -> 3 <= rank p <-> 3 <= level e t) -> mem_ok e -> mem_ok e'.
Proof.
  intros Hh H1 H2 H3 Hp. apply mem_ok_same; [done|done|done|]. intros Herr i. specialize (Hp Herr).
  unfold level, at_ in *. rewrite Hh. unfold upd. case_decide; [by subst i|done].
Qed.

Lemma step_mem_ok e e' : Inv e -> step e e' -> mem_ok e -> mem_ok e'.
Proof.
  intros I H.
  destruct H as [ks Hc Hlt Hks|id k v ks deps Hc Hl|id deps Hc|t rest Hq Hb|t Ht|t Ht|t rt Ht Hr Hl|t Ht Hr|t bt Ht Hb|t Ht Hb].
  - apply mem_ok_same; [done|done|done|]. intros _ i. by rewrite (new_level items maxDependencies keys).
  - assert (Hs : forall c, e_err (Run_key k v c e) = e_err e /\ e_memory (Run_key k v c e) = e_memory e /\
        e_order (Run_key k v c e) = e_order e).
    { intros c. unfold Run_key. destruct (e_nodes e !! k) as [lt|]; [|done]. destruct (decide (v = Read)); by case_match. }
    apply mem_ok_same; try apply Hs. intros _ i. unfold level, at_. by destruct (key_fields e id k v ks deps i) as [-> _].
  - apply mem_ok_same; try (unfold Run_adjust; cbv zeta; by case_decide). intros _ i. by rewrite adjust_level.
  - assert (Hin : t ∈ e_executable e) by (rewrite Hq; left).
    apply (move_mem_ok _ _ t Taken); try done. intros _. rewrite (inv_queued I t Hin). cbn [rank]. lia.
  - apply (move_mem_ok _ _ t (match e_err e with None => Running | Some _ => Clearing end)); try done.
    intros ->. unfold level. rewrite Ht. cbn [rank]. lia.
  - by apply f_mem_ok.
  - apply mem_ok_same; [done|done|done|]. intros _ i. unfold level, at_, runTask_clear. cbn [e_heap with_heap].
    unfold upd. by repeat case_decide.
  - apply (move_mem_ok _ _ t Notifying); try done. intros _. unfold level. rewrite Ht. cbn [rank]. lia.
  - apply mem_ok_same; try (unfold runTask_notify; cbv zeta; by case_decide).
    intros _ i. by rewrite notify_level.
  - apply (move_mem_ok _ _ t Done); try done. intros _. unfold level. rewrite Ht. cbn [rank]. lia.
Qed.

Lemma steps_mem_ok e e' : Inv e -> rtc step e e' -> mem_ok e -> mem_ok e'.
Proof.
  intros I H. induction H as [|x y z Hs _ IH]; [done|]. intros M.
  apply IH; [by apply (step_inv items concurrency maxDependencies keys f Hmax x)|by apply (step_mem_ok x)].
Qed.

Lemma init_mem_ok : mem_ok (NewExecutor m0).
Proof.
  split; [done|]. split; [by apply list.NoDup_nil|]. split; [by intros [|x p] b q He|].
  intros i. split; [by intros ?%not_elem_of_nil|]. unfold level, at_. cbn. lia.
Qed.

(** What is in memory at the end. *)
Lemma finished_result e :
  commutes items keys f -> rtc step (NewExecutor m0) e -> finished items e ->
  match e_err e with
  | None => exec f (seq 0 items) m0 = Ok (e_memory e)
  | Some _ => exists err, exec f (seq 0 items) m0 = Err err
  end.
Proof.
  intros Hcomm H (Hc & Ht & Hd). pose proof (init_inv items maxDependencies keys m0) as I0.
  assert (I : Inv e) by (by apply (steps_inv items concurrency maxDependencies keys f Hmax (NewExecutor m0))).
  pose proof (steps_mem_ok _ _ I0 H init_mem_ok) as M. unfold mem_ok in M. destruct (e_err e) as [err|].
  - destruct M as (l & j & m & A & B & C & D & E). by apply (exec_fails items keys f Hcomm l j m0 m err).
  - destruct M as (A & B & C & D). apply (exec_sorted items keys f Hcomm items (e_order e)); try done.
    intros i. rewrite D. split.
    + intros Hi. rewrite <- Ht. apply (inv_fresh I). lia.
    + intros Hi. unfold level. rewrite (Hd i Hi). cbn [rank]. lia.
Qed.
End memory.
