(* ===== verification/Locality.v ===== *)
(** * What a transaction depends on

    A view reads its block's state only under the keys of its scope it may
    read, and what it commits lies under those it may write.  So two views
    over different states that agree on the readable keys run every operation
    of the program alike ([local], a judgement whose rules follow the shape of
    operations), and transactions whose keys do not conflict can be run in
    either order. *)

From S2P Require Import Prelude GoErrors Lib Rules Consts Packer LinearCodec Store Permissions TState StorageKeys Balances Markets Ledger Controller BuyYes BuyNo BuySpec BuyFacts Trade CreateMarket Creation Footprint Canoto Vm KeyStore Transaction Wire Fees FeeManager Generate Processor.
#[local] Open Scope Z_scope.

(** [isUnchanged] sees the parent only through its value. *)
Lemma isUnchanged_value v k nval :
  isUnchanged v k nval =
    match parent_value v k with
    | Ok b => Ok (bool_decide (nval = Some b))
    | Err err => if decide (err = ErrNotFound) then Ok (bool_decide (nval = None)) else Err err
    end.
Proof.
  unfold isUnchanged, parent_value. destruct (changedKeys (v_ts v) !! k) as [[b|]|]; [| |done].
  - f_equal. apply bool_decide_ext. split; congruence.
  - rewrite decide_True by done. f_equal. apply bool_decide_ext. split; congruence.
Qed.

Section views.
Context (scope : gmap bytes Z) (storage : bytes -> result bytes) (ts1 ts2 : TState).

Definition readable (k : bytes) : Prop := Keys_Has scope k Read = true.
Definition writable (k : bytes) : Prop := Keys_Has scope k Write = true.

Lemma writable_readable k : writable k -> readable k.
Proof. unfold writable, readable, Keys_Has. apply Write_Read. Qed.

Definition writes_within (p : changes) : Prop := forall k x, p !! k = Some x -> writable k.
Definition ops_within (o : list op) : Prop := Forall (fun x => writable (op_k x)) o.

Lemma within_insert k x p : writable k -> writes_within p -> writes_within (<[k := x]> p).
Proof. intros Hk Hp j y. destruct (decide (j = k)) as [->|Hj]; [done|]. rewrite lookup_insert_ne by done. apply Hp. Qed.

Lemma within_delete k p : writes_within p -> writes_within (delete k p).
Proof.
  intros Hp j y. destruct (decide (j = k)) as [->|Hj]; [by rewrite lookup_delete_eq|].
  rewrite lookup_delete_ne by done. apply Hp.
Qed.

Lemma within_snoc o x : ops_within o -> writable (op_k x) -> ops_within (o ++ [x]).
Proof. intros Ho Hx. apply Forall_app. by split; [|constructor]. Qed.

(** Two views that differ in the state of the block only, and have changed
    writable keys only. *)
Inductive alike : TStateView -> TStateView -> Prop :=
| alike_intro p o a w :
    writes_within p -> ops_within o ->
    alike (mkView ts1 p o scope storage a w) (mkView ts2 p o scope storage a w).

Definition local {A} (m : GoM TStateView A) : Prop := forall v1 v2,
  alike v1 v2 -> (m v1).1 = (m v2).1 /\ alike (m v1).2 (m v2).2.

(** ** The rules *)

Lemma local_ret {A} (a : A) : local (mret a).
Proof. by intros v1 v2 H. Qed.

Lemma local_fail {A} e : local (fail e : GoM _ A).
Proof. by intros v1 v2 H. Qed.

Lemma local_fail_if c e : local (fail_if c e).
Proof. intros v1 v2 H. by destruct c. Qed.

Lemma local_lift {A} (x : result A) : local (lift x).
Proof. by intros v1 v2 H. Qed.

Lemma local_reading {A} (g : TStateView -> result A) :
  (forall v1 v2, alike v1 v2 -> g v1 = g v2) -> local (reading g).
Proof. intros Hg v1 v2 H. split; [by apply Hg|done]. Qed.

Lemma local_on_error {A} h (m : GoM _ A) : local m -> local (on_error h m).
Proof.
  intros Hm v1 v2 H. destruct (Hm v1 v2 H) as [E Ha]. unfold on_error.
  destruct (m v1) as [r1 v1'], (m v2) as [r2 v2']. cbn in E, Ha. subst r2. by destruct r1.
Qed.

Lemma local_attempt {A} (m : GoM _ A) : local m -> local (attempt m).
Proof.
  intros Hm v1 v2 H. destruct (Hm v1 v2 H) as [E Ha]. unfold attempt.
  destruct (m v1) as [r1 v1'], (m v2) as [r2 v2']. cbn in E, Ha. by subst r2.
Qed.

Lemma local_bind {A B} (m : GoM _ A) (h : A -> GoM _ B) :
  local m -> (forall a, local (h a)) -> local (m ≫= h).
Proof.
  intros Hm Hh v1 v2 H. destruct (Hm v1 v2 H) as [E Ha]. unfold mbind, GoM_bind.
  destruct (m v1) as [r1 v1'], (m v2) as [r2 v2']. cbn in E, Ha. subst r2. destruct r1; [by apply Hh|done].
Qed.

(** ** Views *)

Context (Hparent : forall k, readable k -> block_value ts1 storage k = block_value ts2 storage k).

Lemma alike_value v1 v2 k : alike v1 v2 -> readable k -> view_value v1 k = view_value v2 k.
Proof.
  intros [p o a w _ _] Hk. unfold view_value. cbn [v_pending]. destruct (p !! k); [done|]. exact (Hparent k Hk).
Qed.

Lemma alike_read v1 v2 k : alike v1 v2 -> GetValue v1 k = GetValue v2 k.
Proof.
  intros H. unfold GetValue. cbn. unfold TStateView_GetValue, checkScope.
  pose proof (alike_value v1 v2 k H) as Hv. destruct H as [p o a w _ _]. cbn [v_scope] in *.
  unfold readable in Hv. destruct (Keys_Has scope k Read); [by apply Hv|done].
Qed.

Lemma alike_changes v1 v2 p o a w :
  alike v1 v2 -> writes_within p -> ops_within o ->
  alike (with_changes p o a w v1) (with_changes p o a w v2).
Proof. intros [p' o' a' w' _ _] Hp Ho. by constructor. Qed.

Lemma local_Insert k b : local (Insert k b).
Proof.
  intros v1 v2 H. cbn [Insert TStateView_Mutable]. unfold TStateView_Insert, checkScope.
  assert (E : isUnchanged v1 k (Some b) = isUnchanged v2 k (Some b) \/ ~ readable k).
  { destruct (decide (Keys_Has scope k Read = true)) as [Hr|]; [left|by right].
    rewrite !isUnchanged_value. assert (parent_value v1 k = parent_value v2 k) as ->; [|done].
    destruct H. exact (Hparent k Hr). }
  pose proof (alike_value v1 v2 k H) as Hv. pose proof H as Hv12.
  destruct H as [p o a w Hp Ho]. cbn [v_scope v_pending v_ops v_allocates v_writes] in *.
  destruct (Keys_Has scope k Write) eqn:Hw; cbn [negb]; [|done].
  apply writable_readable in Hw as Hr. destruct E as [<-|E]; [|done]. rewrite <- (Hv Hr).
  destruct (VerifyValue k b); cbn [negb]; [|done].
  destruct (isUnchanged _ _ _) as [u|]; [|done].
  destruct (view_value _ k) as [past|err].
  - case_decide; [done|]. split; [done|].
    destruct u; apply alike_changes; auto using within_insert, within_delete, within_snoc.
  - case_decide; [|done]. destruct (Keys_Has scope k Allocate); cbn [negb]; [|done]. split; [done|].
    destruct u; apply alike_changes; auto using within_insert, within_delete, within_snoc.
Qed.

Lemma undo_alike o v1 v2 : writable (op_k o) -> alike v1 v2 -> alike (undo o v1) (undo o v2).
Proof.
  intros Hw H. pose proof H as Hv12. destruct H as [p o' a w Hp Ho]. unfold undo.
  cbn [v_pending v_ops v_allocates v_writes] in *.
  destruct (op_t o), (op_pastWrites o); apply alike_changes; auto using within_insert, within_delete.
Qed.

Lemma undo_all_alike ops : forall v1 v2, ops_within ops -> alike v1 v2 ->
  alike (foldl (fun v o => undo o v) v1 ops) (foldl (fun v o => undo o v) v2 ops).
Proof.
  induction ops as [|o ops IH]; intros v1 v2 Ho H; cbn [foldl]; [done|].
  inversion_clear Ho as [|? ? Hw Ho']. apply IH; [done|]. by apply undo_alike.
Qed.

Lemma alike_fields v1 v2 : alike v1 v2 ->
  v_ops v1 = v_ops v2 /\ v_pending v1 = v_pending v2 /\ v_allocates v1 = v_allocates v2 /\ v_writes v1 = v_writes v2 /\
  writes_within (v_pending v1) /\ ops_within (v_ops v1).
Proof. by intros []. Qed.

Lemma Rollback_alike n v1 v2 : alike v1 v2 -> alike (Rollback n v1) (Rollback n v2).
Proof.
  intros H. destruct (alike_fields _ _ H) as (Eo & _ & _ & _ & _ & Ho). unfold Rollback. rewrite <- Eo.
  assert (Hu : alike (foldl (fun v o => undo o v) v1 (rev (drop n (v_ops v1))))
                     (foldl (fun v o => undo o v) v2 (rev (drop n (v_ops v1))))).
  { apply undo_all_alike; [|done]. by apply Forall_rev, Forall_drop. }
  destruct (alike_fields _ _ Hu) as (_ & <- & <- & <- & Hp & _). apply alike_changes; [done|done|]. by apply Forall_take.
Qed.

(** ** The operations of the program *)

Lemma alike_GetBalance v1 v2 a : alike v1 v2 -> GetBalance v1 a = GetBalance v2 a.
Proof. intros H. unfold GetBalance. by rewrite (alike_read v1 v2). Qed.

Lemma alike_GetShareBalance `{Hashing} v1 v2 id a t : alike v1 v2 -> GetShareBalance v1 id a t = GetShareBalance v2 id a t.
Proof. intros Hv. unfold GetShareBalance. by rewrite (alike_read v1 v2). Qed.

Lemma alike_GetMarket v1 v2 id : alike v1 v2 -> GetMarket v1 id = GetMarket v2 id.
Proof. intros H. unfold GetMarket. by rewrite (alike_read v1 v2). Qed.
End views.

Create HintDb locality.
#[export] Hint Resolve local_ret local_fail local_fail_if local_lift local_Insert : locality.
#[export] Hint Resolve alike_read alike_GetBalance alike_GetShareBalance alike_GetMarket : locality.

(** Shows [local] of an operation from its shape. *)
Ltac localize :=
  repeat match goal with
  | |- local _ _ _ _ (_ ≫= _) => apply local_bind; [|intros ?]
  | |- local _ _ _ _ (match ?x with _ => _ end) => destruct x
  | |- local _ _ _ _ (let _ := _ in _) => cbv zeta
  | |- local _ _ _ _ (on_error _ _) => apply local_on_error
  | |- local _ _ _ _ (attempt _) => apply local_attempt
  | |- local _ _ _ _ (reading _) => apply local_reading; intros ? ? ?
  | |- local _ _ _ _ _ => solve [eauto with locality]
  | |- _ = _ => solve [eauto with locality]
  end.

Section actions.
Context `{Hashing} (scope : gmap bytes Z) (storage : bytes -> result bytes) (ts1 ts2 : TState).
Context (Hparent : forall k, readable scope k -> block_value ts1 storage k = block_value ts2 storage k).
#[local] Abbreviation local := (local scope storage ts1 ts2).
#[local] Abbreviation alike := (alike scope storage ts1 ts2).

Lemma SetBalance_local a n : local (SetBalance a n).
Proof. rewrite SetBalance_eq. eauto with locality. Qed.

Lemma SetShareBalance_local id a t n : local (SetShareBalance id a t n).
Proof. rewrite SetShareBalance_eq. eauto with locality. Qed.

Lemma SetMarket_local m : local (SetMarket m).
Proof. unfold SetMarket. localize. Qed.

Lemma DeductBalance_local a n : local (DeductBalance a n).
Proof. unfold DeductBalance. localize. apply SetBalance_local. Qed.

Lemma settle_local sd msg o actor m bal : local (settle sd msg o actor m bal).
Proof. unfold settle. localize. all: first [apply SetShareBalance_local|apply SetMarket_local|idtac]. Qed.

Lemma buy_local sd o ts actor : local (buy sd o ts actor).
Proof.
  intros v1 v2. rewrite !buy_is_reference. revert v1 v2.
  fold (local (buy_reference sd (side_messages sd o ts actor) o ts actor)).
  unfold buy_reference. localize. apply settle_local.
Qed.

Lemma CreateMarket_local cm rand_Read ts actor : local (CreateMarket_Execute cm rand_Read ts actor).
Proof. unfold CreateMarket_Execute. localize. apply SetMarket_local. Qed.

(** ** Transactions *)

Lemma program_action_local a ts actor : program_action a -> local (Execute a ts actor).
Proof.
  intros [b|b|cm r]; cbn.
  - destruct b. apply (buy_local Yes (mkOrder _ _ _) ts actor).
  - destruct b. apply (buy_local No (mkOrder _ _ _) ts actor).
  - apply CreateMarket_local.
Qed.

Lemma run_actions_local actions ts actor : forall outputs v1 v2,
  Forall program_action actions -> alike v1 v2 ->
  (run_actions actions ts actor outputs v1).1 = (run_actions actions ts actor outputs v2).1 /\
  alike (run_actions actions ts actor outputs v1).2 (run_actions actions ts actor outputs v2).2.
Proof.
  induction actions as [|a rest IH]; intros outputs v1 v2 Hp Ha; cbn [run_actions]; [done|].
  inversion_clear Hp as [|? ? H1 Hrest]. destruct (program_action_local a ts actor H1 v1 v2 Ha) as [E Ha'].
  destruct (Execute a ts actor v1) as [r1 v1'], (Execute a ts actor v2) as [r2 v2']. cbn in E, Ha'. subst r2.
  destruct r1 as [out|e]; [by apply IH|done].
Qed.

Lemma tx_Execute_local t fee ts : program_tx t -> local (tx_Execute New t fee ts).
Proof.
  intros Hp v1 v2 Ha. unfold tx_Execute. cbn [Deduct Controller_BalanceHandler]. unfold Controller_Deduct.
  destruct (DeductBalance_local (tx_Sponsor t) fee v1 v2 Ha) as [E1 Ha1].
  destruct (DeductBalance _ _ v1) as [r1 v1'], (DeductBalance _ _ v2) as [r2 v2']. cbn in E1, Ha1. subst r2.
  destruct r1 as [[]|e]; [|done]. destruct (alike_fields _ _ _ _ _ _ Ha1) as (Eo & _).
  destruct (run_actions_local (tx_Actions t) ts (tx_Actor t) [] v1' v2' Hp Ha1) as [E2 Ha2].
  destruct (run_actions _ _ _ _ v1') as [[outs1 err1] w1], (run_actions _ _ _ _ v2') as [[outs2 err2] w2].
  cbn in E2, Ha2. injection E2 as -> ->. destruct err2; [|done]. split; [done|].
  unfold OpIndex. rewrite Eo. by apply Rollback_alike.
Qed.
End actions.

(** ** What the executor runs *)

Section tasks.
Context {R : Type} `{ChainRules R} `{AuthMethods R} `{Hashing} (ID_String : bytes -> string) (r : R) (fm : bytes) (timestamp : Z).
Context (storage : bytes -> result bytes).
#[local] Abbreviation run_task := (fun tx keys => run_task ID_String New r tx keys fm timestamp storage).

Lemma PreExecute_local tx scope ts1 ts2 v1 v2 :
  (forall k, readable scope k -> block_value ts1 storage k = block_value ts2 storage k) ->
  alike scope storage ts1 ts2 v1 v2 ->
  SignedTransaction_PreExecute ID_String New r tx fm v1 timestamp = SignedTransaction_PreExecute ID_String New r tx fm v2 timestamp.
Proof.
  intros Hp Ha. unfold SignedTransaction_PreExecute. cbn [CanDeduct Controller_BalanceHandler].
  unfold Controller_CanDeduct. by rewrite (alike_GetBalance scope storage ts1 ts2 Hp v1 v2 (Sponsor (st_Auth tx)) Ha).
Qed.

(** A state of the block with the changes of a transaction on top. *)
Definition commit_on (p : changes) (ops : nat) (ts : TState) : TState :=
  mkTState (ts_ops ts + ops) (p ∪ changedKeys ts).

(** A task that succeeds on one state of the block does the same on any other
    that agrees with it on the keys it may read, and changes writable keys
    only. *)
Lemma run_task_local tx keys ts1 ts2 res ts1' :
  program_tx (signed_tx tx) ->
  (forall k, readable keys k -> block_value ts1 storage k = block_value ts2 storage k) ->
  run_task tx keys ts1 = (Ok res, ts1') ->
  exists p n, writes_within keys p /\ ts1' = commit_on p n ts1 /\ run_task tx keys ts2 = (Ok res, commit_on p n ts2).
Proof.
  intros Hpr Hp. unfold Processor.run_task. cbv zeta.
  assert (Ha : alike keys storage ts1 ts2 (TState_NewView ts1 keys storage) (TState_NewView ts2 keys storage)).
  { constructor; [|constructor]. intros k x. by rewrite lookup_empty. }
  rewrite <- (PreExecute_local tx keys ts1 ts2 _ _ Hp Ha).
  destruct (SignedTransaction_PreExecute _ _ _ _ _ _ _) as [[]|e]; [|done].
  assert (Hl : local keys storage ts1 ts2 (SignedTransaction_Execute New r tx fm timestamp)).
  { unfold SignedTransaction_Execute. localize. by apply tx_Execute_local. }
  destruct (Hl _ _ Ha) as [E Ha'].
  destruct (SignedTransaction_Execute _ _ _ _ _ (TState_NewView ts1 _ _)) as [r1 v1],
    (SignedTransaction_Execute _ _ _ _ _ (TState_NewView ts2 _ _)) as [r2 v2]. cbn in E, Ha'. subst r2.
  destruct r1 as [res1|e]; [|done]. intros [= -> <-]. destruct Ha' as [p o a w Hw _].
  exists p, (length o). split; [done|]. split; [done|]. done.
Qed.

(** Keys of two tasks that may be written by one and read by the other. *)
Definition disjoint_keys (ka kb : gmap bytes Z) : Prop := forall k, ~ (writable ka k /\ readable kb k).

Lemma commit_on_value p n ts k :
  block_value (commit_on p n ts) storage k =
    match p !! k with
    | Some (Some b) => Ok b
    | Some None => Err ErrNotFound
    | None => block_value ts storage k
    end.
Proof.
  unfold block_value, parent_value. cbn [v_ts TState_NewView changedKeys commit_on v_storage].
  destruct (p !! k) as [o|] eqn:Ex; [by rewrite (lookup_union_Some_l _ _ _ _ Ex)|by rewrite lookup_union_r].
Qed.

Lemma commit_on_reads ka kb p n ts : writes_within ka p -> disjoint_keys ka kb ->
  forall k, readable kb k -> block_value (commit_on p n ts) storage k = block_value ts storage k.
Proof.
  intros Hp Hd k Hk. rewrite commit_on_value. destruct (p !! k) as [x|] eqn:Ex; [|done].
  destruct (Hd k). split; [by apply (Hp k x)|done].
Qed.

Lemma commit_on_comm ka kb p q n m ts :
  writes_within ka p -> writes_within kb q -> disjoint_keys ka kb ->
  commit_on p n (commit_on q m ts) = commit_on q m (commit_on p n ts).
Proof.
  intros Hp Hq Hd. unfold commit_on. cbn [ts_ops changedKeys]. f_equal; [lia|].
  rewrite !map_union_assoc. f_equal. apply map_union_comm, map_disjoint_spec. intros k x y Hx Hy.
  apply (Hd k). split; [by apply (Hp k x)|]. apply writable_readable. by apply (Hq k y).
Qed.

(** Tasks whose keys do not conflict can be swapped. *)
Lemma run_task_swap ta tb ka kb ts resa resb ts1 ts2 :
  program_tx (signed_tx ta) -> program_tx (signed_tx tb) -> disjoint_keys ka kb -> disjoint_keys kb ka ->
  run_task ta ka ts = (Ok resa, ts1) -> run_task tb kb ts1 = (Ok resb, ts2) ->
  exists ts1', run_task tb kb ts = (Ok resb, ts1') /\ run_task ta ka ts1' = (Ok resa, ts2).
Proof.
  intros Ha Hb Hab Hba Ea Eb.
  destruct (run_task_local ta ka ts ts resa ts1 Ha (fun _ _ => eq_refl) Ea) as (p & n & Hp & -> & _).
  destruct (run_task_local tb kb _ ts resb ts2 Hb (commit_on_reads ka kb p n ts Hp Hab) Eb) as (q & m & Hq & -> & Eb').
  exists (commit_on q m ts). split; [exact Eb'|].
  destruct (run_task_local ta ka ts (commit_on q m ts) resa (commit_on p n ts) Ha) as (p' & n' & Hp' & E & Ea');
    [|exact Ea|].
  - intros k Hk. symmetry. by apply (commit_on_reads kb ka).
  - by rewrite E, (commit_on_comm kb ka q p' m n' ts Hq Hp' Hba).
Qed.
End tasks.
