(* ===== verification/ExecutorCorrect.v ===== *)
(** * The executor: correctness

    The executor's own contract, over any tasks: a task runs after the earlier
    ones it conflicts with, and every execution ends with all tasks run.  And
    the block the program executes with it: [executeTxs] run on several cores
    gives what running the transactions one after another gives, because
    transactions whose keys do not conflict commute (Locality.v). *)

From stdpp Require Import relations.
From S2P Require Import Prelude GoErrors Lib Rules Strconv Consts Packer LinearCodec Store Permissions TState StorageKeys Balances Markets Ledger Controller BuyYes BuyNo BuySpec BuyFacts Trade CreateMarket ActionBytes Examples Footprint Canoto Vm KeyStore Cli Transaction Wire Fees FeeManager Generate Processor ChainCorrect LoadCorrect ProcessorCorrect Admission Executor ExecutorInv ExecutorSteps ExecutorRuns Schedule Locality.
#[local] Open Scope nat_scope.

#[local] Existing Instance some_crypto.
#[local] Existing Instance ED25519_AuthMethods.

(** ** executeTxs on the executor *)

(** chain/consts.go *)
Definition MaxKeyDependencies : Z := 100000000.

Section parallel.
Context `{Hashing} {R : Type} `{ChainRules R} `{AuthMethods R} (ID_String : bytes -> string) (r : R).

(** What the tasks share: the block's state, and the slice of results. *)
Definition BlockMemory : Type := TState * list (option TxResult).

Definition task_keys (tasks : list (GeneratedTx * gmap bytes Z)) (i : nat) : gmap bytes Z :=
  match tasks !! i with Some (_, stateKeys) => stateKeys | None => ∅ end.

(** The function given to [Run] for the transaction [i]. *)
Definition task_f (tasks : list (GeneratedTx * gmap bytes Z)) (feeManager : bytes) (timestamp : Z)
    (storage : bytes -> result bytes) (i : nat) (m : BlockMemory) : result BlockMemory :=
  match tasks !! i with
  | None => Ok m
  | Some (tx, stateKeys) =>
      match run_task ID_String New r tx stateKeys feeManager timestamp storage m.1 with
      | (Err err, _) => Err err
      | (Ok result, ts) => Ok (ts, <[i := Some result]> m.2)
      end
  end.

(** What [executeTxs] may return.  When the loop stops at a transaction, the
    outcome of those already queued does not matter; else it is what [Wait]
    finds after some execution. *)
Inductive executes (cores : nat) (txs : list GeneratedTx) (timestamp : Z) (storage : bytes -> result bytes)
    (feeManager : bytes) : result (list (option TxResult) * TState) * bytes -> Prop :=
| executes_stopped err feeManager' :
    plan_txs New r txs feeManager = (Err err, feeManager') ->
    executes cores txs timestamp storage feeManager (Err err, feeManager')
| executes_done plan feeManager' e :
    plan_txs New r txs feeManager = (Ok plan, feeManager') ->
    let tasks := zip txs plan in
    rtc (step (length txs) cores MaxKeyDependencies (task_keys tasks) (task_f tasks feeManager' timestamp storage))
      (NewExecutor (fresh_block, replicate (length txs) None)) e ->
    forall err, Wait (length txs) e = Some err ->
    executes cores txs timestamp storage feeManager
      (match err with Some err => Err err | None => Ok ((e_memory e).2, (e_memory e).1) end, feeManager').

(** ** Tasks of transactions commute *)

Lemma disjoint_of_conflict (ka kb : gmap bytes Z) (keys : nat -> gmap bytes Z) (a b : nat) :
  keys a = ka -> keys b = kb -> ~ conflict keys a b -> disjoint_keys ka kb /\ disjoint_keys kb ka.
Proof.
  assert (Hd : forall a b, ~ conflict keys a b -> disjoint_keys (keys a) (keys b)).
  { intros a' b' Hn k [Hw Hr]. apply Hn. unfold writable, readable, Keys_Has, Keys_perm in *.
    destruct (keys a' !! k) as [va|] eqn:Ea; [|done]. destruct (keys b' !! k) as [vb|] eqn:Eb; [|done].
    exists k, va, vb. split; [done|]. split; [done|]. by intros [-> _]. }
  intros <- <- Hn. split; apply Hd; [done|]. intros Hc. by apply Hn, conflict_sym.
Qed.

Lemma task_f_commutes tasks fm timestamp storage n :
  Forall (fun t => program_tx (signed_tx t.1)) tasks ->
  commutes n (task_keys tasks) (task_f tasks fm timestamp storage).
Proof.
  intros Hp a b [ts rs] m1 m2 _ _ Hab Hn. unfold task_f.
  destruct (tasks !! a) as [[ta ka]|] eqn:Ea; [|by intros [= <-] E; exists m2].
  destruct (tasks !! b) as [[tb kb]|] eqn:Eb; [|by intros E [= <-]; exists (ts, rs)].
  destruct (disjoint_of_conflict ka kb (task_keys tasks) a b) as [D1 D2];
    [unfold task_keys; by rewrite Ea|unfold task_keys; by rewrite Eb|done|].
  pose proof (Forall_lookup_1 _ _ _ _ Hp Ea) as Pa. pose proof (Forall_lookup_1 _ _ _ _ Hp Eb) as Pb.
  destruct (run_task ID_String New r ta ka fm timestamp storage (ts, rs).1) as [[resa|] ts1] eqn:Ra; [|done].
  intros [= <-]. cbn [fst snd].
  destruct (run_task ID_String New r tb kb fm timestamp storage ts1) as [[resb|] ts2] eqn:Rb; [|done].
  intros [= <-]. destruct (run_task_swap ID_String r fm timestamp storage ta tb ka kb ts resa resb ts1 ts2 Pa Pb D1 D2 Ra Rb)
    as (ts1' & E1 & E2).
  exists (ts1', <[b := Some resb]> rs). cbn [fst snd] in *. rewrite E1. split; [done|]. cbn [fst snd]. rewrite E2.
  by rewrite list_insert_insert_ne by done.
Qed.

(** Running the tasks in order is [run_tasks]. *)
Lemma exec_run_tasks fm timestamp storage : forall rest pre ts done_,
  length done_ = length pre ->
  exec (task_f (pre ++ rest) fm timestamp storage) (seq (length pre) (length rest))
    (ts, done_ ++ replicate (length rest) None) =
  match run_tasks ID_String New r rest fm timestamp storage ts with
  | (Ok results, ts') => Ok (ts', done_ ++ (Some <$> results))
  | (Err err, _) => Err err
  end.
Proof.
  induction rest as [|[tx keys] rest IH]; intros pre ts done_ Hl; cbn [length seq exec run_tasks replicate]; [done|].
  unfold task_f at 1. rewrite list_lookup_middle by done. cbn [fst snd].
  destruct (run_task ID_String New r tx keys fm timestamp storage ts) as [[res|err] ts1]; [|done].
  rewrite insert_app_r_alt by lia. rewrite Hl, Nat.sub_diag. cbn [insert list_insert].
  specialize (IH (pre ++ [(tx, keys)]) ts1 (done_ ++ [Some res])). rewrite !length_app in IH. cbn [length] in IH.
  rewrite (Nat.add_1_r (length pre)), <- !app_assoc in IH. cbn [app] in IH. rewrite IH by lia.
  destruct (run_tasks ID_String New r rest fm timestamp storage ts1) as [[results|err] ts2]; [|done].
  by rewrite <- app_assoc.
Qed.

(** Some execution is always there. *)
Lemma executes_total cores txs timestamp storage fm :
  0 < cores -> (Z.of_nat (length txs) <= MaxKeyDependencies)%Z ->
  exists out, executes cores txs timestamp storage fm out.
Proof.
  intros Hc Hmax. destruct (plan_txs New r txs fm) as [[plan|err] fm'] eqn:Hp; [|by eexists; eapply executes_stopped].
  destruct (finishes (length txs) cores MaxKeyDependencies (task_keys (zip txs plan))
    (task_f (zip txs plan) fm' timestamp storage) Hmax Hc (NewExecutor (fresh_block, replicate (length txs) None)))
    as (e & He & Hf); [apply init_inv|].
  apply finished_Wait in Hf. eexists. by eapply executes_done.
Qed.

(** The keys of a plan, one for each transaction. *)
Lemma plan_txs_length txs : forall fm plan fm', plan_txs New r txs fm = (Ok plan, fm') -> length plan = length txs.
Proof.
  induction txs as [|tx txs IH]; intros fm plan fm'; cbn [plan_txs]; [by intros [= <- <-]|].
  destruct (tx_StateKeys New (signed_tx tx)) as [keys|]; [|done].
  destruct (SignedTransaction_Units New r tx) as [units|]; [|done].
  destruct (Manager_Consume fm units (GetMaxBlockUnits r)) as [[d|] g]; [done|].
  destruct (plan_txs New r txs g) as [[plan1|] fm1] eqn:Ep; [|done]. intros [= <- <-]. cbn [length]. f_equal.
  by apply (IH g plan1 fm1).
Qed.

Lemma executes_result cores txs timestamp storage fm out :
  Forall (fun tx => program_tx (signed_tx tx)) txs -> (Z.of_nat (length txs) <= MaxKeyDependencies)%Z ->
  executes cores txs timestamp storage fm out ->
  match out, executeTxs ID_String New r txs timestamp storage fm with
  | (Ok (results, block), g), (Ok (results', block'), g') => results = map Some results' /\ block = block' /\ g = g'
  | (Err _, g), (Err _, g') => g = g'
  | _, _ => False
  end.
Proof.
  intros Hp Hmax Hx. unfold executeTxs. destruct Hx as [err g Ep|plan g e Ep tasks He err Hw]; rewrite Ep; [done|].
  assert (Hlen : length tasks = length txs).
  { unfold tasks. rewrite length_zip_with, (plan_txs_length txs _ _ _ Ep). lia. }
  assert (Hpt : Forall (fun t => program_tx (signed_tx t.1)) tasks).
  { apply Forall_forall. intros [tx keys] Hin. rewrite Forall_forall in Hp. apply Hp. by apply in_combine_l in Hin. }
  assert (Hf : finished (length txs) e).
  { apply finished_Wait. rewrite Hw. f_equal. unfold Wait in Hw. case_decide; [|done]. by injection Hw. }
  apply finished_Wait in Hf as Hw'. rewrite Hw in Hw'. injection Hw' as ->.
  pose proof (finished_result (length txs) cores MaxKeyDependencies _ _ _ Hmax e
    (task_f_commutes tasks g timestamp storage (length txs) Hpt) He Hf) as Hres.
  pose proof (exec_run_tasks g timestamp storage tasks [] fresh_block [] eq_refl) as Hseq.
  cbn [length app] in Hseq. rewrite Hlen in Hseq. rewrite Hseq in Hres. fold tasks.
  destruct (run_tasks ID_String New r tasks g timestamp storage fresh_block) as [[results|err'] block];
    destruct (e_err e) as [err|]; try done.
  - by destruct Hres.
  - injection Hres as <-. cbn [fst snd]. done.
Qed.
End parallel.

(** ** Two demonstration tasks and a third

    Tasks 0 and 1 write the key [[1]], task 2 only its own; each adds to a
    counter of its key.  On two workers. *)

Definition demo_keys (i : nat) : gmap bytes Z :=
  match i with 0 | 1 => {[ [1%Z] := Write ]} | _ => {[ [2%Z] := Write ]} end.

Definition demo_f (i : nat) (m : nat * nat) : result (nat * nat) :=
  match i with 0 => Ok (m.1 + 5, m.2) | 1 => Ok (m.1 * 2, m.2) | _ => Ok (m.1, m.2 + 1) end.

#[local] Abbreviation demo_step := (step 3 2 100 demo_keys demo_f).

(** All three are queued, task 2 runs first, then task 0, and task 1 is taken
    once task 0 has told it. *)
Definition demo_moves : list move :=
  [MNew; MKey; MAdjust; MNew; MKey; MAdjust; MNew; MKey; MAdjust;
   MTake; MTake; MCheck 2; MF 2; MLock 2; MDone 2; MCheck 0; MF 0; MLock 0; MNotify 0 1; MDone 0; MTake; MCheck 1].

Definition demo_executor : Executor (nat * nat) :=
  default (NewExecutor (1, 0)) (perform_all 3 2 100 demo_keys demo_f demo_moves (NewExecutor (1, 0))).

Lemma default_perform {A} (o : option A) d :
  match o with Some _ => true | None => false end = true -> o = Some (default d o).
Proof. by destruct o. Qed.

Lemma demo_execution : rtc demo_step (NewExecutor (1, 0)) demo_executor.
Proof.
  apply (perform_steps 3 2 100 demo_keys demo_f demo_moves). apply default_perform. by vm_compute.
Qed.

(** To the end: task 2 ran first, and the memory is what running 0, 1 and 2
    in turn leaves. *)
Example demo_finishes :
  exists e, rtc demo_step (NewExecutor (1, 0)) e /\ Wait 3 e = Some None /\ e_order e = [2; 0; 1] /\
    exec demo_f [0; 1; 2] (1, 0) = Ok (e_memory e).
Proof.
  exists (default (NewExecutor (1, 0))
    (perform_all 3 2 100 demo_keys demo_f (demo_moves ++ [MF 1; MLock 1; MDone 1]) (NewExecutor (1, 0)))).
  split; [|by vm_compute]. eapply perform_steps, default_perform. by vm_compute.
Qed.

(** ** The executor's contract *)

(** C14: conflicting tasks run in the order they were queued.  In every state
    an execution of the executor reaches, when a worker has taken a task, every
    earlier task that shares a key with it, unless both only read the key, is
    past its function: it has been taken before, checked, and is not running. *)
Theorem executor_orders_conflicts {Mem} items cores maxDependencies keys f (m0 : Mem) e a b :
  (Z.of_nat items <= maxDependencies)%Z ->
  rtc (step items cores maxDependencies keys f) (NewExecutor m0) e ->
  a < b -> conflict keys a b -> at_ e b <> Waiting ->
  at_ e a <> Waiting /\ at_ e a <> Taken /\ at_ e a <> Running.
Proof.
  intros Hmax He Hab Hc Hb.
  assert (I : Inv items maxDependencies keys e).
  { apply (steps_inv items cores maxDependencies keys f Hmax (NewExecutor m0)); [apply init_inv|done]. }
  assert (Ha : 3 <= level e a).
  { apply (running_ordered items maxDependencies keys e b a I); [|done|done]. unfold level. by destruct (at_ e b); cbn [rank]; try lia. }
  unfold level in Ha. by destruct (at_ e a); cbn [rank] in Ha; try lia.
Qed.

Lemma executor_orders_conflicts_witness :
  at_ demo_executor 1 = Running /\ at_ demo_executor 0 <> Waiting /\ at_ demo_executor 0 <> Taken /\
  at_ demo_executor 0 <> Running.
Proof.
  split; [by vm_compute|].
  apply (executor_orders_conflicts 3 2 100 demo_keys demo_f (1, 0) demo_executor 0 1);
    [done|exact demo_execution|lia| |by vm_compute].
  exists [1%Z], Write, Write. split; [by vm_compute|]. split; [by vm_compute|]. by intros [? _].
Defined.

(** C15: executions end.  No execution of the executor goes on for ever, one
    that has not come to the end can go on, and it has come to the end just
    when Wait returns: no deadlock, and every task is run.  The channel never
    holds more tasks than it has room for. *)
Theorem executor_terminates {Mem} items cores maxDependencies keys f (m0 : Mem) e :
  (Z.of_nat items <= maxDependencies)%Z -> 0 < cores ->
  rtc (step items cores maxDependencies keys f) (NewExecutor m0) e ->
  sn (step items cores maxDependencies keys f) e /\
  ((exists e', step items cores maxDependencies keys f e e') <-> Wait items e = None) /\
  length (e_executable e) <= items.
Proof.
  intros Hmax Hc He.
  assert (I : Inv items maxDependencies keys e).
  { apply (steps_inv items cores maxDependencies keys f Hmax (NewExecutor m0)); [apply init_inv|done]. }
  split; [by apply (terminates items cores maxDependencies keys f Hmax)|].
  split; [|by apply (executable_length items cores maxDependencies keys Hc)].
  split.
  - intros [e' Hs]. destruct (Wait items e) eqn:Hw; [|done]. exfalso.
    apply (finished_stuck items cores maxDependencies keys f Hc e e' I); [|done].
    apply finished_Wait. unfold Wait in *. by case_decide.
  - intros Hw. destruct (progress items cores maxDependencies keys f Hc e I) as [Hf|Hs]; [|done].
    apply finished_Wait in Hf. congruence.
Qed.

Lemma executor_terminates_witness :
  sn demo_step demo_executor /\ ((exists e', demo_step demo_executor e') <-> Wait 3 demo_executor = None) /\
  length (e_executable demo_executor) <= 3.
Proof. apply (executor_terminates 3 2 100 demo_keys demo_f (1, 0) demo_executor); [done|lia|exact demo_execution]. Defined.

(** ** Blocks on the executor *)

(** C13: several cores give what one gives.  For a block of the program's
    transactions some execution of executeTxs on the executor exists, on any
    number of workers, and each of them, whatever the schedule, returns the
    results and the state that running the transactions one after another
    returns, or fails when that fails, and leaves the same fee manager. *)
Theorem parallel_executeTxs `{Hashing} {R} `{ChainRules R} `{AuthMethods R} ID_String (r : R) cores txs timestamp
    storage fm :
  Forall (fun tx => program_tx (signed_tx tx)) txs -> (Z.of_nat (length txs) <= MaxKeyDependencies)%Z -> 0 < cores ->
  (exists out, executes ID_String r cores txs timestamp storage fm out) /\
  forall out, executes ID_String r cores txs timestamp storage fm out ->
  match out, executeTxs ID_String New r txs timestamp storage fm with
  | (Ok (results, block), g), (Ok (results', block'), g') => results = map Some results' /\ block = block' /\ g = g'
  | (Err _, g), (Err _, g') => g = g'
  | _, _ => False
  end.
Proof. intros Hp Hmax Hc. split; [by apply executes_total|]. intros out. by apply executes_result. Qed.

Lemma parallel_executeTxs_witness :
  let txs := [demo_signed 1000; demo_signed 10000] in
  (exists out, executes demo_ID_String NewDefaultRules 4 txs 500 demo_parent demo_manager out) /\
  forall out, executes demo_ID_String NewDefaultRules 4 txs 500 demo_parent demo_manager out ->
  match out, executeTxs demo_ID_String New NewDefaultRules txs 500 demo_parent demo_manager with
  | (Ok (results, block), g), (Ok (results', block'), g') => results = map Some results' /\ block = block' /\ g = g'
  | (Err _, g), (Err _, g') => g = g'
  | _, _ => False
  end.
Proof.
  intros txs. assert (Hp : Forall (fun tx => program_tx (signed_tx tx)) txs).
  { constructor; [|constructor; [|constructor]]; apply wt_program, demo_signed_wf; auto. }
  assert (Hl : (Z.of_nat (length txs) <= MaxKeyDependencies)%Z) by (cbn; unfold MaxKeyDependencies; lia).
  apply (parallel_executeTxs demo_ID_String NewDefaultRules 4 txs 500 demo_parent demo_manager Hp Hl). lia.
Defined.

(** C16: a transaction depends on its keys only.  On two states of the block
    that agree on the keys a transaction may read, one of the program's
    transactions that succeeds on the first succeeds on the second with the
    same result; afterwards the states agree on those keys again, and neither
    has changed a key it may not write. *)
Theorem task_depends_on_keys `{Hashing} {R} `{ChainRules R} `{AuthMethods R} ID_String (r : R) tx keys fm timestamp
    storage ts1 ts2 res ts1' :
  program_tx (signed_tx tx) ->
  (forall k, Keys_Has keys k Read = true -> block_value ts1 storage k = block_value ts2 storage k) ->
  run_task ID_String New r tx keys fm timestamp storage ts1 = (Ok res, ts1') ->
  exists ts2', run_task ID_String New r tx keys fm timestamp storage ts2 = (Ok res, ts2') /\
  (forall k, Keys_Has keys k Read = true -> block_value ts1' storage k = block_value ts2' storage k) /\
  forall k, Keys_Has keys k Write = false ->
    block_value ts1' storage k = block_value ts1 storage k /\ block_value ts2' storage k = block_value ts2 storage k.
Proof.
  intros Hp Hk E. destruct (run_task_local ID_String r fm timestamp storage tx keys ts1 ts2 res ts1' Hp Hk E)
    as (p & n & Hw & -> & E2).
  exists (commit_on p n ts2). split; [exact E2|]. split.
  - intros k Hr. rewrite !commit_on_value. destruct (p !! k); [done|by apply Hk].
  - intros k Hn. rewrite !commit_on_value. destruct (p !! k) as [x|] eqn:Ex; [|done].
    apply Hw in Ex. unfold writable in Ex. congruence.
Qed.

(** The demonstration keys of alice's buy, and a state of the block that has
    changed another key. *)
Definition demo_task_keys : gmap bytes Z :=
  match tx_StateKeys New (signed_tx (demo_signed 1000)) with Ok keys => keys | Err _ => ∅ end.

Definition demo_other_block : TState := mkTState 1 {[ [9%Z; 9%Z] := Some [1%Z] ]}.

Lemma demo_other_agrees k : Keys_Has demo_task_keys k Read = true ->
  block_value fresh_block demo_parent k = block_value demo_other_block demo_parent k.
Proof.
  intros Hk. unfold block_value, parent_value. cbn [v_ts TState_NewView changedKeys fresh_block demo_other_block v_storage].
  rewrite lookup_empty. destruct (decide (k = [9%Z; 9%Z])) as [->|Hn]; [|by rewrite lookup_singleton_ne].
  assert (Keys_Has demo_task_keys [9%Z; 9%Z] Read = false) by (by vm_compute). congruence.
Qed.

Definition demo_task (block : TState) : result TxResult * TState :=
  run_task demo_ID_String New NewDefaultRules (demo_signed 1000) demo_task_keys demo_manager 500 demo_parent block.

Definition demo_result : TxResult :=
  match (demo_task fresh_block).1 with Ok res => res | Err _ => mkTxResult (mkResult false [] []) [] 0 end.

Lemma demo_task_ok : demo_task fresh_block = (Ok demo_result, (demo_task fresh_block).2).
Proof.
  unfold demo_result. assert (E : is_ok (demo_task fresh_block).1 = true) by (by vm_compute).
  destruct (demo_task fresh_block) as [[res|err] block]; [done|discriminate E].
Qed.

Lemma task_depends_on_keys_witness :
  exists ts2', demo_task demo_other_block = (Ok demo_result, ts2') /\
  (forall k, Keys_Has demo_task_keys k Read = true ->
     block_value (demo_task fresh_block).2 demo_parent k = block_value ts2' demo_parent k) /\
  forall k, Keys_Has demo_task_keys k Write = false ->
    block_value (demo_task fresh_block).2 demo_parent k = block_value fresh_block demo_parent k /\
    block_value ts2' demo_parent k = block_value demo_other_block demo_parent k.
Proof.
  assert (Hp : program_tx (signed_tx (demo_signed 1000))) by (apply wt_program, demo_signed_wf; by left).
  exact (task_depends_on_keys demo_ID_String NewDefaultRules (demo_signed 1000) demo_task_keys demo_manager 500
    demo_parent fresh_block demo_other_block demo_result (demo_task fresh_block).2 Hp demo_other_agrees demo_task_ok).
Defined.
