(* ===== verification/Heap.v ===== *)
(** * Heaps by identifier (hypersdk/internal/heap)

    [heap.Heap] keeps its entries in the order of Go's container/heap, by
    value, and in a map by ID.  [up] and [down] are the loops of that
    package: the first halves the index, the second doubles it, so the index
    and the length bound their rounds. *)

From S2P Require Import Prelude GoErrors.
#[local] Open Scope Z_scope.

(** An entry without its [Index], which only removing at an index reads. *)
Record Entry (I : Type) := mkEntry { en_ID : bytes; en_Item : I; en_Val : Z }.
Arguments mkEntry {_} _ _ _.
Arguments en_ID {_} _.
Arguments en_Item {_} _.
Arguments en_Val {_} _.

(** [Heap] with its [innerHeap]; of the map by ID, the keys. *)
Record Heap (I : Type) := mkHeap { isMinHeap : bool; h_items : list (Entry I); h_lookup : gset bytes }.
Arguments mkHeap {_} _ _ _.
Arguments isMinHeap {_} _.
Arguments h_items {_} _.
Arguments h_lookup {_} _.

Definition parent (i : nat) : nat := ((i - 1) / 2)%nat.

Definition parent_law (i : nat) : Prop :=
  (i = 0 /\ parent i = 0 \/ 2 * parent i + 1 = i \/ 2 * parent i + 2 = i)%nat.

Lemma parent_spec i : parent_law i.
Proof.
  unfold parent_law, parent. destruct i as [|i]; [by left|right]. replace (S i - 1)%nat with i by lia.
  pose proof (Nat.div_mod_eq i 2). pose proof (Nat.mod_upper_bound i 2 ltac:(lia)). lia.
Qed.

(** Arithmetic with parents of indices. *)
Ltac parent_lia :=
  repeat match goal with
  | |- context [parent ?i] => lazymatch goal with _ : parent_law i |- _ => fail | _ => pose proof (parent_spec i) end
  | _ : context [parent ?i] |- _ => lazymatch goal with _ : parent_law i |- _ => fail | _ => pose proof (parent_spec i) end
  end; unfold parent_law in *; lia.

Section heap.
Context {I : Type}.
Implicit Types (l : list (Entry I)) (h : Heap I).

Definition NewHeap (isMin : bool) : Heap I := mkHeap isMin [] ∅.

Definition Len h : nat := length (h_items h).

Definition Less (isMin : bool) (i j : nat) l : bool :=
  match l !! i, l !! j with
  | Some a, Some b => if isMin then en_Val a <? en_Val b else en_Val b <? en_Val a
  | _, _ => false
  end.

Definition Swap (i j : nat) l : list (Entry I) :=
  match l !! i, l !! j with
  | Some a, Some b => <[i := b]> (<[j := a]> l)
  | _, _ => l
  end.

(** container/heap: [up] from [j], at most [fuel] rounds. *)
Fixpoint up (fuel : nat) (isMin : bool) (j : nat) l : list (Entry I) :=
  let i := parent j in
  match fuel with
  | O => l
  | S fuel => if (i =? j)%nat || negb (Less isMin j i l) then l else up fuel isMin i (Swap i j l)
  end.

(** container/heap: [down] from [i] among the first [n]. *)
Fixpoint down (fuel : nat) (isMin : bool) (i n : nat) l : list (Entry I) :=
  let j1 := (2 * i + 1)%nat in
  match fuel with
  | O => l
  | S fuel =>
      if (n <=? j1)%nat then l
      else
        let j2 := (j1 + 1)%nat in
        let j := if (j2 <? n)%nat && Less isMin j2 j1 l then j2 else j1 in
        if negb (Less isMin j i l) then l else down fuel isMin j n (Swap i j l)
  end.

(** [Push], over [innerHeap.Push], which ignores an ID it has. *)
Definition Heap_Push (e : Entry I) h : Heap I :=
  let '(l, lookup) :=
    if decide (en_ID e ∈ h_lookup h) then (h_items h, h_lookup h)
    else (h_items h ++ [e], {[en_ID e]} ∪ h_lookup h) in
  mkHeap (isMinHeap h) (up (length l) (isMinHeap h) (length l - 1) l) lookup.

Definition Heap_Pop h : option (Entry I) * Heap I :=
  let n := (Len h - 1)%nat in
  let l := down n (isMinHeap h) 0 n (Swap 0 n (h_items h)) in
  match l !! n with
  | None => (None, h)
  | Some e => (Some e, mkHeap (isMinHeap h) (take n l) (h_lookup h ∖ {[en_ID e]}))
  end.

Definition First h : option (Entry I) := h_items h !! 0%nat.

(** [Get]: the position of an entry, which is the [Index] it keeps. *)
Definition Get (id : bytes) h : option nat := fst <$> list_find (fun e => en_ID e = id) (h_items h).

Definition Has (id : bytes) h : bool := bool_decide (id ∈ h_lookup h).

(** Whether [down] from [i] leaves the list as it is. *)
Definition down_stays (isMin : bool) (i n : nat) l : bool :=
  let j1 := (2 * i + 1)%nat in
  (n <=? j1)%nat ||
  let j2 := (j1 + 1)%nat in
  let j := if (j2 <? n)%nat && Less isMin j2 j1 l then j2 else j1 in
  negb (Less isMin j i l).

(** [Remove] at an index: container/heap moves the last entry there, then down
    or up. *)
Definition Heap_Remove (i : nat) h : option (Entry I) * Heap I :=
  if (Len h <=? i)%nat then (None, h)
  else
    let n := (Len h - 1)%nat in
    let isMin := isMinHeap h in
    let l :=
      if (n =? i)%nat then h_items h
      else
        let l := Swap i n (h_items h) in
        if down_stays isMin i n l then up n isMin i l else down n isMin i n l in
    match l !! n with
    | None => (None, h)
    | Some e => (Some e, mkHeap isMin (take n l) (h_lookup h ∖ {[en_ID e]}))
    end.

(** ** Order *)

Section order.
Variable isMin : bool.

(** What the heap is heap_ordered by. *)
Definition prio (e : Entry I) : Z := if isMin then en_Val e else - en_Val e.

Definition val l (i : nat) : Z := match l !! i with Some e => prio e | None => 0 end.

(** The first [n] entries are a heap. *)
Definition heap_ordered l (n : nat) : Prop := forall i, (0 < i < n)%nat -> val l (parent i) <= val l i.

Lemma Less_val i j l : (i < length l)%nat -> (j < length l)%nat -> Less isMin i j l = (val l i <? val l j).
Proof.
  intros [a Ha]%lookup_lt_is_Some [b Hb]%lookup_lt_is_Some. unfold Less, val. rewrite Ha, Hb. unfold prio.
  destruct isMin; [done|]. destruct (Z.ltb_spec (en_Val b) (en_Val a)), (Z.ltb_spec (- en_Val a) (- en_Val b)); lia.
Qed.

Lemma length_Swap i j l : length (Swap i j l) = length l.
Proof. unfold Swap. destruct (l !! i), (l !! j); by rewrite ?length_insert. Qed.

Lemma val_Swap i j l k : (i < length l)%nat -> (j < length l)%nat ->
  val (Swap i j l) k = if decide (k = i) then val l j else if decide (k = j) then val l i else val l k.
Proof.
  intros Hi Hj. pose proof (proj2 (lookup_lt_is_Some l i) Hi) as [a Ha].
  pose proof (proj2 (lookup_lt_is_Some l j) Hj) as [b Hb]. unfold Swap, val. rewrite Ha, Hb.
  case_decide as E1; [subst; by rewrite list_lookup_insert_eq by (by rewrite length_insert)|].
  rewrite list_lookup_insert_ne by done.
  case_decide as E2; [subst; by rewrite list_lookup_insert_eq|]. by rewrite list_lookup_insert_ne by done.
Qed.

Lemma Swap_permutation i j l : Swap i j l ≡ₚ l.
Proof.
  unfold Swap. destruct (l !! i) as [a|] eqn:Ha; [|done]. destruct (l !! j) as [b|] eqn:Hb; [|done].
  by apply (Permutation_insert_swap l j i b a).
Qed.
(** [up] restores the order when only [j] may be below its parent ... *)
Lemma up_ordered n fuel : forall j l, (n <= length l)%nat -> (j < n)%nat -> (j <= fuel)%nat ->
  (forall i, (0 < i < n)%nat -> i <> j -> val l (parent i) <= val l i) ->
  (forall i, (0 < i < n)%nat -> parent i = j -> (0 < j)%nat -> val l (parent j) <= val l i) ->
  heap_ordered (up fuel isMin j l) n.
Proof.
  induction fuel as [|fuel IH]; intros j l Hn Hj Hf H1 H2; cbn [up].
  { intros i Hi. apply H1; [done|lia]. }
  destruct (Nat.eqb_spec (parent j) j) as [Hp|Hp]; cbn [orb].
  { intros i Hi. apply H1; [done|]. intros ->. parent_lia. }
  assert (Hlt : (parent j < j)%nat) by parent_lia.
  rewrite Less_val by lia. destruct (Z.ltb_spec (val l j) (val l (parent j))) as [Hv|Hv]; cbn [negb].
  2: { intros i Hi. destruct (decide (i = j)) as [->|]; [done|by apply H1]. }
  assert (Hs : forall k, val (Swap (parent j) j l) k =
      if decide (k = parent j) then val l j else if decide (k = j) then val l (parent j) else val l k)
    by (intros k; apply val_Swap; lia).
  apply IH; rewrite ?length_Swap; [done|lia|lia| |].
  - intros i Hi Hne. destruct (decide (i = j)) as [->|Hij]; rewrite !Hs.
    + rewrite decide_True by done. rewrite decide_False by lia. rewrite decide_True by done. lia.
    + rewrite (decide_False (P := i = parent j)), (decide_False (P := i = j)) by done.
      destruct (decide (parent i = parent j)) as [E|E].
      * pose proof (H1 i Hi Hij) as H. rewrite E in H. lia.
      * case_decide as E'; [|by apply H1]. specialize (H2 i Hi E' ltac:(lia)). done.
  - intros i Hi Hpi H0. assert (Hgp : val l (parent (parent j)) <= val l (parent j)) by (apply H1; lia).
    assert (Hlt2 : (parent (parent j) < parent j)%nat) by parent_lia.
    rewrite !Hs. rewrite (decide_False (P := parent (parent j) = parent j)) by lia.
    rewrite (decide_False (P := parent (parent j) = j)) by lia.
    destruct (decide (i = parent j)) as [->|Hi1]; [parent_lia|].
    destruct (decide (i = j)) as [->|Hi2]; [done|]. pose proof (H1 i Hi Hi2) as H. rewrite Hpi in H. lia.
Qed.

(** ... and [down] when only [i] may be above its children. *)
Lemma down_ordered n fuel : forall i l, (n <= length l)%nat -> (n - i <= fuel)%nat ->
  (forall k, (0 < k < n)%nat -> parent k <> i -> val l (parent k) <= val l k) ->
  (forall k, (0 < k < n)%nat -> parent k = i -> (0 < i)%nat -> val l (parent i) <= val l k) ->
  heap_ordered (down fuel isMin i n l) n.
Proof.
  induction fuel as [|fuel IH]; intros i l Hn Hf H1 H2; cbn [down].
  { intros k Hk. apply H1; [done|]. parent_lia. }
  destruct (Nat.leb_spec n (2 * i + 1)) as [Hj1|Hj1].
  { intros k Hk. apply H1; [done|]. parent_lia. }
  set (j := if ((2 * i + 1 + 1 <? n)%nat && Less isMin (2 * i + 1 + 1) (2 * i + 1) l) then (2 * i + 1 + 1)%nat else (2 * i + 1)%nat).
  assert (Hj : (0 < j < n)%nat /\ parent j = i /\ (i < j)%nat /\
      forall k, (0 < k < n)%nat -> parent k = i -> val l j <= val l k).
  { assert (Hk : forall k, parent k = i -> (0 < k)%nat -> k = (2 * i + 1)%nat \/ k = (2 * i + 1 + 1)%nat)
      by (intros k Hpk Hk0; parent_lia).
    unfold j. destruct (Nat.ltb_spec (2 * i + 1 + 1) n) as [Hj2|Hj2]; cbn [andb].
    - rewrite Less_val by lia. destruct (Z.ltb_spec (val l (2 * i + 1 + 1)) (val l (2 * i + 1)));
        (split; [lia|]; split; [parent_lia|]; split; [lia|]);
        intros k Hk0 Hpk; destruct (Hk k Hpk ltac:(lia)) as [-> | ->]; lia.
    - split; [lia|]. split; [parent_lia|]. split; [lia|].
      intros k Hk0 Hpk. destruct (Hk k Hpk ltac:(lia)) as [-> | ->]; lia. }
  clearbody j. destruct Hj as (Hjn & Hpj & Hij & Hmin).
  rewrite Less_val by lia. destruct (Z.ltb_spec (val l j) (val l i)) as [Hv|Hv]; cbn [negb].
  2: { intros k Hk. destruct (decide (parent k = i)) as [E|E]; [|by apply H1].
       rewrite E. specialize (Hmin k Hk E). lia. }
  assert (Hs : forall k, val (Swap i j l) k = if decide (k = i) then val l j else if decide (k = j) then val l i else val l k)
    by (intros k; apply val_Swap; lia).
  apply IH; rewrite ?length_Swap; [done|lia| |].
  - intros k Hk Hn'. rewrite !Hs. rewrite (decide_False (P := parent k = j)) by done.
    destruct (decide (k = i)) as [->|Hki].
    + rewrite (decide_False (P := parent i = i)) by parent_lia. specialize (H2 j Hjn Hpj ltac:(lia)). done.
    + destruct (decide (k = j)) as [->|Hkj]; [rewrite (decide_True (P := parent j = i)) by done; lia|].
      destruct (decide (parent k = i)) as [E|E]; [by apply Hmin|by apply H1].
  - intros k Hk Hpk H0. rewrite !Hs, Hpj, decide_True by done.
    rewrite (decide_False (P := k = i)), (decide_False (P := k = j)) by parent_lia.
    specialize (H1 k Hk). rewrite Hpk in H1. apply H1. lia.
Qed.

Lemma up_permutation fuel : forall j l, up fuel isMin j l ≡ₚ l.
Proof.
  induction fuel as [|fuel IH]; intros j l; cbn [up]; [done|]. destruct (_ || _); [done|].
  by rewrite IH, Swap_permutation.
Qed.

Lemma down_permutation fuel : forall i n l, down fuel isMin i n l ≡ₚ l.
Proof.
  induction fuel as [|fuel IH]; intros i n l; cbn [down]; [done|]. destruct (_ <=? _)%nat; [done|].
  destruct (negb _); [done|]. by rewrite IH, Swap_permutation.
Qed.

(** [down] stays within the first [n]. *)
Lemma down_lookup n fuel : forall i l k, (i < n)%nat -> (n <= k)%nat -> down fuel isMin i n l !! k = l !! k.
Proof.
  induction fuel as [|fuel IH]; intros i l k Hi Hk; cbn [down]; [done|].
  destruct (Nat.leb_spec n (2 * i + 1)) as [|Hj]; [done|].
  match goal with |- context [Less isMin ?x i l] => set (j := x) end. assert (Hjn : (j < n)%nat).
  { unfold j. destruct (Nat.ltb_spec (2 * i + 1 + 1) n); cbn [andb]; [case_match; lia|lia]. }
  destruct (negb _); [done|]. rewrite IH by done. unfold Swap. destruct (l !! i), (l !! j); try done.
  by rewrite !list_lookup_insert_ne by lia.
Qed.

Lemma up_lookup n fuel : forall i l k, (i < n)%nat -> (n <= k)%nat -> up fuel isMin i l !! k = l !! k.
Proof.
  induction fuel as [|fuel IH]; intros i l k Hi Hk; cbn [up]; [done|]. destruct (_ || _); [done|].
  rewrite IH by parent_lia. unfold Swap. destruct (l !! parent i), (l !! i); try done.
  by rewrite !list_lookup_insert_ne by parent_lia.
Qed.

(** Where [down] stays, the children are not below. *)
Lemma down_stays_children i n l : (n <= length l)%nat -> (i < n)%nat -> down_stays isMin i n l = true ->
  forall k, (0 < k < n)%nat -> parent k = i -> val l i <= val l k.
Proof.
  intros Hn Hi Hs k Hk Hpk. assert (Hk2 : k = (2 * i + 1)%nat \/ k = (2 * i + 1 + 1)%nat) by (clear Hs; parent_lia).
  unfold down_stays in Hs. destruct (Nat.leb_spec n (2 * i + 1)) as [|Hj]; [lia|]. cbn [orb] in Hs.
  apply negb_true_iff in Hs. destruct (Nat.ltb_spec (2 * i + 1 + 1) n) as [Hj2|Hj2]; cbn [andb] in Hs.
  - rewrite (Less_val (2 * i + 1 + 1) (2 * i + 1)) in Hs by lia.
    destruct (Z.ltb_spec (val l (2 * i + 1 + 1)) (val l (2 * i + 1)));
      rewrite Less_val in Hs by lia; apply Z.ltb_ge in Hs; destruct Hk2 as [-> | ->]; lia.
  - rewrite Less_val in Hs by lia. apply Z.ltb_ge in Hs. destruct Hk2 as [-> | ->]; lia.
Qed.

Lemma down_moves_child i n l : (n <= length l)%nat -> (i < n)%nat -> down_stays isMin i n l = false ->
  exists k, (0 < k < n)%nat /\ parent k = i /\ val l k < val l i.
Proof.
  intros Hn Hi Hs. unfold down_stays in Hs. destruct (Nat.leb_spec n (2 * i + 1)) as [|Hj]; [done|]. cbn [orb] in Hs.
  apply negb_false_iff in Hs. destruct (Nat.ltb_spec (2 * i + 1 + 1) n) as [Hj2|Hj2]; cbn [andb] in Hs.
  - destruct (Less isMin (2 * i + 1 + 1) (2 * i + 1) l); rewrite Less_val in Hs by lia; apply Z.ltb_lt in Hs;
      eexists; (split; [|split; [|exact Hs]]); [lia|parent_lia|lia|parent_lia].
  - rewrite Less_val in Hs by lia. apply Z.ltb_lt in Hs. exists (2 * i + 1)%nat. split; [lia|]. split; [parent_lia|done].
Qed.

(** The first of a heap is of the least priority. *)
Lemma ordered_first l n : heap_ordered l n -> forall i, (i < n)%nat -> val l 0 <= val l i.
Proof.
  intros Ho i. induction (lt_wf i) as [i _ IH]. intros Hi. destruct i as [|i]; [lia|].
  specialize (Ho (S i) ltac:(lia)). specialize (IH (parent (S i)) ltac:(parent_lia) ltac:(parent_lia)). lia.
Qed.
End order.

(** ** Heaps *)

Record wf_heap h : Prop := {
  hp_ordered : heap_ordered (isMinHeap h) (h_items h) (Len h);
  hp_ids : NoDup (en_ID <$> h_items h);
  hp_lookup id : id ∈ h_lookup h <-> id ∈ en_ID <$> h_items h;
}.

Lemma NewHeap_wf isMin : wf_heap (NewHeap isMin).
Proof.
  split; [|by apply list.NoDup_nil|].
  - intros i Hi. cbn in Hi. lia.
  - intros id. split; [by intros ?%not_elem_of_empty|by intros ?%not_elem_of_nil].
Qed.

Lemma Heap_Push_spec e h : wf_heap h -> en_ID e ∉ en_ID <$> h_items h ->
  wf_heap (Heap_Push e h) /\ h_items (Heap_Push e h) ≡ₚ e :: h_items h /\ isMinHeap (Heap_Push e h) = isMinHeap h.
Proof.
  intros [Ho Hn Hl] He. unfold Heap_Push. rewrite decide_False by (by rewrite Hl).
  set (l := h_items h ++ [e]). set (m := isMinHeap h).
  assert (Hp : up (length l) m (length l - 1) l ≡ₚ e :: h_items h).
  { rewrite up_permutation. unfold l. by rewrite Permutation_app_comm. }
  assert (Hlen : length l = S (Len h)) by (unfold l, Len; rewrite length_app; cbn; lia).
  assert (Hval : forall i, (i < Len h)%nat -> val m l i = val m (h_items h) i)
    by (intros i Hi; unfold val, l; by rewrite lookup_app_l).
  split; [|by split]. split; cbn [h_items h_lookup isMinHeap].
  - unfold Len at 1. cbn [h_items]. rewrite (Permutation_length Hp). cbn [length]. fold (Len h). rewrite <- Hlen.
    apply up_ordered; [done|lia|lia| |].
    + intros i Hi Hne. rewrite !Hval by parent_lia. apply Ho. lia.
    + intros i Hi Hpi _. parent_lia.
  - rewrite Hp. cbn. by apply list.NoDup_cons.
  - intros id. rewrite Hp. cbn. rewrite elem_of_union, elem_of_singleton, elem_of_cons, Hl. done.
Qed.

Lemma Heap_Pop_spec e h : wf_heap h -> First h = Some e ->
  exists h', Heap_Pop h = (Some e, h') /\ wf_heap h' /\ h_items h ≡ₚ e :: h_items h' /\ isMinHeap h' = isMinHeap h.
Proof.
  intros [Ho Hn Hl] He. unfold First in He. unfold Heap_Pop. set (n := (Len h - 1)%nat). set (m := isMinHeap h) in *.
  assert (H0 : (0 < Len h)%nat) by (apply lookup_lt_Some in He; exact He).
  set (l1 := Swap 0 n (h_items h)). assert (Hlen1 : length l1 = Len h) by apply length_Swap.
  assert (Hlast1 : l1 !! n = Some e).
  { unfold l1, Swap. rewrite He. destruct (proj2 (lookup_lt_is_Some (h_items h) n)) as [b Hb]; [unfold n, Len in *; lia|].
    rewrite Hb. destruct (decide (n = 0)%nat) as [->|Hne].
    - rewrite list_lookup_insert_eq by (rewrite length_insert; exact H0). congruence.
    - rewrite list_lookup_insert_ne by done. apply list_lookup_insert_eq. unfold n, Len in *. lia. }
  set (l := down n m 0 n l1). assert (Hperm : l ≡ₚ h_items h) by (unfold l, l1; by rewrite down_permutation, Swap_permutation).
  assert (Hlen : length l = Len h) by exact (Permutation_length Hperm).
  assert (Hlast : l !! n = Some e).
  { destruct (decide (n = 0)%nat) as [Hz|Hne]; [unfold l; by rewrite Hz in *|]. unfold l. rewrite down_lookup by lia. done. }
  assert (Hsplit : l = take n l ++ [e]).
  { rewrite <- (take_drop n l) at 1. f_equal. rewrite (drop_S _ e) by done. by rewrite drop_ge by (unfold n in *; lia). }
  rewrite Hlast. eexists. split; [done|]. cbn [h_items isMinHeap].
  assert (Hp : h_items h ≡ₚ e :: take n l).
  { rewrite <- Hperm. rewrite Hsplit at 1. by rewrite Permutation_app_comm. }
  split; [|by split]. rewrite Hp in Hn. cbn in Hn. apply list.NoDup_cons in Hn as [Hn1 Hn2].
  split; cbn [h_items h_lookup isMinHeap]; [|done|].
  - unfold Len. cbn [h_items]. rewrite length_take, Nat.min_l by (unfold n; lia).
    assert (Hd : heap_ordered m l n).
    { apply down_ordered; [unfold n; lia|lia| |lia]. intros k Hk Hpk. unfold l1.
      rewrite !val_Swap by (fold (Len h); unfold n; lia).
      rewrite !decide_False by (unfold n in *; parent_lia). apply Ho. unfold n in Hk. lia. }
    intros i Hi. unfold val. rewrite !lookup_take_lt by parent_lia. by apply (Hd i).
  - intros id. rewrite elem_of_difference, elem_of_singleton, Hl, Hp. cbn. rewrite elem_of_cons. split.
    + by intros [[->|Hin] Hne].
    + intros Hin. split; [by right|]. by intros ->.
Qed.

(** After the last entry is moved to [i], the first [n] are put in order. *)
Lemma remove_ordered (m : bool) i n l : heap_ordered m l (S n) -> length l = S n -> (i < n)%nat ->
  heap_ordered m (if down_stays m i n (Swap i n l) then up n m i (Swap i n l) else down n m i n (Swap i n l)) n.
Proof.
  intros Ho Hl Hi. set (l1 := Swap i n l).
  assert (Hl1 : length l1 = S n) by (unfold l1; by rewrite length_Swap).
  assert (Hv : forall k, (k < n)%nat -> k <> i -> val m l1 k = val m l k)
    by (intros k Hk Hne; unfold l1; rewrite val_Swap by lia; by rewrite !decide_False by lia).
  assert (Hgrand : forall k, (0 < k < n)%nat -> parent k = i -> (0 < i)%nat -> val m l1 (parent i) <= val m l1 k).
  { intros k Hk Hpk H0. rewrite !Hv by parent_lia. pose proof (Ho i ltac:(lia)) as A.
    pose proof (Ho k ltac:(lia)) as B. rewrite Hpk in B. lia. }
  assert (Hkeep : forall k, (0 < k < n)%nat -> k <> i -> parent k <> i -> val m l1 (parent k) <= val m l1 k)
    by (intros k Hk Hn1 Hn2; rewrite !Hv by parent_lia; apply Ho; lia).
  destruct (down_stays m i n l1) eqn:Es.
  - apply up_ordered; [lia|lia|lia| |exact Hgrand]. intros k Hk Hne. destruct (decide (parent k = i)) as [Hp|Hp].
    + rewrite Hp. by apply (down_stays_children m i n l1); [lia|lia|..].
    + by apply Hkeep.
  - apply down_ordered; [lia|lia| |exact Hgrand]. intros k Hk Hp. destruct (decide (k = i)) as [->|Hne]; [|by apply Hkeep].
    destruct (down_moves_child m i n l1) as (c & Hc & Hpc & Hlt); [lia|lia|done|].
    specialize (Hgrand c Hc Hpc ltac:(lia)). lia.
Qed.

Lemma Heap_Remove_spec i e h : wf_heap h -> h_items h !! i = Some e ->
  exists h', Heap_Remove i h = (Some e, h') /\ wf_heap h' /\ h_items h ≡ₚ e :: h_items h' /\ isMinHeap h' = isMinHeap h.
Proof.
  intros [Ho Hn Hl] He. pose proof (lookup_lt_Some _ _ _ He) as Hi. fold (Len h) in Hi. unfold Heap_Remove.
  destruct (Nat.leb_spec (Len h) i) as [|_]; [lia|]. set (n := (Len h - 1)%nat). set (m := isMinHeap h) in *.
  assert (Hlen : length (h_items h) = S n) by (unfold n, Len in *; lia).
  set (l := if (n =? i)%nat then h_items h else _).
  assert (Hl3 : l ≡ₚ h_items h /\ l !! n = Some e /\ heap_ordered m l n).
  { unfold l. destruct (Nat.eqb_spec n i) as [<-|Hne].
    - split; [done|]. split; [done|]. intros k Hk. apply Ho. unfold n in Hk. lia.
    - assert (Hin : (i < n)%nat) by (unfold n; lia). assert (Hlast : Swap i n (h_items h) !! n = Some e).
      { unfold Swap. rewrite He. destruct (proj2 (lookup_lt_is_Some (h_items h) n)) as [b Hb]; [lia|]. rewrite Hb.
        rewrite list_lookup_insert_ne by lia. apply list_lookup_insert_eq. lia. }
      pose proof (remove_ordered m i n (h_items h)) as Hr.
      split; [|split; [|apply Hr; [|done|done]; by replace (S n) with (Len h) by (unfold n; lia)]].
      + destruct (down_stays _ _ _ _); by rewrite ?up_permutation, ?down_permutation, Swap_permutation.
      + destruct (down_stays _ _ _ _); [by rewrite (up_lookup m n)|by rewrite down_lookup]. }
  clearbody l. destruct Hl3 as (Hperm & Hlast & Hord). rewrite Hlast. eexists. split; [done|]. cbn [h_items isMinHeap].
  assert (Hlen' : length l = S n) by (by rewrite (Permutation_length Hperm)).
  assert (Hsplit : l = take n l ++ [e]).
  { rewrite <- (take_drop n l) at 1. f_equal. rewrite (drop_S _ e) by done. by rewrite drop_ge by lia. }
  assert (Hp : h_items h ≡ₚ e :: take n l).
  { rewrite <- Hperm. rewrite Hsplit at 1. by rewrite Permutation_app_comm. }
  split; [|by split]. rewrite Hp in Hn. cbn in Hn. apply list.NoDup_cons in Hn as [Hn1 Hn2].
  split; cbn [h_items h_lookup isMinHeap]; [|done|].
  - unfold Len. cbn [h_items]. rewrite length_take, Nat.min_l by lia.
    intros k Hk. unfold val. rewrite !lookup_take_lt by parent_lia. by apply (Hord k).
  - intros id. rewrite elem_of_difference, elem_of_singleton, Hl, Hp. cbn. rewrite elem_of_cons. split.
    + by intros [[->|Hin] Hne].
    + intros Hin. split; [by right|]. by intros ->.
Qed.

Lemma Get_Some id i h : Get id h = Some i -> exists e, h_items h !! i = Some e /\ en_ID e = id.
Proof.
  unfold Get. destruct (list_find _ _) as [[j e]|] eqn:E; [|done]. cbn. intros [= <-].
  apply list_find_Some in E as (Hj & <- & _). by exists e.
Qed.

Lemma Get_None id h : Get id h = None -> id ∉ en_ID <$> h_items h.
Proof.
  unfold Get. destruct (list_find _ _) as [[j e]|] eqn:E; [done|]. intros _ (e & -> & He)%list_elem_of_fmap.
  apply list_find_None in E. rewrite list.Forall_forall in E. by apply (E e).
Qed.

(** The first is the least. *)
Lemma First_least e h : wf_heap h -> First h = Some e ->
  forall x, x ∈ h_items h -> prio (isMinHeap h) e <= prio (isMinHeap h) x.
Proof.
  intros [Ho _ _] He x [i Hi]%list_elem_of_lookup.
  pose proof (ordered_first _ _ _ Ho i (lookup_lt_Some _ _ _ Hi)) as H. unfold val in H. unfold First in He. by rewrite He, Hi in H.
Qed.

Lemma First_None h : First h = None -> h_items h = [].
Proof. unfold First. by destruct (h_items h). Qed.
End heap.
