(* ===== verification/EMap.v ===== *)
(** * The eviction map (hypersdk/internal/emap)

    The identifiers seen with their expiry, in buckets by expiry, the buckets
    in a heap.  It is a set of pairs ([holds]): adding inserts a pair unless
    the identifier is there, and [SetMin] removes exactly the pairs that have
    expired. *)

From S2P Require Import Prelude GoErrors Heap.
#[local] Open Scope Z_scope.

(** [emap.Item]. *)
Class Item (T : Type) := {
  GetID : T -> bytes;
  GetExpiry : T -> Z;
}.

(** [times] holds the buckets; an entry of the heap points to its bucket, and
    here keeps the time the bucket is under. *)
Record EMap := mkEMap {
  bh : Heap Z;
  seen : gset bytes;
  times : gmap Z (list bytes);
}.

Definition NewEMap : EMap := mkEMap (NewHeap true) ∅ ∅.

Definition emap_add (id : bytes) (t : Z) (e : EMap) : EMap :=
  if t =? 0 then e
  else if decide (id ∈ seen e) then e
  else
    let seen := {[id]} ∪ seen e in
    match times e !! t with
    | Some items => mkEMap (bh e) seen (<[t := items ++ [id]]> (times e))
    | None => mkEMap (Heap_Push (mkEntry id t t) (bh e)) seen (<[t := [id]]> (times e))
    end.

Definition EMap_Add {T} `{Item T} (items : list T) (e : EMap) : EMap :=
  foldl (fun e item => emap_add (GetID item) (GetExpiry item) e) e items.

(** The loop of [SetMin]; a round takes an entry off the heap. *)
Fixpoint SetMin_loop (fuel : nat) (t : Z) (evicted : list bytes) (e : EMap) : list bytes * EMap :=
  match fuel with
  | O => (evicted, e)
  | S fuel =>
      match First (bh e) with
      | None => (evicted, e)
      | Some b =>
          if t <=? en_Val b then (evicted, e)
          else
            let items := default [] (times e !! en_Item b) in
            SetMin_loop fuel t (evicted ++ items)
              (mkEMap (snd (Heap_Pop (bh e))) (seen e ∖ list_to_set items) (delete (en_Val b) (times e)))
      end
  end.

Definition SetMin (t : Z) (e : EMap) : list bytes * EMap := SetMin_loop (S (Len (bh e))) t [] e.

Definition EMap_Any {T} `{Item T} (items : list T) (e : EMap) : bool :=
  existsb (fun item => bool_decide (GetID item ∈ seen e)) items.

(** [Contains], from the index [i] on; a marker is a set of bits. *)
Fixpoint Contains_from {T} `{Item T} (i : Z) (items : list T) (marker : Z) (stop : bool) (e : EMap) : Z :=
  match items with
  | [] => marker
  | item :: items =>
      if Z.testbit marker i then Contains_from (i + 1) items marker stop e
      else if decide (GetID item ∈ seen e) then
        let marker := Z.setbit marker i in
        if stop then marker else Contains_from (i + 1) items marker stop e
      else Contains_from (i + 1) items marker stop e
  end.

Definition EMap_Contains {T} `{Item T} (items : list T) (marker : Z) (stop : bool) (e : EMap) : Z :=
  Contains_from 0 items marker stop e.

(** ** What it holds *)

Definition holds (e : EMap) (id : bytes) (t : Z) : Prop :=
  exists items, times e !! t = Some items /\ id ∈ items.

Record wf_emap (e : EMap) : Prop := {
  em_heap : wf_heap (bh e);
  em_min : isMinHeap (bh e) = true;
  em_entry x : x ∈ h_items (bh e) -> en_Item x = en_Val x /\ holds e (en_ID x) (en_Val x);
  em_vals : NoDup (en_Val <$> h_items (bh e));
  em_times t : is_Some (times e !! t) <-> t ∈ en_Val <$> h_items (bh e);
  em_unique id t t' : holds e id t -> holds e id t' -> t = t';
  em_seen id : id ∈ seen e <-> exists t, holds e id t;
}.

Lemma NewEMap_wf : wf_emap NewEMap.
Proof.
  split; cbn [bh seen times NewEMap].
  - apply NewHeap_wf.
  - done.
  - intros x Hx. by apply not_elem_of_nil in Hx.
  - by apply list.NoDup_nil.
  - intros t. rewrite lookup_empty. split; [by intros [? ?]|by intros ?%not_elem_of_nil].
  - intros id t t' (l & Hl & _). cbn [times NewEMap] in Hl. by rewrite lookup_empty in Hl.
  - intros id. split; [by intros ?%not_elem_of_empty|]. intros (t & l & Hl & _). cbn [times NewEMap] in Hl. by rewrite lookup_empty in Hl.
Qed.

(** Adding under a time whose bucket becomes [items ++ [id]]. *)
Lemma holds_insert e bh' seen' id t items :
  times e !! t = Some items \/ times e !! t = None /\ items = [] ->
  forall i u, holds (mkEMap bh' seen' (<[t := items ++ [id]]> (times e))) i u <-> holds e i u \/ i = id /\ u = t.
Proof.
  intros Ht i u. unfold holds. cbn [times]. destruct (decide (u = t)) as [->|Hu].
  - rewrite lookup_insert_eq. split.
    + intros (l & [= <-] & Hi). apply elem_of_app in Hi as [Hi|Hi]; [left|right; by apply list_elem_of_singleton in Hi].
      destruct Ht as [Ht|[_ ->]]; [by exists items|by apply not_elem_of_nil in Hi].
    + intros [(l & Hl & Hi)|[-> _]]; eexists; (split; [done|]); rewrite elem_of_app, list_elem_of_singleton; [left|by right].
      destruct Ht as [Ht|[Ht _]]; congruence.
  - rewrite lookup_insert_ne by done. split; [by left|]. intros [H|[_ ->]]; done.
Qed.

Lemma emap_add_spec id t e : wf_emap e ->
  wf_emap (emap_add id t e) /\
  forall i u, holds (emap_add id t e) i u <-> holds e i u \/ i = id /\ u = t /\ t <> 0 /\ id ∉ seen e.
Proof.
  intros W. unfold emap_add. destruct (Z.eqb_spec t 0) as [Ht|Ht]; [split; [done|]; intuition|].
  case_decide as Hs; [split; [done|]; intuition|].
  assert (Hnew : forall e', (forall i u, holds e' i u <-> holds e i u \/ i = id /\ u = t) ->
      (forall i u, holds e' i u <-> holds e i u \/ i = id /\ u = t /\ t <> 0 /\ id ∉ seen e) /\
      (forall i u u', holds e' i u -> holds e' i u' -> u = u') /\
      (forall i, i ∈ {[id]} ∪ seen e <-> exists u, holds e' i u)).
  { intros e' He. assert (Hno : forall u, ~ holds e id u) by (intros u Hu; apply Hs, (em_seen e W); by exists u).
    split; [intros i u; rewrite He; intuition|]. split.
    - intros i u u'. rewrite !He. intros [H|[-> ->]] [H'|[E ->]]; [by apply (em_unique e W i)| |by destruct (Hno u')|done].
      subst. by destruct (Hno u).
    - intros i. rewrite elem_of_union, elem_of_singleton, (em_seen e W). split.
      + intros [->|[u Hu]]; [exists t|exists u]; apply He; [by right|by left].
      + intros [u [Hu|[-> _]]%He]; [right; by exists u|by left]. }
  destruct (times e !! t) as [items|] eqn:Hb.
  - set (e' := mkEMap _ _ _). assert (He : forall i u, holds e' i u <-> holds e i u \/ i = id /\ u = t)
      by (apply holds_insert; by left).
    destruct (Hnew e' He) as (H1 & H2 & H3). split; [|exact H1]. split; try done; try apply W.
    + intros x Hx. destruct (em_entry e W x Hx) as [A B]. split; [done|]. apply He. by left.
    + intros u. cbn [times e' bh]. rewrite <- (em_times e W). rewrite lookup_insert_is_Some'.
      split; [intros [<-|H]; [by rewrite Hb|done]|by right].
  - assert (Hid : en_ID (mkEntry id t t) ∉ en_ID <$> h_items (bh e)).
    { cbn. intros (x & -> & Hx)%list_elem_of_fmap. apply Hs, (em_seen e W). eexists. by apply (em_entry e W x Hx). }
    destruct (Heap_Push_spec _ _ (em_heap e W) Hid) as (P1 & P2 & P3).
    set (e' := mkEMap _ _ _). assert (He : forall i u, holds e' i u <-> holds e i u \/ i = id /\ u = t)
      by (apply (holds_insert e _ _ id t []); by right).
    destruct (Hnew e' He) as (H1 & H2 & H3). split; [|exact H1]. split; cbn [bh seen e']; try done.
    + rewrite P3. apply (em_min e W).
    + intros x. rewrite P2. intros [->|Hx]%elem_of_cons; cbn [en_Item en_Val en_ID]; [split; [done|]; apply He; by right|].
      destruct (em_entry e W x Hx) as [A B]. split; [done|]. apply He. by left.
    + rewrite P2. cbn. apply list.NoDup_cons. split; [|apply W]. rewrite <- (em_times e W), Hb. by intros [? ?].
    + intros u. cbn [times]. rewrite P2. cbn. rewrite elem_of_cons, <- (em_times e W), lookup_insert_is_Some'.
      split; (intros [->|H]; [by left|by right]).
Qed.

Lemma EMap_Add_spec {T} `{Item T} (items : list T) : forall e, wf_emap e ->
  (forall x y, x ∈ items -> y ∈ items -> GetID x = GetID y -> GetExpiry x = GetExpiry y) ->
  (forall x u, x ∈ items -> holds e (GetID x) u -> u = GetExpiry x) ->
  wf_emap (EMap_Add items e) /\
  forall i u, holds (EMap_Add items e) i u <->
    holds e i u \/ exists x, x ∈ items /\ i = GetID x /\ u = GetExpiry x /\ u <> 0.
Proof.
  induction items as [|x items IH]; intros e W Hxy Hold; cbn [EMap_Add foldl].
  { split; [done|]. intros i u. split; [by left|]. intros [Hi|(y & Hy & _)]; [done|by apply not_elem_of_nil in Hy]. }
  destruct (emap_add_spec (GetID x) (GetExpiry x) e W) as [W1 H1].
  destruct (IH _ W1) as [W2 H2].
  { intros y z Hy Hz. apply Hxy; by right. }
  { intros y u Hy [Hu|(E & -> & _)]%H1; [by apply Hold; [right|]|]. apply Hxy; [left|by right|done]. }
  split; [exact W2|]. intros i u. setoid_rewrite H2. rewrite H1. setoid_rewrite elem_of_cons. split.
  - intros [[Hi|(-> & -> & Ht & _)]|(y & Hy & Hr)]; [by left|right; by exists x; auto|right; by exists y; auto].
  - intros [Hi|(y & [->|Hy] & -> & -> & Ht)]; [by left; left| |right; by exists y].
    destruct (decide (GetID x ∈ seen e)) as [Hs|Hs]; [|left; by right].
    left; left. apply (em_seen e W) in Hs as [u Hu]. rewrite <- (Hold x u); [done|left|done].
Qed.

(** Taking the first bucket off. *)
Lemma evict_spec b e : wf_emap e -> First (bh e) = Some b ->
  let items := default [] (times e !! en_Item b) in
  let e' := mkEMap (snd (Heap_Pop (bh e))) (seen e ∖ list_to_set items) (delete (en_Val b) (times e)) in
  wf_emap e' /\ S (Len (bh e')) = Len (bh e) /\
  (forall i u, holds e' i u <-> holds e i u /\ u <> en_Val b) /\
  forall i, i ∈ items <-> holds e i (en_Val b).
Proof.
  intros W Hb items e'. destruct (Heap_Pop_spec b (bh e) (em_heap e W) Hb) as (h' & Hp & Wh & Hperm & Hm).
  assert (Hin : b ∈ h_items (bh e)) by (rewrite Hperm; left).
  destruct (em_entry e W b Hin) as [Hi _].
  assert (Hh : forall i u, holds e' i u <-> holds e i u /\ u <> en_Val b).
  { intros i u. unfold holds. cbn [times e']. setoid_rewrite lookup_delete_Some. split.
    - intros (l & [Hn Hl] & Hil). split; [by exists l|by apply not_eq_sym].
    - intros [(l & Hl & Hil) Hn]. exists l. split; [|done]. by split; [apply not_eq_sym|]. }
  assert (Hit : forall i, i ∈ items <-> holds e i (en_Val b)).
  { intros i. unfold items, holds. rewrite Hi. destruct (times e !! en_Val b) as [l|]; cbn [default].
    - split; [intros Hl; by exists l|]. by intros (l' & [= <-] & Hl).
    - split; [by intros ?%not_elem_of_nil|]. by intros (l' & ? & _). }
  assert (Hvals : NoDup (en_Val b :: (en_Val <$> h_items h'))).
  { pose proof (em_vals e W) as H. by rewrite Hperm in H. }
  apply list.NoDup_cons in Hvals as [Hvb Hvals].
  split; [|split; [|split; [exact Hh|exact Hit]]].
  2: { unfold Len. cbn [bh e']. rewrite Hp. cbn [snd]. by rewrite (Permutation_length Hperm). }
  split; cbn [bh seen times e']; rewrite ?Hp; cbn [snd].
  - exact Wh.
  - rewrite Hm. apply (em_min e W).
  - intros x Hx. destruct (em_entry e W x) as [A B]; [rewrite Hperm; by right|]. split; [done|]. apply Hh.
    split; [done|]. intros E. apply Hvb, list_elem_of_fmap. by exists x.
  - exact Hvals.
  - intros t. rewrite lookup_delete_is_Some, (em_times e W), Hperm. cbn. rewrite elem_of_cons. split.
    + intros [Hn [->|Ht]]; done.
    + intros Ht. split; [by intros <-|by right].
  - intros i u u' [A _]%Hh [B _]%Hh. by apply (em_unique e W i).
  - intros i. rewrite elem_of_difference, elem_of_list_to_set, (em_seen e W), Hit. setoid_rewrite Hh. split.
    + intros [[u Hu] Hn]. exists u. split; [done|]. by intros ->.
    + intros [u [Hu Hn]]. split; [by exists u|]. intros Hv. by apply Hn, (em_unique e W i).
Qed.

Lemma SetMin_loop_spec t fuel : forall evicted e, wf_emap e -> (Len (bh e) < fuel)%nat ->
  let '(evicted', e') := SetMin_loop fuel t evicted e in
  wf_emap e' /\ (forall i u, holds e' i u <-> holds e i u /\ t <= u) /\
  forall i, i ∈ evicted' <-> i ∈ evicted \/ exists u, holds e i u /\ u < t.
Proof.
  induction fuel as [|fuel IH]; intros evicted e W Hf; [lia|]. cbn [SetMin_loop].
  destruct (First (bh e)) as [b|] eqn:Hb.
  - destruct (Z.leb_spec t (en_Val b)) as [Hle|Hlt].
    + assert (Hall : forall i u, holds e i u -> t <= u).
      { intros i u (l & Hl & _). assert (Hu : u ∈ en_Val <$> h_items (bh e)) by (apply (em_times e W); by exists l).
        apply list_elem_of_fmap in Hu as (x & -> & Hx). pose proof (First_least b (bh e) (em_heap e W) Hb x Hx) as H.
        unfold prio in H. rewrite (em_min e W) in H. lia. }
      split; [done|]. split; [intros i u; split; [intros Hu; split; [done|by apply (Hall i)]|by intros []]|].
      intros i. split; [by left|]. intros [|[u [Hu Hut]]]; [done|]. specialize (Hall i u Hu). lia.
    + destruct (evict_spec b e W Hb) as (W1 & Hlen & H1 & H2).
      specialize (IH (evicted ++ default [] (times e !! en_Item b)) _ W1 ltac:(lia)).
      destruct (SetMin_loop _ _ _ _) as [evicted' e']. destruct IH as (W2 & H3 & H4). split; [done|]. split.
      * intros i u. rewrite H3, H1. split; [by intros [[? _] ?]|]. intros [Hu Hut]. split; [|done]. split; [done|lia].
      * intros i. rewrite H4, elem_of_app, H2. setoid_rewrite H1. split.
        -- intros [[Hi|Hi]|(u & [Hu _] & Hut)]; [by left|right; exists (en_Val b)|right; exists u]; done.
        -- intros [Hi|(u & Hu & Hut)]; [by left; left|].
           destruct (decide (u = en_Val b)) as [->|Hn]; [left; by right|right; by exists u].
  - apply First_None in Hb. assert (Hno : forall i u, ~ holds e i u).
    { intros i u (l & Hl & _). assert (Hu : u ∈ en_Val <$> h_items (bh e)) by (apply (em_times e W); by exists l).
      rewrite Hb in Hu. by apply not_elem_of_nil in Hu. }
    split; [done|]. split; [intros i u; split; [by intros ?%Hno|by intros [?%Hno _]]|].
    intros i. split; [by left|]. intros [|(u & ?%Hno & _)]; done.
Qed.

Lemma SetMin_spec t e : wf_emap e ->
  wf_emap (SetMin t e).2 /\ (forall i u, holds (SetMin t e).2 i u <-> holds e i u /\ t <= u) /\
  forall i, i ∈ (SetMin t e).1 <-> exists u, holds e i u /\ u < t.
Proof.
  intros W. pose proof (SetMin_loop_spec t (S (Len (bh e))) [] e W ltac:(lia)) as H. unfold SetMin.
  destruct (SetMin_loop _ _ _ _) as [evicted e']. destruct H as (A & B & C). split; [done|]. split; [done|].
  intros i. rewrite C. split; [intros [H%not_elem_of_nil|H]; done|by right].
Qed.

(** The marker after [Contains]: with [stop], what it was, or the first bit
    that was missing; without, all of them. *)
Lemma Contains_from_none {T} `{Item T} (items : list T) e : forall i stop,
  Contains_from i items 0 stop e = 0 -> 0 <= i -> forall x, x ∈ items -> GetID x ∉ seen e.
Proof.
  induction items as [|y items IH]; intros i stop; cbn [Contains_from]; [by intros _ _ x ?%not_elem_of_nil|].
  rewrite Z.bits_0. intros Hc Hi.
  case_decide as Hs.
  - exfalso. assert (Hkeep : forall l j m, 0 <= j -> Z.testbit m i = true -> Z.testbit (Contains_from j l m stop e) i = true).
    { intros l. induction l as [|z l IHl]; intros j m Hj Hm; cbn [Contains_from]; [done|].
      destruct (Z.testbit m j); [apply IHl; [lia|done]|]. case_decide; [|apply IHl; [lia|done]].
      assert (Z.testbit (Z.setbit m j) i = true) by (rewrite Z.setbit_eqb by lia; by rewrite Hm, orb_true_r).
      destruct stop; [done|apply IHl; [lia|done]]. }
    assert (Z.testbit (Z.setbit 0 i) i = true) by (by apply Z.setbit_eq).
    assert (Hbit : Z.testbit (if stop then Z.setbit 0 i else Contains_from (i + 1) items (Z.setbit 0 i) stop e) i = true)
      by (destruct stop; [done|apply Hkeep; [lia|done]]).
    rewrite Hc, Z.bits_0 in Hbit. done.
  - intros x [->|Hx]%elem_of_cons; [done|]. by apply (IH (i + 1) stop); [|lia|].
Qed.
