(* ===== verification/ValidityWindow.v ===== *)
(** * Replay protection (hypersdk/internal/validitywindow)

    A block is refused when it repeats a transaction of an ancestor within
    the validity window: the ancestors that are not accepted yet are looked
    at one by one, the accepted ones are in an eviction map.  The loops over
    the ancestors go from a block to its parent, with fuel; the number of
    blocks below is enough (WindowCorrect.v). *)

From S2P Require Import Prelude GoErrors Lib Heap EMap.
#[local] Open Scope Z_scope.

Definition ErrDuplicateContainer : error :=
  ErrVar "validitywindow.ErrDuplicateContainer" "duplicate container".

(** avalanchego/utils/set: [Bits], over a [big.Int]. *)
Definition BitLen (m : Z) : Z := if m =? 0 then 0 else Z.log2 (Z.abs m) + 1.
Definition bits_Len (m : Z) : Z :=
  Z.of_nat (length (filter (fun i => Z.testbit (Z.abs m) (Z.of_nat i) = true) (seq 0 (Z.to_nat (BitLen m))))).

(** [ExecutionBlock]: what the window reads of a block. *)
Record Block (T : Type) := mkBlock {
  blk_ID : bytes;
  blk_Parent : bytes;
  blk_Timestamp : Z;
  blk_Height : Z;
  blk_Containers : list T;
}.
Arguments mkBlock {_} _ _ _ _ _.
Arguments blk_ID {_} _.
Arguments blk_Parent {_} _.
Arguments blk_Timestamp {_} _.
Arguments blk_Height {_} _.
Arguments blk_Containers {_} _.

(** [Contains]; the set of IDs is made from the containers. *)
Definition blk_Contains {T} `{Item T} (b : Block T) (id : bytes) : bool :=
  bool_decide (id ∈ map GetID (blk_Containers b)).

Record TimeValidityWindow := mkWindow { w_seen : EMap; lastAcceptedBlockHeight : Z }.

Definition NewTimeValidityWindow : TimeValidityWindow := mkWindow NewEMap 0.

Section window.
Context {T : Type} `{Item T} (ID_String : bytes -> string).

Definition Accept (blk : Block T) (v : TimeValidityWindow) : TimeValidityWindow :=
  mkWindow (EMap_Add (blk_Containers blk) (SetMin (blk_Timestamp blk) (w_seen v)).2) (blk_Height blk).

Definition AcceptHistorical (blk : Block T) (v : TimeValidityWindow) : TimeValidityWindow :=
  mkWindow (EMap_Add (blk_Containers blk) (w_seen v)) (lastAcceptedBlockHeight v).

(** [ChainIndex.GetExecutionBlock], and the window's length at a time. *)
Context (chainIndex : bytes -> result (Block T)) (getTimeValidityWindow : Z -> Z).

Definition calculateOldestAllowed (timestamp : Z) : Z :=
  Z.max 0 (i64 (timestamp - getTimeValidityWindow timestamp)).

(** The loop over the containers at one ancestor, from the index [i]; whether
    it returned. *)
Fixpoint mark_contained (i : Z) (containers : list T) (ancestor : Block T) (marker : Z) (stop : bool) : Z * bool :=
  match containers with
  | [] => (marker, false)
  | container :: containers =>
      if Z.testbit marker i then mark_contained (i + 1) containers ancestor marker stop
      else if blk_Contains ancestor (GetID container) then
        let marker := Z.setbit marker i in
        if stop then (marker, true) else mark_contained (i + 1) containers ancestor marker stop
      else mark_contained (i + 1) containers ancestor marker stop
  end.

(** [None] when the fuel ends. *)
Fixpoint isRepeat (fuel : nat) (v : TimeValidityWindow) (ancestorBlk : Block T) (oldestAllowed : Z)
    (containers : list T) (stop : bool) (marker : Z) : option (Z * option error) :=
  match fuel with
  | O => None
  | S fuel =>
      if blk_Timestamp ancestorBlk <? oldestAllowed then Some (marker, None)
      else if (blk_Height ancestorBlk <=? lastAcceptedBlockHeight v) || (blk_Height ancestorBlk =? 0)
      then Some (EMap_Contains containers marker stop (w_seen v), None)
      else
        match mark_contained 0 containers ancestorBlk marker stop with
        | (marker, true) => Some (marker, None)
        | (marker, false) =>
            match chainIndex (blk_Parent ancestorBlk) with
            | Err err => Some (marker, Some err)
            | Ok ancestorBlk => isRepeat fuel v ancestorBlk oldestAllowed containers stop marker
            end
        end
  end.

(** [IsRepeat], from an empty marker. *)
Definition IsRepeat (fuel : nat) (v : TimeValidityWindow) (parentBlk : Block T) (currentTimestamp : Z)
    (containers : list T) : option (Z * option error) :=
  isRepeat fuel v parentBlk (calculateOldestAllowed currentTimestamp) containers false 0.

(** The loop over the block's own containers. *)
Fixpoint check_own (containers : list T) (blkContainerIDs : gset bytes) : result unit :=
  match containers with
  | [] => Ok tt
  | container :: containers =>
      if decide (GetID container ∈ blkContainerIDs)
      then Err (Errorf_w "" ErrDuplicateContainer (": " +:+ ID_String (GetID container)))
      else check_own containers ({[GetID container]} ∪ blkContainerIDs)
  end.

Definition VerifyExpiryReplayProtection (fuel : nat) (v : TimeValidityWindow) (blk : Block T)
  : option (result unit) :=
  if blk_Height blk <=? lastAcceptedBlockHeight v then Some (Ok tt)
  else
    match check_own (blk_Containers blk) ∅ with
    | Err err => Some (Err err)
    | Ok _ =>
        match chainIndex (blk_Parent blk) with
        | Err err => Some (Err err)
        | Ok parent =>
            match isRepeat fuel v parent (calculateOldestAllowed (blk_Timestamp blk)) (blk_Containers blk) true 0 with
            | None => None
            | Some (_, Some err) => Some (Err err)
            | Some (dup, None) =>
                if 0 <? bits_Len dup
                then Some (Err (Errorf_w "" ErrDuplicateContainer (": contains " +:+ fmt_d (BitLen dup)
                       +:+ " duplicates out of " +:+ fmt_d (Z.of_nat (length (blk_Containers blk))) +:+ " containers")))
                else Some (Ok tt)
            end
        end
    end.

(** The loop of [PopulateValidityWindow] that collects the block's ancestors
    until a window is filled or no more are found. *)
Fixpoint window_parents (fuel : nat) (block parent : Block T) (parents : list (Block T)) (seenValidityWindow : bool)
  : option (list (Block T) * bool) :=
  match fuel with
  | O => None
  | S fuel =>
      match chainIndex (blk_Parent parent) with
      | Err _ => Some (parents, seenValidityWindow)
      | Ok parent =>
          let parents := parents ++ [parent] in
          let seenValidityWindow :=
            getTimeValidityWindow (blk_Timestamp block) <? i64 (blk_Timestamp block - blk_Timestamp parent) in
          if seenValidityWindow then Some (parents, seenValidityWindow)
          else window_parents fuel block parent parents seenValidityWindow
      end
  end.

Definition PopulateValidityWindow (fuel : nat) (block : Block T) (v : TimeValidityWindow)
  : option (list (Block T) * bool * TimeValidityWindow) :=
  match window_parents fuel block block [block] false with
  | None => None
  | Some (parents, seenValidityWindow) =>
      Some (parents, seenValidityWindow, foldl (fun v b => Accept b v) v (rev parents))
  end.
End window.
