(* ===== verification/WindowCorrect.v ===== *)
(** * What the replay check shows

    On a chain of blocks whose accepted part is in the window, the check of a
    new block passes exactly when no transaction of it is repeated in the
    block or in the chain below it ([verify_exact]). *)

From S2P Require Import Prelude GoErrors Lib Heap EMap ValidityWindow.
#[local] Open Scope Z_scope.

(** ** Markers *)

Lemma bits_Len_zero m : bits_Len m = 0 <-> m = 0.
Proof.
  split; [|by intros ->]. unfold bits_Len, BitLen. destruct (Z.eqb_spec m 0) as [|Hm]; [done|]. intros Hl. exfalso.
  set (p := fun i : nat => Z.testbit (Z.abs m) (Z.of_nat i) = true) in *.
  assert (Hin : Z.to_nat (Z.log2 (Z.abs m)) ∈ filter p (seq 0 (Z.to_nat (Z.log2 (Z.abs m) + 1)))).
  { pose proof (Z.log2_nonneg (Z.abs m)) as H0. apply list_elem_of_filter. split.
    - unfold p. rewrite Z2Nat.id by done. apply Z.bit_log2. lia.
    - apply elem_of_seq. lia. }
  destruct (filter p _) as [|i l]; [by apply not_elem_of_nil in Hin|]. cbn [length] in Hl. lia.
Qed.

Lemma bits_Len_nonneg m : 0 <= bits_Len m.
Proof. unfold bits_Len. lia. Qed.

Section markers.
Context {T : Type} `{Item T}.
Implicit Types (items : list T) (b : Block T).

(** From the empty marker, [Contains] leaves a marker exactly if an
    identifier was seen. *)
Lemma Contains_marks items e : forall i, 0 <= i ->
  Contains_from i items 0 true e <> 0 <-> exists x, x ∈ items /\ GetID x ∈ seen e.
Proof.
  induction items as [|y items IH]; intros i Hi; cbn [Contains_from].
  { split; [done|]. by intros (x & ?%not_elem_of_nil & _). }
  rewrite Z.bits_0. case_decide as Hs.
  - split; [intros _; exists y; split; [left|done]|]. intros _ E.
    assert (Hb : Z.testbit (Z.setbit 0 i) i = true) by (by apply Z.setbit_eq). by rewrite E, Z.bits_0 in Hb.
  - rewrite IH by lia. setoid_rewrite elem_of_cons. split; [intros (x & ? & ?); exists x; auto|].
    intros (x & [->|?] & ?); [done|by exists x].
Qed.

Lemma mark_contained_spec items b : forall i, 0 <= i ->
  (mark_contained i items b 0 true = (0, false) /\ forall x, x ∈ items -> GetID x ∉ map GetID (blk_Containers b)) \/
  exists m, mark_contained i items b 0 true = (m, true) /\ m <> 0 /\
    exists x, x ∈ items /\ GetID x ∈ map GetID (blk_Containers b).
Proof.
  induction items as [|y items IH]; intros i Hi; cbn [mark_contained].
  { left. split; [done|]. by intros x ?%not_elem_of_nil. }
  rewrite Z.bits_0. unfold blk_Contains. case_bool_decide as Hs.
  - right. eexists. split; [done|]. split; [|exists y; split; [left|done]]. intros E.
    assert (Hb : Z.testbit (Z.setbit 0 i) i = true) by (by apply Z.setbit_eq). by rewrite E, Z.bits_0 in Hb.
  - destruct (IH (i + 1) ltac:(lia)) as [[E Hn]|(m & E & Hm & x & Hx & Hxb)].
    + left. split; [done|]. intros x [->|Hx]%elem_of_cons; [done|by apply Hn].
    + right. exists m. split; [done|]. split; [done|]. exists x. split; [by right|done].
Qed.

(** Without [stop], what a marker says of the items whose bits it misses. *)
Lemma Contains_keeps items e k : forall i m, 0 <= i -> Z.testbit m k = true ->
  Z.testbit (Contains_from i items m false e) k = true.
Proof.
  induction items as [|y items IH]; intros i m Hi Hk; cbn [Contains_from]; [done|].
  destruct (Z.testbit m i); [by apply IH; [lia|]|]. case_decide; (apply IH; [lia|]); [|done].
  rewrite Z.setbit_eqb by lia. by rewrite Hk, orb_true_r.
Qed.

Lemma Contains_misses items e : forall i m j x, 0 <= i -> items !! j = Some x ->
  Z.testbit (Contains_from i items m false e) (i + Z.of_nat j) = false -> GetID x ∉ seen e.
Proof.
  induction items as [|y items IH]; intros i m j x Hi Hx Hb; [done|]. cbn [Contains_from] in Hb.
  destruct j as [|j]; cbn [lookup list_lookup] in Hx.
  - injection Hx as ->. replace (i + Z.of_nat 0) with i in Hb by lia. destruct (Z.testbit m i) eqn:Em.
    { rewrite Contains_keeps in Hb; [done|lia|done]. }
    case_decide; [|done]. rewrite Contains_keeps in Hb; [done|lia|]. by apply Z.setbit_eq.
  - replace (i + Z.of_nat (S j)) with (i + 1 + Z.of_nat j) in Hb by lia.
    destruct (Z.testbit m i); [|case_decide]; (eapply IH; [|exact Hx|exact Hb]; lia).
Qed.

Lemma mark_keeps items b k : forall i m, 0 <= i -> Z.testbit m k = true ->
  Z.testbit (mark_contained i items b m false).1 k = true.
Proof.
  induction items as [|y items IH]; intros i m Hi Hk; cbn [mark_contained]; [done|].
  destruct (Z.testbit m i); [by apply IH; [lia|]|]. destruct (blk_Contains b (GetID y)); (apply IH; [lia|]); [|done].
  rewrite Z.setbit_eqb by lia. by rewrite Hk, orb_true_r.
Qed.

Lemma mark_goes_on items b : forall i m, (mark_contained i items b m false).2 = false.
Proof.
  induction items as [|y items IH]; intros i m; cbn [mark_contained]; [done|].
  destruct (Z.testbit m i); [apply IH|]. destruct (blk_Contains b (GetID y)); apply IH.
Qed.

Lemma mark_misses items b : forall i m j x, 0 <= i -> items !! j = Some x ->
  Z.testbit (mark_contained i items b m false).1 (i + Z.of_nat j) = false -> GetID x ∉ map GetID (blk_Containers b).
Proof.
  induction items as [|y items IH]; intros i m j x Hi Hx Hb; [done|]. cbn [mark_contained] in Hb.
  destruct j as [|j]; cbn [lookup list_lookup] in Hx.
  - injection Hx as ->. replace (i + Z.of_nat 0) with i in Hb by lia. destruct (Z.testbit m i) eqn:Em.
    { rewrite mark_keeps in Hb; [done|lia|done]. }
    unfold blk_Contains in Hb. case_bool_decide; [|done]. rewrite mark_keeps in Hb; [done|lia|]. by apply Z.setbit_eq.
  - replace (i + Z.of_nat (S j)) with (i + 1 + Z.of_nat j) in Hb by lia.
    destruct (Z.testbit m i); [|destruct (blk_Contains b (GetID y))]; (eapply IH; [|exact Hx|exact Hb]; lia).
Qed.

Lemma check_own_spec S items : forall ids,
  (check_own S items ids = Ok tt /\ NoDup (map GetID items) /\ forall x, x ∈ items -> GetID x ∉ ids) \/
  exists x, check_own S items ids = Err (Errorf_w "" ErrDuplicateContainer (": " +:+ S (GetID x))) /\
    ~ (NoDup (map GetID items) /\ forall x, x ∈ items -> GetID x ∉ ids).
Proof.
  induction items as [|y items IH]; intros ids; cbn [check_own map].
  { left. split; [done|]. split; [by apply list.NoDup_nil|]. by intros x ?%not_elem_of_nil. }
  case_decide as Hs.
  { right. exists y. split; [done|]. intros [_ Hn]. apply (Hn y); [left|done]. }
  destruct (IH ({[GetID y]} ∪ ids)) as [(E & Hd & Hn)|(x & E & Hn)].
  - left. split; [done|]. split.
    + apply list.NoDup_cons. split; [|done]. intros (x & Ex & Hx)%list_elem_of_fmap.
      apply (Hn x Hx). rewrite <- Ex. apply elem_of_union. left. by apply elem_of_singleton.
    + intros x [->|Hx]%elem_of_cons; [done|]. intros Hi. apply (Hn x Hx), elem_of_union. by right.
  - right. exists x. split; [done|]. intros [[Hy Hd]%list.NoDup_cons Hi]. apply Hn. split; [done|].
    intros z Hz. rewrite elem_of_union, elem_of_singleton. intros [Ez|Ez].
    + apply Hy. rewrite <- Ez. by apply list_elem_of_fmap_2.
    + apply (Hi z); [by right|done].
Qed.
End markers.

(** ** Fuel: an answer does not change with more *)

Section fuel.
Context {T : Type} `{Item T} (S : bytes -> string) (c : bytes -> result (Block T)) (w : Z -> Z).

Lemma isRepeat_more v oldest items stop fuel : forall a marker res fuel', (fuel <= fuel')%nat ->
  isRepeat c fuel v a oldest items stop marker = Some res -> isRepeat c fuel' v a oldest items stop marker = Some res.
Proof.
  induction fuel as [|fuel IH]; [done|]. intros a marker res [|fuel'] Hf; [lia|]. cbn [isRepeat].
  destruct (_ <? _); [done|]. destruct (_ || _); [done|]. destruct (mark_contained _ _ _ _ _) as [marker' [|]]; [done|].
  destruct (c _) as [a'|]; [|done]. apply IH. lia.
Qed.

Lemma VerifyExpiryReplayProtection_more v b fuel fuel' res : (fuel <= fuel')%nat ->
  VerifyExpiryReplayProtection S c w fuel v b = Some res -> VerifyExpiryReplayProtection S c w fuel' v b = Some res.
Proof.
  intros Hf. unfold VerifyExpiryReplayProtection. destruct (_ <=? _); [done|]. destruct (check_own _ _ _); [|done].
  destruct (c _) as [p|]; [|done]. destruct (isRepeat _ fuel _ _ _ _ _ _) as [out|] eqn:E; [|done].
  by rewrite (isRepeat_more _ _ _ _ _ _ _ _ _ Hf E).
Qed.

Lemma window_parents_more b fuel : forall p ps flag res fuel', (fuel <= fuel')%nat ->
  window_parents c w fuel b p ps flag = Some res -> window_parents c w fuel' b p ps flag = Some res.
Proof.
  induction fuel as [|fuel IH]; [done|]. intros p ps flag res [|fuel'] Hf; [lia|]. cbn [window_parents].
  destruct (c _) as [q|]; [|done]. destruct (_ <? _); [done|]. apply IH. lia.
Qed.

Lemma PopulateValidityWindow_more v b fuel fuel' res : (fuel <= fuel')%nat ->
  PopulateValidityWindow c w fuel b v = Some res -> PopulateValidityWindow c w fuel' b v = Some res.
Proof.
  intros Hf. unfold PopulateValidityWindow. destruct (window_parents c w fuel b b [b] false) as [out|] eqn:E; [|done].
  by rewrite (window_parents_more _ _ _ _ _ _ _ Hf E).
Qed.
End fuel.

(** ** Chains *)

Section chains.
Context {T : Type} `{Item T} (expiry_of : bytes -> Z) (W : Z).
Implicit Types (b p : Block T) (l : list (Block T)).

(** The identifiers of a chain's containers. *)
Definition ids l : list bytes := b ← l; map GetID (blk_Containers b).

(** The containers of a block have an expiry that their identifier fixes, in
    the window that opens at the block. *)
Definition timely b : Prop :=
  forall x, x ∈ blk_Containers b ->
    GetExpiry x = expiry_of (GetID x) /\ blk_Timestamp b <= GetExpiry x <= blk_Timestamp b + W.

(** The time the state has after a block.  The genesis block is stamped with
    a date, but its state starts at zero, so the next block may be stamped
    earlier than it. *)
Definition state_time b : Z := if blk_Height b =? 0 then 0 else blk_Timestamp b.

Definition follows b p : Prop :=
  blk_Parent b = blk_ID p /\ blk_Height b = blk_Height p + 1 /\
  state_time p < blk_Timestamp b < 2 ^ 62 /\ timely b.

(** A chain, the newest block first; the genesis block has no containers. *)
Inductive chain : list (Block T) -> Prop :=
  | chain_genesis g : blk_Height g = 0 -> blk_Containers g = [] -> 0 <= blk_Timestamp g < 2 ^ 62 -> chain [g]
  | chain_next b p l : chain (p :: l) -> follows b p -> chain (b :: p :: l).

Lemma elem_of_ids l i : i ∈ ids l <-> exists b, b ∈ l /\ i ∈ map GetID (blk_Containers b).
Proof. unfold ids. rewrite list_elem_of_bind. split; intros (b & ? & ?); by exists b. Qed.

Lemma ids_cons b l : ids (b :: l) = map GetID (blk_Containers b) ++ ids l.
Proof. done. Qed.

Lemma ids_app l l' : ids (l ++ l') = ids l ++ ids l'.
Proof. apply bind_app. Qed.

Lemma chain_app l : forall l', chain (l ++ l') -> l' <> [] -> chain l'.
Proof.
  induction l as [|b l IH]; intros l' Hc Hn; [done|]. apply IH; [|done].
  cbn in Hc. inversion Hc as [g Hh Hg Ht E|b' p r Hp Hf E]; [by destruct l, l'|]. congruence.
Qed.

Lemma chain_tail b l : chain (b :: l) -> l <> [] -> chain l.
Proof. apply (chain_app [b]). Qed.

(** Below the head: lower, and earlier. *)
Lemma chain_below b l : chain (b :: l) ->
  0 <= blk_Height b /\ 0 <= blk_Timestamp b < 2 ^ 62 /\ 0 <= state_time b <= blk_Timestamp b /\
  forall p, p ∈ l -> 0 <= blk_Height p < blk_Height b /\ 0 <= state_time p < state_time b /\
    state_time b = blk_Timestamp b.
Proof.
  revert b. induction l as [|p l IH]; intros b Hc; inversion Hc as [g Hh _ Ht|b' p' l' Hp (_ & Hh & Ht & _)]; subst.
  { unfold state_time. rewrite Hh. cbn [Z.eqb]. split; [lia|]. split; [done|]. split; [lia|]. by intros p ?%not_elem_of_nil. }
  destruct (IH p Hp) as (H1 & H2 & H3 & H4).
  assert (E : state_time b = blk_Timestamp b) by (unfold state_time; destruct (Z.eqb_spec (blk_Height b) 0); [lia|done]).
  rewrite E. split; [lia|]. split; [lia|]. split; [lia|].
  intros q [->|Hq]%elem_of_cons; [lia|]. specialize (H4 q Hq). lia.
Qed.

Lemma chain_timely l b : chain l -> b ∈ l -> timely b.
Proof.
  induction 1 as [g Hh Hg Ht|b' p l Hc IH (_ & _ & _ & Hb)]; intros Hin.
  - apply list_elem_of_singleton in Hin as ->. intros x. rewrite Hg. by intros ?%not_elem_of_nil.
  - apply elem_of_cons in Hin as [->|Hin]; [done|by apply IH].
Qed.

(** A container of a chain is not in the genesis block, and expires after the
    time zero. *)
Lemma chain_expiry l b x : chain l -> b ∈ l -> x ∈ blk_Containers b ->
  0 < GetExpiry x /\ state_time b = blk_Timestamp b.
Proof.
  intros Hc. revert b x. induction Hc as [g Hh Hg Ht|b' p l Hc IH Hf]; intros b x Hin Hx.
  - apply list_elem_of_singleton in Hin as ->. rewrite Hg in Hx. by apply not_elem_of_nil in Hx.
  - apply elem_of_cons in Hin as [->|Hin]; [|by apply (IH b)].
    destruct (chain_below p l Hc) as (_ & _ & H0 & _). destruct (chain_below b' (p :: l)) as (_ & _ & _ & H1); [by apply chain_next|].
    destruct Hf as (_ & _ & Hl & Hb). destruct (Hb x Hx). destruct (H1 p) as (_ & _ & E); [left|]. split; [lia|done].
Qed.

Lemma chain_fixed l b x : chain l -> b ∈ l -> x ∈ blk_Containers b -> GetExpiry x = expiry_of (GetID x).
Proof. intros Hc Hb Hx. by apply (chain_timely l b Hc Hb). Qed.

(** ** The window after a chain *)

(** What the window holds comes from the blocks, and it holds all of theirs
    that have not expired at the newest. *)
Record covers (v : TimeValidityWindow) (h : Block T) (l : list (Block T)) : Prop := {
  co_wf : wf_emap (w_seen v);
  co_height : lastAcceptedBlockHeight v = blk_Height h;
  co_from i t : holds (w_seen v) i t -> t = expiry_of i /\ i ∈ ids l;
  co_all b x : b ∈ l -> x ∈ blk_Containers b -> state_time h <= GetExpiry x -> GetID x ∈ seen (w_seen v);
}.

Lemma Accept_covers v (h b : Block T) l :
  wf_emap (w_seen v) -> (forall i t, holds (w_seen v) i t -> t = expiry_of i /\ i ∈ ids l) ->
  (forall p x, p ∈ l -> x ∈ blk_Containers p -> state_time h <= GetExpiry x -> GetID x ∈ seen (w_seen v)) ->
  (forall p x, p ∈ b :: l -> x ∈ blk_Containers p -> 0 < GetExpiry x /\ GetExpiry x = expiry_of (GetID x)) ->
  (l <> [] -> state_time h <= state_time b /\ state_time b = blk_Timestamp b) -> covers (Accept b v) b (b :: l).
Proof.
  intros Wv Hfrom Hall Hx Ht. destruct (SetMin_spec (blk_Timestamp b) _ Wv) as (W1 & H1 & _).
  destruct (EMap_Add_spec (blk_Containers b) _ W1) as (W2 & H2).
  { intros x y Hbx Hby E. rewrite (proj2 (Hx b x ltac:(left) Hbx)), (proj2 (Hx b y ltac:(left) Hby)). by rewrite E. }
  { intros x u Hbx Hu. apply H1 in Hu as [Hu _]. apply Hfrom in Hu as [-> _]. symmetry. apply (Hx b); [left|done]. }
  split; cbn [Accept w_seen lastAcceptedBlockHeight]; [done|done| |].
  - intros i t. rewrite H2, H1, ids_cons, elem_of_app. intros [[Hi _]|(x & Hbx & -> & -> & _)].
    + destruct (Hfrom i t Hi). auto.
    + split; [by apply (Hx b); [left|]|left; by apply list_elem_of_fmap_2].
  - intros p x Hp Hpx Hle. apply (em_seen _ W2). destruct (Hx p x Hp Hpx) as [H0 E]. apply elem_of_cons in Hp as [->|Hp].
    + exists (GetExpiry x). apply H2. right. exists x. split_and!; [done..|lia].
    + destruct Ht as [Ht Eb]; [by intros ->; apply not_elem_of_nil in Hp|].
      assert (Hs : GetID x ∈ seen (w_seen v)) by (apply (Hall p); [done|done|lia]).
      apply (em_seen _ Wv) in Hs as [u Hu]. exists u. apply H2. left. apply H1. split; [done|].
      destruct (Hfrom _ _ Hu) as [-> _]. rewrite <- E. lia.
Qed.

Lemma chain_step b p l : chain (b :: p :: l) -> state_time p <= state_time b /\ state_time b = blk_Timestamp b.
Proof. intros Hc. destruct (chain_below _ _ Hc) as (_ & _ & _ & Hb). destruct (Hb p) as (_ & ? & ?); [left|]. split; [lia|done]. Qed.

(** The window follows the chain. *)
Lemma Accept_chain v b p l : chain (b :: p :: l) -> covers v p (p :: l) -> covers (Accept b v) b (b :: p :: l).
Proof.
  intros Hc []. apply (Accept_covers v p); [done..| |].
  - intros q x Hq Hx. split; [by apply (chain_expiry _ q _ Hc)|by apply (chain_fixed _ q _ Hc)].
  - intros _. by apply (chain_step b p l).
Qed.

(** A new node's window, at the genesis block. *)
Lemma NewTimeValidityWindow_covers g : chain [g] -> covers NewTimeValidityWindow g [g].
Proof.
  intros Hc. inversion Hc as [? Hh Hg _|]; subst. split; [apply NewEMap_wf|done| |].
  - intros i t (l & Hl & _). cbn in Hl. by rewrite lookup_empty in Hl.
  - intros b x Hb%list_elem_of_singleton Hx. rewrite Hb, Hg in Hx. by apply not_elem_of_nil in Hx.
Qed.

(** ** The walk over the ancestors *)

Definition indexed (c : bytes -> result (Block T)) l : Prop := forall b, b ∈ l -> c (blk_ID b) = Ok b.

(** What a new block asks: containers that are timely at the time [t]. *)
Definition asks (t : Z) (items : list T) : Prop :=
  forall x, x ∈ items -> GetExpiry x = expiry_of (GetID x) /\ t <= GetExpiry x.

(** A block older than the window has no container that is timely now. *)
Lemma stale t items l a : chain (a :: l) -> asks t items -> blk_Timestamp a < Z.max 0 (t - W) ->
  ~ exists x, x ∈ items /\ GetID x ∈ ids (a :: l).
Proof.
  intros Hc Ha Ht (x & Hx & (b & Hb & (y & Ey & Hy)%list_elem_of_fmap)%elem_of_ids).
  destruct (chain_timely _ b Hc Hb y Hy) as [Ef Hw]. destruct (Ha x Hx) as [Ef' Hw'].
  destruct (chain_expiry _ b y Hc Hb Hy) as [_ Eb]. destruct (chain_below _ _ Hc) as (_ & H0 & H2 & H1).
  assert (state_time b <= state_time a) by (apply elem_of_cons in Hb as [->|Hb]; [lia|specialize (H1 b Hb); lia]).
  rewrite Ey in Ef'. lia.
Qed.

(** The accepted part is in the window. *)
Lemma seen_accepted v h l t items : chain (h :: l) -> covers v h (h :: l) -> asks t items -> state_time h < t ->
  (exists x, x ∈ items /\ GetID x ∈ seen (w_seen v)) <-> exists x, x ∈ items /\ GetID x ∈ ids (h :: l).
Proof.
  intros Hc [Wv _ Hfrom Hall] Ha Ht. split; intros (x & Hx & Hs); exists x; (split; [done|]).
  - apply (em_seen _ Wv) in Hs as [u Hu]. by apply Hfrom in Hu as [_ Hi].
  - apply elem_of_ids in Hs as (b & Hb & (y & Ey & Hy)%list_elem_of_fmap). rewrite Ey.
    apply (Hall b); [done..|]. rewrite (chain_fixed _ b y Hc Hb Hy), <- Ey. destruct (Ha x Hx) as [<- ?]. lia.
Qed.

Lemma isRepeat_stale c v a oldest items fuel : blk_Timestamp a < oldest ->
  isRepeat c (S fuel) v a oldest items true 0 = Some (0, None).
Proof. intros Hl. cbn [isRepeat]. by apply Z.ltb_lt in Hl as ->. Qed.

Lemma isRepeat_accepted c v h oldest items fuel : oldest <= blk_Timestamp h -> lastAcceptedBlockHeight v = blk_Height h ->
  isRepeat c (S fuel) v h oldest items true 0 = Some (EMap_Contains items 0 true (w_seen v), None).
Proof. intros Hl Hh. cbn [isRepeat]. apply Z.ltb_ge in Hl as ->. by rewrite Hh, Z.leb_refl. Qed.

Lemma isRepeat_pending c v b oldest items fuel : oldest <= blk_Timestamp b -> 0 <= lastAcceptedBlockHeight v < blk_Height b ->
  isRepeat c (S fuel) v b oldest items true 0 =
  match mark_contained 0 items b 0 true with
  | (marker, true) => Some (marker, None)
  | (marker, false) =>
      match c (blk_Parent b) with
      | Err err => Some (marker, Some err)
      | Ok a => isRepeat c fuel v a oldest items true marker
      end
  end.
Proof.
  intros Hl Hh. cbn [isRepeat]. apply Z.ltb_ge in Hl as ->.
  destruct (Z.leb_spec (blk_Height b) (lastAcceptedBlockHeight v)) as [|_]; [lia|].
  by destruct (Z.eqb_spec (blk_Height b) 0) as [|_]; [lia|].
Qed.

Lemma isRepeat_spec c v h old t items : covers v h (h :: old) -> asks t items -> forall pend a l,
  pend ++ h :: old = a :: l -> chain (a :: l) -> indexed c (a :: l) -> state_time a < t ->
  exists m, (forall fuel, (length pend < fuel)%nat ->
      isRepeat c fuel v a (Z.max 0 (t - W)) items true 0 = Some (m, None)) /\
    (m <> 0 <-> exists x, x ∈ items /\ GetID x ∈ ids (a :: l)).
Proof.
  intros Hv Ha pend. induction pend as [|b pend IH]; intros a l E Hc Hi Ht;
    (destruct (Z.ltb_spec (blk_Timestamp a) (Z.max 0 (t - W))) as [Hl|Hl];
     [exists 0; split; [by intros [|fuel] Hf; [lia|apply isRepeat_stale]|split; [done|]; intros Hx; by destruct (stale t items l a)]|]);
    cbn [app] in E; injection E as <- <-.
  - exists (EMap_Contains items 0 true (w_seen v)). split.
    + intros [|fuel] Hf; [lia|]. apply isRepeat_accepted; [done|apply (co_height _ _ _ Hv)].
    + unfold EMap_Contains. rewrite Contains_marks by done. by apply (seen_accepted v h old t).
  - destruct (chain_below _ _ Hc) as (_ & _ & _ & Hb).
    assert (Hh : 0 <= lastAcceptedBlockHeight v < blk_Height b).
    { rewrite (co_height _ _ _ Hv). apply (Hb h), elem_of_app. right. left. }
    assert (Hstep := fun fuel => isRepeat_pending c v b _ items fuel Hl Hh).
    destruct (mark_contained_spec items b 0 ltac:(lia)) as [[Em Hn]|(m & Em & Hm & x & Hx & Hxb)]; rewrite Em in Hstep.
    + destruct (pend ++ h :: old) as [|a' l'] eqn:El; [by destruct pend|].
      pose proof (chain_tail _ _ Hc ltac:(done)) as Hc'. inversion Hc as [|? ? ? _ (Hp & _ & Htt & _)]; subst.
      rewrite Hp, (Hi a') in Hstep by (right; left).
      pose proof (chain_step _ _ _ Hc). destruct (IH a' l' eq_refl Hc') as (m & Er & Hm); [|lia|].
      { intros q Hq. apply Hi. by apply elem_of_cons; right. }
      exists m. split; [intros [|fuel] Hf; [lia|]; rewrite Hstep; apply Er; cbn in Hf; lia|]. rewrite Hm, (ids_cons b).
      split; intros (x & Hx & Hxi); exists x; (split; [done|]); [apply elem_of_app; by right|].
      apply elem_of_app in Hxi as [Hxi|]; [by apply Hn in Hxi|done].
    + exists m. split; [by intros [|fuel] Hf; [lia|]|]. split; [|done]. intros _. exists x. split; [done|].
      rewrite ids_cons. apply elem_of_app. by left.
Qed.

(** Without [stop], an item that is timely and whose bit the marker misses is
    not in the chain. *)
Lemma isRepeat_misses c v h old t items : covers v h (h :: old) -> forall pend a l m fuel,
  pend ++ h :: old = a :: l -> chain (a :: l) -> indexed c (a :: l) -> state_time a < t -> (length pend < fuel)%nat ->
  exists m', isRepeat c fuel v a (Z.max 0 (t - W)) items false m = Some (m', None) /\
    (forall k, Z.testbit m k = true -> Z.testbit m' k = true) /\
    forall j x, items !! j = Some x -> Z.testbit m' (Z.of_nat j) = false -> asks t [x] -> GetID x ∉ ids (a :: l).
Proof.
  intros Hv pend. induction pend as [|b pend IH]; intros a l m fuel E Hc Hi Ht Hf;
    (destruct fuel as [|fuel]; [cbn in Hf; lia|]); cbn [isRepeat];
    (destruct (Z.ltb_spec (blk_Timestamp a) (Z.max 0 (t - W))) as [Hl|Hl];
     [exists m; split; [done|]; split; [done|]; intros j x _ _ Hx Hin;
      apply (stale t [x] l a Hc Hx Hl); exists x; by split; [left|]|]);
    cbn [app] in E; injection E as <- <-.
  - rewrite (co_height _ _ _ Hv), Z.leb_refl. cbn [orb]. eexists. split; [done|]. unfold EMap_Contains.
    split; [intros k; by apply Contains_keeps|]. intros j x Hx Hb Ha Hin.
    apply (Contains_misses items (w_seen v) 0 m j x) in Hb; [|lia|done]. apply Hb.
    destruct (proj2 (seen_accepted v h old t [x] Hc Hv Ha Ht)) as (y & Hy & Hs); [exists x; by split; [left|]|].
    by apply list_elem_of_singleton in Hy as ->.
  - destruct (chain_below _ _ Hc) as (_ & _ & _ & Hb).
    assert (Hh : 0 <= blk_Height h < blk_Height b) by (apply (Hb h), elem_of_app; right; left).
    rewrite (co_height _ _ _ Hv). destruct (Z.leb_spec (blk_Height b) (blk_Height h)) as [|_]; [lia|].
    destruct (Z.eqb_spec (blk_Height b) 0) as [|_]; [lia|]. cbn [orb].
    pose proof (mark_goes_on items b 0 m) as Hgo. pose proof (fun k => mark_keeps items b k 0 m ltac:(lia)) as Hkeep.
    pose proof (fun j x => mark_misses items b 0 m j x ltac:(lia)) as Hmiss.
    destruct (mark_contained 0 items b m false) as [m1 done1]. cbn [fst snd] in *. subst done1.
    destruct (pend ++ h :: old) as [|a' l'] eqn:El; [by destruct pend|].
    pose proof (chain_tail _ _ Hc ltac:(done)) as Hc'. inversion Hc as [|? ? ? _ (Hp & _ & Htt & _)]; subst.
    rewrite Hp, (Hi a') by (right; left). pose proof (chain_step _ _ _ Hc).
    destruct (IH a' l' m1 fuel eq_refl Hc') as (m' & Er & Hk & Hm); [|lia|cbn in Hf; lia|].
    { intros q Hq. apply Hi. by apply elem_of_cons; right. }
    exists m'. split; [done|]. split; [intros k Hmk; by apply Hk, Hkeep|].
    intros j x Hx Hbit Ha. rewrite (ids_cons b). intros [Hxi|Hxi]%elem_of_app; [|by apply (Hm j x)].
    apply (Hmiss j x Hx); [|done]. destruct (Z.testbit m1 (0 + Z.of_nat j)) eqn:Eb; [|done].
    apply Hk in Eb. by rewrite Z.add_0_l, Hbit in Eb.
Qed.

(** ** The check of a block *)

Lemma calculateOldestAllowed_eq t : 0 <= W < 2 ^ 62 -> 0 <= t < 2 ^ 62 ->
  calculateOldestAllowed (fun _ => W) t = Z.max 0 (t - W).
Proof.
  intros HW Ht. unfold calculateOldestAllowed, i64. rewrite i64_roundtrip; [done|]. unfold is_i64, two63. lia.
Qed.

Lemma verify_exact S c v b h old pend l : 0 <= W < 2 ^ 62 -> covers v h (h :: old) ->
  chain (b :: l) -> l = pend ++ h :: old -> indexed c l ->
  exists res, (forall fuel, (length pend < fuel)%nat ->
      VerifyExpiryReplayProtection S c (fun _ => W) fuel v b = Some res) /\
    (res = Ok tt <-> NoDup (map GetID (blk_Containers b)) /\ forall x, x ∈ blk_Containers b -> GetID x ∉ ids l) /\
    forall e, res = Err e -> errors_Is e ErrDuplicateContainer = true.
Proof.
  intros HW Hv Hc El Hi. destruct l as [|p l]; [by destruct pend|].
  inversion Hc as [|? ? ? Hcp (Hp & _ & Ht & Htm)]; subst. destruct (chain_below _ _ Hc) as (_ & H0 & _ & Hb).
  assert (Hh : 0 <= blk_Height h < blk_Height b) by (apply (Hb h); rewrite El; apply elem_of_app; right; left).
  unfold VerifyExpiryReplayProtection. rewrite (co_height _ _ _ Hv).
  destruct (Z.leb_spec (blk_Height b) (blk_Height h)) as [|_]; [lia|].
  destruct (check_own_spec S (blk_Containers b) ∅) as [(E & Hd & _)|(x & E & Hn)]; rewrite E.
  - rewrite Hp, (Hi p) by left. rewrite calculateOldestAllowed_eq by done.
    assert (Ha : asks (blk_Timestamp b) (blk_Containers b)) by (intros x Hx; destruct (Htm x Hx); split; [done|lia]).
    destruct (isRepeat_spec c v h old _ _ Hv Ha pend p l (eq_sym El) Hcp Hi) as (m & Er & Hm); [lia|].
    destruct (Z.ltb_spec 0 (bits_Len m)) as [Hl|Hl]; eexists;
      (split; [intros fuel Hf; rewrite (Er fuel Hf); first [apply Z.ltb_lt in Hl as ->|apply Z.ltb_ge in Hl as ->]; reflexivity|]).
    + split; [|by intros e [= <-]]. split; [done|]. intros [_ Hx].
      destruct (proj1 Hm) as (x & Hxb & Hxi); [intros ->; done|by destruct (Hx x Hxb)].
    + split; [|done]. split; [|done]. intros _. split; [done|]. intros x Hx Hxi.
      assert (Em : m = 0) by (apply bits_Len_zero; pose proof (bits_Len_nonneg m); lia).
      destruct (proj2 Hm); [by exists x|done].
  - eexists. split; [done|]. split; [|by intros e [= <-]]. split; [done|]. intros [Hd _]. destruct Hn. split; [done|].
    intros y _. apply not_elem_of_empty.
Qed.

Lemma IsRepeat_misses c v h old pend p l t items fuel : 0 <= W < 2 ^ 62 -> covers v h (h :: old) ->
  chain (p :: l) -> p :: l = pend ++ h :: old -> indexed c (p :: l) -> state_time p < t < 2 ^ 62 ->
  (length pend < fuel)%nat ->
  exists m, IsRepeat c (fun _ => W) fuel v p t items = Some (m, None) /\
    forall j x, items !! j = Some x -> Z.testbit m (Z.of_nat j) = false -> asks t [x] -> GetID x ∉ ids (p :: l).
Proof.
  intros HW Hv Hc El Hi Ht Hf. destruct (chain_below _ _ Hc) as (_ & _ & H0 & _).
  unfold IsRepeat. rewrite calculateOldestAllowed_eq by lia.
  destruct (isRepeat_misses c v h old t items Hv pend p l 0 fuel) as (m & E & _ & Hm); [done..|lia|done|].
  by exists m.
Qed.

(** A block that passes adds no identifier twice. *)
Lemma NoDup_ids_cons b l : NoDup (ids l) ->
  NoDup (map GetID (blk_Containers b)) /\ (forall x, x ∈ blk_Containers b -> GetID x ∉ ids l) <-> NoDup (ids (b :: l)).
Proof.
  intros Hl. rewrite ids_cons, list.NoDup_app. split.
  - intros [Hd Hx]. split; [done|]. split; [|done]. intros i (x & -> & Hxb)%list_elem_of_fmap. by apply Hx.
  - intros (Hd & Hx & _). split; [done|]. intros x Hxb. by apply Hx, list_elem_of_fmap_2.
Qed.

(** ** Starting from the index *)

(** The first block's parent is not in the index. *)
Definition rooted (c : bytes -> result (Block T)) l : Prop :=
  forall g, list.last l = Some g -> is_ok (c (blk_Parent g)) = false.

(** The blocks taken are a part of the chain, the ones left out are older
    than the window. *)
Lemma window_parents_spec c b : 0 <= W < 2 ^ 62 -> 0 <= blk_Timestamp b < 2 ^ 62 ->
  forall rest cur ps flag fuel, chain (cur :: rest) -> indexed c rest -> rooted c (cur :: rest) ->
  (length rest < fuel)%nat ->
  exists taken dropped flag', rest = taken ++ dropped /\
    window_parents c (fun _ => W) fuel b cur ps flag = Some (ps ++ taken, flag') /\
    forall d, d ∈ dropped -> state_time d + W < blk_Timestamp b.
Proof.
  intros HW Hb rest. induction rest as [|p rest IH]; intros cur ps flag fuel Hc Hi Hr Hf;
    (destruct fuel as [|fuel]; [cbn in Hf; lia|]); cbn [window_parents].
  - exists [], [], flag. split; [done|]. specialize (Hr cur eq_refl). destruct (c (blk_Parent cur)); [done|].
    rewrite app_nil_r. split; [done|]. by intros d ?%not_elem_of_nil.
  - inversion Hc as [|? ? ? Hcp (Hp & _ & Htp & _)]; subst. rewrite Hp, (Hi p) by left.
    destruct (chain_below _ _ Hcp) as (_ & H0 & _ & Hbelow).
    unfold i64. rewrite i64_roundtrip by (unfold is_i64, two63; lia).
    destruct (Z.ltb_spec W (blk_Timestamp b - blk_Timestamp p)) as [Hw|Hw].
    + exists [p], rest, true. split_and!; [done..|]. intros d Hd. specialize (Hbelow d Hd). lia.
    + destruct (IH p (ps ++ [p]) false fuel) as (taken & dropped & flag' & -> & E & Hd); [done| |done|cbn in Hf; lia|].
      { intros q Hq. apply Hi. by apply elem_of_cons; right. }
      exists (p :: taken), dropped, flag'. split; [done|]. split; [|done]. by rewrite E, <- app_assoc.
Qed.

(** Accepting a chain's newest blocks, the oldest first. *)
Lemma Accept_part v h s dropped : w_seen v = NewEMap -> chain (h :: s ++ dropped) ->
  covers (foldl (fun v b => Accept b v) v (rev (h :: s))) h (h :: s).
Proof.
  intros Hv. revert h. induction s as [|p s IH]; intros h Hc; cbn [rev]; rewrite foldl_app; cbn [foldl app rev] in *.
  - apply (Accept_covers v h); rewrite ?Hv; [apply NewEMap_wf| | | |done].
    + intros i t (l & Hl & _). cbn in Hl. by rewrite lookup_empty in Hl.
    + by intros p x ?%not_elem_of_nil.
    + intros p x Hp Hx. apply list_elem_of_singleton in Hp as ->. assert (Hh : h ∈ h :: dropped) by left.
      split; [by apply (chain_expiry _ h _ Hc)|by apply (chain_fixed _ h _ Hc)].
  - destruct (IH p) as [A1 A2 A3 A4]; [by apply (chain_tail h)|]. apply (Accept_covers _ p); [done..| |].
    + intros q x Hq Hx. assert (Hin : q ∈ h :: p :: s ++ dropped) by (apply (elem_of_app (h :: p :: s)); by left).
      split; [by apply (chain_expiry _ q _ Hc)|by apply (chain_fixed _ q _ Hc)].
    + intros _. by apply (chain_step h p (s ++ dropped)).
Qed.

Lemma PopulateValidityWindow_covers c b rest fuel : 0 <= W < 2 ^ 62 -> chain (b :: rest) -> indexed c rest ->
  rooted c (b :: rest) -> (length rest < fuel)%nat ->
  exists parents flag v, PopulateValidityWindow c (fun _ => W) fuel b NewTimeValidityWindow = Some (parents, flag, v) /\
    covers v b (b :: rest).
Proof.
  intros HW Hc Hi Hr Hf. destruct (chain_below _ _ Hc) as (_ & Hb & _ & Hbelow).
  destruct (window_parents_spec c b HW Hb rest b [b] false fuel Hc Hi Hr Hf) as (taken & dropped & flag & -> & E & Hd).
  unfold PopulateValidityWindow. rewrite E. do 3 eexists. split; [done|]. cbn [app].
  destruct (Accept_part NewTimeValidityWindow b taken dropped eq_refl Hc) as [A1 A2 A3 A4]. split; [done|done| |].
  - intros i t Hit. destruct (A3 i t Hit) as [-> Hin]. split; [done|]. apply elem_of_ids in Hin as (q & Hq & Hqi).
    apply elem_of_ids. exists q. split; [|done]. apply (elem_of_app (b :: taken)). by left.
  - intros q x Hq Hx Hle. apply (elem_of_app (b :: taken)) in Hq as [Hq|Hq]; [by apply (A4 q)|].
    assert (Hrest : q ∈ taken ++ dropped) by (apply elem_of_app; by right).
    assert (Hin : q ∈ b :: taken ++ dropped) by (by apply elem_of_cons; right).
    specialize (Hd q Hq). destruct (Hbelow q Hrest) as (_ & _ & Eb). destruct (chain_timely _ q Hc Hin x Hx).
    destruct (chain_expiry _ q x Hc Hin Hx) as [_ Eq]. lia.
Qed.
End chains.
