(* ===== verification/Replay.v ===== *)
(** * A node (hypersdk/vm, chain: verifying, accepting and starting)

    Blocks as they go over the network, the genesis block and its state, the
    branches of verified blocks over the accepted chain, the index of blocks,
    and what a node does: it verifies a block on one of them with
    [Processor.Execute] and the replay check, accepts a verified block, and
    restarts. *)

From S2P Require Import Prelude Genesis GoErrors Lib Rules Strconv Consts Store Permissions TState StorageKeys Balances Controller Vm Transaction Wire Fees FeeManager Generate Processor ChainCorrect LoadCorrect ProcessorCorrect Heap EMap ValidityWindow WindowCorrect.
#[local] Open Scope Z_scope.

(** [Transaction.GetID] and [Transaction.GetExpiry]. *)
#[export] Instance Transaction_Item : Item GeneratedTx := {|
  GetID tx := st_id tx;
  GetExpiry tx := Timestamp (td_Base (st_Data tx));
|}.

(** A block as it goes over the network. *)
Record StatelessBlock := mkStatelessBlock {
  id : bytes;
  Prnt : bytes;
  sb_Block : ExecutionBlock;
}.

(** What the window reads of it. *)
Definition window_block (b : StatelessBlock) : Block GeneratedTx :=
  mkBlock (id b) (Prnt b) (Tmstmp (sb_Block b)) (Hght (sb_Block b)) (Txs (sb_Block b)).

(** A verified block with the state after it. *)
Record Processed := mkProcessed { pr_Block : StatelessBlock; pr_View : bytes -> result bytes }.

#[local] Abbreviation pr_window := (fun p => window_block (pr_Block p)).

(** ** The genesis block (chain/genesis.go) *)

Definition SetUnitPrice (d : nat) (price : Z) (f : bytes) : bytes := PutUint64_at (price_start d) price f.

Definition genesis_feeManager (minUnitPrice : Dimensions) : bytes :=
  foldl (fun f i => SetUnitPrice i (nth i minUnitPrice 0) f) (NewManager []) (seq 0 FeeDimensions).

(** [state.CompletePermissions], for the keys that are written under it. *)
Definition genesis_scope (m : MetadataManager) (allocs : list CustomAllocation) : gmap bytes Z :=
  list_to_map (map (fun a => (BalanceKey (ca_Address a), All)) allocs) ∪ CompletePermissions m.

(** The first of January 2023, in milliseconds. *)
Definition genesisTmstmp : Z := 1672531200000.

(** The allocations and the block's own keys. *)
Definition write_genesis `{Hashing} {R} `{ChainRules R} (m : MetadataManager) (r : R) (g : DefaultGenesis)
  : GoM TStateView unit :=
  on_error (fun err => Errorf_w "failed to initialize genesis state: " err "") (DefaultGenesis_InitializeState g New);;
  on_error (fun err => Errorf_w "failed to set genesis height: " err "")
    (Insert (HeightKey (HeightPrefix m)) (be_put 8 0));;
  on_error (fun err => Errorf_w "failed to set genesis timestamp: " err "")
    (Insert (TimestampKey (TimestampPrefix m)) (be_put 8 0));;
  on_error (fun err => Errorf_w "failed to set genesis fee manager: " err "")
    (Insert (FeeKey (FeePrefix m)) (genesis_feeManager (GetMinUnitPrice r))).

(** [NewGenesisCommit] on the empty state of a new database, with the root of
    the state it makes and the hash of the block's bytes as arguments. *)
Definition NewGenesisCommit `{Hashing} {R} `{ChainRules R} (m : MetadataManager) (r : R) (g : DefaultGenesis)
    (root : result bytes) (toID : bytes -> ExecutionBlock -> bytes) (empty : bytes -> result bytes) : result Processed :=
  match write_genesis m r g (TState_NewView fresh_block (genesis_scope m (CustomAllocations g)) empty) with
  | (Err err, _) => Err err
  | (Ok _, tsv) =>
      match root with
      | Err err => Err (Errorf_w "failed to get initialized genesis root: " err "")
      | Ok root =>
          let block := mkExecutionBlock genesisTmstmp 0 [] root in
          Ok (mkProcessed (mkStatelessBlock (toID (make_bytes IDLen) block) (make_bytes IDLen) block)
                (block_value (Commit tsv) empty))
      end
  end.

(** ** Nodes *)

(** A branch is a chain, the newest block first, down to the genesis block. *)
Record Node := mkNode {
  nd_accepted : list Processed;
  nd_branches : list (list Processed);
  nd_window : TimeValidityWindow;
}.

Definition known (n : Node) : list Processed := concat (nd_accepted n :: nd_branches n).

(** [VM.GetExecutionBlock]: the verified blocks are looked through, and the
    accepted ones. *)
Definition GetExecutionBlock (blocks : list Processed) (blkID : bytes) : result (Block GeneratedTx) :=
  match List.find (fun p => bool_decide (id (pr_Block p) = blkID)) blocks with
  | Some p => Ok (pr_window p)
  | None => Err ErrNotFound
  end.

(** [populateValidityWindow]: from the index, which has the accepted blocks. *)
Definition populateValidityWindow (window : Z -> Z) (fuel : nat) (accepted : list Processed) : option TimeValidityWindow :=
  match accepted with
  | [] => Some NewTimeValidityWindow
  | lastAccepted :: _ =>
      match PopulateValidityWindow (GetExecutionBlock accepted) window fuel (pr_window lastAccepted) NewTimeValidityWindow with
      | Some (_, _, v) => Some v
      | None => None
      end
  end.

Section node.
Context `{Hashing} {R : Type} `{ChainRules R} `{AuthMethods R} (ID_String : bytes -> string) (m : MetadataManager) (r : R).
(** The time a transaction expires is in the bytes its identifier is the hash
    of. *)
Context (expiry_of : bytes -> Z).

(** Block identifiers are hashes: a new one is none met before, unless the
    block is one met before; and none is the genesis block's parent. *)
Record no_collision (n : Node) (b : StatelessBlock) : Prop := {
  nc_new p : p ∈ known n -> id (pr_Block p) = id b -> pr_Block p = b;
  nc_root p : p ∈ known n -> Hght (sb_Block (pr_Block p)) = 0 -> id b <> Prnt (pr_Block p);
  nc_expiry tx : tx ∈ Txs (sb_Block b) -> GetExpiry tx = expiry_of (GetID tx);
}.

(** [Processor.Execute] in normal operation, with the replay check of the
    window; [None] when the fuel ends. *)
Definition verify_block (fuel : nat) (n : Node) (now : Z) (sig wait : result unit) (root : result bytes)
    (parent : Processed) (b : StatelessBlock) : option (outcome (result OutputBlock)) :=
  match VerifyExpiryReplayProtection ID_String (GetExecutionBlock (known n)) (fun _ => GetValidityWindow r) fuel
          (nd_window n) (window_block b) with
  | Some replay => Some (Processor_Execute ID_String New m r now true sig wait replay root (pr_View parent) (sb_Block b))
  | None => None
  end.

(** What the node does: it verifies a block on a branch; it accepts a block
    on the last accepted one, and branches without it go; it restarts with
    the blocks of the index. *)
Inductive node_step (n : Node) : Node -> Prop :=
  | step_verify fuel now sig wait root parent below b out :
      parent :: below ∈ nd_accepted n :: nd_branches n -> Prnt b = id (pr_Block parent) ->
      Forall wf_tx (Txs (sb_Block b)) -> Tmstmp (sb_Block b) < 2 ^ 62 ->
      Hght (sb_Block (pr_Block parent)) + 1 < two64 -> no_collision n b ->
      verify_block fuel n now sig wait root parent b = Some (Returns (Ok out)) ->
      node_step n (mkNode (nd_accepted n) ((mkProcessed b (View out) :: parent :: below) :: nd_branches n) (nd_window n))
  | step_accept p branches :
      p :: nd_accepted n ∈ nd_branches n ->
      (forall c, c ∈ branches -> c ∈ nd_branches n /\ p :: nd_accepted n `suffix_of` c) ->
      node_step n (mkNode (p :: nd_accepted n) branches (Accept (pr_window p) (nd_window n)))
  | step_restart fuel v :
      populateValidityWindow (fun _ => GetValidityWindow r) fuel (nd_accepted n) = Some v ->
      node_step n (mkNode (nd_accepted n) [] v).

(** A new node, at a genesis block. *)
Inductive new_node : Node -> Prop :=
  | new_node_at g f :
      Hght (sb_Block (pr_Block g)) = 0 -> Txs (sb_Block (pr_Block g)) = [] ->
      0 <= Tmstmp (sb_Block (pr_Block g)) < 2 ^ 62 -> id (pr_Block g) <> Prnt (pr_Block g) ->
      clock m (pr_View g) 0 0 f -> new_node (mkNode [g] [] NewTimeValidityWindow).

Inductive reachable : Node -> Prop :=
  | reach_new n : new_node n -> reachable n
  | reach_step n n' : reachable n -> node_step n n' -> reachable n'.

End node.

(** The identifiers of the transactions of a branch. *)
Definition branch_ids (c : list Processed) : list bytes := ids (map pr_window c).
