(* ===== verification/ReplayCorrect.v ===== *)
(** * No transaction twice

    However a node is run, no transaction is twice in the chain below a block
    it verified or accepted, and its replay check is exact: every branch is a
    chain of the kind WindowCorrect.v has, and the window covers the accepted
    one. *)

From stdpp Require Import relations.
From S2P Require Import Prelude Genesis GoErrors Lib Rules Strconv Consts Store Permissions TState StorageKeys Balances Controller Vm Transaction Wire Fees FeeManager Generate Processor Examples Footprint ChainCorrect LoadCorrect ProcessorCorrect Heap EMap ValidityWindow WindowCorrect Replay.
#[local] Open Scope Z_scope.

#[local] Existing Instance keys_sign.
#[local] Existing Instance some_crypto.
#[local] Existing Instance ED25519_AuthMethods.

#[local] Abbreviation pr_window := (fun p => window_block (pr_Block p)).

(** ** The index *)

Definition consistent (bs : list Processed) : Prop :=
  forall p q, p ∈ bs -> q ∈ bs -> id (pr_Block p) = id (pr_Block q) -> pr_Block p = pr_Block q.

Lemma GetExecutionBlock_indexed bs c : consistent bs -> (forall p, p ∈ c -> p ∈ bs) ->
  indexed (GetExecutionBlock bs) (map pr_window c).
Proof.
  intros Hb Hc b (p & -> & Hp)%list_elem_of_fmap. unfold GetExecutionBlock.
  destruct (List.find _ bs) as [q|] eqn:E.
  - apply List.find_some in E as [Hq%list_elem_of_In E%bool_decide_eq_true]. f_equal. f_equal. apply Hb; auto.
  - pose proof (List.find_none _ _ E p) as Hn. rewrite <- list_elem_of_In in Hn.
    specialize (Hn (Hc p Hp)). by apply bool_decide_eq_false in Hn.
Qed.

Lemma GetExecutionBlock_none bs blkID : (forall p, p ∈ bs -> id (pr_Block p) <> blkID) ->
  GetExecutionBlock bs blkID = Err ErrNotFound.
Proof.
  intros Hn. unfold GetExecutionBlock. destruct (List.find _ bs) as [q|] eqn:E; [|done].
  apply List.find_some in E as [Hq%list_elem_of_In E%bool_decide_eq_true]. by destruct (Hn q).
Qed.

Lemma elem_of_concat {A} (x : A) ls : x ∈ concat ls <-> exists l, l ∈ ls /\ x ∈ l.
Proof.
  induction ls as [|l ls IH]; cbn [concat].
  { split; [by intros ?%not_elem_of_nil|]. by intros (l & ?%not_elem_of_nil & _). }
  rewrite elem_of_app, IH. split.
  - intros [Hx|(k & Hk & Hx)]; [exists l; split; [left|done]|exists k; split; [by right|done]].
  - intros (k & [->|Hk]%elem_of_cons & Hx); [by left|right; by exists k].
Qed.

(** ** The genesis block *)

Lemma default_allocate_inserts `{Hashing} {S} `{MutableLaws S} allocs : forall supply,
  inserts (fun _ => True) (default_allocate New supply allocs : GoM S unit).
Proof.
  induction allocs as [|a allocs IH]; intros supply; cbn [default_allocate]; [apply inserts_ret|].
  apply inserts_bind; [apply inserts_lift|]. intros sum. apply inserts_bind; [|intros _; apply IH].
  by apply inserts_on_error, AddBalance_inserts.
Qed.

Lemma genesis_feeManager_wf prices : wf_manager (genesis_feeManager prices).
Proof.
  unfold genesis_feeManager. assert (Hd : forall i, i ∈ seq 0 FeeDimensions -> (i < FeeDimensions)%nat)
    by (intros i Hi%elem_of_seq; lia).
  assert (Hw : wf_manager (NewManager [])) by apply wf_NewManager. revert Hd Hw. generalize (NewManager []).
  induction (seq 0 FeeDimensions) as [|i dims IH]; intros f Hd [Hl Hw]; [done|]. cbn [foldl]. apply IH.
  { intros j Hj. apply Hd. by right. }
  unfold SetUnitPrice. split; [|by apply PutUint64_at_wf]. rewrite length_PutUint64_at; [done|]. rewrite Hl.
  specialize (Hd i ltac:(left)). offsets.
Qed.

(** The node that [NewGenesisCommit] starts is a new node. *)
Lemma genesis_new_node `{Hashing} {R} `{ChainRules R} m (r : R) g root toID empty p :
  NoDup (metadata_keys m) -> NewGenesisCommit m r g root toID empty = Ok p -> id (pr_Block p) <> make_bytes IDLen ->
  new_node m (mkNode [p] [] NewTimeValidityWindow).
Proof.
  intros Hm E Hid. unfold NewGenesisCommit in E. set (v0 := TState_NewView _ _ _) in E.
  destruct (write_genesis m r g v0) as [[[]|] v] eqn:Ev; [|done]. unfold write_genesis in Ev. destruct root as [root|]; [|done]. injection E as <-.
  apply run_bind_inv_ok in Ev as ([] & v1 & E1%run_on_error_inv_ok & Ev).
  apply run_bind_inv_ok in Ev as ([] & v2 & E2%run_on_error_inv_ok & Ev).
  apply run_bind_inv_ok in Ev as ([] & v3 & E3%run_on_error_inv_ok & E4%run_on_error_inv_ok).
  assert (Hs1 : v_storage v1 = empty).
  { pose proof (default_allocate_inserts (CustomAllocations g) 0 _ _ _ E1) as Hr.
    assert (Hv : v_storage v0 = empty) by done. clearbody v0. clear -Hr Hv.
    induction Hr as [|v v' v'' [k b _ Ei] Hr IH]; [done|]. apply IH.
    by destruct (Insert_inv _ _ _ _ Ei) as (_ & _ & (_ & _ & ->) & _). }
  change Insert with TStateView_Insert in *.
  pose proof (Insert_inv _ _ _ _ E2) as (_ & _ & (_ & _ & S2) & _).
  pose proof (Insert_inv _ _ _ _ E3) as (_ & _ & (_ & _ & S3) & _).
  pose proof (Insert_inv _ _ _ _ E4) as (_ & _ & (_ & _ & S4) & _).
  assert (Hs : v_storage v = empty) by congruence.
  destruct (metadata_distinct m Hm) as (N1 & N2 & N3).
  assert (Hval : forall k b, view_value v k = Ok b -> block_value (Commit v) empty k = Ok b)
    by (intros k b Hv; apply commit_value; [done|by rewrite Hs]).
  apply (new_node_at _ _ (genesis_feeManager (GetMinUnitPrice r))); cbn [pr_Block sb_Block pr_View Hght Txs Tmstmp Prnt];
    [done|done|by split; vm_compute|exact Hid|].
  split; [..|by split; vm_compute|by split; vm_compute|apply genesis_feeManager_wf]; apply Hval.
  - rewrite (Insert_value _ _ _ _ _ E4), decide_False, (Insert_value _ _ _ _ _ E3), decide_False by done.
    by rewrite (Insert_value _ _ _ _ _ E2), decide_True.
  - rewrite (Insert_value _ _ _ _ _ E4), decide_False, (Insert_value _ _ _ _ _ E3) by done. by rewrite decide_True.
  - by rewrite (Insert_value _ _ _ _ _ E4), decide_True.
Qed.

(** A genesis of one account. *)
Example genesis_funds_alice :
  match NewGenesisCommit NewDefaultManager NewDefaultRules (NewDefaultGenesis [mkCustomAllocation alice 500])
          (Ok (make_bytes 32)) (fun _ _ => [7]) (fun _ => Err ErrNotFound) with
  | Ok p => bool_decide (pr_View p (BalanceKey alice) = Ok (be_put 8 500) /\
      pr_View p (HeightKey [0]) = Ok (be_put 8 0))
  | Err _ => false
  end = true.
Proof. vm_compute. reflexivity. Qed.

(** ** The invariant *)

Section invariant.
Context `{Hashing} {R : Type} `{ChainRules R} `{AuthMethods R} {ID_String : bytes -> string} {m : MetadataManager} {r : R}.
Context {expiry_of : bytes -> Z}.
Abbreviation W := (GetValidityWindow r).
Hypothesis (Hr : wf_chain r) (Hm : NoDup (metadata_keys m)) (Hgap : 0 < GetMinBlockGap r < 2 ^ 62) (HW : 0 <= W < 2 ^ 62).

(** A branch: a chain without a repeated transaction, with the clock of its
    newest block. *)
Inductive good_branch : list Processed -> Prop :=
  | good_branch_at p c f :
      chain expiry_of W (map pr_window (p :: c)) -> NoDup (branch_ids (p :: c)) ->
      clock m (pr_View p) (Hght (sb_Block (pr_Block p))) (state_time (pr_window p)) f -> good_branch (p :: c).

Record good_node (n : Node) : Prop := {
  gn_branch c : c ∈ nd_accepted n :: nd_branches n -> good_branch c /\ nd_accepted n `suffix_of` c;
  gn_window : exists p c, nd_accepted n = p :: c /\
    covers expiry_of (nd_window n) (pr_window p) (map pr_window (p :: c));
  gn_consistent : consistent (known n);
  gn_root p g : p ∈ known n -> g ∈ known n -> Hght (sb_Block (pr_Block g)) = 0 -> id (pr_Block p) <> Prnt (pr_Block g);
}.

Lemma elem_of_known n p : p ∈ known n <-> exists c, c ∈ nd_accepted n :: nd_branches n /\ p ∈ c.
Proof. apply elem_of_concat. Qed.

Lemma new_node_good n : new_node m n -> good_node n.
Proof.
  intros [g f Hh Ht Hts Hid Hc].
  assert (Hch : chain expiry_of W [pr_window g]) by (by apply chain_genesis).
  assert (Hk : forall p, p ∈ known (mkNode [g] [] NewTimeValidityWindow) -> p = g).
  { intros p (c & ->%list_elem_of_singleton & Hp)%elem_of_known. by apply list_elem_of_singleton in Hp. }
  split; cbn [nd_accepted nd_branches nd_window].
  - intros c ->%list_elem_of_singleton. split; [|done]. apply (good_branch_at g [] f); [done| |].
    + unfold branch_ids. cbn. rewrite Ht. by apply list.NoDup_nil.
    + unfold state_time. cbn. by rewrite Hh.
  - exists g, []. split; [done|]. by apply (NewTimeValidityWindow_covers expiry_of W).
  - by intros p q ->%Hk ->%Hk.
  - by intros p g' ->%Hk ->%Hk.
Qed.

(** A smaller node is good. *)
Lemma good_known n n' : (forall p, p ∈ known n' -> p ∈ known n) -> good_node n ->
  consistent (known n') /\ forall p g, p ∈ known n' -> g ∈ known n' -> Hght (sb_Block (pr_Block g)) = 0 ->
    id (pr_Block p) <> Prnt (pr_Block g).
Proof.
  intros Hk [_ _ Hc Hroot]. split; [intros p q ?%Hk ?%Hk; by apply Hc|intros p g ?%Hk ?%Hk; by apply Hroot].
Qed.

Lemma step_accept_good n p branches : good_node n -> p :: nd_accepted n ∈ nd_branches n ->
  (forall c, c ∈ branches -> c ∈ nd_branches n /\ p :: nd_accepted n `suffix_of` c) ->
  good_node (mkNode (p :: nd_accepted n) branches (Accept (pr_window p) (nd_window n))).
Proof.
  intros G Hp Hb. set (n' := mkNode _ _ _).
  assert (Hc : forall c, c ∈ nd_accepted n' :: nd_branches n' ->
      c ∈ nd_accepted n :: nd_branches n /\ nd_accepted n' `suffix_of` c).
  { intros c [->|Hc]%elem_of_cons; [split; [by right|done]|]. apply Hb in Hc as [? ?]. split; [by right|done]. }
  destruct (good_known n n') as [G3 G4]; [|done|].
  { intros q (c & [Hin _]%Hc & Hq)%elem_of_known. apply elem_of_known. by exists c. }
  split; [|clear G3 G4|done|done].
  - intros c [Hin Hs]%Hc. split; [|done]. by apply (gn_branch n G).
  - destruct (gn_window n G) as (h & old & E & Hw). exists p, (nd_accepted n). split; [done|]. cbn [nd_window n'].
    rewrite E in *. cbn [map]. apply (Accept_chain expiry_of W); [|done].
    destruct (gn_branch n G (p :: h :: old)) as [Hg _]; [by right|]. by inversion Hg.
Qed.

Lemma good_accepted n : good_node n -> exists p c, nd_accepted n = p :: c /\ chain expiry_of W (map pr_window (p :: c)).
Proof.
  intros G. destruct (gn_window n G) as (p & c & E & _). exists p, c. split; [done|].
  destruct (gn_branch n G (nd_accepted n)) as [Hg _]; [left|]. rewrite E in Hg. by inversion Hg.
Qed.

Lemma chain_last l g : chain expiry_of W l -> list.last l = Some g -> blk_Height g = 0.
Proof. induction 1 as [g' Hh|b p l Hc IH _]; [by intros [= <-]|]. intros Hl. by apply IH. Qed.

(** The index has every branch, and ends at the genesis block. *)
Lemma good_index n c : good_node n -> c ∈ nd_accepted n :: nd_branches n ->
  indexed (GetExecutionBlock (known n)) (map pr_window c).
Proof.
  intros G Hc. apply GetExecutionBlock_indexed; [apply (gn_consistent n G)|]. intros p Hp. apply elem_of_known. by exists c.
Qed.

Lemma step_restart_good n fuel v : good_node n ->
  populateValidityWindow (fun _ => W) fuel (nd_accepted n) = Some v -> good_node (mkNode (nd_accepted n) [] v).
Proof.
  intros G Ev. set (n' := mkNode _ _ _).
  assert (Hc : forall c, c ∈ nd_accepted n' :: nd_branches n' -> c = nd_accepted n)
    by (by intros c ->%list_elem_of_singleton).
  destruct (good_known n n') as [G3 G4]; [|done|].
  { intros q (c & ->%Hc & Hq)%elem_of_known. apply elem_of_known. exists (nd_accepted n). split; [left|done]. }
  split; [|clear G3|done|done].
  - intros c ->%Hc. split; [|done]. apply (gn_branch n G). left.
  - destruct (good_accepted n G) as (p & c & E & Hch). exists p, c. cbn [nd_accepted n' nd_window]. split; [done|].
    unfold populateValidityWindow in Ev. rewrite E in Ev.
    assert (Hk : forall q, q ∈ p :: c -> q ∈ known n').
    { intros q Hq. apply elem_of_known. exists (nd_accepted n). split; [left|by rewrite E]. }
    destruct (PopulateValidityWindow_covers expiry_of W (GetExecutionBlock (p :: c)) (pr_window p) (map pr_window c)
      (S (length c + fuel))) as (parents & flag & v' & Ep & Hv); [done|done| | |rewrite length_map; lia|].
    + intros b Hb. apply (GetExecutionBlock_indexed (p :: c) (p :: c)); [|done|by apply elem_of_cons; right].
      intros q q' Hq Hq'. apply (gn_consistent n G).
      all: apply elem_of_known; exists (nd_accepted n); split; [left|by rewrite E].
    + intros g Hg. pose proof (chain_last _ _ Hch Hg) as Hzero.
      apply list.last_Some in Hg as [l Hg]. assert (Hin : g ∈ map pr_window (p :: c)) by (cbn [map]; rewrite Hg; apply elem_of_app; right; left).
      apply list_elem_of_fmap in Hin as (q & -> & Hq). cbn [blk_Parent window_block].
      rewrite GetExecutionBlock_none; [done|]. intros q' Hq'. apply G4; [by apply Hk..|exact Hzero].
    + destruct (PopulateValidityWindow _ _ fuel _ _) as [[[ps fl] w]|] eqn:Ew; [|done]. injection Ev as ->.
      apply (PopulateValidityWindow_more _ _ _ _ _ (S (length c + fuel))) in Ew; [|lia]. rewrite Ew in Ep. by injection Ep as -> -> ->.
Qed.

(** The replay check on a branch of a good node. *)
Lemma replay_check n p c b : good_node n -> p :: c ∈ nd_accepted n :: nd_branches n ->
  follows expiry_of W (window_block b) (pr_window p) ->
  exists res, (forall fuel, (length c < fuel)%nat ->
      VerifyExpiryReplayProtection ID_String (GetExecutionBlock (known n)) (fun _ => W) fuel (nd_window n) (window_block b)
        = Some res) /\
    (res = Ok tt <-> NoDup (map GetID (Txs (sb_Block b)) ++ branch_ids (p :: c))) /\
    forall e, res = Err e -> errors_Is e ErrDuplicateContainer = true.
Proof.
  intros G Hc Hf. destruct (gn_branch n G _ Hc) as [Hg [pend Hs]]. inversion Hg as [? ? f Hch Hnd Hck]; subst.
  destruct (gn_window n G) as (h & old & E & Hw). rewrite E in Hs.
  destruct (verify_exact expiry_of W ID_String (GetExecutionBlock (known n)) (nd_window n) (window_block b)
    (pr_window h) (map pr_window old) (map pr_window pend) (map pr_window (p :: c))) as (res & V1 & V2 & V3);
    [done|done|by apply chain_next|by rewrite Hs, map_app|by apply good_index|].
  exists res. split; [|split; [|done]].
  - intros fuel Hl. apply V1. rewrite length_map. apply (f_equal length) in Hs. rewrite length_app in Hs. cbn in Hs. lia.
  - rewrite V2. apply (NoDup_ids_cons (window_block b) _ Hnd).
Qed.
Lemma replay_passed now sig wait replay root parent b out :
  Processor_Execute ID_String New m r now true sig wait replay root parent b = Returns (Ok out) -> replay = Ok tt.
Proof.
  unfold Processor_Execute. destruct (_ <? _); [done|]. destruct sig; [|done].
  destruct (createBlockContext m r parent b) as [[ctx|]|]; [|done..]. by destruct replay as [[]|].
Qed.

(** What a verified block is to its parent, and the clock after it. *)
Lemma verified_follows now sig wait replay root p below b out :
  good_branch (p :: below) -> Prnt b = id (pr_Block p) -> Forall wf_tx (Txs (sb_Block b)) ->
  Tmstmp (sb_Block b) < 2 ^ 62 -> Hght (sb_Block (pr_Block p)) + 1 < two64 ->
  (forall tx, tx ∈ Txs (sb_Block b) -> GetExpiry tx = expiry_of (GetID tx)) ->
  Processor_Execute ID_String New m r now true sig wait replay root (pr_View p) (sb_Block b) = Returns (Ok out) ->
  follows expiry_of W (window_block b) (pr_window p) /\
  exists f, clock m (View out) (Hght (sb_Block b)) (state_time (window_block b)) f.
Proof.
  intros Hg Hp Htxs Hts Hh Hex E. inversion Hg as [? ? f Hch Hnd Hck]; subst.
  destruct (Processor_Execute_inv _ _ _ _ _ _ _ _ _ _ _ _ E) as (height & time & fees & fm & fm' & plan & block & v & Hac).
  destruct (accepted_clock _ _ _ _ _ _ _ _ _ _ _ _ _ _ _ Hr Hm ltac:(lia) Htxs Hts Hck Hac) as (Eh & Hck' & Ht).
  pose proof (ck_height_range _ _ _ _ _ Hck) as Hhr. pose proof (ck_time_range _ _ _ _ _ Hck) as Htr.
  rewrite u64_small in Eh by int_lia.
  destruct (accepted_block_within_limits _ _ _ _ _ _ _ _ _ _ _ _ Hr (clock_fees _ _ _ _ _ Hck) Htxs
    ltac:(unfold is_i64, two63; lia) E) as (_ & Hlim & _).
  split.
  - split_and!; [exact Hp|exact Eh|cbn; lia|exact Hts|]. intros x Hx. cbn [window_block blk_Containers blk_Timestamp] in *.
    split; [by apply Hex|]. apply list_elem_of_In in Hx.
    destruct (proj1 (List.Forall_forall _ _) Hlim x Hx) as (_ & _ & Hw & _). exact Hw.
  - exists fm'. replace (state_time (window_block b)) with (Tmstmp (sb_Block b)); [exact Hck'|].
    unfold state_time. cbn [window_block blk_Height blk_Timestamp]. destruct (Z.eqb_spec (Hght (sb_Block b)) 0) as [E0|]; [|done].
    int_lia.
Qed.

Lemma step_verify_good n fuel now sig wait root p below b out :
  good_node n -> p :: below ∈ nd_accepted n :: nd_branches n -> Prnt b = id (pr_Block p) ->
  Forall wf_tx (Txs (sb_Block b)) -> Tmstmp (sb_Block b) < 2 ^ 62 ->
  Hght (sb_Block (pr_Block p)) + 1 < two64 -> no_collision expiry_of n b ->
  verify_block ID_String m r fuel n now sig wait root p b = Some (Returns (Ok out)) ->
  good_node (mkNode (nd_accepted n) ((mkProcessed b (View out) :: p :: below) :: nd_branches n) (nd_window n)).
Proof.
  intros G Hin Hp Htxs Hts Hh [Nnew Nroot Nex] Ev. set (n' := mkNode _ _ _). set (e := mkProcessed b (View out)).
  destruct (gn_branch n G _ Hin) as [Hg Hs].
  unfold verify_block in Ev. destruct (VerifyExpiryReplayProtection _ _ _ _ _ _) as [replay|] eqn:Er; [|done].
  injection Ev as E. pose proof (replay_passed _ _ _ _ _ _ _ _ E) as ->.
  destruct (verified_follows _ _ _ _ _ _ _ _ _ Hg Hp Htxs Hts Hh Nex E) as [Hf [f Hck]].
  destruct (replay_check n p below b G Hin Hf) as (res & V1 & V2 & _).
  assert (Hres : res = Ok tt).
  { apply (VerifyExpiryReplayProtection_more _ _ _ _ _ _ (S (length below + fuel))) in Er; [|lia].
    rewrite V1 in Er by lia. by injection Er. }
  assert (Hk : forall q, q ∈ known n' -> q = e \/ q ∈ known n).
  { intros q (c & Hc & Hq)%elem_of_known. cbn [nd_accepted nd_branches n'] in Hc.
    apply elem_of_cons in Hc as [->|Hc]; [right; apply elem_of_known; eexists; split; [left|done]|].
    apply elem_of_cons in Hc as [->|Hc]; [|right; apply elem_of_known; exists c; split; [by right|done]].
    apply elem_of_cons in Hq as [->|Hq]; [by left|]. right. apply elem_of_known. by exists (p :: below). }
  assert (Hpn : p ∈ known n) by (apply elem_of_known; exists (p :: below); split; [done|left]).
  assert (Hght_b : Hght (sb_Block b) <> 0).
  { destruct Hf as (_ & Hf & _). cbn in Hf. inversion Hg as [? ? ? _ _ Hckp]; subst.
    pose proof (ck_height_range _ _ _ _ _ Hckp). int_lia. }
  split; cbn [nd_accepted nd_branches nd_window n'].
  - intros c Hc. apply elem_of_cons in Hc as [->|Hc]; [apply (gn_branch n G); left|].
    apply elem_of_cons in Hc as [->|Hc]; [|apply (gn_branch n G); by right].
    split; [|by apply suffix_cons_r]. apply (good_branch_at e _ f); [|by apply V2|exact Hck].
    cbn [map]. apply chain_next; [|exact Hf]. by inversion Hg.
  - apply (gn_window n G).
  - intros q q' [->|Hq]%Hk [->|Hq']%Hk Eq; [done| | |by apply (gn_consistent n G)]; cbn [e pr_Block] in *.
    + symmetry. by apply Nnew.
    + by apply Nnew.
  - intros q g [->|Hq]%Hk [->|Hg']%Hk Hz; cbn [e pr_Block] in *;
      [done|by apply Nroot|done|by apply (gn_root n G)].
Qed.

Lemma node_step_good n n' : node_step ID_String m r expiry_of n n' -> good_node n -> good_node n'.
Proof.
  intros [fuel now sig wait root p below b out Hin Hp Htxs Hts Hh Hn E|p branches Hp Hb|fuel v Ev] G.
  - by apply (step_verify_good n fuel now sig wait root).
  - by apply step_accept_good.
  - by apply (step_restart_good n fuel).
Qed.

Lemma reachable_good n : reachable ID_String m r expiry_of n -> good_node n.
Proof. induction 1 as [n Hn|n n' _ IH Hs]; [by apply new_node_good|by apply (node_step_good n)]. Qed.
End invariant.

(** ** Properties *)

(** C17: no transaction twice.  However a node verifies blocks, on whatever
    branches and with whatever its clock, its signatures and its roots gave,
    accepts blocks and restarts, no transaction is twice in a chain it
    accepted, or in one below a block it verified. *)
Theorem no_tx_twice `{Hashing} {R} `{ChainRules R} `{AuthMethods R} ID_String m (r : R) expiry_of n c :
  wf_chain r -> NoDup (metadata_keys m) -> 0 < GetMinBlockGap r < 2 ^ 62 -> 0 <= GetValidityWindow r < 2 ^ 62 ->
  reachable ID_String m r expiry_of n -> c ∈ nd_accepted n :: nd_branches n -> NoDup (branch_ids c).
Proof.
  intros Hr Hm Hg HW Hn Hc. destruct (gn_branch n (reachable_good Hr Hm Hg HW n Hn) c Hc) as [Hb _]. by inversion Hb.
Qed.

(** C18: the replay check is exact.  In every state a node reaches, the check
    of a block that follows a branch in height, time and the times of its
    transactions returns: it passes exactly when no transaction is twice in
    the block and the chain below it, and refuses with
    [ErrDuplicateContainer] otherwise.  So dropping what has expired from the
    window, stopping the walk at blocks older than the window, and rebuilding
    the window at a restart never change an answer. *)
Theorem replay_check_exact `{Hashing} {R} `{ChainRules R} `{AuthMethods R} ID_String m (r : R) expiry_of n p c b :
  wf_chain r -> NoDup (metadata_keys m) -> 0 < GetMinBlockGap r < 2 ^ 62 -> 0 <= GetValidityWindow r < 2 ^ 62 ->
  reachable ID_String m r expiry_of n -> p :: c ∈ nd_accepted n :: nd_branches n ->
  follows expiry_of (GetValidityWindow r) (window_block b) (window_block (pr_Block p)) ->
  exists res, (forall fuel, (length c < fuel)%nat ->
      VerifyExpiryReplayProtection ID_String (GetExecutionBlock (known n)) (fun _ => GetValidityWindow r) fuel
        (nd_window n) (window_block b) = Some res) /\
    (res = Ok tt <-> NoDup (map GetID (Txs (sb_Block b)) ++ branch_ids (p :: c))) /\
    forall e, res = Err e -> errors_Is e ErrDuplicateContainer = true.
Proof. intros Hr Hm Hg HW Hn. apply (replay_check (m := m)); [done|]. exact (reachable_good Hr Hm Hg HW n Hn). Qed.

(** ** A run

    The first block is stamped half a second after the time zero of the
    genesis state, long before the date of the genesis block. *)

Definition genesis_metadata (k : bytes) : result bytes :=
  if decide (k = HeightKey [0]) then Ok (be_put 8 0)
  else if decide (k = TimestampKey [1]) then Ok (be_put 8 0)
  else if decide (k = FeeKey [2]) then Ok (make_bytes managerLen)
  else GetValue funded_store k.

Definition demo_genesis : Processed :=
  mkProcessed (mkStatelessBlock [0] [] (mkExecutionBlock genesisTmstmp 0 [] (make_bytes 32))) genesis_metadata.

Definition demo_start : Node := mkNode [demo_genesis] [] NewTimeValidityWindow.

Definition demo_next (blkID prnt : bytes) (time height : Z) : StatelessBlock :=
  mkStatelessBlock blkID prnt (mkExecutionBlock time height [demo_signed 1000] (make_bytes 32)).

Definition demo_expiry (i : bytes) : Z := if decide (i = st_id (demo_signed 1000)) then 1000 else 10000.

Definition demo_verify : option (outcome (result OutputBlock)) :=
  verify_block demo_ID_String NewDefaultManager NewDefaultRules 2 demo_start 600 (Ok tt) (Ok tt)
    (Ok (make_bytes 32)) demo_genesis (demo_next [1] [0] 500 1).

Lemma demo_verified : exists out, demo_verify = Some (Returns (Ok out)).
Proof.
  assert (Hv : match demo_verify with Some x => accepts x | None => false end = true) by (vm_compute; reflexivity).
  destruct demo_verify as [x|]; [|done]. apply accepts_inv in Hv as [out ->]. by exists out.
Qed.

Definition demo_verified_node (out : OutputBlock) : Node :=
  mkNode [demo_genesis] [[mkProcessed (demo_next [1] [0] 500 1) (View out); demo_genesis]] NewTimeValidityWindow.

Definition demo_accepted_node (out : OutputBlock) : Node :=
  mkNode [mkProcessed (demo_next [1] [0] 500 1) (View out); demo_genesis] []
    (Accept (window_block (demo_next [1] [0] 500 1)) NewTimeValidityWindow).

Lemma demo_reachable out : demo_verify = Some (Returns (Ok out)) ->
  reachable demo_ID_String NewDefaultManager NewDefaultRules demo_expiry (demo_accepted_node out).
Proof.
  intros E. apply (reach_step _ _ _ _ (demo_verified_node out)).
  - apply (reach_step _ _ _ _ demo_start).
    + apply reach_new, (new_node_at _ demo_genesis (make_bytes managerLen)); [done|done|by split; vm_compute|done|].
      split; [by vm_compute..|by split; vm_compute|by split; vm_compute|apply wf_NewManager].
    + apply (step_verify _ _ _ _ demo_start 2 600 (Ok tt) (Ok tt) (Ok (make_bytes 32)) demo_genesis []);
        [left|done|apply demo_txs_wf|done|done| |exact E].
      split.
      * intros p (c & ->%list_elem_of_singleton & ->%list_elem_of_singleton)%elem_of_known. done.
      * intros p (c & ->%list_elem_of_singleton & ->%list_elem_of_singleton)%elem_of_known. done.
      * intros tx ->%list_elem_of_singleton. by vm_compute.
  - apply (step_accept _ _ _ _ (demo_verified_node out)); [left|].
    intros c Hc. destruct (not_elem_of_nil _ Hc).
Qed.

Lemma no_tx_twice_witness : exists out, demo_verify = Some (Returns (Ok out)) /\
  NoDup (branch_ids (nd_accepted (demo_accepted_node out))).
Proof.
  destruct demo_verified as [out E]. exists out. split; [done|].
  apply (no_tx_twice demo_ID_String NewDefaultManager NewDefaultRules demo_expiry (demo_accepted_node out));
    [apply demo_chain_wf|apply default_metadata_distinct|by split; vm_compute|by split; vm_compute|by apply demo_reachable|left].
Defined.

(** The same transaction a second time. *)
Lemma replay_check_exact_witness : exists out, demo_verify = Some (Returns (Ok out)) /\
  let b := demo_next [2] [1] 900 2 in
  ~ NoDup (map GetID (Txs (sb_Block b)) ++ branch_ids (nd_accepted (demo_accepted_node out))) /\
  exists res, (forall fuel, (1 < fuel)%nat ->
      VerifyExpiryReplayProtection demo_ID_String (GetExecutionBlock (known (demo_accepted_node out)))
        (fun _ => GetValidityWindow NewDefaultRules) fuel (nd_window (demo_accepted_node out)) (window_block b) = Some res) /\
    (res = Ok tt <-> NoDup (map GetID (Txs (sb_Block b)) ++ branch_ids (nd_accepted (demo_accepted_node out)))) /\
    forall e, res = Err e -> errors_Is e ErrDuplicateContainer = true.
Proof.
  destruct demo_verified as [out E]. exists out. split; [done|]. intros b. split.
  { cbn. intros [Hn _]%list.NoDup_cons. apply Hn. left. }
  apply (replay_check_exact demo_ID_String NewDefaultManager NewDefaultRules demo_expiry (demo_accepted_node out)
    (mkProcessed (demo_next [1] [0] 500 1) (View out)) [demo_genesis]);
    [apply demo_chain_wf|apply default_metadata_distinct|by split; vm_compute|by split; vm_compute|by apply demo_reachable|left|].
  split_and!; [done|done|by vm_compute|done|]. intros x ->%list_elem_of_singleton. split; [by vm_compute|by split; vm_compute].
Defined.
