(* ===== verification/Builder.v ===== *)
(** * Building blocks (hypersdk/chain/builder.go)

    [Builder.BuildBlock]: batches of transactions come from the mempool, what
    repeats an ancestor is left out, the rest runs on the parent's state and
    is in the block if its units fit.

    A batch's transactions run on the executor, and one is added to the block
    under [blockLock] at the end of its function.  The order in which the
    functions of a batch end is an argument, positions in the queue of those
    that ran; one that another conflicts with runs before it, so each runs on
    what the ones before it committed.  The cache of fetched keys holds
    values of the parent's state, from which they are read here. *)

From S2P Require Import Prelude GoErrors Lib Rules Strconv Consts Store Permissions TState StorageKeys Balances Controller Vm Transaction Wire Fees FeeManager Generate Processor EMap ValidityWindow Replay.
#[local] Open Scope Z_scope.

Definition ErrNoTxs : error := ErrVar "chain.ErrNoTxs" "no transactions".
Definition errBlockFull : error := ErrVar "chain.errBlockFull" "block full".

(** What a build keeps between transactions. *)
Record Build := mkBuild {
  bd_feeManager : bytes;
  bd_ts : TState;
  blockTransactions : list GeneratedTx;
  bd_results : list TxResult;
  restorable : list GeneratedTx;
  bd_stop : bool;
}.

Definition restore (txs : list GeneratedTx) (s : Build) : Build :=
  mkBuild (bd_feeManager s) (bd_ts s) (blockTransactions s) (bd_results s) (restorable s ++ txs) (bd_stop s).

(** Fetching keys from the parent's state. *)
Fixpoint fetch_keys (parentView : bytes -> result bytes) (toLookup : list bytes) : result unit :=
  match toLookup with
  | [] => Ok tt
  | k :: toLookup =>
      match parentView k with
      | Err err => if errors_Is err ErrNotFound then fetch_keys parentView toLookup else Err err
      | Ok v =>
          match NumChunks v with
          | None => Err ErrInvalidKeyValue
          | Some _ => fetch_keys parentView toLookup
          end
      end
  end.

Section builder.
Context {R BH : Type} `{ChainRules R} `{AuthMethods R} `{BalanceHandler BH}.
Context (ID_String : bytes -> string) (bh : BH) (m : MetadataManager) (r : R).

(** The loop over a batch, from its position [i]: what is queued with its
    keys, and what goes back because the batch is too large. *)
Fixpoint queue (TargetTxsSize marker i totalTxsSize : Z) (txs : list GeneratedTx)
  : list (GeneratedTx * gmap bytes Z) * list GeneratedTx :=
  match txs with
  | [] => ([], [])
  | tx :: rest =>
      let totalTxsSize := i64 (totalTxsSize + st_size tx) in
      if TargetTxsSize <? totalTxsSize then ([], tx :: rest)
      else
        let '(queued, tooLarge) := queue TargetTxsSize marker (i + 1) totalTxsSize rest in
        if Z.testbit marker i then (queued, tooLarge)
        else
          match tx_StateKeys bh (signed_tx tx) with
          | Err _ => (queued, tooLarge)
          | Ok stateKeys => ((tx, stateKeys) :: queued, tooLarge)
          end
  end.

(** The function of one transaction, and the error it returns. *)
Definition build_tx (parentView : bytes -> result bytes) (nextTime : Z) (tx : GeneratedTx) (stateKeys : gmap bytes Z)
    (s : Build) : Build * option error :=
  match fetch_keys parentView (map fst (map_to_list stateKeys)) with
  | Err err => (s, Some err)
  | Ok _ =>
      let tsv := TState_NewView (bd_ts s) stateKeys parentView in
      match SignedTransaction_PreExecute ID_String bh r tx (bd_feeManager s) tsv nextTime with
      | Err _ => (s, None)
      | Ok _ =>
          match SignedTransaction_Execute bh r tx (bd_feeManager s) nextTime tsv with
          | (Err err, _) => (restore [tx] s, Some err)
          | (Ok result, tsv) =>
              match Manager_Consume (bd_feeManager s) (tr_Units result) (GetMaxBlockUnits r) with
              | (Some dimension, feeManager) =>
                  let full := nth dimension (GetWindowTargetUnits r) 0 <=? lastConsumed feeManager dimension in
                  (mkBuild feeManager (bd_ts s) (blockTransactions s) (bd_results s) (restorable s ++ [tx])
                     (bd_stop s || full), if full then Some errBlockFull else None)
              | (None, feeManager) =>
                  (mkBuild feeManager (Commit tsv) (blockTransactions s ++ [tx]) (bd_results s ++ [result])
                     (restorable s) (bd_stop s), None)
              end
          end
      end
  end.

(** The functions of a batch, in the order they end; [Wait] returns the first
    error. *)
Fixpoint run_queued (parentView : bytes -> result bytes) (nextTime : Z) (queued : list (GeneratedTx * gmap bytes Z))
    (order : list nat) (s : Build) : Build * option error :=
  match order with
  | [] => (s, None)
  | i :: order =>
      match queued !! i with
      | None => run_queued parentView nextTime queued order s
      | Some (tx, stateKeys) =>
          let '(s, err) := build_tx parentView nextTime tx stateKeys s in
          let '(s, execErr) := run_queued parentView nextTime queued order s in
          (s, match err with Some _ => err | None => execErr end)
      end
  end.

(** The queued transactions that did not run. *)
Definition pending (queued : list (GeneratedTx * gmap bytes Z)) (order : list nat) : list GeneratedTx :=
  omap (fun i => if decide (i ∈ order) then None else fst <$> queued !! i) (seq 0 (length queued)).

(** The loop over the batches that [Stream] gives, each with an order, until
    time is up, the mempool is empty or the block is full. *)
Fixpoint build_batches (isRepeat : list GeneratedTx -> Z * option error) (TargetTxsSize : Z)
    (parentView : bytes -> result bytes) (nextTime : Z) (batches : list (list GeneratedTx * list nat)) (s : Build)
  : Build * option error :=
  match batches with
  | [] => (s, None)
  | (txs, order) :: batches =>
      if bd_stop s then (s, None)
      else if (length txs =? 0)%nat then (s, None)
      else
        match isRepeat txs with
        | (_, Some _) => (restore txs s, None)
        | (dup, None) =>
            let '(queued, tooLarge) := queue TargetTxsSize dup 0 0 txs in
            let '(s, execErr) := run_queued parentView nextTime queued order (restore tooLarge s) in
            match execErr with
            | None => build_batches isRepeat TargetTxsSize parentView nextTime batches s
            | Some err =>
                let s := restore (pending queued order) s in
                if errors_Is err errBlockFull then (s, None) else (s, Some err)
            end
        end
  end.

(** The block's own keys, in a view that may only write them. *)
Definition builder_keys : gmap bytes Z :=
  <[FeeKey (FeePrefix m) := Write]>
    (<[TimestampKey (TimestampPrefix m) := Write]> {[HeightKey (HeightPrefix m) := Write]}).

Definition builder_storage (parent : ExecutionBlock) (parentFeeManager k : bytes) : result bytes :=
  if decide (k = FeeKey (FeePrefix m)) then Ok parentFeeManager
  else if decide (k = TimestampKey (TimestampPrefix m)) then Ok (be_put 8 (u64 (Tmstmp parent)))
  else if decide (k = HeightKey (HeightPrefix m)) then Ok (be_put 8 (Hght parent))
  else Err ErrNotFound.

Definition insert_metadata (height timestamp : Z) (feeManager : bytes) : GoM TStateView unit :=
  on_error (fun err => Errorf_w "" err ": unable to insert height")
    (Insert (HeightKey (HeightPrefix m)) (be_put 8 height));;
  on_error (fun err => Errorf_w "" err ": unable to insert timestamp")
    (Insert (TimestampKey (TimestampPrefix m)) (be_put 8 (u64 timestamp)));;
  on_error (fun err => Errorf_w "" err ": unable to insert fees")
    (Insert (FeeKey (FeePrefix m)) feeManager).

(** [BuildBlock] on a parent with its state, at the time [nextTime]; [toID]
    hashes the bytes of a block ([NewStatelessBlock] never fails), and
    [createView] is the error of making the view of its state.  With it, the
    transactions that go back to the mempool. *)
Definition BuildBlock (toID : bytes -> ExecutionBlock -> bytes) (isRepeat : list GeneratedTx -> Z * option error)
    (TargetTxsSize nextTime : Z) (parentRoot : result bytes) (createView : option error)
    (parent : StatelessBlock) (parentView : bytes -> result bytes) (batches : list (list GeneratedTx * list nat))
  : outcome (result (StatelessBlock * OutputBlock) * list GeneratedTx) :=
  let parentTmstmp := Tmstmp (sb_Block parent) in
  if nextTime <? i64 (parentTmstmp + GetMinBlockGap r)
  then Returns (Err (Errorf_w "" ErrTimestampTooEarly (": proposed build block time (" +:+ fmt_d nextTime
         +:+ ") < parentTimestamp (" +:+ fmt_d parentTmstmp +:+ ") + minBlockGap (" +:+ fmt_d (GetMinBlockGap r)
         +:+ ")")), [])
  else
  let height := u64 (Hght (sb_Block parent) + 1) in
  match parentView (FeeKey (FeePrefix m)) with
  | Err err => Returns (Err err, [])
  | Ok feeRaw =>
  let parentFeeManager := NewManager feeRaw in
  match ComputeNext parentFeeManager nextTime r with
  | Panics err => Panics err
  | Returns feeManager =>
  match build_batches isRepeat TargetTxsSize parentView nextTime batches
          (mkBuild feeManager fresh_block [] [] [] false) with
  | (s, Some execErr) => Returns (Err execErr, blockTransactions s ++ restorable s)
  | (s, None) =>
  let emptyTime := i64 (parentTmstmp + GetMinEmptyBlockGap r) in
  if (length (blockTransactions s) =? 0)%nat && (nextTime <? emptyTime)
  then Returns (Err (Errorf_w "" ErrNoTxs (": allowed in " +:+ fmt_d (i64 (emptyTime - nextTime)) +:+ " ms")), restorable s)
  else
  let tsv := TState_NewView (bd_ts s) builder_keys (builder_storage (sb_Block parent) parentFeeManager) in
  match insert_metadata height nextTime (bd_feeManager s) tsv with
  | (Err err, _) => Returns (Err err, restorable s)
  | (Ok _, tsv) =>
  match parentRoot with
  | Err err => Returns (Err err, restorable s)
  | Ok parentStateRoot =>
  match createView with
  | Some err => Returns (Err err, restorable s)
  | None =>
      let block := mkExecutionBlock nextTime height (blockTransactions s) parentStateRoot in
      Returns (Ok (mkStatelessBlock (toID (id parent) block) (id parent) block,
          mkOutputBlock (block_value (Commit tsv) parentView) (bd_results s)
            (UnitPrices (bd_feeManager s)) (UnitsConsumed (bd_feeManager s))), restorable s)
  end end end end end end.
End builder.

(** A node builds on a block it knows, with its window. *)
Definition build_block {R} `{ChainRules R} `{AuthMethods R} (ID_String : bytes -> string) (m : MetadataManager) (r : R)
    (toID : bytes -> ExecutionBlock -> bytes) (fuel : nat) (n : Node) (limit nextTime : Z) (root : result bytes)
    (createView : option error) (parent : Processed) (batches : list (list GeneratedTx * list nat)) :=
  BuildBlock ID_String New m r toID
    (fun txs => default (0, None) (IsRepeat (GetExecutionBlock (known n)) (fun _ => GetValidityWindow r) fuel (nd_window n)
       (window_block (pr_Block parent)) nextTime txs))
    limit nextTime root createView (pr_Block parent) (pr_View parent) batches.
