(* ===== verification/BuilderCorrect.v ===== *)
(** * What is built is accepted

    A block that [BuildBlock] makes is accepted by [Processor.Execute] on any
    node that knows its parent, with the state, the results, the prices and
    the units the builder has: running the transactions as they came and
    dropping the ones that fail is running the block ([building]), and what
    the window let through is no repeat. *)

From stdpp Require Import relations.
From S2P Require Import Prelude GoErrors Lib Rules Strconv Consts Store Permissions TState StorageKeys Balances Controller Vm Transaction Wire Fees FeeManager Generate Processor Examples ChainCorrect LoadCorrect ProcessorCorrect Heap EMap ValidityWindow WindowCorrect Replay ReplayCorrect Builder.
#[local] Open Scope Z_scope.

#[local] Existing Instance keys_sign.
#[local] Existing Instance some_crypto.
#[local] Existing Instance ED25519_AuthMethods.

(** ** Fees depend on the prices only *)

Lemma unitPrice_UnitPrices f g : UnitPrices f = UnitPrices g ->
  forall i, (i < FeeDimensions)%nat -> unitPrice f i = unitPrice g i.
Proof.
  intros E i Hi. apply (f_equal (fun l => l !! i)) in E. unfold UnitPrices in E.
  rewrite !(list_lookup_fmap _ (seq _ _)), !lookup_seq_lt in E by done. cbn in E. by injection E.
Qed.

Lemma Manager_Fee_prices f g d : UnitPrices f = UnitPrices g -> Manager_Fee f d = Manager_Fee g d.
Proof.
  intros E. pose proof (unitPrice_UnitPrices f g E) as Hp. unfold Manager_Fee. generalize 0.
  assert (Hd : forall i, i ∈ seq 0 FeeDimensions -> unitPrice f i = unitPrice g i)
    by (intros i Hi%elem_of_seq; apply Hp; lia).
  clear Hp E. induction (seq 0 FeeDimensions) as [|i dims IH]; intros fee; cbn [fee_from]; [done|].
  rewrite Hd by left. destruct (safemath_Mul _ _); [|done]. cbn [mbind result_bind].
  destruct (safemath_Add _ _); [|done]. cbn [mbind result_bind]. apply IH. intros j Hj. apply Hd. by right.
Qed.

Section transactions.
Context {R BH : Type} `{ChainRules R} `{AuthMethods R} `{BalanceHandler BH}.
Context (ID_String : bytes -> string) (bh : BH) (r : R).

Lemma PreExecute_prices tx f g im t : UnitPrices f = UnitPrices g ->
  SignedTransaction_PreExecute ID_String bh r tx f im t = SignedTransaction_PreExecute ID_String bh r tx g im t.
Proof.
  intros E. unfold SignedTransaction_PreExecute. destruct (Base_Execute _ _ _ _); [|done]. cbn [mbind result_bind].
  destruct (_ <? _); [done|]. destruct (check_actions _ _ _); [|done]. cbn [mbind result_bind].
  destruct (out_of_range _ _); [done|]. destruct (SignedTransaction_Units bh r tx); [|done]. cbn [mbind result_bind].
  by rewrite (Manager_Fee_prices f g).
Qed.

Lemma Execute_prices tx f g t v : UnitPrices f = UnitPrices g ->
  SignedTransaction_Execute bh r tx f t v = SignedTransaction_Execute bh r tx g t v.
Proof.
  intros E. unfold SignedTransaction_Execute. apply bind_ext. intros u v'. by rewrite (Manager_Fee_prices f g).
Qed.

Lemma run_task_prices tx keys f g t storage ts : UnitPrices f = UnitPrices g ->
  run_task ID_String bh r tx keys f t storage ts = run_task ID_String bh r tx keys g t storage ts.
Proof. intros E. unfold run_task. by rewrite (PreExecute_prices tx f g), (Execute_prices tx f g). Qed.

Lemma Execute_units tx f t v res v' :
  SignedTransaction_Execute bh r tx f t v = (Ok res, v') -> SignedTransaction_Units bh r tx = Ok (tr_Units res).
Proof.
  unfold SignedTransaction_Execute. intros E. apply run_bind_inv_ok in E as (u & v1 & Eu%run_on_error_inv_ok & E).
  apply run_bind_inv_ok in E as (fee & v2 & _ & E). apply run_bind_inv_ok in E as (res' & v3 & _ & E).
  injection E as <- _. unfold lift in Eu. by injection Eu.
Qed.

(** One transaction more. *)
Lemma plan_txs_snoc txs tx u keys : forall f plan g h,
  plan_txs bh r txs f = (Ok plan, g) -> tx_StateKeys bh (signed_tx tx) = Ok keys ->
  SignedTransaction_Units bh r tx = Ok u -> Manager_Consume g u (GetMaxBlockUnits r) = (None, h) ->
  plan_txs bh r (txs ++ [tx]) f = (Ok (plan ++ [keys]), h).
Proof.
  induction txs as [|tx' txs IH]; intros f plan g h Ep Ek Eu Ec; cbn [plan_txs app] in *.
  { injection Ep as <- <-. by rewrite Ek, Eu, Ec. }
  destruct (tx_StateKeys bh (signed_tx tx')); [|done]. destruct (SignedTransaction_Units bh r tx'); [|done].
  destruct (Manager_Consume f _ _) as [[|] f1]; [done|]. destruct (plan_txs bh r txs f1) as [[plan1|] f2] eqn:E1; [|done].
  injection Ep as <- <-. by rewrite (IH _ _ _ _ E1 Ek Eu Ec).
Qed.

Lemma run_tasks_snoc tasks tx keys res f t storage : forall ts results ts1 ts2,
  run_tasks ID_String bh r tasks f t storage ts = (Ok results, ts1) ->
  run_task ID_String bh r tx keys f t storage ts1 = (Ok res, ts2) ->
  run_tasks ID_String bh r (tasks ++ [(tx, keys)]) f t storage ts = (Ok (results ++ [res]), ts2).
Proof.
  induction tasks as [|[tx' keys'] tasks IH]; intros ts results ts1 ts2 Er E; cbn [run_tasks app] in *.
  { injection Er as <- <-. by rewrite E. }
  destruct (run_task _ _ _ tx' _ _ _ _ _) as [[res'|] ts']; [|done].
  destruct (run_tasks _ _ _ tasks _ _ _ ts') as [[rs|] ts''] eqn:E1; [|done]. injection Er as <- <-.
  by rewrite (IH _ _ _ _ E1 E).
Qed.
End transactions.

(** ** The loops *)

Lemma NoDup_picked {A B} (f : A -> B) (l : list A) order : NoDup order -> NoDup (map f l) ->
  NoDup (map f (omap (fun i => l !! i) order)).
Proof.
  intros Ho Hl. induction Ho as [|i order Hi Ho IH]; [apply list.NoDup_nil; done|]. cbn [omap list_omap].
  destruct (l !! i) as [x|] eqn:Ex; [|done]. cbn [map]. apply list.NoDup_cons. split; [|done].
  intros (y & Ey & Hy)%list_elem_of_fmap. apply list_elem_of_omap in Hy as (j & Hj & Ey').
  assert (i = j); [|by subst]. apply (NoDup_lookup (map f l) i j (f x)); [done| |];
    rewrite list_lookup_fmap, ?Ex, ?Ey'; cbn; congruence.
Qed.

Section loops.
Context `{Hashing} {R : Type} `{ChainRules R} `{AuthMethods R}.
Context (ID_String : bytes -> string) (r : R) (parentView : bytes -> result bytes) (nextTime : Z).
Context (Hr : wf_chain r) (feeManager : bytes) (Hfm : wf_manager feeManager).

(** What is built so far is a block run on the parent's state. *)
Record building (s : Build) : Prop := {
  bg_txs : Forall wf_tx (blockTransactions s);
  bg_plan : exists plan, plan_txs New r (blockTransactions s) feeManager = (Ok plan, bd_feeManager s) /\
    forall f, UnitPrices f = UnitPrices feeManager ->
      run_tasks ID_String New r (zip (blockTransactions s) plan) f nextTime parentView fresh_block
        = (Ok (bd_results s), bd_ts s);
}.

Lemma building_manager s : building s -> wf_manager (bd_feeManager s) /\ UnitPrices (bd_feeManager s) = UnitPrices feeManager.
Proof. intros [Htx (plan & Ep & _)]. by destruct (plan_txs_spec r Hr _ _ _ _ Hfm Htx Ep) as (_ & ? & ? & _). Qed.

Lemma restore_building txs s : building s -> building (restore txs s).
Proof. intros [Htx Hp]. by split. Qed.

(** Whether a transaction names the chain and is in time for the block. *)
Definition in_time (tx : GeneratedTx) : Prop := Base_Execute ID_String r (td_Base (st_Data tx)) nextTime = Ok tt.

Lemma consume_failed f u l d g : Manager_Consume f u l = (Some d, g) -> wf_manager f -> length u = FeeDimensions ->
  length l = FeeDimensions -> Forall is_u64 u -> g = f.
Proof.
  intros Ec Hf Hu Hl Hw. pose proof (Manager_Consume_view f u l Hf Hu Hl Hw) as Hv. unfold Manager_Consume in *.
  destruct (consume_check f (seq 0 FeeDimensions) u l) as [d'|] eqn:Ed; [by injection Ec|].
  apply consume_check_none in Ed.
  destruct (consume_commit_spec u (seq 0 FeeDimensions) f Hf Hw (seq_NoDup _ _) dims_in_range) as (g' & Eg & _).
  { eapply List.Forall_impl; [|exact Ed]. by intros i []. }
  by rewrite Eg in Ec.
Qed.

Lemma build_tx_inv tx keys s : building s -> wf_tx tx -> tx_StateKeys New (signed_tx tx) = Ok keys ->
  let '(s', err) := build_tx ID_String New r parentView nextTime tx keys s in
  building s' /\ (blockTransactions s' = blockTransactions s \/
    blockTransactions s' = blockTransactions s ++ [tx] /\ in_time tx).
Proof.
  intros Hs Htx Hk. unfold build_tx. destruct (fetch_keys _ _); [|by split; [|left]].
  destruct (SignedTransaction_PreExecute _ _ _ _ _ _ _) as [[]|] eqn:Ep; [|by split; [|left]].
  destruct (SignedTransaction_Execute _ _ _ _ _ _) as [[res|] v'] eqn:Ee; [|split; [by apply restore_building|by left]].
  pose proof (Execute_units _ _ _ _ _ _ _ _ Ee) as Hu. destruct (building_manager s Hs) as [Hw Hp].
  destruct (Units_u64 r Hr tx _ Htx Hu) as [Hlu Hwu].
  destruct (Manager_Consume _ _ _) as [[d|] g] eqn:Ec.
  - apply consume_failed in Ec as ->; [|done..|apply Hr|done]. split; [|by left]. by destruct Hs; split.
  - split; [|right; split; [done|]].
    + destruct Hs as [Hall (plan & Epl & Hrun)]. split; cbn [blockTransactions bd_feeManager bd_results bd_ts].
      { apply Forall_app. split; [done|]. by constructor. }
      exists (plan ++ [keys]). split; [by apply (plan_txs_snoc New r _ tx (tr_Units res) keys _ _ (bd_feeManager s))|].
      intros f Hf. destruct (plan_txs_spec r Hr _ _ _ _ Hfm Hall Epl) as (Hlen%Forall2_length & _).
      rewrite zip_with_app by done.
      apply (run_tasks_snoc ID_String New r _ tx keys res f nextTime parentView _ _ (bd_ts s)); [by apply Hrun|].
      rewrite (run_task_prices ID_String New r tx keys f (bd_feeManager s)) by congruence.
      unfold run_task. by rewrite Ep, Ee.
    + apply PreExecute_ok in Ep as [fee []]. done.
Qed.
(** What is queued of a batch: transactions the marker has no bit for. *)
Lemma queue_spec limit marker txs : forall i total, 
  let '(queued, _) := queue New limit marker i total txs in
  map fst queued `sublist_of` txs /\
  forall tx keys, (tx, keys) ∈ queued -> tx_StateKeys New (signed_tx tx) = Ok keys /\
    exists j, txs !! j = Some tx /\ Z.testbit marker (i + Z.of_nat j) = false.
Proof.
  induction txs as [|tx txs IH]; intros i total; cbn [queue].
  { split; [done|]. by intros tx keys ?%not_elem_of_nil. }
  destruct (limit <? _); [split; [apply sublist_nil_l|by intros tx' keys ?%not_elem_of_nil]|].
  specialize (IH (i + 1) (i64 (total + st_size tx))). destruct (queue _ _ _ _ _ txs) as [queued tooLarge].
  destruct IH as [Hsub Hq].
  assert (Hrest : forall tx' keys, (tx', keys) ∈ queued -> tx_StateKeys New (signed_tx tx') = Ok keys /\
      exists j, (tx :: txs) !! j = Some tx' /\ Z.testbit marker (i + Z.of_nat j) = false).
  { intros tx' keys Hin. destruct (Hq tx' keys Hin) as (Hk & j & Hj & Hb). split; [done|]. exists (S j). split; [done|].
    by replace (i + Z.of_nat (S j)) with (i + 1 + Z.of_nat j) by lia. }
  destruct (Z.testbit marker i) eqn:Em; [split; [by apply sublist_cons|done]|].
  destruct (tx_StateKeys New (signed_tx tx)) as [keys|] eqn:Ek; [|split; [by apply sublist_cons|done]].
  split; [by apply sublist_skip|]. intros tx' keys' [[= -> ->]|Hin]%elem_of_cons; [|by apply Hrest].
  split; [done|]. exists 0%nat. by rewrite Z.add_0_r.
Qed.

(** The transactions a batch adds, of those picked by the order. *)
Lemma run_queued_inv queued order : (forall tx keys, (tx, keys) ∈ queued -> wf_tx tx /\
    tx_StateKeys New (signed_tx tx) = Ok keys) -> forall s, building s ->
  let '(s', _) := run_queued ID_String New r parentView nextTime queued order s in
  building s' /\ exists added, blockTransactions s' = blockTransactions s ++ added /\
    added `sublist_of` map fst (omap (fun i => queued !! i) order) /\ Forall in_time added.
Proof.
  intros Hq. induction order as [|i order IH]; intros s Hs; cbn [run_queued omap list_omap].
  { split; [done|]. exists []. by rewrite app_nil_r. }
  destruct (queued !! i) as [[tx keys]|] eqn:Ei; [|by apply IH].
  destruct (Hq tx keys) as [Htx Hk]; [by apply list_elem_of_lookup_2 in Ei|].
  pose proof (build_tx_inv tx keys s Hs Htx Hk) as Hb.
  destruct (build_tx _ _ _ _ _ _ _ _) as [s1 err]. destruct Hb as [Hs1 Hb]. specialize (IH s1 Hs1).
  destruct (run_queued _ _ _ _ _ _ _ s1) as [s2 err2]. destruct IH as (Hs2 & added & E & Hsub & Hin). split; [done|].
  cbn [map fst]. destruct Hb as [Eb|[Eb Ht]]; rewrite Eb in E.
  - exists added. split; [done|]. split; [by apply sublist_cons|done].
  - exists (tx :: added). rewrite E, <- app_assoc. split; [done|]. split; [by apply sublist_skip|by constructor].
Qed.

(** What [isRepeat] lets through. *)
Context (isRepeat : list GeneratedTx -> Z * option error) (fresh : GeneratedTx -> Prop).
Context (Hrep : forall txs marker, isRepeat txs = (marker, None) ->
  forall j tx, txs !! j = Some tx -> Z.testbit marker (Z.of_nat j) = false -> in_time tx -> fresh tx).

Lemma build_batches_inv limit batches :
  Forall (fun b => Forall wf_tx b.1 /\ NoDup b.2) batches -> NoDup (map GetID (concat (map fst batches))) ->
  forall s, building s ->
  let '(s', _) := build_batches ID_String New r isRepeat limit parentView nextTime batches s in
  building s' /\ exists added, blockTransactions s' = blockTransactions s ++ added /\
    NoDup (map GetID added) /\ (forall tx, tx ∈ added -> tx ∈ concat (map fst batches)) /\
    Forall in_time added /\ Forall fresh added.
Proof using Hfm Hr Hrep.
  induction batches as [|[txs order] batches IH]; intros Hall Hnd s Hs; cbn [build_batches].
  { split; [done|]. exists []. rewrite app_nil_r. split_and!; [done|by apply list.NoDup_nil|done..]. }
  assert (Hnone : forall s', building s' -> blockTransactions s' = blockTransactions s ->
      building s' /\ exists added, blockTransactions s' = blockTransactions s ++ added /\ NoDup (map GetID added) /\
        (forall tx, tx ∈ added -> tx ∈ concat (map fst ((txs, order) :: batches))) /\
        Forall in_time added /\ Forall fresh added).
  { intros s' Hs' E. split; [done|]. exists []. rewrite app_nil_r.
    split_and!; [done|by apply list.NoDup_nil|by intros ? ?%not_elem_of_nil|done..]. }
  destruct (bd_stop s); [by apply Hnone|]. destruct (length txs =? 0)%nat; [by apply Hnone|].
  destruct (isRepeat txs) as [dup [err|]] eqn:Er; [apply Hnone; [by apply restore_building|done]|].
  cbn [map concat fst] in Hnd |- *. rewrite map_app in Hnd. apply list.NoDup_app in Hnd as (Hnd1 & Hdis & Hnd2).
  inversion_clear Hall as [|? ? [Htxs Hord] Hall']. cbn [fst snd] in Htxs, Hord.
  pose proof (queue_spec limit dup txs 0 0) as Hq. destruct (queue New limit dup 0 0 txs) as [queued tooLarge].
  destruct Hq as [Hsub Hq].
  assert (Hin : forall tx keys, (tx, keys) ∈ queued -> tx ∈ txs).
  { intros tx keys Hi. eapply elem_of_sublist; [|exact Hsub]. by apply (list_elem_of_fmap_2 fst _ _ Hi). }
  pose proof (run_queued_inv queued order) as Hrun. rewrite Forall_forall in Htxs.
  specialize (Hrun ltac:(intros tx keys Hi; split; [apply Htxs, list_elem_of_In, (Hin tx keys Hi)|by apply Hq])
    (restore tooLarge s) (restore_building _ _ Hs)).
  destruct (run_queued _ _ _ _ _ _ _ _) as [s1 execErr]. destruct Hrun as (Hs1 & added & E & Hadd & Ht).
  cbn [restore blockTransactions] in E.
  assert (Hpick : forall tx, tx ∈ added -> exists keys, (tx, keys) ∈ queued).
  { intros tx Hi. apply (elem_of_sublist _ _ _ Hi) in Hadd. apply list_elem_of_fmap in Hadd as ([tx' keys] & -> & Hi').
    apply list_elem_of_omap in Hi' as (i & _ & Hi'). exists keys. by apply list_elem_of_lookup_2 in Hi'. }
  assert (Hadded : forall tx, tx ∈ added -> tx ∈ txs) by (intros tx [keys Hi]%Hpick; by apply (Hin tx keys)).
  assert (Hndq : NoDup (map GetID (map fst queued))) by (eapply sublist_NoDup; [exact Hnd1|by apply (fmap_sublist GetID)]).
  assert (Hnda : NoDup (map GetID added)).
  { apply (sublist_NoDup _ (map GetID (map fst (omap (fun i => queued !! i) order)))); [|by apply (fmap_sublist GetID)].
    rewrite map_map. apply (NoDup_picked (fun q => GetID q.1)); [done|]. by rewrite <- (map_map fst GetID). }
  assert (Hfresh : Forall fresh added).
  { rewrite Forall_forall in Ht |- *. intros tx Hi. apply list_elem_of_In in Hi as Hi'. destruct (Hpick tx Hi') as [keys Hk].
    destruct (Hq tx keys Hk) as (_ & j & Hj & Hb). by apply (Hrep txs dup Er j tx Hj Hb), Ht. }
  assert (Hstop : forall s', building s' -> blockTransactions s' = blockTransactions s1 ->
      building s' /\ exists added0, blockTransactions s' = blockTransactions s ++ added0 /\ NoDup (map GetID added0) /\
        (forall tx, tx ∈ added0 -> tx ∈ txs ++ concat (map fst batches)) /\ Forall in_time added0 /\ Forall fresh added0).
  { intros s' Hs' E'. split; [done|]. exists added. rewrite E', E. split_and!; [done|done| |done|done].
    intros tx Hi. apply elem_of_app. left. by apply Hadded. }
  destruct execErr as [err|].
  { pose proof (Hstop _ (restore_building (pending queued order) s1 Hs1) eq_refl) as H'. by destruct (errors_Is err errBlockFull). }
  specialize (IH Hall' Hnd2 s1 Hs1). destruct (build_batches _ _ _ _ _ _ _ _ s1) as [s2 err2].
  destruct IH as (Hs2 & more & E2 & Hnd3 & Hin2 & Ht2 & Hf2). split; [done|]. exists (added ++ more).
  rewrite E2, E, <- app_assoc. split_and!; [done| | |by apply Forall_app|by apply Forall_app].
  - rewrite map_app. apply list.NoDup_app. split; [done|]. split; [|done].
    intros i (x1 & -> & Hx)%list_elem_of_fmap (x2 & Ey & Hy)%list_elem_of_fmap.
    apply (Hdis (GetID x1)); [by apply list_elem_of_fmap_2, Hadded|]. rewrite Ey. by apply list_elem_of_fmap_2, Hin2.
  - intros tx [Hi|Hi]%elem_of_app; apply elem_of_app; [left; by apply Hadded|right; by apply Hin2].
Qed.
End loops.

(** ** The block's own keys *)

Lemma Insert_total k b v : checkScope v k Write = true -> checkScope v k Allocate = true -> VerifyValue k b = true ->
  (forall e, v_storage v k = Err e -> e = ErrNotFound) -> exists v', TStateView_Insert k b v = (Ok tt, v').
Proof.
  intros Hw Ha Hv Hs. unfold TStateView_Insert. rewrite Hw, Hv. cbn [negb].
  assert (Hu : exists un, isUnchanged v k (Some b) = Ok un).
  { unfold isUnchanged. destruct (changedKeys (v_ts v) !! k); [by eexists|].
    destruct (v_storage v k) as [|e] eqn:E; [by eexists|]. rewrite (Hs e eq_refl), decide_True by done. by eexists. }
  destruct Hu as [un ->]. cbv zeta. destruct (view_value v k) as [past|e] eqn:E; [case_decide; by eexists|].
  assert (e = ErrNotFound) as ->; [|rewrite decide_True by done; rewrite Ha; by eexists].
  unfold view_value, parent_value in E. destruct (v_pending v !! k) as [[|]|]; [done|congruence|].
  destruct (changedKeys (v_ts v) !! k) as [[|]|]; [done|congruence|]. by apply Hs.
Qed.

Lemma VerifyValue_metadata p n b : 0 <= n < 65536 -> (0 < length b)%nat -> Z.of_nat (length b) / chunkSize + 1 <= n ->
  VerifyValue (EncodeChunks p n) b = true.
Proof.
  intros Hn Hl Hc. unfold VerifyValue, NumChunks, numChunks. destruct (Z.eqb_spec (Z.of_nat (length b)) 0); [lia|].
  cbv zeta. destruct (Z.ltb_spec MaxUint16 (Z.of_nat (length b) / chunkSize + 1)); [unfold MaxUint16 in *; lia|].
  unfold MaxChunks, EncodeChunks. rewrite length_app, length_be_put. destruct (Nat.ltb_spec (length p + 2) 2); [lia|].
  replace (length p + 2 - 2)%nat with (length p) by lia. rewrite drop_app_length, be_get_put.
  change (2 ^ (8 * Z.of_nat 2)) with 65536. rewrite Z.mod_small by lia. apply Z.leb_le. lia.
Qed.

Section metadata.
Context (m : MetadataManager) (Hm : NoDup (metadata_keys m)).

Lemma complete_scope k p : k ∈ metadata_keys m -> p = Write \/ p = Allocate ->
  Keys_Has (CompletePermissions m) k p = true.
Proof.
  intros Hk Hp. assert (CompletePermissions m !! k = Some All) as E.
  { destruct (metadata_distinct m Hm) as (N1 & N2 & N3). unfold CompletePermissions, metadata_keys in *.
    rewrite !elem_of_cons in Hk. destruct Hk as [->|[->|[->|Hk%not_elem_of_nil]]]; [| | |done];
      rewrite ?lookup_insert_eq, ?lookup_insert_ne by done; rewrite ?lookup_insert_eq, ?lookup_insert_ne by done;
      by rewrite ?lookup_insert_eq, ?lookup_singleton_eq. }
  unfold Keys_Has, Keys_perm. rewrite E. by destruct Hp as [->| ->].
Qed.

(** The processor's keys are always written. *)
Lemma writeBlockContext_total ctx ts : length (bc_feeManager ctx) = managerLen ->
  exists v, writeBlockContext m ctx (TState_NewView ts (CompletePermissions m) (fun _ => Err ErrNotFound)) = (Ok tt, v).
Proof.
  intros Hl.
  assert (Hins : forall k b v, k ∈ metadata_keys m -> v_scope v = CompletePermissions m ->
      v_storage v = (fun _ => Err ErrNotFound) -> VerifyValue k b = true ->
      exists v', TStateView_Insert k b v = (Ok tt, v') /\ v_scope v' = CompletePermissions m /\
        v_storage v' = (fun _ => Err ErrNotFound)).
  { intros k b v Hk Hs Hst Hv. destruct (Insert_total k b v) as [v' E]; [..|exists v'; split; [done|]].
    - unfold checkScope. rewrite Hs. apply complete_scope; [done|by left].
    - unfold checkScope. rewrite Hs. apply complete_scope; [done|by right].
    - done.
    - rewrite Hst. by intros e [= <-].
    - destruct (Insert_inv _ _ _ _ E) as (_ & _ & (_ & -> & ->) & _). by split. }
  unfold writeBlockContext. set (v0 := TState_NewView _ _ _).
  destruct (Hins (HeightKey (HeightPrefix m)) (be_put 8 (bc_height ctx)) v0) as (v1 & E1 & S1 & T1);
    [left|done|done|apply VerifyValue_metadata; rewrite ?length_be_put; first [lia|by vm_compute]|].
  destruct (Hins (TimestampKey (TimestampPrefix m)) (be_put 8 (u64 (bc_timestamp ctx))) v1) as (v2 & E2 & S2 & T2);
    [right; left|done|done|apply VerifyValue_metadata; rewrite ?length_be_put; first [lia|by vm_compute]|].
  destruct (Hins (FeeKey (FeePrefix m)) (bc_feeManager ctx) v2) as (v3 & E3 & _ & _);
    [right; right; left|done|done|apply VerifyValue_metadata; rewrite ?Hl; first [lia|by vm_compute|vm_compute; lia]|].
  exists v3. change Insert with TStateView_Insert.
  rewrite (run_bind_ok _ _ _ tt v1) by (by apply run_on_error_ok).
  rewrite (run_bind_ok _ _ _ tt v2) by (by apply run_on_error_ok). by apply run_on_error_ok.
Qed.

(** What the builder writes. *)
Lemma insert_metadata_spec pb fees height time fm ts parent v' :
  insert_metadata m height time fm (TState_NewView ts (builder_keys m) (builder_storage m pb fees)) = (Ok tt, v') ->
  be_put 8 (Hght pb) <> be_put 8 height -> be_put 8 (u64 (Tmstmp pb)) <> be_put 8 (u64 time) ->
  parent (FeeKey (FeePrefix m)) = Ok fees ->
  let state := block_value (Commit v') parent in
  state (HeightKey (HeightPrefix m)) = Ok (be_put 8 height) /\
  state (TimestampKey (TimestampPrefix m)) = Ok (be_put 8 (u64 time)) /\
  state (FeeKey (FeePrefix m)) = Ok fm /\
  forall k, k ∉ metadata_keys m -> state k = block_value ts parent k.
Proof.
  intros E Hh Ht Hf. destruct (metadata_distinct m Hm) as (N1 & N2 & N3). unfold metadata_keys, insert_metadata in *.
  set (kh := HeightKey _) in *. set (kt := TimestampKey _) in *. set (kf := FeeKey _) in *.
  apply run_bind_inv_ok in E as ([] & v1 & E1%run_on_error_inv_ok & E).
  apply run_bind_inv_ok in E as ([] & v2 & E2%run_on_error_inv_ok & E3%run_on_error_inv_ok).
  change Insert with TStateView_Insert in *.
  pose proof (Insert_inv _ _ _ _ E1) as (_ & _ & (B1 & _ & S1) & _).
  pose proof (Insert_inv _ _ _ _ E2) as (_ & _ & (B2 & _ & S2) & _).
  pose proof (Insert_inv _ _ _ _ E3) as (_ & _ & (B3 & _ & S3) & _).
  assert (v_storage v' = builder_storage m pb fees) as Hs by (by rewrite S3, S2, S1).
  split_and!.
  - apply commit_value; rewrite ?Hs.
    + rewrite (Insert_value _ _ _ _ _ E3), decide_False, (Insert_value _ _ _ _ _ E2), decide_False by done.
      by rewrite (Insert_value _ _ _ _ _ E1), decide_True.
    + unfold builder_storage. fold kh kt kf. rewrite !decide_False, decide_True by done. intros E4. congruence.
  - apply commit_value; rewrite ?Hs.
    + rewrite (Insert_value _ _ _ _ _ E3), decide_False, (Insert_value _ _ _ _ _ E2) by done. by rewrite decide_True.
    + unfold builder_storage. fold kh kt kf. rewrite decide_False, decide_True by done. intros E4. congruence.
  - apply commit_value; rewrite ?Hs.
    + by rewrite (Insert_value _ _ _ _ _ E3), decide_True.
    + unfold builder_storage. fold kf. rewrite decide_True by done. by intros [= <-].
  - intros k Hk. rewrite !not_elem_of_cons in Hk. destruct Hk as (K1 & K2 & K3 & _).
    unfold block_value, parent_value. cbn [changedKeys Commit v_ts TState_NewView v_storage].
    rewrite lookup_union_r.
    + by rewrite B3, B2, B1.
    + by rewrite (Insert_pending _ _ _ _ _ E3), (Insert_pending _ _ _ _ _ E2), (Insert_pending _ _ _ _ _ E1) by done.
Qed.
End metadata.

(** ** A built block *)

(** Two outputs of a block with the same state, results, prices and units. *)
Record same_output (out out' : OutputBlock) : Prop := {
  so_view k : View out k = View out' k;
  so_results : ob_Results out = ob_Results out';
  so_prices : ob_UnitPrices out = ob_UnitPrices out';
  so_consumed : ob_UnitsConsumed out = ob_UnitsConsumed out';
}.

(** What the mempool streams: transactions of the program, none twice, and
    for each batch an order that runs none twice. *)
Record streamed `{Hashing} (batches : list (list GeneratedTx * list nat)) : Prop := {
  sm_txs : Forall (fun b => Forall wf_tx b.1 /\ NoDup b.2) batches;
  sm_once : NoDup (map GetID (concat (map fst batches)));
}.

Section built.
Context `{Hashing} {R : Type} `{ChainRules R} `{AuthMethods R} (ID_String : bytes -> string) (m : MetadataManager) (r : R).
Hypothesis (Hr : wf_chain r) (Hm : NoDup (metadata_keys m)) (Hgap : 0 < GetMinBlockGap r < 2 ^ 62)
  (Hempty : 0 <= GetMinEmptyBlockGap r < 2 ^ 62).
Context (toID : bytes -> ExecutionBlock -> bytes) (isRepeat : list GeneratedTx -> Z * option error) (limit nextTime : Z).
Context (parentRoot : result bytes) (viewErr : option error) (parent : StatelessBlock) (parentView : bytes -> result bytes).
Context (batches : list (list GeneratedTx * list nat)) (Hb : streamed batches).
Abbreviation pb := (sb_Block parent).
Context (t : Z) (f : bytes) (Hck : clock m parentView (Hght pb) t f) (Ht : t <= Tmstmp pb < 2 ^ 62).
Context (Hheight : Hght pb + 1 < two64) (Htime : nextTime < 2 ^ 62).

(** A block that was built, inside out. *)
Record built (b : StatelessBlock) (out : OutputBlock) (fm : bytes) (s : Build) (v : TStateView) : Prop := {
  bt_parent : Prnt b = id parent;
  bt_block : exists root, parentRoot = Ok root /\
    sb_Block b = mkExecutionBlock nextTime (Hght pb + 1) (blockTransactions s) root;
  bt_gap : Tmstmp pb + GetMinBlockGap r <= nextTime;
  bt_empty : blockTransactions s = [] -> Tmstmp pb + GetMinEmptyBlockGap r <= nextTime;
  bt_next : ComputeNext f nextTime r = Returns fm;
  bt_loop : build_batches ID_String New r isRepeat limit parentView nextTime batches (mkBuild fm fresh_block [] [] [] false)
    = (s, None);
  bt_write : insert_metadata m (Hght pb + 1) nextTime (bd_feeManager s)
    (TState_NewView (bd_ts s) (builder_keys m) (builder_storage m pb f)) = (Ok tt, v);
  bt_view : View out = block_value (Commit v) parentView;
  bt_results : ob_Results out = bd_results s;
  bt_prices : ob_UnitPrices out = UnitPrices (bd_feeManager s);
  bt_consumed : ob_UnitsConsumed out = UnitsConsumed (bd_feeManager s);
}.

Lemma BuildBlock_inv b out back :
  BuildBlock ID_String New m r toID isRepeat limit nextTime parentRoot viewErr parent parentView batches = Returns (Ok (b, out), back) ->
  exists fm s v, built b out fm s v.
Proof using Hck Hempty Hgap Hheight Ht.
  pose proof (ck_height_range _ _ _ _ _ Hck) as Hh. pose proof (ck_time_range _ _ _ _ _ Hck) as Htr.
  assert (Hi : forall g, 0 <= g < 2 ^ 62 -> i64 (Tmstmp pb + g) = Tmstmp pb + g)
    by (intros g Hg; unfold i64; rewrite i64_roundtrip; [done|unfold is_i64, two63; lia]).
  unfold BuildBlock. cbv zeta. rewrite !Hi by lia.
  destruct (Z.ltb_spec nextTime (Tmstmp pb + GetMinBlockGap r)) as [|Hgt]; [done|].
  rewrite (ck_fees _ _ _ _ _ Hck). assert (NewManager f = f) as ->.
  { destruct (ck_manager _ _ _ _ _ Hck) as [Hl _]. unfold NewManager. by rewrite Hl. }
  destruct (ComputeNext f nextTime r) as [fm|] eqn:En; [|done].
  destruct (build_batches _ _ _ _ _ _ _ _ _) as [s [e|]] eqn:El; [done|].
  destruct ((length (blockTransactions s) =? 0)%nat && _) eqn:Ee; [done|].
  rewrite u64_small by int_lia. destruct (insert_metadata _ _ _ _ _) as [[[]|] v] eqn:Ew; [|done].
  destruct parentRoot as [root|] eqn:Er; [|done]. destruct viewErr; [done|].
  intros [= <- <- _]. exists fm, s, v.
  split; try done; [by exists root|]. intros E0. rewrite E0 in Ee. cbn in Ee. by apply Z.ltb_ge in Ee.
Qed.
Lemma start_building fm : building ID_String r parentView nextTime fm (mkBuild fm fresh_block [] [] [] false).
Proof. split; [by constructor|]. by exists []. Qed.

Lemma built_manager fm : ComputeNext f nextTime r = Returns fm -> wf_manager fm.
Proof using Hr Hck. intros En. by apply (ComputeNext_spec r (wfc_fees r Hr) _ _ _ (ck_manager _ _ _ _ _ Hck) En). Qed.

(** What it holds: its transactions are some of the streamed ones. *)
Lemma built_txs b out fm s v (fresh : GeneratedTx -> Prop) : built b out fm s v ->
  (forall txs marker, isRepeat txs = (marker, None) ->
    forall j tx, txs !! j = Some tx -> Z.testbit marker (Z.of_nat j) = false -> in_time ID_String r nextTime tx -> fresh tx) ->
  building ID_String r parentView nextTime fm s /\ NoDup (map GetID (blockTransactions s)) /\
  Forall (in_time ID_String r nextTime) (blockTransactions s) /\ Forall fresh (blockTransactions s) /\
  forall tx, tx ∈ blockTransactions s -> tx ∈ concat (map fst batches).
Proof using Hr Hck Hb.
  intros Hbt Hfresh. pose proof (built_manager fm (bt_next _ _ _ _ _ Hbt)) as Hfm.
  pose proof (build_batches_inv (H := H) ID_String r parentView nextTime Hr fm Hfm isRepeat fresh Hfresh limit batches
    (sm_txs _ Hb) (sm_once _ Hb) _ (start_building fm)) as Hinv.
  rewrite (bt_loop _ _ _ _ _ Hbt) in Hinv. destruct Hinv as (Hs & added & E & Hnd & Hin & Htime' & Hf).
  cbn [blockTransactions app] in E. subst added. done.
Qed.

(** The processor does with it what the builder did. *)
Lemma built_processes b out fm s v now : built b out fm s v ->
  building ID_String r parentView nextTime fm s -> nextTime <= now + 1000 ->
  exists out', Processor_Execute ID_String New m r now true (Ok tt) (Ok tt) (Ok tt) parentRoot parentView (sb_Block b)
    = Returns (Ok out') /\ same_output out out'.
Proof using Hr Hm Hck Hgap Hempty Ht Hheight Htime.
  intros Hbt Hs Hnow. pose proof (built_manager fm (bt_next _ _ _ _ _ Hbt)) as Hfm.
  pose proof (ck_height_range _ _ _ _ _ Hck) as Hh. pose proof (ck_time_range _ _ _ _ _ Hck) as Htr.
  destruct (building_manager ID_String r parentView nextTime Hr fm Hfm s Hs) as [Hfs Hps].
  destruct Hs as [_ (plan & Ep & Hrun)]. specialize (Hrun _ Hps).
  destruct (bt_block _ _ _ _ _ Hbt) as (root & Hroot & Eb). pose proof (bt_gap _ _ _ _ _ Hbt) as Hg.
  unfold Processor_Execute. rewrite Eb. cbn [Tmstmp Hght Txs StateRoot].
  rewrite (proj2 (Z.ltb_ge _ _)) by done.
  rewrite (createBlockContext_run m r parentView _ (Hght pb) t f Hck); cbn [Tmstmp Hght Txs];
    [|lia|by rewrite u64_small by int_lia|lia|intros E0; pose proof (bt_empty _ _ _ _ _ Hbt E0); split; [done|lia]].
  rewrite (bt_next _ _ _ _ _ Hbt). cbn [bc_feeManager bc_height bc_timestamp]. unfold executeTxs.
  rewrite Ep, Hrun. cbv zeta.
  destruct (writeBlockContext_total m Hm (mkBlockContext (Hght pb + 1) nextTime (bd_feeManager s)) (bd_ts s)) as [w Ew].
  { apply Hfs. }
  rewrite Ew, Hroot, bool_decide_true by done. cbn [negb]. eexists. split; [done|].
  destruct (writeBlockContext_spec m _ _ parentView _ Hm Ew) as (P1 & P2 & P3 & P4). cbn [bc_height bc_timestamp bc_feeManager] in *.
  destruct (insert_metadata_spec m Hm pb f _ _ _ _ parentView _ (bt_write _ _ _ _ _ Hbt)) as (B1 & B2 & B3 & B4).
  { intros E%be_put8_inj; [lia|int_lia|int_lia]. }
  { intros E%be_put8_inj; [|apply u64_range|apply u64_range]. rewrite !u64_small in E by int_lia. lia. }
  { apply (ck_fees _ _ _ _ _ Hck). }
  split; cbn [View ob_Results ob_UnitPrices ob_UnitsConsumed].
  - intros k. rewrite (bt_view _ _ _ _ _ Hbt). destruct (decide (k ∈ metadata_keys m)) as [Hk|Hk].
    + unfold metadata_keys in Hk. apply elem_of_cons in Hk as [->|Hk]; [by rewrite B1, P1|].
      apply elem_of_cons in Hk as [->|Hk]; [by rewrite B2, P2|]. apply list_elem_of_singleton in Hk as ->. by rewrite B3, P3.
    + by rewrite B4, P4.
  - apply (bt_results _ _ _ _ _ Hbt).
  - apply (bt_prices _ _ _ _ _ Hbt).
  - apply (bt_consumed _ _ _ _ _ Hbt).
Qed.
End built.

Section on_a_node.
Context `{Hashing} {R : Type} `{ChainRules R} `{AuthMethods R} {ID_String : bytes -> string} {m : MetadataManager} {r : R}.
Context {expiry_of : bytes -> Z}.
Abbreviation W := (GetValidityWindow r).
Hypothesis (HW : 0 <= W < 2 ^ 62).

Lemma in_time_window tx nextTime : 0 <= nextTime < 2 ^ 62 -> in_time ID_String r nextTime tx ->
  nextTime <= GetExpiry tx <= nextTime + W.
Proof.
  intros Ht (_ & _ & Hw)%Base_Execute_ok; [exact Hw|]. unfold is_i64, two63. lia.
Qed.

(** What the window lets through and is in time is not in the branch. *)
Lemma let_through n p c nextTime fuel txs marker :
  good_node (m := m) (r := r) (expiry_of := expiry_of) n -> p :: c ∈ nd_accepted n :: nd_branches n ->
  (length c < fuel)%nat -> Tmstmp (sb_Block (pr_Block p)) < nextTime < 2 ^ 62 ->
  default (0, None) (IsRepeat (GetExecutionBlock (known n)) (fun _ => W) fuel (nd_window n)
    (window_block (pr_Block p)) nextTime txs) = (marker, None) ->
  forall j tx, txs !! j = Some tx -> Z.testbit marker (Z.of_nat j) = false -> in_time ID_String r nextTime tx ->
  GetExpiry tx = expiry_of (GetID tx) -> GetID tx ∉ branch_ids (p :: c).
Proof.
  intros G Hc Hfuel Ht Er j tx Hj Hbit Htx Hx. destruct (gn_branch n G _ Hc) as [Hg [pend Hs]].
  inversion Hg as [? ? f Hch Hnd Hck]; subst. destruct (gn_window n G) as (h & old & Eacc & Hw). rewrite Eacc in Hs.
  destruct (chain_below _ _ _ _ Hch) as (_ & Htp & Hstate & _). cbn [window_block blk_Timestamp] in Htp, Hstate.
  destruct (IsRepeat_misses expiry_of W (GetExecutionBlock (known n)) (nd_window n)
    (window_block (pr_Block h)) (map (fun q => window_block (pr_Block q)) old) (map (fun q => window_block (pr_Block q)) pend)
    (window_block (pr_Block p)) (map (fun q => window_block (pr_Block q)) c) nextTime txs fuel HW Hw Hch) as (mk & Em & Hmiss);
    [exact (eq_trans (f_equal (map _) Hs) (map_app _ pend (h :: old)))|exact (good_index n (p :: c) G Hc)|lia| |].
  { rewrite length_map. apply (f_equal length) in Hs. rewrite length_app in Hs. cbn in Hs. lia. }
  rewrite Em in Er. injection Er as ->. apply (Hmiss j tx Hj Hbit).
  intros y ->%list_elem_of_singleton. split; [done|]. by apply in_time_window in Htx as [? _]; [|lia].
Qed.

(** A block on the parent, in time, without a repeat, passes the check. *)
Lemma fresh_block_passes n p c b fuel :
  good_node (m := m) (r := r) (expiry_of := expiry_of) n -> p :: c ∈ nd_accepted n :: nd_branches n ->
  (length c < fuel)%nat -> follows expiry_of W (window_block b) (window_block (pr_Block p)) ->
  NoDup (map GetID (Txs (sb_Block b))) -> Forall (fun tx => GetID tx ∉ branch_ids (p :: c)) (Txs (sb_Block b)) ->
  VerifyExpiryReplayProtection ID_String (GetExecutionBlock (known n)) (fun _ => W) fuel (nd_window n) (window_block b)
    = Some (Ok tt).
Proof.
  intros G Hc Hfuel Hf Hnd Hfresh. destruct (replay_check (ID_String := ID_String) HW n p c b G Hc Hf) as (res & V1 & V2 & _).
  rewrite V1 by done. f_equal. apply V2. apply list.NoDup_app. split; [done|]. split.
  - intros i (x & -> & Hx)%list_elem_of_fmap. rewrite list.Forall_forall in Hfresh. by apply Hfresh.
  - destruct (gn_branch n G _ Hc) as [Hg _]. by inversion Hg.
Qed.
End on_a_node.

(** A block that a node builds, on one it knows and from what is streamed,
    passes every check at any node with that block as the parent. *)
Lemma built_accepted `{Hashing} {R} `{ChainRules R} `{AuthMethods R} ID_String m (r : R) expiry_of
    toID fuel n p c limit nextTime root viewErr batches b out back now :
  wf_chain r -> NoDup (metadata_keys m) -> 0 < GetMinBlockGap r < 2 ^ 62 -> 0 <= GetMinEmptyBlockGap r < 2 ^ 62 ->
  0 <= GetValidityWindow r < 2 ^ 62 -> reachable ID_String m r expiry_of n -> p :: c ∈ nd_accepted n :: nd_branches n ->
  (length c < fuel)%nat -> Hght (sb_Block (pr_Block p)) + 1 < two64 -> nextTime < 2 ^ 62 -> nextTime <= now + 1000 ->
  streamed batches -> (forall tx, tx ∈ concat (map fst batches) -> GetExpiry tx = expiry_of (GetID tx)) ->
  build_block ID_String m r toID fuel n limit nextTime root viewErr p batches = Returns (Ok (b, out), back) ->
  exists out', verify_block ID_String m r fuel n now (Ok tt) (Ok tt) root p b = Some (Returns (Ok out')) /\
    same_output out out'.
Proof.
  intros Hr Hm Hgap Hempty HW Hn Hc Hfuel Hh Htime Hnow Hst Hex E.
  pose proof (reachable_good Hr Hm Hgap HW n Hn) as G. destruct (gn_branch n G _ Hc) as [Hg _].
  inversion Hg as [? ? f Hch Hnd Hck]; subst.
  destruct (chain_below _ _ _ _ Hch) as (_ & Htp & Hstate & _). cbn [window_block blk_Timestamp] in Htp, Hstate.
  destruct (BuildBlock_inv ID_String m r Hgap Hempty toID _ limit nextTime root viewErr _ _ batches _ f Hck ltac:(lia) Hh _ _ _ E)
    as (fm & s & v & Hbt). pose proof Hbt as [Hparent (rt & Hroot & Eb) Hgt _ _ _ _ _ _ _ _].
  destruct (built_txs ID_String m r Hr _ limit nextTime root _ _ batches Hst _ f Hck b out fm s v
    (fun tx => GetExpiry tx = expiry_of (GetID tx) -> GetID tx ∉ branch_ids (p :: c)) Hbt)
    as (Hbuild & Hnew & Hin & Hfresh & Hfrom).
  { intros txs marker Er. by apply (let_through HW n p c nextTime fuel txs marker G Hc Hfuel ltac:(lia)). }
  rewrite list.Forall_forall in Hin, Hfresh.
  destruct (built_processes ID_String m r Hr Hm Hgap Hempty _ limit nextTime root _ _ batches _ f Hck ltac:(lia) Hh Htime
    b out fm s v now Hbt Hbuild Hnow) as (out' & E' & Hsame).
  exists out'. split; [|done]. unfold verify_block.
  rewrite (fresh_block_passes (expiry_of := expiry_of) HW n p c b fuel G Hc Hfuel), E'; [done| |by rewrite Eb|].
  - split_and!; cbn [window_block blk_Parent blk_Height blk_Timestamp]; rewrite ?Eb; cbn [Hght Tmstmp]; [done|done|lia|done|].
    intros x Hx. cbn [window_block blk_Containers blk_Timestamp] in *. rewrite Eb in *. cbn [Txs Tmstmp] in *.
    split; [by apply Hex, Hfrom|]. by apply (in_time_window (ID_String := ID_String) HW); [lia|apply Hin].
  - rewrite Eb. apply list.Forall_forall. intros tx Htx. apply Hfresh; [done|]. by apply Hex, Hfrom.
Qed.

(** ** A build

    On the block of the run in ReplayCorrect.v: its transaction comes again,
    with a new one behind it. *)

Definition demo_batches : list (list GeneratedTx * list nat) := [([demo_signed 1000; demo_signed 10000], [0%nat])].

Definition demo_top (out : OutputBlock) : Processed := mkProcessed (demo_next [1] [0] 500 1) (View out).

Definition demo_build (out : OutputBlock) : outcome (result (StatelessBlock * OutputBlock) * list GeneratedTx) :=
  build_block demo_ID_String NewDefaultManager NewDefaultRules (fun _ _ => [2]) 2 (demo_accepted_node out) 10000 900
    (Ok (make_bytes 32)) None (demo_top out) demo_batches.

(** It succeeds, with the new transaction. *)
Definition demo_build_ok (x : outcome (result (StatelessBlock * OutputBlock) * list GeneratedTx)) : bool :=
  match x with
  | Returns (Ok (b, _), _) => bool_decide (map st_id (Txs (sb_Block b)) = [st_id (demo_signed 10000)])
  | _ => false
  end.

Lemma demo_built : exists out, demo_verify = Some (Returns (Ok out)) /\ demo_build_ok (demo_build out) = true.
Proof.
  assert (Hv : match demo_verify with Some (Returns (Ok out)) => demo_build_ok (demo_build out) | _ => false end = true)
    by (vm_compute; reflexivity).
  destruct demo_verify as [[[out|]|]|]; [|done..]. by exists out.
Qed.

(** [TargetTxsSize] bounds each batch: over two batches the block is larger. *)
Example limit_per_batch :
  let limit := st_size (demo_signed 10000) in
  match build_block demo_ID_String NewDefaultManager NewDefaultRules (fun _ _ => [1]) 2 demo_start limit 500
          (Ok (make_bytes 32)) None (mkProcessed (mkStatelessBlock [0] [] (mkExecutionBlock 0 0 [] (make_bytes 32))) genesis_metadata)
          [([demo_signed 1000], [0%nat]); ([demo_signed 10000], [0%nat])] with
  | Returns (Ok (b, _), _) => limit <? foldr (fun tx n => st_size tx + n) 0 (Txs (sb_Block b))
  | _ => false
  end = true.
Proof. vm_compute. reflexivity. Qed.
