(* ===== verification/Mempool.v ===== *)
(** * The mempool (hypersdk/internal/mempool, eheap, list)

    A queue of items with a heap of them by expiry, the number each sponsor
    has, and a stream for block building: what is streamed leaves the queue,
    and may not come back before the stream is finished.

    The linked list of the queue is a list, and the element the heap points to
    is its item; an element is removed from the list by its identifier, which
    no other has ([pool_ok]).  A call runs under the mempool's lock. *)

From S2P Require Import Prelude GoErrors Wire Generate Heap EMap Replay.
#[local] Open Scope Z_scope.

(** [mempool.Item]. *)
Class PoolItem (T : Type) := {
  PoolItem_Item :: Item T;
  GetSponsor : T -> bytes;
  ItemSize : T -> Z;
}.

(** ** eheap *)

Section eheap.
Context {T : Type} `{Item T}.
Implicit Types (eh : Heap T).

Definition eh_Add (item : T) eh : Heap T := Heap_Push (mkEntry (GetID item) item (GetExpiry item)) eh.

Definition eh_Remove (id : bytes) eh : option T * Heap T :=
  match Get id eh with
  | None => (None, eh)
  | Some index =>
      match Heap_Remove index eh with
      | (None, eh) => (None, eh)
      | (Some minEntry, eh) => (Some (en_Item minEntry), eh)
      end
  end.

Definition PeekMin eh : option T := en_Item <$> First eh.

Definition PopMin eh : option T * Heap T :=
  match First eh with
  | None => (None, eh)
  | Some first => (Some (en_Item first), snd (eh_Remove (GetID (en_Item first)) eh))
  end.

(** The loop of [SetMin]: a round takes an item off the heap. *)
Fixpoint eh_SetMin_loop (fuel : nat) (v : Z) (removed : list T) eh : list T * Heap T :=
  match fuel with
  | O => (removed, eh)
  | S fuel =>
      match PeekMin eh with
      | None => (removed, eh)
      | Some minItem =>
          if GetExpiry minItem <? v then eh_SetMin_loop fuel v (removed ++ [minItem]) (snd (PopMin eh))
          else (removed, eh)
      end
  end.

Definition eh_SetMin (v : Z) eh : list T * Heap T := eh_SetMin_loop (S (Len eh)) v [] eh.
End eheap.

(** ** The mempool *)

(** [streamedItems] is nil outside a stream, and so is [streamLock] free. *)
Record Mempool (T : Type) := mkMempool {
  mp_maxSize : Z;
  maxSponsorSize : Z;
  mp_queue : list T;
  mp_eh : Heap T;
  owned : gmap bytes Z;
  pendingSize : Z;
  streamedItems : option (gset bytes);
  nextStream : list T;
  nextStreamFetched : bool;
}.
Arguments mkMempool {_} _ _ _ _ _ _ _ _ _.
Arguments mp_maxSize {_} _.
Arguments maxSponsorSize {_} _.
Arguments mp_queue {_} _.
Arguments mp_eh {_} _.
Arguments owned {_} _.
Arguments pendingSize {_} _.
Arguments streamedItems {_} _.
Arguments nextStream {_} _.
Arguments nextStreamFetched {_} _.

Section mempool.
Context {T : Type} `{PoolItem T}.
Implicit Types (m : Mempool T) (item : T) (items : list T).

Definition NewMempool (maxSize maxSponsorSize : Z) : Mempool T :=
  mkMempool maxSize maxSponsorSize [] (NewHeap true) ∅ 0 None [] false.

(** The queue with the heap, the counts and the size that go with it. *)
Definition with_items (queue : list T) (eh : Heap T) (owned : gmap bytes Z) (size : Z) m : Mempool T :=
  mkMempool (mp_maxSize m) (maxSponsorSize m) queue eh owned size (streamedItems m) (nextStream m) (nextStreamFetched m).

Definition with_stream (streamed : option (gset bytes)) (next : list T) (fetched : bool) m : Mempool T :=
  mkMempool (mp_maxSize m) (maxSponsorSize m) (mp_queue m) (mp_eh m) (owned m) (pendingSize m) streamed next fetched.

(** [List.Remove] of the element with an identifier. *)
Fixpoint list_Remove (id : bytes) (l : list T) : list T :=
  match l with
  | [] => []
  | x :: l => if decide (GetID x = id) then l else x :: list_Remove id l
  end.

Definition removeFromOwned item (owned : gmap bytes Z) : gmap bytes Z :=
  match owned !! GetSponsor item with
  | None => owned
  | Some items => if items =? 1 then delete (GetSponsor item) owned else <[GetSponsor item := items - 1]> owned
  end.

Definition Mempool_Has (itemID : bytes) m : bool := Has itemID (mp_eh m).

(** [add], one item. *)
Definition add_item (front : bool) item m : Mempool T :=
  let sender := GetSponsor item in
  let itemID := GetID item in
  if bool_decide (itemID ∈ default ∅ (streamedItems m)) then m
  else if Has itemID (mp_eh m) then m
  else if default 0 (owned m !! sender) =? maxSponsorSize m then m
  else if Z.of_nat (length (mp_queue m)) =? mp_maxSize m then m
  else
    with_items (if front then item :: mp_queue m else mp_queue m ++ [item]) (eh_Add item (mp_eh m))
      (<[sender := default 0 (owned m !! sender) + 1]> (owned m)) (i64 (pendingSize m + ItemSize item)) m.

Definition add_items items (front : bool) m : Mempool T := foldl (fun m item => add_item front item m) m items.

Definition Mempool_Add items m : Mempool T := add_items items false m.

Definition PeekNext m : option T := head (mp_queue m).

Definition popNext m : option T * Mempool T :=
  match mp_queue m with
  | [] => (None, m)
  | v :: queue =>
      (Some v, with_items queue (snd (eh_Remove (GetID v) (mp_eh m))) (removeFromOwned v (owned m))
                 (i64 (pendingSize m - ItemSize v)) m)
  end.

(** [Remove], one item. *)
Definition remove_item item m : Mempool T :=
  match eh_Remove (GetID item) (mp_eh m) with
  | (None, _) => m
  | (Some elem, eh) =>
      with_items (list_Remove (GetID elem) (mp_queue m)) eh (removeFromOwned item (owned m))
        (i64 (pendingSize m - ItemSize item)) m
  end.

Definition Mempool_Remove items m : Mempool T := foldl (fun m item => remove_item item m) m items.

Definition Mempool_Len m : nat := Len (mp_eh m).

Definition SetMinTimestamp (t : Z) m : list T * Mempool T :=
  let '(removedElems, eh) := eh_SetMin t (mp_eh m) in
  (removedElems,
   foldl (fun m v => with_items (list_Remove (GetID v) (mp_queue m)) (mp_eh m) (removeFromOwned v (owned m))
       (i64 (pendingSize m - ItemSize v)) m)
     (with_items (mp_queue m) eh (owned m) (pendingSize m) m) removedElems).

(** [Top]: [f] answers, by the round, whether to go on, whether to restore the
    item and the error; and whether time was up then. *)
Fixpoint Top_loop (f : nat -> T -> bool * bool * option error * bool) (fuel round : nat) (restorableItems : list T) m
  : list T * option error * Mempool T :=
  match fuel with
  | O => (restorableItems, None, m)
  | S fuel =>
      if (Mempool_Len m =? 0)%nat then (restorableItems, None, m)
      else
        match popNext m with
        | (None, m) => (restorableItems, None, m)
        | (Some next, m) =>
            let '(cont, restore, fErr, late) := f round next in
            let restorableItems := if restore then restorableItems ++ [next] else restorableItems in
            if negb cont || late || bool_decide (fErr <> None) then (restorableItems, fErr, m)
            else Top_loop f fuel (S round) restorableItems m
        end
  end.

Definition Top (f : nat -> T -> bool * bool * option error * bool) m : option error * Mempool T :=
  let '(restorableItems, err, m) := Top_loop f (S (Mempool_Len m)) 0 [] m in (err, add_items restorableItems true m).

Definition StartStreaming m : Mempool T := with_stream (Some ∅) (nextStream m) (nextStreamFetched m) m.

(** The loop of [streamItems], which takes [count] items off the queue. *)
Fixpoint stream_items (count : nat) m : list T * Mempool T :=
  match count with
  | O => ([], m)
  | S count =>
      match popNext m with
      | (None, m) => ([], m)
      | (Some item, m) =>
          let m := with_stream (Some ({[GetID item]} ∪ default ∅ (streamedItems m))) (nextStream m) (nextStreamFetched m) m in
          let '(txs, m) := stream_items count m in (item :: txs, m)
      end
  end.

Definition PrepareStream (count : nat) m : Mempool T :=
  let '(txs, m) := stream_items count m in with_stream (streamedItems m) txs true m.

Definition Stream (count : nat) m : list T * Mempool T :=
  if nextStreamFetched m then (nextStream m, with_stream (streamedItems m) [] false m) else stream_items count m.

Definition FinishStreaming (restorable : list T) m : nat * Mempool T :=
  let restored := length restorable in
  let m := add_items restorable true (with_stream None (nextStream m) (nextStreamFetched m) m) in
  if nextStreamFetched m
  then ((restored + length (nextStream m))%nat, with_stream (streamedItems m) [] false (add_items (nextStream m) true m))
  else (restored, m).
End mempool.

(** Transactions in the mempool. *)
#[export] Instance Transaction_PoolItem : PoolItem GeneratedTx := {|
  PoolItem_Item := Transaction_Item;
  GetSponsor tx := Sponsor (st_Auth tx);
  ItemSize tx := st_size tx;
|}.
