(* ===== verification/MempoolCorrect.v ===== *)
(** * The mempool keeps its accounts

    [pool_ok] relates the queue of a mempool to its heap, its counts and what
    is streamed; every call keeps it.  What a streaming session hands out
    holds no identifier twice, which is what building relies on. *)

From S2P Require Import Prelude GoErrors Consts Wire Generate Examples LoadCorrect ProcessorCorrect Heap EMap Replay Mempool.
#[local] Open Scope Z_scope.

(** ** The heap of a queue *)

Section eheap.
Context {T : Type} `{Item T}.
Implicit Types (eh : Heap T) (x : T) (q removed : list T).

Definition entry_of x : Entry T := mkEntry (GetID x) x (GetExpiry x).

Definition eh_ok eh q : Prop := wf_heap eh /\ isMinHeap eh = true /\ h_items eh ≡ₚ entry_of <$> q.

Lemma eh_ok_ids eh q : eh_ok eh q -> en_ID <$> h_items eh ≡ₚ GetID <$> q.
Proof. intros (_ & _ & Hp). rewrite Hp, <- list_fmap_compose. done. Qed.

Lemma eh_ok_nodup eh q : eh_ok eh q -> NoDup (GetID <$> q).
Proof. intros Hq. rewrite <- (eh_ok_ids eh q Hq). apply (hp_ids _ (proj1 Hq)). Qed.

Lemma eh_ok_perm eh q q' : q ≡ₚ q' -> eh_ok eh q -> eh_ok eh q'.
Proof. intros E (Hw & Hm & Hp). split; [done|]. split; [done|]. by rewrite <- E. Qed.

Lemma eh_ok_Len eh q : eh_ok eh q -> Len eh = length q.
Proof. intros (_ & _ & Hp). unfold Len. by rewrite (Permutation_length Hp), length_fmap. Qed.

Lemma eh_ok_Has eh q id : eh_ok eh q -> Has id eh = true <-> id ∈ GetID <$> q.
Proof.
  intros Hq. unfold Has. rewrite bool_decide_eq_true, (hp_lookup _ (proj1 Hq)), (eh_ok_ids eh q Hq). done.
Qed.

Lemma eh_Add_ok eh q x : eh_ok eh q -> GetID x ∉ GetID <$> q -> eh_ok (eh_Add x eh) (x :: q).
Proof.
  intros Hq Hx. pose proof Hq as (Hw & Hm & Hp). unfold eh_Add. fold (entry_of x).
  destruct (Heap_Push_spec (entry_of x) eh Hw) as (Hw' & Hp' & Hm').
  { cbn [en_ID entry_of]. by rewrite (eh_ok_ids eh q Hq). }
  split; [done|]. split; [by rewrite Hm'|]. by rewrite Hp', Hp.
Qed.

Lemma eh_Remove_ok eh q x : eh_ok eh q -> x ∈ q ->
  exists eh', eh_Remove (GetID x) eh = (Some x, eh') /\ forall q', q ≡ₚ x :: q' -> eh_ok eh' q'.
Proof.
  intros Hq Hx. pose proof Hq as (Hw & Hm & Hp). unfold eh_Remove. destruct (Get (GetID x) eh) as [i|] eqn:Eg.
  2: { apply Get_None in Eg. rewrite (eh_ok_ids eh q Hq) in Eg. by destruct Eg; apply list_elem_of_fmap_2. }
  apply Get_Some in Eg as (e & Hi & He).
  assert (e = entry_of x) as ->.
  { assert (Hin : e ∈ entry_of <$> q) by (rewrite <- Hp; by apply list_elem_of_lookup_2 with i).
    apply list_elem_of_fmap in Hin as (y & -> & Hy). cbn [en_ID entry_of] in He. f_equal.
    apply list_elem_of_lookup in Hx as [jx Hjx], Hy as [jy Hjy].
    assert (jy = jx) as -> by (apply (NoDup_lookup _ _ _ (GetID x) (eh_ok_nodup eh q Hq));
      rewrite list_lookup_fmap; [rewrite Hjy|rewrite Hjx]; cbn; by f_equal).
    congruence. }
  destruct (Heap_Remove_spec i _ eh Hw Hi) as (eh' & -> & Hw' & Hp' & Hm'). exists eh'. split; [done|].
  intros q' E. split; [done|]. split; [by rewrite Hm'|]. apply (Permutation_cons_inv (a := entry_of x)).
  rewrite <- Hp', Hp, E. done.
Qed.

Lemma eh_Remove_absent eh q id : eh_ok eh q -> id ∉ GetID <$> q -> eh_Remove id eh = (None, eh).
Proof.
  intros Hq Hid. unfold eh_Remove. destruct (Get id eh) as [i|] eqn:Eg; [|done]. apply Get_Some in Eg as (e & Hi & He).
  destruct Hid. rewrite <- (eh_ok_ids eh q Hq), <- He. by apply list_elem_of_fmap_2, list_elem_of_lookup_2 with i.
Qed.

(** [SetMin] takes off exactly what expires before [v]. *)
Lemma eh_SetMin_loop_spec v fuel : forall eh q removed0, eh_ok eh q -> (length q < fuel)%nat ->
  exists removed q' eh', eh_SetMin_loop fuel v removed0 eh = (removed0 ++ removed, eh') /\ q ≡ₚ removed ++ q' /\
    eh_ok eh' q' /\ Forall (fun x => GetExpiry x < v) removed /\ Forall (fun x => v <= GetExpiry x) q'.
Proof.
  induction fuel as [|fuel IH]; intros eh q removed0 Hq Hf; [lia|]. pose proof Hq as (Hw & Hm & Hp).
  cbn [eh_SetMin_loop]. unfold PeekMin, PopMin. destruct (First eh) as [e|] eqn:Ef; cbn [fmap option_fmap option_map].
  2: { apply First_None in Ef. rewrite Ef in Hp. apply Permutation_nil_l in Hp. apply (eq_sym (x := [])) in Hp.
       destruct q; [|done]. exists [], [], eh. rewrite app_nil_r. split; [done|]. split; [done|]. split; [done|].
       split; constructor. }
  assert (Hin : e ∈ entry_of <$> q) by (rewrite <- Hp; unfold First in Ef; by apply list_elem_of_lookup_2 with 0%nat).
  apply list_elem_of_fmap in Hin as (x & -> & Hx). cbn [entry_of en_Item].
  destruct (Z.ltb_spec (GetExpiry x) v) as [Hlt|Hge].
  - destruct (eh_Remove_ok eh q x Hq Hx) as (eh1 & -> & Hq1). cbn [snd].
    apply elem_of_Permutation in Hx as [q1 E1]. specialize (Hq1 q1 E1).
    destruct (IH eh1 q1 (removed0 ++ [x]) Hq1) as (removed & q' & eh' & -> & E' & Hq' & Hr & Hk).
    { rewrite (Permutation_length E1) in Hf. cbn in Hf. lia. }
    exists (x :: removed), q', eh'. rewrite <- app_assoc. split; [done|]. split; [by rewrite E1, E'|]. split; [done|].
    split; [by constructor|done].
  - exists [], q, eh. rewrite app_nil_r. split; [done|]. split; [done|]. split; [done|]. split; [constructor|].
    apply list.Forall_forall. intros y Hy. pose proof (First_least _ _ Hw Ef (entry_of y)) as Hl.
    rewrite Hm in Hl. unfold prio, entry_of in Hl. cbn [en_Val] in Hl. specialize (Hl ltac:(rewrite Hp; by apply (list_elem_of_fmap_2 entry_of))). lia.
Qed.

Lemma eh_SetMin_spec v eh q : eh_ok eh q -> exists removed q' eh', eh_SetMin v eh = (removed, eh') /\ q ≡ₚ removed ++ q' /\
  eh_ok eh' q' /\ Forall (fun x => GetExpiry x < v) removed /\ Forall (fun x => v <= GetExpiry x) q'.
Proof.
  intros Hq. unfold eh_SetMin. apply (eh_SetMin_loop_spec v _ eh q []); [done|]. rewrite (eh_ok_Len eh q Hq). lia.
Qed.
End eheap.

(** ** The counts of a queue *)

(** Sums that wrap can be wrapped once. *)
Lemma i64_add_l a b : i64 (i64 a + b) = i64 (a + b).
Proof.
  unfold i64 at 1 3. f_equal. unfold u64 at 1 2. rewrite <- Zplus_mod_idemp_l. fold (u64 (i64 a)).
  unfold i64. rewrite u64_of_i64 by apply u64_range. unfold u64. by rewrite Zplus_mod_idemp_l.
Qed.

Section tally.
Context {T : Type} `{PoolItem T}.
Implicit Types (x : T) (q : list T) (o : gmap bytes Z).

(** How many items of a sponsor, and the bytes of all. *)
Definition sponsored (s : bytes) q : Z := Z.of_nat (length (filter (fun x => GetSponsor x = s) q)).

Definition total_size q : Z := foldr (fun x n => ItemSize x + n) 0 q.

Definition tally q o (size : Z) : Prop :=
  (forall s, o !! s = if decide (sponsored s q = 0) then None else Some (sponsored s q)) /\ size = i64 (total_size q).

Lemma sponsored_cons s x q : sponsored s (x :: q) = (if decide (GetSponsor x = s) then 1 else 0) + sponsored s q.
Proof. unfold sponsored. rewrite filter_cons. case_decide; cbn [length]; lia. Qed.

Lemma sponsored_nonneg s q : 0 <= sponsored s q.
Proof. unfold sponsored. lia. Qed.

#[global] Instance sponsored_perm s : Proper ((≡ₚ) ==> (=)) (sponsored s).
Proof. intros q q' E. unfold sponsored. by rewrite E. Qed.

#[global] Instance total_size_perm : Proper ((≡ₚ) ==> (=)) total_size.
Proof. intros q q' E. unfold total_size. induction E; cbn [foldr]; lia. Qed.

Lemma sponsored_default s q o size : tally q o size -> default 0 (o !! s) = sponsored s q.
Proof. intros [Ho _]. rewrite Ho. case_decide; cbn; congruence. Qed.

Lemma tally_perm q q' o size : q ≡ₚ q' -> tally q o size -> tally q' o size.
Proof. intros E [Ho Hs]. split; [|by rewrite <- E].
  intros s. rewrite <- (sponsored_perm s q q' E). apply Ho. Qed.

Lemma tally_add x q o size : tally q o size ->
  tally (x :: q) (<[GetSponsor x := default 0 (o !! GetSponsor x) + 1]> o) (i64 (size + ItemSize x)).
Proof.
  intros Ht. split.
  - intros s. rewrite sponsored_cons, (sponsored_default _ _ _ _ Ht). pose proof (sponsored_nonneg s q).
    destruct (decide (GetSponsor x = s)) as [<-|Hne].
    + rewrite lookup_insert_eq. rewrite decide_False by lia. f_equal. lia.
    + rewrite lookup_insert_ne by done. by rewrite (proj1 Ht s).
  - rewrite (proj2 Ht). cbn [total_size foldr]. fold (total_size q). rewrite i64_add_l. f_equal. lia.
Qed.

Lemma tally_remove x q o size : tally (x :: q) o size -> tally q (removeFromOwned x o) (i64 (size - ItemSize x)).
Proof.
  intros Ht. split.
  - intros s. unfold removeFromOwned. rewrite (proj1 Ht (GetSponsor x)), sponsored_cons.
    rewrite (decide_True (P := GetSponsor x = GetSponsor x)) by done.
    pose proof (sponsored_nonneg (GetSponsor x) q). rewrite decide_False by lia.
    pose proof (proj1 Ht s) as Hs. rewrite sponsored_cons in Hs.
    destruct (decide (GetSponsor x = s)) as [<-|Hne].
    + destruct (Z.eqb_spec (1 + sponsored (GetSponsor x) q) 1) as [E|E].
      * rewrite lookup_delete_eq, decide_True by lia. done.
      * rewrite lookup_insert_eq, decide_False by lia. f_equal. lia.
    + rewrite Z.add_0_l in Hs. destruct (_ =? _); [rewrite lookup_delete_ne by done|rewrite lookup_insert_ne by done]; done.
  - rewrite (proj2 Ht). cbn [total_size foldr]. fold (total_size q).
    unfold Z.sub. rewrite i64_add_l. f_equal. lia.
Qed.
End tally.

(** ** The pool *)

Section pool.
Context {T : Type} `{PoolItem T}.
Implicit Types (m : Mempool T) (x item : T) (q items added txs : list T).

Lemma filter_all (P : T -> Prop) `{forall x, Decision (P x)} q : (forall x, x ∈ q -> P x) -> filter P q = q.
Proof.
  induction q as [|x q IH]; intros Hq; [done|]. rewrite filter_cons_True by (apply Hq; by left). f_equal.
  apply IH. intros y Hy. apply Hq. by right.
Qed.

Lemma filter_none (P : T -> Prop) `{forall x, Decision (P x)} q : (forall x, x ∈ q -> ~ P x) -> filter P q = [].
Proof.
  induction q as [|x q IH]; intros Hq; [done|]. rewrite filter_cons_False by (apply Hq; by left).
  apply IH. intros y Hy. apply Hq. by right.
Qed.

Lemma list_Remove_perm x q : x ∈ q -> NoDup (GetID <$> q) -> q ≡ₚ x :: list_Remove (GetID x) q.
Proof.
  intros Hx Hn. induction q as [|y q IH]; [by apply not_elem_of_nil in Hx|]. cbn [list_Remove].
  rewrite fmap_cons in Hn. apply list.NoDup_cons in Hn as [Hy Hn]. apply elem_of_cons in Hx as [->|Hx].
  - by rewrite decide_True.
  - rewrite decide_False by (intros E; destruct Hy; rewrite E; by apply list_elem_of_fmap_2).
    rewrite (IH Hx Hn) at 1. apply Permutation_swap.
Qed.

(** What the queue, the heap, the counts and the limits have to do with each
    other. *)
Record items_ok m : Prop := {
  io_heap : eh_ok (mp_eh m) (mp_queue m);
  io_tally : tally (mp_queue m) (owned m) (pendingSize m);
  io_max : Z.of_nat (length (mp_queue m)) <= mp_maxSize m;
  io_sponsor s : sponsored s (mp_queue m) <= maxSponsorSize m;
}.

(** The identifiers that are streamed. *)
Definition streaming m : gset bytes := default ∅ (streamedItems m).

(** [m'] is [m] with another queue, of items it had and of new ones. *)
Record requeued added m m' : Prop := {
  rq_items : items_ok m -> items_ok m';
  rq_limits : mp_maxSize m' = mp_maxSize m /\ maxSponsorSize m' = maxSponsorSize m;
  rq_stream : streamedItems m' = streamedItems m /\ nextStream m' = nextStream m /\ nextStreamFetched m' = nextStreamFetched m;
  rq_queue x : items_ok m -> x ∈ mp_queue m' -> x ∈ mp_queue m \/ x ∈ added /\ GetID x ∉ streaming m;
}.

Lemma requeued_refl added m : requeued added m m.
Proof. split; [done..|]. intros x _ Hx. by left. Qed.

Lemma requeued_trans added m1 m2 m3 : requeued added m1 m2 -> requeued added m2 m3 -> requeued added m1 m3.
Proof.
  intros [I1 L1 S1 Q1] [I2 L2 S2 Q2]. split.
  - intros Hm. by apply I2, I1.
  - destruct L1, L2. split; congruence.
  - destruct S1 as (? & ? & ?), S2 as (? & ? & ?). split_and!; congruence.
  - intros x Hm Hx. destruct (Q2 x (I1 Hm) Hx) as [Hx2|[Ha Hn]]; [by apply Q1|]. right. split; [done|].
    unfold streaming in *. by rewrite (proj1 S1) in Hn.
Qed.

Lemma requeued_weaken added added' m m' : (forall x, x ∈ added -> x ∈ added') -> requeued added m m' -> requeued added' m m'.
Proof.
  intros Ha [I L S Q]. split; [done..|]. intros x Hm Hx. destruct (Q x Hm Hx) as [|[]]; [by left|]. right. split; [by apply Ha|done].
Qed.

(** Taking items off. *)
Lemma items_ok_without m q q' eh o size : items_ok m -> mp_queue m ≡ₚ q ++ q' -> eh_ok eh q' -> tally q' o size ->
  items_ok (with_items q' eh o size m).
Proof.
  intros Hm E He Ht. split; cbn [mp_eh mp_queue owned pendingSize mp_maxSize maxSponsorSize with_items]; [done|done|..].
  - pose proof (io_max m Hm) as Hmax. rewrite (Permutation_length E), length_app in Hmax. lia.
  - intros s. pose proof (io_sponsor m Hm s) as Hs. rewrite E in Hs. unfold sponsored in *.
    rewrite list.filter_app, length_app in Hs. lia.
Qed.

Lemma add_item_requeued front item m : requeued [item] m (add_item front item m).
Proof.
  unfold add_item. cbv zeta. case_bool_decide as Hs; [apply requeued_refl|].
  destruct (Has (GetID item) (mp_eh m)) eqn:Eh; [apply requeued_refl|].
  destruct (Z.eqb_spec (default 0 (owned m !! GetSponsor item)) (maxSponsorSize m)) as [|Ho]; [apply requeued_refl|].
  destruct (Z.eqb_spec (Z.of_nat (length (mp_queue m))) (mp_maxSize m)) as [|Hmax]; [apply requeued_refl|].
  set (q := if front then item :: mp_queue m else mp_queue m ++ [item]).
  assert (Eq : q ≡ₚ item :: mp_queue m) by (unfold q; destruct front; [done|by rewrite Permutation_app_comm]).
  split; [|done|done|].
  - intros [Hh Ht Hm Hsp]. rewrite (sponsored_default _ _ _ _ Ht) in Ho.
    assert (Hid : GetID item ∉ GetID <$> mp_queue m) by (rewrite <- (eh_ok_Has _ _ _ Hh); by rewrite Eh).
    split; cbn [mp_eh mp_queue owned pendingSize mp_maxSize maxSponsorSize with_items].
    + apply (eh_ok_perm _ (item :: mp_queue m)); [done|]. by apply eh_Add_ok.
    + apply (tally_perm (item :: mp_queue m)); [done|]. by apply tally_add.
    + rewrite (Permutation_length Eq). cbn [length]. lia.
    + intros s. rewrite Eq, sponsored_cons. pose proof (Hsp s). case_decide as E; [|lia].
      subst s. pose proof (Hsp (GetSponsor item)). lia.
  - intros x _ Hx. cbn [mp_queue with_items] in Hx. rewrite Eq in Hx. apply elem_of_cons in Hx as [->|Hx]; [|by left].
    right. split; [by left|done].
Qed.

Lemma foldl_requeued {A} (f : Mempool T -> A -> Mempool T) (given : A -> list T) added (l : list A) :
  (forall m a, a ∈ l -> requeued (given a) m (f m a) /\ forall x, x ∈ given a -> x ∈ added) ->
  forall m, requeued added m (foldl f m l).
Proof.
  induction l as [|a l IH]; intros Hf m; cbn [foldl]; [apply requeued_refl|]. destruct (Hf m a ltac:(by left)) as [Ha Hg].
  apply requeued_trans with (f m a); [by apply requeued_weaken with (given a)|]. apply IH. intros m' b Hb. apply Hf. by right.
Qed.

Lemma add_items_requeued items front m : requeued items m (add_items items front m).
Proof.
  apply (foldl_requeued _ (fun x => [x])). intros m' x Hx. split; [apply add_item_requeued|].
  intros y ->%list_elem_of_singleton. done.
Qed.

(** [popNext] takes the first. *)
Lemma popNext_spec m : items_ok m -> match popNext m with
  | (None, m') => m' = m /\ mp_queue m = []
  | (Some v, m') => mp_queue m = v :: mp_queue m' /\ requeued [] m m'
  end.
Proof.
  intros Hm. unfold popNext. destruct (mp_queue m) as [|v q] eqn:Eq; [done|]. cbn [mp_queue with_items]. split; [done|].
  split; [|done|done|].
  - intros _. pose proof (io_heap m Hm) as Hh. destruct (eh_Remove_ok _ _ v Hh) as (eh & -> & Heh); [rewrite Eq; by left|].
    apply (items_ok_without m [v]); [done|by rewrite Eq|apply Heh; by rewrite Eq|].
    apply tally_remove. rewrite <- Eq. apply io_tally, Hm.
  - intros x _ Hx. left. rewrite Eq. by right.
Qed.

(** [Remove] of an item that is what the queue has under its identifier. *)
Definition same_item m x : Prop := forall y, y ∈ mp_queue m -> GetID y = GetID x -> y = x.

Lemma remove_item_spec item m : items_ok m -> same_item m item ->
  requeued [] m (remove_item item m) /\ mp_queue (remove_item item m) ≡ₚ filter (fun y => GetID y <> GetID item) (mp_queue m).
Proof.
  intros Hm Hs. pose proof (io_heap m Hm) as Hh. pose proof (eh_ok_nodup _ _ Hh) as Hn. unfold remove_item.
  destruct (decide (GetID item ∈ GetID <$> mp_queue m)) as [Hin|Hni].
  2: { rewrite (eh_Remove_absent _ _ _ Hh Hni). split; [apply requeued_refl|]. rewrite filter_all; [done|].
       intros y Hy E. destruct Hni. rewrite <- E. by apply list_elem_of_fmap_2. }
  apply list_elem_of_fmap in Hin as (y & Ey & Hy). assert (y = item) as -> by (by apply Hs). clear Ey.
  destruct (eh_Remove_ok _ _ item Hh Hy) as (eh & -> & Heh). pose proof (list_Remove_perm item _ Hy Hn) as Ep.
  split; [split; [|done|done|]|]; cbn [mp_queue with_items].
  - intros _. apply (items_ok_without m [item]); [done|done|by apply Heh|]. apply tally_remove.
    eapply tally_perm; [exact Ep|]. apply io_tally, Hm.
  - intros x _ Hx. left. rewrite Ep. by right.
  - rewrite Ep, fmap_cons in Hn. apply list.NoDup_cons in Hn as [Hn _].
    pose proof (filter_Permutation (fun y => GetID y <> GetID item) _ _ Ep) as Ef.
    rewrite filter_cons_False in Ef by (intros E; by apply E). rewrite Ef, filter_all; [done|].
    intros z Hz E. apply Hn. apply list_elem_of_fmap. by exists z.
Qed.
Lemma same_item_shrinks m m' x : items_ok m -> requeued [] m m' -> same_item m x -> same_item m' x.
Proof.
  intros Hm Hr Hx y Hy. apply Hx. destruct (rq_queue _ _ _ Hr y Hm Hy) as [|[?%not_elem_of_nil _]]; done.
Qed.

Lemma Mempool_Remove_requeued items m : items_ok m -> Forall (same_item m) items -> requeued [] m (Mempool_Remove items m).
Proof.
  unfold Mempool_Remove. revert m. induction items as [|x items IH]; intros m Hm Hs; cbn [foldl]; [apply requeued_refl|].
  inversion Hs as [|? ? Hx Hs']; subst. destruct (remove_item_spec x m Hm Hx) as [Hr _].
  eapply requeued_trans; [exact Hr|]. apply IH; [by apply (rq_items _ _ _ Hr)|].
  eapply list.Forall_impl; [exact Hs'|]. intros y. by apply same_item_shrinks.
Qed.

(** Taking a list of items off the queue and the counts. *)
Lemma drop_items_spec removed : forall m q', mp_queue m ≡ₚ removed ++ q' -> NoDup (GetID <$> mp_queue m) ->
  tally (mp_queue m) (owned m) (pendingSize m) -> exists q o size,
  foldl (fun m v => with_items (list_Remove (GetID v) (mp_queue m)) (mp_eh m) (removeFromOwned v (owned m))
      (i64 (pendingSize m - ItemSize v)) m) m removed = with_items q (mp_eh m) o size m /\ q ≡ₚ q' /\ tally q o size.
Proof.
  induction removed as [|v removed IH]; intros m q' E Hn Ht; cbn [foldl].
  { exists (mp_queue m), (owned m), (pendingSize m). by destruct m. }
  assert (Hv : v ∈ mp_queue m) by (rewrite E; by left). pose proof (list_Remove_perm v _ Hv Hn) as Ep.
  edestruct (IH (with_items (list_Remove (GetID v) (mp_queue m)) (mp_eh m) (removeFromOwned v (owned m))
      (i64 (pendingSize m - ItemSize v)) m) q') as (q & o & size & -> & Eq & Hq); cbn [mp_queue owned pendingSize with_items].
  - apply (Permutation_cons_inv (a := v)). by rewrite <- Ep, E.
  - rewrite Ep, fmap_cons in Hn. by apply list.NoDup_cons in Hn as [_ Hn].
  - apply tally_remove. by eapply tally_perm.
  - by exists q, o, size.
Qed.

(** [SetMinTimestamp] drops what expires before the time, and no more. *)
Lemma SetMinTimestamp_spec t m : items_ok m -> exists removed m', SetMinTimestamp t m = (removed, m') /\
  requeued [] m m' /\ mp_queue m ≡ₚ removed ++ mp_queue m' /\ Forall (fun x => GetExpiry x < t) removed /\
  Forall (fun x => t <= GetExpiry x) (mp_queue m').
Proof.
  intros Hm. pose proof (io_heap m Hm) as Hh. unfold SetMinTimestamp.
  destruct (eh_SetMin_spec t _ _ Hh) as (removed & q' & eh' & -> & E & Hq' & Hr & Hk).
  destruct (drop_items_spec removed (with_items (mp_queue m) eh' (owned m) (pendingSize m) m) q' E (eh_ok_nodup _ _ Hh)
    (io_tally m Hm)) as (q & o & size & -> & Eq & Ht).
  eexists removed, _. split; [done|]. cbn [mp_queue mp_eh with_items]. split; [split; [|done|done|]|].
  - intros _. apply (items_ok_without m removed); [done|by rewrite Eq|by apply (eh_ok_perm _ q')|done].
  - intros x _ Hx. cbn [mp_queue with_items] in Hx. left. rewrite E, <- Eq. apply elem_of_app. by right.
  - split; [by rewrite Eq|]. split; [done|]. by rewrite Eq.
Qed.

(** [Top] puts back nothing but what it took. *)
Lemma Top_loop_spec f fuel : forall round restorable0 m, items_ok m ->
  let '(restorable, _, m') := Top_loop f fuel round restorable0 m in
  requeued [] m m' /\ forall x, x ∈ restorable -> x ∈ restorable0 \/ x ∈ mp_queue m.
Proof.
  induction fuel as [|fuel IH]; intros round restorable0 m Hm; cbn [Top_loop].
  { split; [apply requeued_refl|]. by left. }
  destruct (_ =? 0)%nat; [split; [apply requeued_refl|by left]|]. pose proof (popNext_spec m Hm) as Hp.
  destruct (popNext m) as [[v|] m1]; [|destruct Hp as [-> _]; split; [apply requeued_refl|by left]].
  destruct Hp as [Eq Hr]. destruct (f round v) as [[[cont restore] fErr] late].
  set (restorable1 := if restore then _ else _).
  assert (H1 : forall x, x ∈ restorable1 -> x ∈ restorable0 \/ x ∈ mp_queue m).
  { intros x Hx. unfold restorable1 in Hx. destruct restore; [|by left]. apply elem_of_app in Hx as [|Hx]; [by left|].
    apply list_elem_of_singleton in Hx as ->. right. rewrite Eq. by left. }
  destruct (_ || _); [by split|]. specialize (IH (S round) restorable1 m1 (rq_items _ _ _ Hr Hm)).
  destruct (Top_loop f fuel (S round) restorable1 m1) as [[restorable err] m']. destruct IH as [Hr' Hin].
  split; [by eapply requeued_trans|]. intros x [Hx|Hx]%Hin; [by apply H1|]. right. rewrite Eq. by right.
Qed.

Lemma Top_requeued f m : items_ok m -> requeued [] m (snd (Top f m)).
Proof.
  intros Hm. unfold Top. pose proof (Top_loop_spec f (S (Mempool_Len m)) 0 [] m Hm) as Hl.
  destruct (Top_loop _ _ _ _ _) as [[restorable err] m']. destruct Hl as [Hr Hin]. cbn [snd].
  pose proof (add_items_requeued restorable true m') as Ha.
  pose proof (requeued_trans _ _ _ _ (requeued_weaken [] restorable _ _ ltac:(by intros x ?%not_elem_of_nil) Hr) Ha) as [I L S Q].
  split; [done..|]. intros x _ Hx. left. destruct (Q x Hm Hx) as [|[Hx' _]]; [done|].
  by destruct (Hin x Hx') as [?%not_elem_of_nil|].
Qed.

(** Its rounds are at most the items there are. *)
Lemma Top_loop_fuel f : forall fuel fuel' round restorable m, items_ok m -> (length (mp_queue m) < fuel)%nat ->
  (fuel <= fuel')%nat -> Top_loop f fuel' round restorable m = Top_loop f fuel round restorable m.
Proof.
  induction fuel as [|fuel IH]; intros fuel' round restorable m Hm Hl Hf; [lia|]. destruct fuel' as [|fuel']; [lia|].
  cbn [Top_loop]. destruct (_ =? 0)%nat; [done|]. pose proof (popNext_spec m Hm) as Hp.
  destruct (popNext m) as [[v|] m1]; [|done]. destruct Hp as [Eq Hr]. destruct (f round v) as [[[cont restore] fErr] late].
  destruct (_ || _); [done|]. rewrite Eq in Hl. cbn [length] in Hl. apply IH; [by apply (rq_items _ _ _ Hr)|lia|lia].
Qed.

(** [streamItems] takes a part off the front, and marks it. *)
Lemma stream_items_spec count : forall m, items_ok m ->
  let '(txs, m') := stream_items count m in
  mp_queue m = txs ++ mp_queue m' /\ length txs = Nat.min count (length (mp_queue m)) /\ items_ok m' /\
  (mp_maxSize m' = mp_maxSize m /\ maxSponsorSize m' = maxSponsorSize m) /\
  (nextStream m' = nextStream m /\ nextStreamFetched m' = nextStreamFetched m) /\
  (streamedItems m <> None -> streamedItems m' <> None) /\
  forall id, id ∈ streaming m' <-> id ∈ GetID <$> txs \/ id ∈ streaming m.
Proof.
  induction count as [|count IH]; intros m Hm; cbn [stream_items].
  { split_and!; try done. intros id. rewrite elem_of_nil. tauto. }
  pose proof (popNext_spec m Hm) as Hp. destruct (popNext m) as [[v|] m1].
  2: { destruct Hp as [-> Eq]. rewrite Eq. split_and!; try done. intros id. rewrite elem_of_nil. tauto. }
  destruct Hp as [Eq Hr]. set (m2 := with_stream _ _ _ m1).
  assert (Hm2 : items_ok m2) by (destruct (rq_items _ _ _ Hr Hm); by split).
  specialize (IH m2 Hm2). destruct (stream_items count m2) as [txs m'].
  destruct IH as (Eq' & Hl & Hm' & [L1 L2] & [S1 S2] & Hs & Hids). unfold m2 in Eq', Hl, L1, L2, S1, S2, Hs, Hids.
  unfold streaming in Hids.
  cbn [mp_queue mp_maxSize maxSponsorSize nextStream nextStreamFetched streamedItems with_stream default Datatypes.id] in *.
  destruct (rq_limits _ _ _ Hr) as [El1 El2]. destruct (rq_stream _ _ _ Hr) as (E1 & E2 & E3).
  split; [by rewrite Eq, Eq'|]. split; [rewrite Eq; cbn [length]; rewrite Hl; lia|]. split; [done|]. split; [split; congruence|].
  split; [split; congruence|]. split; [intros _; by apply Hs|]. intros id. rewrite Hids, E1, fmap_cons, elem_of_cons.
  rewrite elem_of_union, elem_of_singleton. unfold streaming. tauto.
Qed.
End pool.

(** ** Calls

    [fine] holds of what the callers give. *)

Section calls.
Context {T : Type} `{PoolItem T} (fine : T -> Prop).
Implicit Types (m : Mempool T) (items : list T) (out : list (list T)).

(** A call at any time, or one to stream while a stream is open; with it, the
    batches that [Stream] gave. *)
Inductive pool_step m : list (list T) -> Mempool T -> Prop :=
| step_Add items : Forall fine items -> pool_step m [] (Mempool_Add items m)
| step_PopNext : pool_step m [] (snd (popNext m))
| step_Remove items : Forall (same_item m) items -> pool_step m [] (Mempool_Remove items m)
| step_SetMinTimestamp t : pool_step m [] (snd (SetMinTimestamp t m))
| step_Top f : pool_step m [] (snd (Top f m))
| step_PrepareStream count : streamedItems m <> None -> pool_step m [] (PrepareStream count m)
| step_Stream count : streamedItems m <> None -> pool_step m [fst (Stream count m)] (snd (Stream count m)).

(** What a stream gives until some time. *)
Inductive session m : list (list T) -> Mempool T -> Prop :=
| session_start : session m [] (StartStreaming m)
| session_step out m1 batches m2 : session m out m1 -> pool_step m1 batches m2 -> session m (out ++ batches) m2.

(** The states of a mempool; a second stream waits for the first. *)
Inductive pool_reachable (maxSize maxSponsorSize : Z) : Mempool T -> Prop :=
| pool_new : pool_reachable maxSize maxSponsorSize (NewMempool maxSize maxSponsorSize)
| pool_calls m out m' : pool_reachable maxSize maxSponsorSize m -> pool_step m out m' -> pool_reachable maxSize maxSponsorSize m'
| pool_StartStreaming m : pool_reachable maxSize maxSponsorSize m -> streamedItems m = None ->
    pool_reachable maxSize maxSponsorSize (StartStreaming m)
| pool_FinishStreaming m items : pool_reachable maxSize maxSponsorSize m -> streamedItems m <> None -> Forall fine items ->
    pool_reachable maxSize maxSponsorSize (snd (FinishStreaming items m)).

Record pool_ok m : Prop := {
  po_items : items_ok m;
  po_streamed x : x ∈ mp_queue m -> GetID x ∉ streaming m;
  po_once : NoDup (GetID <$> nextStream m);
  po_next x : x ∈ nextStream m -> GetID x ∈ streaming m;
  po_unfetched : nextStreamFetched m = false -> nextStream m = [];
  po_fine x : x ∈ mp_queue m ++ nextStream m -> fine x;
}.

Lemma NewMempool_ok maxSize maxSponsorSize : 0 <= maxSize -> 0 <= maxSponsorSize -> pool_ok (NewMempool maxSize maxSponsorSize).
Proof.
  intros Hm Hs. split; cbn [NewMempool mp_queue nextStream nextStreamFetched app].
  - split; cbn; [|by split|done|done]. split; [apply NewHeap_wf|]. by split.
  - by intros x ?%not_elem_of_nil.
  - by apply list.NoDup_nil.
  - by intros x ?%not_elem_of_nil.
  - done.
  - by intros x ?%not_elem_of_nil.
Qed.

Lemma requeued_ok added m m' : requeued added m m' -> Forall fine added -> pool_ok m -> pool_ok m'.
Proof.
  rewrite list.Forall_forall. intros [I L (S1 & S2 & S3) Q] Hf [Hi Hs Ho Hn Hu Hfine].
  assert (Est : streaming m' = streaming m) by (unfold streaming; by rewrite S1).
  split; rewrite ?Est, ?S2, ?S3; [by apply I|..|done|done|done|].
  - intros x Hx. by destruct (Q x Hi Hx) as [?%Hs|[]].
  - intros x [Hx|Hx]%elem_of_app; [|apply Hfine, elem_of_app; by right].
    destruct (Q x Hi Hx) as [Hx'|[Ha _]]; [apply Hfine, elem_of_app; by left|by apply Hf].
Qed.

(** What is streamed is new to the stream, and goes into the next stream or out. *)
Lemma stream_items_ok count m txs m' : pool_ok m -> stream_items count m = (txs, m') ->
  NoDup (GetID <$> txs) /\ (forall x, x ∈ txs -> GetID x ∈ streaming m' /\ (GetID x ∉ streaming m) /\ fine x) /\
  (forall id, id ∈ streaming m -> id ∈ streaming m') /\
  forall next fetched, next = txs /\ fetched = true \/ next = [] -> pool_ok (with_stream (streamedItems m') next fetched m').
Proof.
  intros [Hi Hs _ _ _ Hf] E. pose proof (stream_items_spec count m Hi) as Hspec. rewrite E in Hspec.
  destruct Hspec as (Eq & _ & Hi' & _ & _ & _ & Hids). pose proof (eh_ok_nodup _ _ (io_heap m Hi)) as Hn.
  rewrite Eq, fmap_app in Hn. apply list.NoDup_app in Hn as (Hn1 & Hdis & Hn2).
  assert (Hfine : forall x, x ∈ txs ++ mp_queue m' -> fine x)
    by (intros x Hx; apply Hf; rewrite Eq; apply elem_of_app; by left).
  split; [done|]. split; [|split].
  - intros x Hx. split; [apply Hids; left; by apply list_elem_of_fmap_2|]. split.
    + apply Hs. rewrite Eq. apply elem_of_app. by left.
    + apply Hfine, elem_of_app. by left.
  - intros id Hid. apply Hids. by right.
  - intros next fetched Hnext. assert (Hin : forall x, x ∈ next -> x ∈ txs)
      by (intros x Hx; destruct Hnext as [[-> _]|E0]; [done|rewrite E0 in Hx; by apply not_elem_of_nil in Hx]).
    split; cbn [with_stream mp_queue nextStream nextStreamFetched].
    + by destruct Hi'; split.
    + intros x Hx [Ht|Ht]%Hids; [apply (Hdis _ Ht); by apply list_elem_of_fmap_2|].
      apply (Hs x); [|done]. rewrite Eq. apply elem_of_app. by right.
    + destruct Hnext as [[-> _]|E0]; [done|]. rewrite E0. by apply list.NoDup_nil.
    + intros x Hx. apply Hids. left. by apply list_elem_of_fmap_2, Hin.
    + intros Ef. destruct Hnext as [[_ E0]|]; [congruence|done].
    + intros x [Hx|Hx]%elem_of_app; apply Hfine, elem_of_app; [by right|left; by apply Hin].
Qed.

(** What a stream has given, and what it would give next. *)
Record streamed_ok out m : Prop := {
  so_pool : pool_ok m;
  so_open : streamedItems m <> None;
  so_once : NoDup (GetID <$> concat out ++ nextStream m);
  so_marked x : x ∈ concat out -> GetID x ∈ streaming m /\ fine x;
}.

Lemma requeued_streamed added out m m' : requeued added m m' -> Forall fine added -> streamed_ok out m -> streamed_ok out m'.
Proof.
  intros Hr Hf [Hp Ho Hn Hm]. destruct (rq_stream _ _ _ Hr) as (S1 & S2 & _).
  split; [by apply (requeued_ok added m)|by rewrite S1|by rewrite S2|]. unfold streaming. by rewrite S1.
Qed.

(** The calls that leave the stream alone. *)
Lemma pool_step_cases m batches m' : items_ok m -> pool_step m batches m' ->
  batches = [] /\ (exists added, requeued added m m' /\ Forall fine added) \/
  streamedItems m <> None /\ exists count,
    batches = [] /\ m' = PrepareStream count m \/ batches = [fst (Stream count m)] /\ m' = snd (Stream count m).
Proof.
  intros Hi [items Hf| |items Hs|t|f|count Ho|count Ho].
  - left. split; [done|]. exists items. by split; [apply add_items_requeued|].
  - left. split; [done|]. exists []. split; [|done]. pose proof (popNext_spec m Hi) as Hp.
    destruct (popNext m) as [[v|] m1]; cbn [snd]; [by destruct Hp|]. destruct Hp as [-> _]. apply requeued_refl.
  - left. split; [done|]. exists []. by split; [apply Mempool_Remove_requeued|].
  - left. split; [done|]. exists []. split; [|done]. by destruct (SetMinTimestamp_spec t m Hi) as (? & ? & -> & ? & _).
  - left. split; [done|]. exists []. by split; [apply Top_requeued|].
  - right. split; [done|]. exists count. by left.
  - right. split; [done|]. exists count. by right.
Qed.

(** The stream's own calls keep what a stream gave apart. *)
Lemma stream_next_ok count out m txs m' next : streamed_ok out m -> stream_items count m = (txs, m') ->
  let m2 fetched := with_stream (streamedItems m') next fetched m' in
  (next = txs -> streamed_ok out (m2 true)) /\ (next = [] -> streamed_ok (out ++ [txs]) (m2 false)).
Proof.
  intros [Hp Ho Hn Hm] E m2. destruct (stream_items_ok count m txs m' Hp E) as (Hnt & Htx & Hk & Hok).
  pose proof (stream_items_spec count m (po_items m Hp)) as Hspec. rewrite E in Hspec.
  destruct Hspec as (_ & _ & _ & _ & _ & Hopen & _). rewrite fmap_app in Hn. apply list.NoDup_app in Hn as (Hn1 & _ & _).
  assert (Hn' : NoDup (GetID <$> concat out ++ txs)).
  { rewrite fmap_app. apply list.NoDup_app. split; [done|]. split; [|done].
    intros i (x & -> & Hx)%list_elem_of_fmap (y & Ey & Hy)%list_elem_of_fmap.
    destruct (Htx y Hy) as (_ & Hny & _). apply Hny. rewrite <- Ey. by apply Hm. }
  assert (Hm' : forall x, x ∈ concat out -> GetID x ∈ streaming m' /\ fine x)
    by (intros x Hx; destruct (Hm x Hx); by split; [apply Hk|]).
  split; intros ->; split; cbn [m2 with_stream streamedItems nextStream]; try (by apply Hopen).
  - apply Hok. by left.
  - done.
  - exact Hm'.
  - apply Hok. by right.
  - rewrite concat_app, app_nil_r. cbn [concat]. by rewrite app_nil_r.
  - intros x Hx. rewrite concat_app in Hx. cbn [concat] in Hx. rewrite app_nil_r in Hx.
    apply elem_of_app in Hx as [Hx|Hx]; [by apply Hm'|]. by destruct (Htx x Hx) as (? & _ & ?).
Qed.

Lemma streamed_step out m batches m' : streamed_ok out m -> pool_step m batches m' -> streamed_ok (out ++ batches) m'.
Proof.
  intros Hs Hst. pose proof (so_pool _ _ Hs) as Hp.
  destruct (pool_step_cases m batches m' (po_items m Hp) Hst)
    as [[-> (added & Hr & Hf)]|[_ (count & [[-> ->]|[-> ->]])]]; rewrite ?app_nil_r.
  - by apply (requeued_streamed added _ m).
  - unfold PrepareStream. destruct (stream_items count m) as [txs m1] eqn:E.
    by apply (stream_next_ok count out m txs m1 txs Hs E).
  - unfold Stream. destruct (nextStreamFetched m) eqn:Ef; cbn [fst snd].
    + destruct Hs as [[Hi Hns Hno Hnx Hu Hfine] Ho Hn Hm].
      assert (Hpool : pool_ok (with_stream (streamedItems m) [] false m)).
      { split; cbn [with_stream mp_queue nextStream]; [by destruct Hi; split|done|by apply list.NoDup_nil
          |by intros x ?%not_elem_of_nil|done|].
        intros x Hx. rewrite app_nil_r in Hx. apply Hfine, elem_of_app. by left. }
      split; cbn [with_stream streamedItems nextStream]; rewrite ?concat_app; cbn [concat]; rewrite ?app_nil_r; [done|done|done|].
      intros x [Hx|Hx]%elem_of_app; [by apply Hm|]. split; [by apply Hnx|]. apply Hfine, elem_of_app. by right.
    + destruct (stream_items count m) as [txs m1] eqn:E. cbn [fst snd].
      pose proof (proj2 (stream_next_ok count out m txs m1 [] Hs E) eq_refl) as Hok.
      pose proof (stream_items_spec count m (po_items m Hp)) as Hspec. rewrite E in Hspec.
      destruct Hspec as (_ & _ & _ & _ & [S1 S2] & _). rewrite (po_unfetched m Hp Ef) in S1. rewrite Ef in S2.
      destruct m1. cbn in S1, S2. subst. exact Hok.
Qed.

Lemma StartStreaming_ok m : pool_ok m -> streamedItems m = None -> streamed_ok [] (StartStreaming m).
Proof.
  intros [Hi Hs Ho Hn Hu Hf] E. assert (Hnil : nextStream m = []).
  { destruct (nextStream m) as [|x l]; [done|]. specialize (Hn x ltac:(by left)). unfold streaming in Hn. rewrite E in Hn.
    by apply not_elem_of_empty in Hn. }
  rewrite Hnil in *.
  assert (Hp : pool_ok (StartStreaming m)).
  { split; cbn [StartStreaming with_stream mp_queue nextStream nextStreamFetched]; rewrite ?Hnil;
      [by destruct Hi; split|by intros x _ ?%not_elem_of_empty|by apply list.NoDup_nil|by intros x ?%not_elem_of_nil|done|done]. }
  split; [done|done| |by intros x ?%not_elem_of_nil]. cbn [StartStreaming with_stream nextStream concat app]. rewrite Hnil.
  by apply list.NoDup_nil.
Qed.

Lemma FinishStreaming_ok items m : pool_ok m -> Forall fine items -> pool_ok (snd (FinishStreaming items m)).
Proof.
  intros [Hi Hs Ho Hn Hu Hf] Hitems. unfold FinishStreaming.
  set (m1 := with_stream None (nextStream m) (nextStreamFetched m) m).
  assert (Hi1 : items_ok m1) by (by destruct Hi; split).
  pose proof (add_items_requeued items true m1) as R1. set (m2 := add_items items true m1) in *.
  destruct (rq_stream _ _ _ R1) as (S1 & S2 & S3). cbn [m1 with_stream streamedItems nextStream nextStreamFetched] in S1, S2, S3.
  assert (Hq : forall m' added, requeued added m1 m' -> Forall fine added -> forall x, x ∈ mp_queue m' -> fine x).
  { intros m' added R Ha x Hx. rewrite list.Forall_forall in Ha. destruct (rq_queue _ _ _ R x Hi1 Hx) as [Hx'|[Hx' _]]; [|by apply Ha].
    apply Hf, elem_of_app. by left. }
  assert (Hnext : Forall fine (nextStream m)) by (apply list.Forall_forall; intros x Hx; apply Hf, elem_of_app; by right).
  rewrite S3. destruct (nextStreamFetched m) eqn:Ef; cbn [snd].
  - pose proof (add_items_requeued (nextStream m2) true m2) as R2. rewrite S2 in R2 |- *.
    assert (R : requeued (items ++ nextStream m) m1 (add_items (nextStream m) true m2)).
    { eapply requeued_trans; (eapply requeued_weaken; [|eassumption]); intros x Hx; apply elem_of_app; [by left|by right]. }
    split; cbn [with_stream mp_queue nextStream]; rewrite ?app_nil_r; unfold streaming; cbn [with_stream streamedItems];
      rewrite ?S1; [|by intros x _ ?%not_elem_of_empty|by apply list.NoDup_nil|by intros x ?%not_elem_of_nil|done|].
    + pose proof (rq_items _ _ _ R Hi1) as []. by split.
    + apply (Hq _ _ R). by apply list.Forall_app.
  - rewrite (Hu eq_refl) in S2. unfold streaming.
    split; rewrite ?S2; unfold streaming; rewrite ?S1, ?app_nil_r; [by apply (rq_items _ _ _ R1)|by intros x _ ?%not_elem_of_empty
      |by apply list.NoDup_nil|by intros x ?%not_elem_of_nil|done|by apply (Hq _ _ R1)].
Qed.
(** Along the calls the limits stay, and everything is in order. *)
Lemma pool_step_limits m batches m' : items_ok m -> pool_step m batches m' ->
  mp_maxSize m' = mp_maxSize m /\ maxSponsorSize m' = maxSponsorSize m.
Proof.
  intros Hi Hst. destruct (pool_step_cases m batches m' Hi Hst) as [[_ (added & Hr & _)]|[_ (count & [[_ ->]|[_ ->]])]];
    [by apply (rq_limits _ _ _ Hr)|..]; pose proof (stream_items_spec count m Hi) as Hspec.
  - unfold PrepareStream. destruct (stream_items count m) as [txs m1]. apply Hspec.
  - unfold Stream. destruct (nextStreamFetched m); [done|]. destruct (stream_items count m) as [txs m1]. apply Hspec.
Qed.

Lemma FinishStreaming_limits items m : mp_maxSize (snd (FinishStreaming items m)) = mp_maxSize m /\
  maxSponsorSize (snd (FinishStreaming items m)) = maxSponsorSize m.
Proof.
  unfold FinishStreaming. set (m1 := with_stream None (nextStream m) (nextStreamFetched m) m).
  pose proof (rq_limits _ _ _ (add_items_requeued items true m1)) as [E1 E2]. set (m2 := add_items items true m1) in *.
  change (mp_maxSize m1) with (mp_maxSize m) in E1. change (maxSponsorSize m1) with (maxSponsorSize m) in E2.
  destruct (nextStreamFetched m2); cbn [snd]; [|done].
  pose proof (rq_limits _ _ _ (add_items_requeued (nextStream m2) true m2)) as [E3 E4].
  split; [exact (eq_trans E3 E1)|exact (eq_trans E4 E2)].
Qed.

(** Outside a stream nothing is in the way of a step being one of a stream. *)
Lemma pool_step_ok m batches m' : pool_ok m -> pool_step m batches m' -> pool_ok m'.
Proof.
  intros Hp Hst. destruct (pool_step_cases m batches m' (po_items m Hp) Hst) as [[_ (added & Hr & Hf)]|[Ho Hc]].
  - by apply (requeued_ok added m).
  - assert (Hs : forall out, NoDup (GetID <$> concat out ++ nextStream m) -> out = [] -> streamed_ok out m)
      by (intros out Hn ->; split; [done|done|done|by intros x ?%not_elem_of_nil]).
    apply (so_pool batches). apply (streamed_step [] m batches); [|done]. apply Hs; [|done]. apply (po_once m Hp).
Qed.

Lemma pool_reachable_ok size perSponsor m : 0 <= size -> 0 <= perSponsor -> pool_reachable size perSponsor m ->
  pool_ok m /\ mp_maxSize m = size /\ maxSponsorSize m = perSponsor.
Proof.
  intros Hm Hs Hr. induction Hr as [|m out m' _ (Hp & <- & <-) Hst|m _ (Hp & <- & <-) E|m items _ (Hp & <- & <-) Ho Hf].
  - split; [by apply NewMempool_ok|done].
  - split; [by eapply pool_step_ok|]. by apply (pool_step_limits m out m' (po_items m Hp)).
  - split; [|done]. by apply (so_pool [] _), StartStreaming_ok.
  - split; [by apply FinishStreaming_ok|apply FinishStreaming_limits].
Qed.

Lemma session_ok m out m' : pool_ok m -> streamedItems m = None -> session m out m' -> streamed_ok out m'.
Proof.
  intros Hp E Hs. induction Hs as [|out m1 batches m2 _ IH Hst]; [by apply StartStreaming_ok|]. by eapply streamed_step.
Qed.
End calls.

(** C20: the mempool's accounts are right.  However calls to add, remove, drop
    expired items, look at the top and stream come after each other, no item
    is queued twice, the heap has just the queued ones, their number and each
    sponsor's keep the limits, and the count kept for a sponsor is how many
    of its items are queued, the size the sum of the sizes; nothing that is
    streamed is queued, and [SetMinTimestamp] drops exactly what is queued
    with an earlier expiry. *)
Theorem mempool_accounts {T} `{PoolItem T} (fine : T -> Prop) size perSponsor (m : Mempool T) :
  0 <= size -> 0 <= perSponsor -> pool_reachable fine size perSponsor m ->
  NoDup (map GetID (mp_queue m)) /\ Mempool_Len m = length (mp_queue m) /\ Z.of_nat (length (mp_queue m)) <= size /\
  (forall id, Mempool_Has id m = true <-> exists x, x ∈ mp_queue m /\ GetID x = id) /\
  (forall s, default 0 (owned m !! s) = sponsored s (mp_queue m) /\ sponsored s (mp_queue m) <= perSponsor) /\
  pendingSize m = i64 (total_size (mp_queue m)) /\
  (forall x, x ∈ mp_queue m -> GetID x ∉ default ∅ (streamedItems m)) /\
  (forall t, fst (SetMinTimestamp t m) ≡ₚ filter (fun x => GetExpiry x < t) (mp_queue m) /\
    mp_queue (snd (SetMinTimestamp t m)) ≡ₚ filter (fun x => t <= GetExpiry x) (mp_queue m)).
Proof.
  intros Hm Hs Hr. destruct (pool_reachable_ok fine _ _ m Hm Hs Hr) as ([Hi Hst _ _ _ _] & <- & <-).
  pose proof (io_heap m Hi) as Hh. split; [exact (eh_ok_nodup _ _ Hh)|]. split; [exact (eh_ok_Len _ _ Hh)|].
  split; [apply (io_max m Hi)|]. split; [|split; [|split; [apply (io_tally m Hi)|split; [exact Hst|]]]].
  - intros id. unfold Mempool_Has. rewrite (eh_ok_Has _ _ id Hh), list_elem_of_fmap. split; intros (x & A & B); by exists x.
  - intros s. split; [by apply (sponsored_default s _ _ _ (io_tally m Hi))|apply (io_sponsor m Hi)].
  - intros t. destruct (SetMinTimestamp_spec t m Hi) as (removed & m' & -> & _ & E & Hlt & Hge). cbn [fst snd].
    rewrite list.Forall_forall in Hlt, Hge. split; rewrite E, list.filter_app.
    + rewrite filter_all by done. rewrite (filter_none _ (mp_queue m')), app_nil_r; [done|]. intros x Hx. specialize (Hge x Hx). lia.
    + rewrite (filter_all _ (mp_queue m')) by done. rewrite filter_none; [done|]. intros x Hx. specialize (Hlt x Hx). lia.
Qed.

(** ** A mempool of transactions *)

#[local] Existing Instance some_crypto.

(** With its default limits: a transaction that comes twice and another one,
    then a stream of which the next item is prepared. *)
Definition demo_pool : Mempool GeneratedTx :=
  Mempool_Add [demo_signed 1000; demo_signed 10000; demo_signed 1000] (NewMempool 2048 32).

Definition demo_streaming : Mempool GeneratedTx := PrepareStream 1 (StartStreaming demo_pool).

Lemma demo_pool_reachable (fine : GeneratedTx -> Prop) : fine (demo_signed 1000) -> fine (demo_signed 10000) ->
  pool_reachable fine 2048 32 demo_pool.
Proof.
  intros H1 H2. apply (pool_calls _ _ _ (NewMempool 2048 32) []); [constructor|]. apply step_Add. by repeat constructor.
Qed.

Lemma mempool_accounts_witness : pool_reachable (fun _ => True) 2048 32 demo_streaming /\
  map st_id (mp_queue demo_streaming) = [st_id (demo_signed 10000)] /\
  default 0 (owned demo_streaming !! alice) = sponsored alice (mp_queue demo_streaming) /\
  sponsored alice (mp_queue demo_streaming) = 1 /\ Mempool_Has (st_id (demo_signed 1000)) demo_streaming = false.
Proof.
  assert (Hr : pool_reachable (fun _ => True) 2048 32 demo_streaming).
  { apply (pool_calls _ _ _ (StartStreaming demo_pool) []).
    - apply pool_StartStreaming; [by apply demo_pool_reachable|reflexivity].
    - by apply step_PrepareStream. }
  destruct (mempool_accounts (fun _ => True) 2048 32 demo_streaming) as (_ & _ & _ & _ & Hs & _); [lia|lia|exact Hr|].
  split; [exact Hr|]. split; [vm_compute; reflexivity|]. split; [apply Hs|]. split; vm_compute; reflexivity.
Defined.

(** What a stream took may find no place when it comes back: it is dropped,
    and counted as restored. *)
Example restored_is_dropped :
  let m := Mempool_Add [demo_signed 1000] (NewMempool 1 32) in
  let '(batch, m) := Stream 1 (StartStreaming m) in
  let '(restored, m) := FinishStreaming batch (Mempool_Add [demo_signed 10000] m) in
  (restored, Mempool_Has (st_id (demo_signed 1000)) m) = (1%nat, false).
Proof. vm_compute. reflexivity. Qed.
