(* ===== verification/PoolBuilder.v ===== *)
(** * A node builds from its mempool

    What a session on a mempool streams is what building asks for
    ([session_streamed]), so that mempool, builder, processor and replay
    protection fit together. *)

From S2P Require Import Prelude GoErrors Lib Rules Consts Permissions TState Balances Vm Transaction Wire Fees FeeManager Generate Processor Examples ChainCorrect LoadCorrect ProcessorCorrect Heap EMap ValidityWindow Replay ReplayCorrect Builder BuilderCorrect Mempool MempoolCorrect.
#[local] Open Scope Z_scope.

(** What the node lets into its mempool: transactions of the program, with the
    expiry that goes with their identifier. *)
Definition pool_tx `{Hashing} (expiry_of : bytes -> Z) (tx : GeneratedTx) : Prop :=
  wf_tx tx /\ GetExpiry tx = expiry_of (GetID tx).

Lemma session_streamed `{Hashing} expiry_of size perSponsor pool pool' batches :
  0 <= size -> 0 <= perSponsor -> pool_reachable (pool_tx expiry_of) size perSponsor pool -> streamedItems pool = None ->
  session (pool_tx expiry_of) pool (map fst batches) pool' -> Forall (fun b => NoDup b.2) batches ->
  streamed batches /\ forall tx, tx ∈ concat (map fst batches) -> GetExpiry tx = expiry_of (GetID tx).
Proof.
  intros Hsize Hper Hr Hidle Hs Horder.
  pose proof (pool_reachable_ok _ _ _ _ Hsize Hper Hr) as (Hp & _).
  destruct (session_ok _ _ _ _ Hp Hidle Hs) as [_ _ Hn Hm].
  rewrite list.Forall_forall in Horder. rewrite fmap_app in Hn. apply list.NoDup_app in Hn as (Hn & _ & _).
  split; [|intros tx Htx; by apply Hm]. split; [|exact Hn].
  apply list.Forall_forall. intros b Hb. split; [|by apply Horder]. apply list.Forall_forall. intros tx Htx.
  apply Hm, list_elem_of_In, in_concat. exists b.1. split; [|by apply list_elem_of_In].
  by apply list_elem_of_In, list_elem_of_fmap_2.
Qed.

(** C19: what is built is accepted.  Let a node build a block on one it knows,
    from what its mempool streams between other calls, with repeats of older
    blocks, expired and invalid transactions in it, and in whatever order a
    batch runs: if it succeeds, then every check of the block passes at any
    node with that block as the parent, and the state, the results, the
    prices and the units there are those of the builder. *)
Theorem built_block_accepted `{Hashing} {R} `{ChainRules R} `{AuthMethods R} ID_String m (r : R) expiry_of
    toID fuel n p c limit nextTime root viewErr size perSponsor pool pool' batches b out back now :
  wf_chain r -> NoDup (metadata_keys m) -> 0 < GetMinBlockGap r < 2 ^ 62 -> 0 <= GetMinEmptyBlockGap r < 2 ^ 62 ->
  0 <= GetValidityWindow r < 2 ^ 62 -> reachable ID_String m r expiry_of n -> p :: c ∈ nd_accepted n :: nd_branches n ->
  (length c < fuel)%nat -> Hght (sb_Block (pr_Block p)) + 1 < two64 -> nextTime < 2 ^ 62 -> nextTime <= now + 1000 ->
  0 <= size -> 0 <= perSponsor -> pool_reachable (pool_tx expiry_of) size perSponsor pool -> streamedItems pool = None ->
  session (pool_tx expiry_of) pool (map fst batches) pool' -> Forall (fun b => NoDup b.2) batches ->
  build_block ID_String m r toID fuel n limit nextTime root viewErr p batches = Returns (Ok (b, out), back) ->
  exists out', verify_block ID_String m r fuel n now (Ok tt) (Ok tt) root p b = Some (Returns (Ok out')) /\
    same_output out out'.
Proof.
  intros Hr Hm Hgap Hempty HW Hn Hc Hfuel Hh Htime Hnow Hsize Hper Hpool Hidle Hs Horder E.
  destruct (session_streamed _ _ _ _ _ _ Hsize Hper Hpool Hidle Hs Horder) as [Hst Hex].
  by apply (built_accepted ID_String m r expiry_of toID fuel n p c limit nextTime root viewErr batches b out back now).
Qed.

(** ** A build *)

#[local] Existing Instance some_crypto.
#[local] Existing Instance keys_sign.
#[local] Existing Instance ED25519_AuthMethods.

Lemma demo_pool_tx time : time = 1000 \/ time = 10000 -> pool_tx demo_expiry (demo_signed time).
Proof. intros Ht. split; [by apply demo_signed_wf|]. by destruct Ht as [-> | ->]; vm_compute. Qed.

(** Whether an item would be added. *)
Definition addable (item : GeneratedTx) (m : Mempool GeneratedTx) : bool :=
  negb (bool_decide (GetID item ∈ streaming m)) && negb (Has (GetID item) (mp_eh m)) &&
  negb (default 0 (owned m !! GetSponsor item) =? maxSponsorSize m) &&
  negb (Z.of_nat (length (mp_queue m)) =? mp_maxSize m).

Lemma add_item_queue item m : mp_queue (add_item false item m) = mp_queue m ++ (if addable item m then [item] else []).
Proof.
  unfold add_item, addable, streaming. cbv zeta. destruct (bool_decide _); cbn [negb andb]; [by rewrite app_nil_r|].
  destruct (Has _ _); cbn [negb andb]; [by rewrite app_nil_r|]. destruct (_ =? _); cbn [negb andb]; [by rewrite app_nil_r|].
  destruct (_ =? _); cbn [negb]; [by rewrite app_nil_r|]. done.
Qed.

Lemma demo_pool_queue : mp_queue demo_pool = [demo_signed 1000; demo_signed 10000].
Proof.
  set (m0 := NewMempool 2048 32 : Mempool GeneratedTx).
  set (m1 := add_item false (demo_signed 1000) m0). set (m2 := add_item false (demo_signed 10000) m1).
  change demo_pool with (add_item false (demo_signed 1000) m2). rewrite add_item_queue.
  assert (addable (demo_signed 1000) m2 = false) as -> by (vm_compute; reflexivity). unfold m2. rewrite add_item_queue.
  assert (addable (demo_signed 10000) m1 = true) as -> by (vm_compute; reflexivity). unfold m1. rewrite add_item_queue.
  assert (addable (demo_signed 1000) m0 = true) as -> by (vm_compute; reflexivity). reflexivity.
Qed.

Lemma demo_pool_ok : pool_ok (pool_tx demo_expiry) demo_pool.
Proof.
  apply (pool_reachable_ok _ 2048 32); [lia|lia|]. apply demo_pool_reachable; apply demo_pool_tx; [by left|by right].
Qed.

Lemma demo_session : session (pool_tx demo_expiry) demo_pool (map fst demo_batches) (snd (Stream 256 (StartStreaming demo_pool))).
Proof.
  assert (map fst demo_batches = [] ++ [fst (Stream 256 (StartStreaming demo_pool))]) as ->.
  { pose proof (stream_items_spec 256 (StartStreaming demo_pool)) as Hs. unfold Stream.
    assert (nextStreamFetched (StartStreaming demo_pool) = false) as -> by (vm_compute; reflexivity).
    destruct (stream_items 256 (StartStreaming demo_pool)) as [txs m']. cbn [fst app].
    destruct Hs as (Eq & Hl & _); [destruct (po_items _ _ demo_pool_ok); by split|].
    change (mp_queue (StartStreaming demo_pool)) with (mp_queue demo_pool) in Eq, Hl. rewrite demo_pool_queue in Eq, Hl.
    destruct txs as [|t1 [|t2 [|t3 txs]]]; [done|done| |done]. injection Eq as <- <- _. reflexivity. }
  apply session_step with (StartStreaming demo_pool); [constructor|]. by apply step_Stream.
Qed.

Lemma built_block_accepted_witness : exists out b out1 back, demo_verify = Some (Returns (Ok out)) /\
  demo_build out = Returns (Ok (b, out1), back) /\ map st_id (Txs (sb_Block b)) = [st_id (demo_signed 10000)] /\
  exists out2, verify_block demo_ID_String NewDefaultManager NewDefaultRules 2 (demo_accepted_node out) 1000 (Ok tt) (Ok tt)
    (Ok (make_bytes 32)) (demo_top out) b = Some (Returns (Ok out2)) /\ same_output out1 out2.
Proof.
  destruct demo_built as (out & Ev & Eb). unfold demo_build_ok in Eb.
  destruct (demo_build out) as [[[[b out1]|] back]|] eqn:E; [|done..]. apply bool_decide_eq_true in Eb.
  exists out, b, out1, back. split; [done|]. split; [done|]. split; [done|].
  apply (built_block_accepted demo_ID_String NewDefaultManager NewDefaultRules demo_expiry (fun _ _ => [2]) 2
    (demo_accepted_node out) (demo_top out) [demo_genesis] 10000 900 (Ok (make_bytes 32)) None 2048 32 demo_pool
    (snd (Stream 256 (StartStreaming demo_pool))) demo_batches b out1 back 1000);
    [apply demo_chain_wf|apply default_metadata_distinct|by split; vm_compute|by split; vm_compute|by split; vm_compute
    |by apply demo_reachable|left|cbn; lia|by vm_compute|by vm_compute|by vm_compute|lia|lia
    |apply demo_pool_reachable; apply demo_pool_tx; [by left|by right]|reflexivity|apply demo_session
    |apply list.Forall_singleton; by apply list.NoDup_singleton|exact E].
Defined.
